(** * CVEMaps: association extraction and graph projections

    A shallow embedding of the CVEMaps build scripts
    ([scripts/build_graph.py], [scripts/build_alternative_graphs.py],
    [scripts/build_extended_graphs.py], [scripts/build_analytical_graphs.py]
    and [build_compact_graphs.py]) together with the properties of the
    association aggregator and of the graph projections.

    Conventions of the embedding.
    - A Python [dict] is an association list in insertion order ([Py.dict]);
      updating a key keeps its position, a new key goes to the end.
    - A Python [set] is a duplicate-free list ([Py.pyset]); the order of the
      list stands for the iteration order of the set, with a new element
      last.  Python fixes no such order: the properties below are stated on
      membership and on lookups, which do not depend on it.
    - Python integers are [Z].
    - Strings are [string]; the case and whitespace functions are those of
      Python on ASCII text and leave every other byte unchanged.
    - An exception is a [Raise] result, handled where the source handles
      it.
    - A raw CVE document is a record with optional fields, typed as in the
      CVE JSON 5 schema.  The directory walk and the JSON reader are outside
      the embedding: a corpus is the list of documents in the order the walk
      yields them.
    - A [networkx] graph is its node dictionary and the list of its
      undirected edges with their attribute dictionaries. *)

From Stdlib Require Import List String Ascii ZArith NArith Lia Bool Arith
  Permutation Sorted RelationClasses.
From Stdlib Require OrdersEx.
From Stdlib Require Floats.PrimFloat.
Import ListNotations.

Local Open Scope string_scope.
Local Open Scope list_scope.
Local Open Scope Z_scope.

(* ================================================================== *)
(** * Python values: dictionaries, sets, strings *)
(* ================================================================== *)

Module Py.

(** Keys of dictionaries and elements of sets: a decidable equality. *)
Class Hashable (K : Type) := {
  keqb : K -> K -> bool;
  keqb_spec : forall x y, keqb x y = true <-> x = y
}.

#[export] Instance Hashable_string : Hashable string :=
  {| keqb := String.eqb; keqb_spec := String.eqb_eq |}.

Definition pair_eqb {A B} `{Hashable A} `{Hashable B} (p q : A * B) : bool :=
  keqb (fst p) (fst q) && keqb (snd p) (snd q).

Lemma pair_eqb_spec {A B} `{Hashable A} `{Hashable B} (p q : A * B) :
  pair_eqb p q = true <-> p = q.
Proof.
  destruct p as [a b], q as [c d]; unfold pair_eqb; simpl.
  rewrite andb_true_iff, !keqb_spec. split.
  - intros [-> ->]; reflexivity.
  - intros E; inversion E; auto.
Qed.

#[export] Instance Hashable_pair {A B} `{Hashable A} `{Hashable B} :
  Hashable (A * B) :=
  {| keqb := pair_eqb; keqb_spec := pair_eqb_spec |}.

(** ** dict *)

Definition dict (K V : Type) := list (K * V).

Section Dict.
Context {K V : Type} `{Hashable K}.

Fixpoint dict_get (k : K) (d : dict K V) : option V :=
  match d with
  | [] => None
  | (k', v) :: r => if keqb k k' then Some v else dict_get k r
  end.

(** [d.get(k, dflt)] *)
Definition dict_get_default (k : K) (dflt : V) (d : dict K V) : V :=
  match dict_get k d with Some v => v | None => dflt end.

(** [k in d] *)
Definition dict_contains (k : K) (d : dict K V) : bool :=
  match dict_get k d with Some _ => true | None => false end.

(** [d[k] = v] *)
Fixpoint dict_set (k : K) (v : V) (d : dict K V) : dict K V :=
  match d with
  | [] => [(k, v)]
  | (k', v') :: r =>
      if keqb k k' then (k', v) :: r else (k', v') :: dict_set k v r
  end.

(** [d.update(new)] *)
Definition dict_update (d new : dict K V) : dict K V :=
  fold_left (fun acc kv => dict_set (fst kv) (snd kv) acc) new d.

Definition dict_keys (d : dict K V) : list K := map fst d.
End Dict.

(** [d[k] += 1] on a [defaultdict(int)] *)
Definition dict_incr {K} `{Hashable K} (k : K) (d : dict K Z) : dict K Z :=
  dict_set k (dict_get_default k 0 d + 1) d.

(** ** set *)

Definition pyset (A : Type) := list A.

Section Set_.
Context {A : Type} `{Hashable A}.

Definition set_mem (x : A) (s : pyset A) : bool := existsb (keqb x) s.

(** [s.add(x)] *)
Definition set_add (x : A) (s : pyset A) : pyset A :=
  if set_mem x s then s else s ++ [x].

(** [s.update(t)] *)
Definition set_update (s t : pyset A) : pyset A :=
  fold_left (fun acc x => set_add x acc) t s.

(** [s & t] *)
Definition set_inter (s t : pyset A) : pyset A :=
  filter (fun x => set_mem x t) s.
End Set_.

(** ** Truthiness and [or] on optional strings *)

Definition nonempty (s : string) : bool :=
  match s with EmptyString => false | String _ _ => true end.

(** Truth value of the result of [d.get(key)] when the field is a string. *)
Definition truthy (o : option string) : bool :=
  match o with Some s => nonempty s | None => false end.

(** [a or b] *)
Definition py_or (a b : option string) : option string :=
  if truthy a then a else b.

(** [s.startswith(p)] *)
Definition startswith (p s : string) : bool := String.prefix p s.

(** ** Case and whitespace functions of [str], on ASCII *)

Definition is_upper (c : ascii) : bool :=
  let n := N_of_ascii c in (65 <=? n)%N && (n <=? 90)%N.

Definition is_lower (c : ascii) : bool :=
  let n := N_of_ascii c in (97 <=? n)%N && (n <=? 122)%N.

Definition is_cased (c : ascii) : bool := is_upper c || is_lower c.

Definition lower_char (c : ascii) : ascii :=
  if is_upper c then ascii_of_N (N_of_ascii c + 32) else c.

Definition upper_char (c : ascii) : ascii :=
  if is_lower c then ascii_of_N (N_of_ascii c - 32) else c.

(** The characters [str.strip()] removes: tab, line feed, vertical tab, form
    feed, carriage return, the four separators 0x1c-0x1f and the space. *)
Definition is_space (c : ascii) : bool :=
  let n := N_of_ascii c in
  ((9 <=? n)%N && (n <=? 13)%N) || ((28 <=? n)%N && (n <=? 32)%N).

Fixpoint string_map (f : ascii -> ascii) (s : string) : string :=
  match s with
  | EmptyString => EmptyString
  | String c r => String (f c) (string_map f r)
  end.

(** [s.lower()] *)
Definition lower (s : string) : string := string_map lower_char s.

(** [s.replace(a, b)] for single characters [a] and [b]. *)
Definition replace_char (a b : ascii) (s : string) : string :=
  string_map (fun c => if Ascii.eqb c a then b else c) s.

(** [s.replace(a, t)] for a single character [a] and a string [t]. *)
Fixpoint replace_char_by (a : ascii) (t : string) (s : string) : string :=
  match s with
  | EmptyString => EmptyString
  | String c r =>
      if Ascii.eqb c a then String.append t (replace_char_by a t r)
      else String c (replace_char_by a t r)
  end.

(** [s.title()]: a cased character is upper-cased when the character before
    it is not cased, lower-cased otherwise. *)
Fixpoint title_from (previous_is_cased : bool) (s : string) : string :=
  match s with
  | EmptyString => EmptyString
  | String c r =>
      String (if previous_is_cased then lower_char c else upper_char c)
             (title_from (is_cased c) r)
  end.

Definition title (s : string) : string := title_from false s.

Fixpoint lstrip (s : string) : string :=
  match s with
  | EmptyString => EmptyString
  | String c r => if is_space c then lstrip r else s
  end.

Fixpoint rstrip (s : string) : string :=
  match s with
  | EmptyString => EmptyString
  | String c r =>
      match rstrip r with
      | EmptyString => if is_space c then EmptyString else String c EmptyString
      | r' => String c r'
      end
  end.

(** [s.strip()] *)
Definition strip (s : string) : string := rstrip (lstrip s).

(** ** [sorted], [combinations] and slices *)

Section Sorting.
Context {A : Type} (le : A -> A -> bool).

(** Insertion after the elements that are not greater: the sort is stable,
    as Python's is. *)
Fixpoint insert_sorted (x : A) (l : list A) : list A :=
  match l with
  | [] => [x]
  | y :: r => if le y x then y :: insert_sorted x r else x :: y :: r
  end.

Definition sorted (l : list A) : list A :=
  fold_right insert_sorted [] (rev l).
End Sorting.

(** [sorted(s)] on strings: code point order. *)
Definition sorted_strings (l : list string) : list string :=
  sorted String.leb l.

(** [itertools.combinations(l, 2)] *)
Fixpoint combinations2 {A : Type} (l : list A) : list (A * A) :=
  match l with
  | [] => []
  | x :: r => map (fun y => (x, y)) r ++ combinations2 r
  end.

(** [l[:n]] for any Python integer [n]: a negative [n] counts from the end. *)
Definition slice_to {A : Type} (n : Z) (l : list A) : list A :=
  if n <? 0 then firstn (List.length l - Z.to_nat (- n))%nat l
  else firstn (Z.to_nat n) l.

(** [l[i+1:]] for an index [i] of [l]. *)
Definition slice_from {A : Type} (i : nat) (l : list A) : list A := skipn i l.

End Py.

Import Py.

(* ================================================================== *)
(** * Exceptions and [datetime] *)
(* ================================================================== *)

Inductive exn := ValueError | AttributeError | TypeError.

(** The outcome of a Python expression that may raise. *)
Inductive result (A : Type) :=
| Ok (a : A)
| Raise (e : exn).
Arguments Ok {A} a.
Arguments Raise {A} e.

Definition bind {A B} (r : result A) (k : A -> result B) : result B :=
  match r with Ok a => k a | Raise e => Raise e end.

Notation "x <- r ;; k" := (bind r (fun x => k))
  (at level 61, r at next level, right associativity).

Module Datetime.

(** A [datetime]: the wall clock reading in microseconds since
    0001-01-01T00:00:00, and the UTC offset in microseconds when the value is
    aware ([tzinfo] is not [None]). *)
Record datetime := { wall : Z; utcoffset : option Z }.

Definition usec_per_day : Z := 86400000000.

(** An aware value in UTC at instant [t]; [datetime.now(timezone.utc)] and
    the cutoff derived from it have this form. *)
Definition utc (t : Z) : datetime := {| wall := t; utcoffset := Some 0 |}.

(** [d.replace(tzinfo=timezone.utc)] *)
Definition replace_tzinfo_utc (d : datetime) : datetime :=
  {| wall := wall d; utcoffset := Some 0 |}.

Definition is_aware (d : datetime) : bool :=
  match utcoffset d with Some _ => true | None => false end.

(** The instant of an aware value in UTC; for a naive value, its wall clock
    reading, which is its instant when it is read as UTC. *)
Definition instant (d : datetime) : Z :=
  match utcoffset d with Some o => wall d - o | None => wall d end.

(** [a < b]; comparing a naive with an aware value raises [TypeError]. *)
Definition lt (a b : datetime) : result bool :=
  match utcoffset a, utcoffset b with
  | None, None => Ok (wall a <? wall b)
  | Some oa, Some ob => Ok (wall a - oa <? wall b - ob)
  | _, _ => Raise TypeError
  end.

(** [(b - a).days]; a [timedelta] keeps its days rounded down. *)
Definition days_between (b a : datetime) : result Z :=
  match utcoffset a, utcoffset b with
  | None, None => Ok ((wall b - wall a) / usec_per_day)
  | Some oa, Some ob => Ok (((wall b - ob) - (wall a - oa)) / usec_per_day)
  | _, _ => Raise TypeError
  end.

(** ** A reader for ISO 8601 text

    [datetime.fromisoformat] belongs to the Python library.  The reader
    below accepts [YYYY-MM-DD], optionally followed by one separator
    character and [HH:MM] or [HH:MM:SS], a fraction of three or six digits,
    and an offset [+HH:MM] or [-HH:MM]; [None] stands for [ValueError].
    The functions of the pipeline take the reader as an argument. *)

Definition digit (c : ascii) : option Z :=
  let n := N_of_ascii c in
  if ((48 <=? n)%N && (n <=? 57)%N)%bool then Some (Z.of_N n - 48) else None.

(** Reads exactly [n] decimal digits. *)
Fixpoint digits (n : nat) (acc : Z) (s : string) : option (Z * string) :=
  match n with
  | O => Some (acc, s)
  | S k =>
      match s with
      | EmptyString => None
      | String c r =>
          match digit c with
          | Some d => digits k (acc * 10 + d) r
          | None => None
          end
      end
  end.

Definition expect (a : ascii) (s : string) : option string :=
  match s with
  | String c r => if Ascii.eqb c a then Some r else None
  | EmptyString => None
  end.

Definition is_leap (y : Z) : bool :=
  ((y mod 4 =? 0) && negb (y mod 100 =? 0)) || (y mod 400 =? 0).

Definition days_in_month (y m : Z) : Z :=
  if m =? 2 then (if is_leap y then 29 else 28)
  else if (m =? 4) || (m =? 6) || (m =? 9) || (m =? 11) then 30 else 31.

Definition days_before_month (y m : Z) : Z :=
  nth (Z.to_nat (m - 1)) [0; 31; 59; 90; 120; 151; 181; 212; 243; 273; 304; 334] 0
  + (if (2 <? m) && is_leap y then 1 else 0).

(** [date(y, m, d).toordinal()] *)
Definition ordinal (y m d : Z) : Z :=
  let p := y - 1 in
  p * 365 + p / 4 - p / 100 + p / 400 + days_before_month y m + d.

Definition parse_date (s : string) : option (Z * string) :=
  match digits 4 0 s with
  | Some (y, s1) =>
    match expect "-" s1 with
    | Some s2 =>
      match digits 2 0 s2 with
      | Some (m, s3) =>
        match expect "-" s3 with
        | Some s4 =>
          match digits 2 0 s4 with
          | Some (d, s5) =>
              if (1 <=? y) && (1 <=? m) && (m <=? 12) && (1 <=? d)
                 && (d <=? days_in_month y m)
              then Some ((ordinal y m d - 1) * usec_per_day, s5)
              else None
          | None => None
          end
        | None => None
        end
      | None => None
      end
    | None => None
    end
  | None => None
  end.

Definition parse_fraction (s : string) : option (Z * string) :=
  match s with
  | String "." r =>
      match digits 6 0 r with
      | Some (us, r') => Some (us, r')
      | None =>
          match digits 3 0 r with
          | Some (ms, r') => Some (ms * 1000, r')
          | None => None
          end
      end
  | _ => Some (0, s)
  end.

Definition parse_seconds (s : string) : option (Z * string) :=
  match s with
  | String ":" r =>
      match digits 2 0 r with
      | Some (sec, r') =>
          if sec <? 60 then
            match parse_fraction r' with
            | Some (us, r'') => Some (sec * 1000000 + us, r'')
            | None => None
            end
          else None
      | None => None
      end
  | _ => Some (0, s)
  end.

Definition parse_hhmm (s : string) : option (Z * string) :=
  match digits 2 0 s with
  | Some (h, s1) =>
    match expect ":" s1 with
    | Some s2 =>
      match digits 2 0 s2 with
      | Some (m, s3) =>
          if (h <? 24) && (m <? 60)
          then Some ((h * 60 + m) * 60000000, s3) else None
      | None => None
      end
    | None => None
    end
  | None => None
  end.

Definition parse_offset (s : string) : option (option Z) :=
  match s with
  | EmptyString => Some None
  | String c r =>
      if Ascii.eqb c "+" || Ascii.eqb c "-" then
        match parse_hhmm r with
        | Some (off, EmptyString) =>
            Some (Some (if Ascii.eqb c "-" then - off else off))
        | _ => None
        end
      else None
  end.

Definition iso8601 (s : string) : option datetime :=
  match parse_date s with
  | Some (day, EmptyString) => Some {| wall := day; utcoffset := None |}
  | Some (day, String _ r) =>
      match parse_hhmm r with
      | Some (hm, r1) =>
          match parse_seconds r1 with
          | Some (sec, r2) =>
              match parse_offset r2 with
              | Some off => Some {| wall := day + hm + sec; utcoffset := off |}
              | None => None
              end
          | None => None
          end
      | None => None
      end
  | None => None
  end.

End Datetime.

Import Datetime.

(* ================================================================== *)
(** * Raw CVE documents *)
(* ================================================================== *)

(** An optional field is [None] when the key is missing from the JSON
    object. *)
Record description := {
  desc_type : option string;
  desc_cweId : option string;
  desc_value : option string
}.

Record problem_type := { descriptions : list description }.

Record affected_item := {
  item_vendor : option string;
  item_product : option string
}.

Record reference := { ref_url : option string }.

(** The [cna] container and each [adp] container. *)
Record container := {
  problemTypes : list problem_type;
  affected : list affected_item;
  references : list reference
}.

Record metadata := {
  cveId : option string;
  datePublished : option string;
  dateUpdated : option string;
  state : option string;
  assignerOrgId : option string;
  assignerShortName : option string
}.

Record cve_document := {
  cveMetadata : metadata;
  cna : container;
  adp : list container
}.

(* ================================================================== *)
(** * Field normalizer: the code shared by the parsers *)
(* ================================================================== *)

Section Normalizer.

(** [datetime.fromisoformat]; [None] is [ValueError]. *)
Variable fromisoformat : string -> option datetime.

(** The cutoff [datetime.now(timezone.utc) - timedelta(days=days_back)],
    as an instant in UTC. *)
Variable cutoff : Z.

Definition cutoff_date : datetime := utc cutoff.

(** [datetime.fromisoformat(date_published.replace("Z", "+00:00"))] *)
Definition parse_published (date_published : string) : result datetime :=
  match fromisoformat (replace_char_by "Z" "+00:00" date_published) with
  | Some d => Ok d
  | None => Raise ValueError
  end.

(** What the date filter decides for a document. *)
Inductive verdict := Keep | Drop.

(** [try: ... except (ValueError, AttributeError): handler]: the two
    exceptions are handled, any other one leaves the [try]. *)
Definition except_value_attribute {A} (body : result A) (handler : result A)
  : result A :=
  match body with
  | Raise ValueError | Raise AttributeError => handler
  | other => other
  end.

(** ** scripts/build_graph.py, lines 84-96 *)
Definition date_filter (date_published : option string) : result verdict :=
  match date_published with
  | Some s =>
      if nonempty s then
        except_value_attribute
          (pub_date <- parse_published s ;;
           let pub_date :=
             match utcoffset pub_date with
             | None => replace_tzinfo_utc pub_date
             | Some _ => pub_date
             end in
           before <- Datetime.lt pub_date cutoff_date ;;
           Ok (if before then Drop else Keep))
          (Ok Keep)
      else Ok Keep
  | None => Ok Keep
  end.

(** ** The date filter of [parse_cve_files_extended] and
    [parse_cve_extended_data]: a parse failure passes, and the comparison is
    made on the value as read. *)
Definition date_filter_plain (date_published : option string)
  : result verdict :=
  match date_published with
  | Some s =>
      if nonempty s then
        except_value_attribute
          (pub_date <- parse_published s ;;
           before <- Datetime.lt pub_date cutoff_date ;;
           Ok (if before then Drop else Keep))
          (Ok Keep)
      else Ok Keep
  | None => Ok Keep
  end.

(** ** scripts/build_analytical_graphs.py, lines 60-70: a document without
    a readable date is left out. *)
Definition date_filter_analytical (date_published : option string)
  : result verdict :=
  match date_published with
  | Some s =>
      if nonempty s then
        except_value_attribute
          (pub_date <- parse_published s ;;
           before <- Datetime.lt pub_date cutoff_date ;;
           Ok (if before then Drop else Keep))
          (Ok Drop)
      else Ok Drop
  | None => Ok Drop
  end.

(** ** Weakness codes *)

(** The code a description contributes, if any. *)
Definition cwe_of_description (d : description) : option string :=
  match desc_type d with
  | Some t =>
      if String.eqb t "CWE" then
        match py_or (desc_cweId d) (desc_value d) with
        | Some cwe_value =>
            if nonempty cwe_value && startswith "CWE-" cwe_value
            then Some cwe_value else None
        | None => None
        end
      else None
  | None => None
  end.

Definition scan_descriptions (ds : list description) (found : pyset string)
  : pyset string :=
  fold_left
    (fun acc d =>
       match cwe_of_description d with
       | Some v => set_add v acc
       | None => acc
       end) ds found.

Definition scan_problem_types (pts : list problem_type)
    (found : pyset string) : pyset string :=
  fold_left (fun acc pt => scan_descriptions (descriptions pt) acc) pts found.

Definition scan_adp (adps : list container) (found : pyset string)
  : pyset string :=
  fold_left (fun acc a => scan_problem_types (problemTypes a) acc) adps found.

(** First the CNA container, then every ADP container. *)
Definition extract_cwes (doc : cve_document) (found : pyset string)
  : pyset string :=
  scan_adp (adp doc) (scan_problem_types (problemTypes (cna doc)) found).

(** [d.get(key, "")] on a string field *)
Definition get_or_empty (o : option string) : string :=
  match o with Some s => s | None => "" end.

End Normalizer.

(* ================================================================== *)
(** * networkx graphs *)
(* ================================================================== *)

Module Nx.

Inductive attr := AStr (s : string) | AInt (z : Z).

Definition attrs := dict string attr.

(** An undirected edge with its attribute dictionary. *)
Record edge := { src : string; dst : string; data : attrs }.

(** [nx.Graph]: the node dictionary and the edges; an edge between [u] and
    [v] is stored once, whichever way it was first added. *)
Record Graph := { nodes : dict string attrs; edges : list edge }.

(** [nx.Graph()] *)
Definition empty : Graph := {| nodes := []; edges := [] |}.

(** [n in G] *)
Definition has_node (n : string) (G : Graph) : bool :=
  dict_contains n (nodes G).

(** [G.add_node(n, **a)]: a new node starts from the empty dictionary, an
    old one keeps the attributes [a] does not set. *)
Definition add_node (n : string) (a : attrs) (G : Graph) : Graph :=
  {| nodes := dict_set n (dict_update (dict_get_default n [] (nodes G)) a)
                (nodes G);
     edges := edges G |}.

Definition joins (u v : string) (e : edge) : bool :=
  (String.eqb u (src e) && String.eqb v (dst e))
  || (String.eqb u (dst e) && String.eqb v (src e)).

(** [G.has_edge(u, v)] *)
Definition has_edge (u v : string) (G : Graph) : bool :=
  existsb (joins u v) (edges G).

(** [G[u][v]] *)
Definition edge_data (u v : string) (G : Graph) : option attrs :=
  option_map data (find (joins u v) (edges G)).

Fixpoint update_edge (u v : string) (a : attrs) (es : list edge) : list edge :=
  match es with
  | [] => [ {| src := u; dst := v; data := dict_update [] a |} ]
  | e :: r =>
      if joins u v e
      then {| src := src e; dst := dst e; data := dict_update (data e) a |} :: r
      else e :: update_edge u v a r
  end.

Definition touch_node (n : string) (ns : dict string attrs)
  : dict string attrs :=
  if dict_contains n ns then ns else dict_set n [] ns.

(** [G.add_edge(u, v, **a)]: missing end points become nodes, and the
    attributes of an edge already there are updated. *)
Definition add_edge (u v : string) (a : attrs) (G : Graph) : Graph :=
  {| nodes := touch_node v (touch_node u (nodes G));
     edges := update_edge u v a (edges G) |}.

(** [G.nodes[n][key] = value] for a node of [G]. *)
Definition set_node_attr (n key : string) (value : attr) (G : Graph) : Graph :=
  {| nodes := dict_set n (dict_set key value (dict_get_default n [] (nodes G)))
                (nodes G);
     edges := edges G |}.

(** [G[u][v][key] = value] for an edge of [G]. *)
Definition set_edge_attr (u v key : string) (value : attr) (G : Graph)
  : Graph :=
  {| nodes := nodes G;
     edges := map (fun e =>
                if joins u v e
                then {| src := src e; dst := dst e;
                        data := dict_set key value (data e) |}
                else e) (edges G) |}.

(** [G.adj[v]]: the neighbours of [v]. *)
Definition neighbors (G : Graph) (v : string) : list string :=
  flat_map (fun e =>
    if String.eqb v (src e) then [dst e]
    else if String.eqb v (dst e) then [src e] else []) (edges G).

(** One level of the breadth-first search of
    [single_source_shortest_path_length]: the nodes next to [thislevel] that
    were not seen before, added to [seen] as they are met. *)
Fixpoint visit (ws : list string) (seen nextlevel : list string)
  : list string * list string :=
  match ws with
  | [] => (seen, nextlevel)
  | w :: r =>
      if set_mem w seen then visit r seen nextlevel
      else visit r (seen ++ [w]) (nextlevel ++ [w])
  end.

Fixpoint expand (G : Graph) (thislevel : list string)
    (seen nextlevel : list string) : list string * list string :=
  match thislevel with
  | [] => (seen, nextlevel)
  | v :: r =>
      let '(seen', next') := visit (neighbors G v) seen nextlevel in
      expand G r seen' next'
  end.

(** [levels] rounds of the search; the result is the set of nodes seen. *)
Fixpoint search (G : Graph) (levels : nat) (seen thislevel : list string)
  : list string :=
  match levels with
  | O => seen
  | S k =>
      let '(seen', nextlevel) := expand G thislevel seen [] in
      search G k seen' nextlevel
  end.

(** The keys of [single_source_shortest_path_length(G, n, cutoff)] for a
    node [n] of [G]: the loop runs while [cutoff > level]. *)
Definition within_cutoff (G : Graph) (n : string) (cutoff : Z)
  : list string :=
  search G (Z.to_nat cutoff) [n] [n].

(** [G.subgraph(keep).copy()] *)
Definition subgraph (G : Graph) (keep : list string) : Graph :=
  {| nodes := filter (fun kv => set_mem (fst kv) keep) (nodes G);
     edges := filter (fun e => set_mem (src e) keep && set_mem (dst e) keep)
                (edges G) |}.

(** [nx.ego_graph(G, n, radius=radius)] for a node [n] of [G]. *)
Definition ego_graph (G : Graph) (n : string) (radius : Z) : Graph :=
  subgraph G (within_cutoff G n radius).

End Nx.

Import Nx.

(* ================================================================== *)
(** * scripts/build_graph.py *)
(* ================================================================== *)

Module BuildGraph.

(** The variables [parse_cve_files] updates while it walks the corpus. *)
Record parse_state := {
  associations : dict (string * string) Z;
  cna_names : dict string string;
  total_files : Z;
  parsed_files : Z;
  skipped_files : Z;
  date_filtered : Z
}.

Definition initial : parse_state :=
  {| associations := []; cna_names := []; total_files := 0;
     parsed_files := 0; skipped_files := 0; date_filtered := 0 |}.

(** Lines 106-110: the name is stored only for a UUID not yet in
    [cna_names]. *)
Definition store_name (cna_uuid : string) (cna_short_name : option string)
    (names : dict string string) : dict string string :=
  if truthy cna_short_name && negb (dict_contains cna_uuid names) then
    dict_set cna_uuid (get_or_empty cna_short_name) names
  else if negb (dict_contains cna_uuid names) then
    dict_set cna_uuid cna_uuid names
  else names.

(** Lines 144-146 *)
Definition record_associations (cna : string) (cwes_found : pyset string)
    (assoc : dict (string * string) Z) : dict (string * string) Z :=
  fold_left (fun acc cwe => dict_incr (cna, cwe) acc) cwes_found assoc.

Section Parse.
Variable fromisoformat : string -> option datetime.
Variable cutoff : Z.

(** The body of the loop over the files, for one document. *)
Definition process_file (st : parse_state) (doc : cve_document)
  : parse_state :=
  let md := cveMetadata doc in
  let total := total_files st + 1 in
  match date_filter fromisoformat cutoff (datePublished md) with
  | Raise _ =>
      {| associations := associations st; cna_names := cna_names st;
         total_files := total; parsed_files := parsed_files st;
         skipped_files := skipped_files st + 1;
         date_filtered := date_filtered st |}
  | Ok Drop =>
      {| associations := associations st; cna_names := cna_names st;
         total_files := total; parsed_files := parsed_files st;
         skipped_files := skipped_files st;
         date_filtered := date_filtered st + 1 |}
  | Ok Keep =>
      if negb (truthy (assignerOrgId md)) then
        {| associations := associations st; cna_names := cna_names st;
           total_files := total; parsed_files := parsed_files st;
           skipped_files := skipped_files st + 1;
           date_filtered := date_filtered st |}
      else
        let cna_uuid := get_or_empty (assignerOrgId md) in
        let names :=
          store_name cna_uuid (assignerShortName md) (cna_names st) in
        let cwes_found := extract_cwes doc [] in
        {| associations :=
             record_associations cna_uuid cwes_found (associations st);
           cna_names := names;
           total_files := total;
           parsed_files :=
             (if negb (Nat.eqb (List.length cwes_found) 0)
              then parsed_files st + 1 else parsed_files st);
           skipped_files := skipped_files st;
           date_filtered := date_filtered st |}
  end.

Definition parse_cve_files_from (st : parse_state)
    (corpus : list cve_document) : parse_state :=
  fold_left process_file corpus st.

Definition parse_cve_files (corpus : list cve_document) : parse_state :=
  parse_cve_files_from initial corpus.
End Parse.

(** [cna_names.get(cna_uuid, cna_uuid)] *)
Definition display_name (names : dict string string) (cna_uuid : string)
  : string :=
  dict_get_default cna_uuid cna_uuid names.

Definition cna_attrs (cna_name cna_uuid : string) : attrs :=
  [("type", AStr "cna"); ("label", AStr cna_name); ("uuid", AStr cna_uuid)].

Definition cwe_attrs (cwe : string) : attrs :=
  [("type", AStr "cwe"); ("label", AStr cwe)].

Definition collect_cnas (assoc : dict (string * string) Z) : pyset string :=
  fold_left (fun s kv => set_add (fst (fst kv)) s) assoc [].

Definition collect_cwes (assoc : dict (string * string) Z) : pyset string :=
  fold_left (fun s kv => set_add (snd (fst kv)) s) assoc [].

Definition add_cna_nodes (names : dict string string) (cnas : pyset string)
    (G : Graph) : Graph :=
  fold_left
    (fun G cna_uuid =>
       let cna_name := display_name names cna_uuid in
       add_node cna_name (cna_attrs cna_name cna_uuid) G) cnas G.

Definition add_cwe_nodes (cwes : pyset string) (G : Graph) : Graph :=
  fold_left (fun G cwe => add_node cwe (cwe_attrs cwe) G) cwes G.

Definition add_weighted_edges (names : dict string string)
    (assoc : dict (string * string) Z) (G : Graph) : Graph :=
  fold_left
    (fun G kv =>
       add_edge (display_name names (fst (fst kv))) (snd (fst kv))
                [("weight", AInt (snd kv))] G) assoc G.

Definition build_graph (assoc : dict (string * string) Z)
    (names : dict string string) : Graph :=
  add_weighted_edges names assoc
    (add_cwe_nodes (collect_cwes assoc)
       (add_cna_nodes names (collect_cnas assoc) empty)).

End BuildGraph.

(* ================================================================== *)
(** * scripts/build_alternative_graphs.py *)
(* ================================================================== *)

Module Alternative.

Record cve_meta := {
  published : option string;
  modified : option string;
  meta_state : option string
}.

(** The dictionary [data] of [parse_cve_files_extended]. *)
Record alt_data := {
  cve_to_cwes : dict string (pyset string);
  cve_to_products : dict string (pyset (string * string));
  cve_to_vendors : dict string (pyset string);
  cve_to_cna : dict string string;
  cve_to_references : dict string (pyset string);
  cve_metadata : dict string cve_meta
}.

Definition empty_data : alt_data :=
  {| cve_to_cwes := []; cve_to_products := []; cve_to_vendors := [];
     cve_to_cna := []; cve_to_references := []; cve_metadata := [] |}.

(** [d[k].add(x)] on a [defaultdict(set)] *)
Definition dict_set_add {K A} `{Hashable K} `{Hashable A} (k : K) (x : A)
    (d : dict K (pyset A)) : dict K (pyset A) :=
  dict_set k (set_add x (dict_get_default k [] d)) d.

(** Lines 80-99: every accepted code is added to [cve_to_cwes[cve_id]]. *)
Definition record_cwes (cve_id : string) (doc : cve_document)
    (d : dict string (pyset string)) : dict string (pyset string) :=
  let add_desc acc ds :=
    fold_left
      (fun acc x =>
         match cwe_of_description x with
         | Some v => dict_set_add cve_id v acc
         | None => acc
         end) ds acc in
  let add_pts acc pts :=
    fold_left (fun acc pt => add_desc acc (descriptions pt)) pts acc in
  fold_left (fun acc a => add_pts acc (problemTypes a)) (adp doc)
    (add_pts d (problemTypes (cna doc))).

(** Lines 102-111 *)
Definition record_affected (cve_id : string) (items : list affected_item)
    (vp : dict string (pyset string) * dict string (pyset (string * string)))
  : dict string (pyset string) * dict string (pyset (string * string)) :=
  fold_left
    (fun acc item =>
       let vendor := strip (get_or_empty (item_vendor item)) in
       let product := strip (get_or_empty (item_product item)) in
       let vs := if nonempty vendor then dict_set_add cve_id vendor (fst acc)
                 else fst acc in
       let ps := if nonempty vendor && nonempty product
                 then dict_set_add cve_id (vendor, product) (snd acc)
                 else snd acc in
       (vs, ps)) items vp.

(** Lines 114-118 *)
Definition record_references (cve_id : string) (refs : list reference)
    (d : dict string (pyset string)) : dict string (pyset string) :=
  fold_left
    (fun acc r =>
       let url := strip (get_or_empty (ref_url r)) in
       if nonempty url then dict_set_add cve_id url acc else acc) refs d.

Section Parse.
Variable fromisoformat : string -> option datetime.
Variable cutoff : Z.

(** The body of the loop of [parse_cve_files_extended]; an exception
    leaves the data as they were ([except Exception: pass]). *)
Definition process_file (data : alt_data) (doc : cve_document) : alt_data :=
  let md := cveMetadata doc in
  if negb (truthy (cveId md)) then data
  else
    let cve_id := get_or_empty (cveId md) in
    match date_filter_plain fromisoformat cutoff (datePublished md) with
    | Raise _ => data
    | Ok Drop => data
    | Ok Keep =>
        let cna_ := py_or (assignerShortName md) (assignerOrgId md) in
        let vp := record_affected cve_id (affected (cna doc))
                    (cve_to_vendors data, cve_to_products data) in
        {| cve_to_cwes := record_cwes cve_id doc (cve_to_cwes data);
           cve_to_products := snd vp;
           cve_to_vendors := fst vp;
           cve_to_cna :=
             (if truthy cna_
              then dict_set cve_id (get_or_empty cna_) (cve_to_cna data)
              else cve_to_cna data);
           cve_to_references :=
             record_references cve_id (references (cna doc))
               (cve_to_references data);
           cve_metadata :=
             dict_set cve_id
               {| published := datePublished md;
                  modified := dateUpdated md;
                  meta_state := state md |} (cve_metadata data) |}
    end.

Definition parse_cve_files_extended (corpus : list cve_document)
  : alt_data :=
  fold_left process_file corpus empty_data.
End Parse.

(** ** [build_cwe_cooccurrence_graph] *)

(** Lines 149-152, for the weakness set of one CVE. *)
Definition count_pairs (cwes : pyset string)
    (edge_weights : dict (string * string) Z) : dict (string * string) Z :=
  if (1 <? List.length cwes)%nat then
    fold_left (fun acc p => dict_incr p acc)
      (combinations2 (sorted_strings cwes)) edge_weights
  else edge_weights.




(** ** [build_cve_temporal_graph] *)

(** [f"{vendor}::{product}"] *)
Definition product_key (vendor product : string) : string :=
  String.append vendor (String.append "::" product).

(** [d[k].append(x)] on a [defaultdict(list)] *)
Definition dict_append {K A} `{Hashable K} (k : K) (x : A)
    (d : dict K (list A)) : dict K (list A) :=
  dict_set k (dict_get_default k [] d ++ [x]) d.

(** [cve_list.sort(key=lambda x: x[1])]: the sort is stable, and it raises
    [TypeError] when it has to compare a naive date with an aware one, which
    happens as soon as the list holds both kinds. *)
Definition sort_by_date (cve_list : list (string * datetime))
  : result (list (string * datetime)) :=
  if existsb (fun x => is_aware (snd x)) cve_list
     && existsb (fun x => negb (is_aware (snd x))) cve_list
  then Raise TypeError
  else Ok (sorted (fun a b => instant (snd a) <=? instant (snd b)) cve_list).

Definition temporal_attrs (key : string) (days_apart : Z) : attrs :=
  [("product", AStr key); ("days_apart", AInt days_apart)].

Section Temporal.
Variable fromisoformat : string -> option datetime.
Variable data : alt_data.
Variable days_window : Z.

(** Lines 271-284 *)
Definition group_by_product : dict string (list (string * datetime)) :=
  fold_left
    (fun acc kv =>
       let cve_id := fst kv in
       match dict_get cve_id (cve_metadata data) with
       | Some meta =>
           if truthy (published meta) then
             match fromisoformat
                     (replace_char_by "Z" "+00:00"
                        (get_or_empty (published meta))) with
             | Some pub_date =>
                 fold_left
                   (fun acc vp =>
                      dict_append (product_key (fst vp) (snd vp))
                        (cve_id, pub_date) acc) (snd kv) acc
             | None => acc
             end
           else acc
       | None => acc
       end) (cve_to_products data) [].

(** Lines 294-301: the inner loop stops at the first date outside the
    window. *)
Fixpoint link_following (key cve1 : string) (date1 : datetime)
    (following : list (string * datetime)) (G : Graph) : result Graph :=
  match following with
  | [] => Ok G
  | (cve2, date2) :: r =>
      days <- days_between date2 date1 ;;
      if days <=? days_window
      then link_following key cve1 date1 r
             (add_edge cve1 cve2 (temporal_attrs key days) G)
      else Ok G
  end.

(** Lines 293-301 *)
Fixpoint link_window (key : string) (cve_list : list (string * datetime))
    (G : Graph) : result Graph :=
  match cve_list with
  | [] => Ok G
  | (cve1, date1) :: r =>
      G' <- link_following key cve1 date1 r G ;;
      link_window key r G'
  end.

(** Lines 288-301 *)
Fixpoint link_products (groups : dict string (list (string * datetime)))
    (G : Graph) : result Graph :=
  match groups with
  | [] => Ok G
  | (key, cve_list) :: r =>
      sorted_list <- sort_by_date cve_list ;;
      G' <- link_window key sorted_list G ;;
      link_products r G'
  end.

(** Lines 304-309 *)
Definition tag_cve_nodes (G : Graph) : Graph :=
  fold_left
    (fun G node =>
       let G := set_node_attr node "type" (AStr "cve") G in
       let G := set_node_attr node "label" (AStr node) G in
       match dict_get node (cve_to_cna data) with
       | Some cna_ =>
           if nonempty cna_ then set_node_attr node "cna" (AStr cna_) G
           else G
       | None => G
       end) (dict_keys (nodes G)) G.

Definition build_cve_temporal_graph : result Graph :=
  G <- link_products group_by_product empty ;;
  Ok (tag_cve_nodes G).
End Temporal.

End Alternative.

(** [sorted(d.items(), key=lambda x: x[1], reverse=True)]: largest count
    first, equal counts in the order of the dictionary. *)
Definition sorted_by_count_desc {K : Type} (items : list (K * Z))
  : list (K * Z) :=
  sorted (fun y x => snd x <=? snd y) items.

(* ================================================================== *)
(** * scripts/build_extended_graphs.py *)
(* ================================================================== *)

Module Extended.

(** The association dictionaries [parse_cve_extended_data] returns; the
    CVSS and temporal lists, which feed no graph, are left out. *)
Record ext_data := {
  cna_cwe_associations : dict (string * string) Z;
  vendor_cwe_associations : dict (string * string) Z;
  cna_vendor_associations : dict (string * string) Z;
  cna_names : dict string string
}.

Definition empty_data : ext_data :=
  {| cna_cwe_associations := []; vendor_cwe_associations := [];
     cna_vendor_associations := []; cna_names := [] |}.

(** Line 120: [vendor.lower() not in ["n/a", "unknown", ""]] *)
Definition is_sentinel (vendor : string) : bool :=
  existsb (String.eqb (lower vendor)) ["n/a"; "unknown"; ""].

(** Line 122: [vendor.lower().replace("_", " ").title()] *)
Definition clean_vendor (vendor : string) : string :=
  title (replace_char "_" " " (lower vendor)).

(** Lines 116-123 *)
Definition extract_vendors (items : list affected_item) : pyset string :=
  fold_left
    (fun vendors item =>
       let vendor := strip (get_or_empty (item_vendor item)) in
       if nonempty vendor && negb (is_sentinel vendor)
       then set_add (clean_vendor vendor) vendors
       else vendors) items [].

(** Lines 157-164 *)
Definition record_associations (cna_uuid : string)
    (cwes_found vendors : pyset string) (data : ext_data)
    (names : dict string string) : ext_data :=
  let after_cwes :=
    fold_left
      (fun acc cwe =>
         (dict_incr (cna_uuid, cwe) (fst acc),
          fold_left (fun vc vendor => dict_incr (vendor, cwe) vc)
            vendors (snd acc)))
      cwes_found
      (cna_cwe_associations data, vendor_cwe_associations data) in
  {| cna_cwe_associations := fst after_cwes;
     vendor_cwe_associations := snd after_cwes;
     cna_vendor_associations :=
       fold_left (fun acc vendor => dict_incr (cna_uuid, vendor) acc)
         vendors (cna_vendor_associations data);
     cna_names := names |}.

Section Parse.
Variable fromisoformat : string -> option datetime.
Variable cutoff : Z.

(** The body of the loop of [parse_cve_extended_data]; an exception skips
    the document ([except Exception: continue]). *)
Definition process_file (data : ext_data) (doc : cve_document) : ext_data :=
  let md := cveMetadata doc in
  match date_filter_plain fromisoformat cutoff (datePublished md) with
  | Raise _ => data
  | Ok Drop => data
  | Ok Keep =>
      if negb (truthy (assignerOrgId md)) then data
      else
        let cna_uuid := get_or_empty (assignerOrgId md) in
        let names :=
          BuildGraph.store_name cna_uuid (assignerShortName md)
            (cna_names data) in
        record_associations cna_uuid (extract_cwes doc [])
          (extract_vendors (affected (cna doc))) data names
  end.

Definition parse_cve_extended_data (corpus : list cve_document) : ext_data :=
  fold_left process_file corpus empty_data.
End Parse.

(** ** [build_vendor_vulnerability_profiles], lines 221-238 *)

Definition total_by_vendor (vendor_cwe : dict (string * string) Z)
  : dict string Z :=
  fold_left
    (fun acc kv =>
       dict_set (fst (fst kv)) (dict_get_default (fst (fst kv)) 0 acc + snd kv)
         acc) vendor_cwe [].

Definition top_vendor_names (vendor_cwe : dict (string * string) Z)
    (top_n : Z) : pyset string :=
  fold_left (fun s v => set_add (fst v) s)
    (slice_to top_n (sorted_by_count_desc (total_by_vendor vendor_cwe))) [].

Definition build_vendor_vulnerability_profiles (data : ext_data) (top_n : Z)
  : Graph :=
  let vendor_cwe := vendor_cwe_associations data in
  let vendor_counts := total_by_vendor vendor_cwe in
  let top := top_vendor_names vendor_cwe top_n in
  fold_left
    (fun G kv =>
       let vendor := fst (fst kv) in
       let cwe := snd (fst kv) in
       if set_mem vendor top then
         add_edge vendor cwe [("weight", AInt (snd kv))]
           (add_node cwe [("bipartite", AInt 1); ("node_type", AStr "cwe")]
              (add_node vendor
                 [("bipartite", AInt 0); ("node_type", AStr "vendor");
                  ("cve_count", AInt (dict_get_default vendor 0 vendor_counts))]
                 G))
       else G) vendor_cwe empty.

End Extended.

(* ================================================================== *)
(** * scripts/build_analytical_graphs.py *)
(* ================================================================== *)

Module Analytical.

Section Parse.
Variable fromisoformat : string -> option datetime.
Variable cutoff : Z.

(** Lines 56-72 of [parse_cve_analytical_data]: [parsed_files] counts the
    documents that pass the date filter; an exception skips the document
    ([except Exception: continue]). *)
Definition passes (doc : cve_document) : bool :=
  match date_filter_analytical fromisoformat cutoff
          (datePublished (cveMetadata doc)) with
  | Ok Keep => true
  | _ => false
  end.

Definition parsed_files (corpus : list cve_document) : Z :=
  fold_left (fun n doc => if passes doc then n + 1 else n) corpus 0.
End Parse.

End Analytical.

(* ================================================================== *)
(** * build_compact_graphs.py *)
(* ================================================================== *)

Module Compact.

(** The dictionary [data] of [parse_cve_files_compact]. *)
Record compact_data := {
  cve_to_cwes : dict string (pyset string);
  cve_to_cna : dict string string;
  cwe_to_cves : dict string (pyset string);
  cna_to_cves : dict string (pyset string)
}.

(** ** [build_top_cna_cwe_bipartite], lines 107-132 *)

(** [{cna: len(cves) for cna, cves in data['cna_to_cves'].items()}] *)
Definition cna_counts (data : compact_data) : dict string Z :=
  fold_left
    (fun acc kv => dict_set (fst kv) (Z.of_nat (List.length (snd kv))) acc)
    (cna_to_cves data) [].

Definition top_cnas (data : compact_data) (top_n : Z) : list (string * Z) :=
  slice_to top_n (sorted_by_count_desc (cna_counts data)).

(** Lines 120-124 *)
Definition cwe_counts (data : compact_data) (top_cna_names : list string)
  : dict (string * string) Z :=
  fold_left
    (fun acc cna_ =>
       fold_left
         (fun acc cve_id =>
            fold_left (fun acc cwe => dict_incr (cna_, cwe) acc)
              (dict_get_default cve_id [] (cve_to_cwes data)) acc)
         (dict_get_default cna_ [] (cna_to_cves data)) acc)
    top_cna_names [].

Definition build_top_cna_cwe_bipartite (data : compact_data) (top_n : Z)
  : Graph :=
  let top := top_cnas data top_n in
  let top_cna_names := map fst top in
  let G :=
    fold_left
      (fun G kv =>
         add_node (fst kv)
           [("bipartite", AInt 0); ("type", AStr "cna");
            ("label", AStr (fst kv)); ("cve_count", AInt (snd kv))] G)
      top empty in
  fst
    (fold_left
       (fun acc kv =>
          let cna_ := fst (fst kv) in
          let cwe := snd (fst kv) in
          let G := fst acc in
          let cwes_added := snd acc in
          let G :=
            if set_mem cwe cwes_added then G
            else add_node cwe
                   [("bipartite", AInt 1); ("type", AStr "cwe");
                    ("label", AStr cwe)] G in
          (add_edge cna_ cwe [("weight", AInt (snd kv))] G,
           set_add cwe cwes_added))
       (cwe_counts data top_cna_names) (G, [])).

(** ** [build_cna_ego_network], lines 229-266 *)

(** [G[u][v]['weight']] for an edge that carries an integer weight. *)
Definition weight_of (u v : string) (G : Graph) : Z :=
  match edge_data u v G with
  | Some a => match dict_get "weight" a with Some (AInt z) => z | _ => 0 end
  | None => 0
  end.

(** Lines 241-247 *)
Definition count_edge (cna_ cwe : string) (G : Graph) : Graph :=
  if has_edge cna_ cwe G
  then set_edge_attr cna_ cwe "weight" (AInt (weight_of cna_ cwe G + 1)) G
  else add_edge cna_ cwe [("weight", AInt 1)] G.

(** Lines 250-256 *)
Definition tag_nodes (G : Graph) : Graph :=
  fold_left
    (fun G node =>
       let type_ := if startswith "CWE-" node then "cwe" else "cna" in
       set_node_attr node "label" (AStr node)
         (set_node_attr node "type" (AStr type_) G))
    (dict_keys (nodes G)) G.

(** The graph of every authority and weakness, lines 239-256. *)
Definition full_graph (data : compact_data) : Graph :=
  tag_nodes
    (fold_left
       (fun G kv =>
          fold_left (fun G cwe => count_edge (snd kv) cwe G)
            (dict_get_default (fst kv) [] (cve_to_cwes data)) G)
       (cve_to_cna data) empty).

(** Lines 259-266, on the base graph. *)
Definition ego_projection (base : Graph) (cna_name : string) (radius : Z)
  : Graph :=
  if has_node cna_name base then ego_graph base cna_name radius else empty.

Definition build_cna_ego_network (data : compact_data) (cna_name : string)
    (radius : Z) : Graph :=
  ego_projection (full_graph data) cna_name radius.

End Compact.

(* ================================================================== *)
(** * scripts/build_graph.py: [export_graph] and [main] *)
(* ================================================================== *)

Module BuildGraphMain.

(** The [metadata] object [export_graph] adds to the node-link data; the
    time stamp [generated_at] is left out. *)
Record metadata_object := {
  node_count : Z;
  edge_count : Z;
  cna_count : Z;
  cwe_count : Z;
  cve_count : Z
}.

(** [d.get("type") == t] for the attribute dictionary [d] of a node. *)
Definition has_type (t : string) (d : attrs) : bool :=
  match dict_get "type" d with
  | Some (AStr s) => String.eqb s t
  | _ => false
  end.

(** [len([n for n, d in graph.nodes(data=True) if d.get("type") == t])] *)
Definition count_nodes_of_type (t : string) (graph : Graph) : Z :=
  Z.of_nat
    (List.length (filter (fun nd => has_type t (snd nd)) (nodes graph))).

(** Lines 237-244 *)
Definition export_graph (graph : Graph) (cve_count : Z) : metadata_object :=
  {| node_count := Z.of_nat (List.length (nodes graph));
     edge_count := Z.of_nat (List.length (edges graph));
     cna_count := count_nodes_of_type "cna" graph;
     cwe_count := count_nodes_of_type "cwe" graph;
     cve_count := cve_count |}.

(** How a run of [main] ends: with [sys.exit(1)], or with the graph written
    together with its metadata. *)
Inductive outcome :=
| Exit (status : Z)
| Exported (graph : Graph) (md : metadata_object).

Section Main.
Variable fromisoformat : string -> option datetime.
Variable cutoff : Z.

(** Lines 271-282, on the corpus found under [config.CVE_DATA_DIR]; a
    directory that does not exist gives the same result as an empty
    corpus. *)
Definition main (corpus : list cve_document) : outcome :=
  let st := BuildGraph.parse_cve_files fromisoformat cutoff corpus in
  match BuildGraph.associations st with
  | [] => Exit 1
  | _ :: _ =>
      let graph :=
        BuildGraph.build_graph (BuildGraph.associations st)
          (BuildGraph.cna_names st) in
      Exported graph (export_graph graph (BuildGraph.parsed_files st))
  end.
End Main.

End BuildGraphMain.

(* ================================================================== *)
(** * build_compact_graphs.py: [parse_cve_files_compact] *)
(* ================================================================== *)

Module CompactParser.

(** [try: ... except: handler]: every exception is handled. *)
Definition except_any {A} (body : result A) (handler : result A)
  : result A :=
  match body with
  | Raise _ => handler
  | other => other
  end.

Definition empty_data : Compact.compact_data :=
  {| Compact.cve_to_cwes := []; Compact.cve_to_cna := [];
     Compact.cwe_to_cves := []; Compact.cna_to_cves := [] |}.

(** Lines 68-86: an accepted code is added to the weaknesses of the CVE, and
    the CVE to the CVEs of the code. *)
Definition record_cwes (cve_id : string) (doc : cve_document)
    (idx : dict string (pyset string) * dict string (pyset string))
  : dict string (pyset string) * dict string (pyset string) :=
  let add_desc acc ds :=
    fold_left
      (fun acc x =>
         match cwe_of_description x with
         | Some v =>
             (Alternative.dict_set_add cve_id v (fst acc),
              Alternative.dict_set_add v cve_id (snd acc))
         | None => acc
         end) ds acc in
  let add_pts acc pts :=
    fold_left (fun acc pt => add_desc acc (descriptions pt)) pts acc in
  fold_left (fun acc a => add_pts acc (problemTypes a)) (adp doc)
    (add_pts idx (problemTypes (cna doc))).

Section Parse.
Variable fromisoformat : string -> option datetime.
Variable cutoff : Z.

(** Lines 48-55: the bare [except] also handles the [TypeError] of the
    comparison. *)
Definition date_filter (date_published : option string) : result verdict :=
  match date_published with
  | Some s =>
      if nonempty s then
        except_any
          (pub_date <- parse_published fromisoformat s ;;
           before <- Datetime.lt pub_date (cutoff_date cutoff) ;;
           Ok (if before then Drop else Keep))
          (Ok Keep)
      else Ok Keep
  | None => Ok Keep
  end.

(** The body of the loop of [parse_cve_files_compact]. *)
Definition process_file (data : Compact.compact_data) (doc : cve_document)
  : Compact.compact_data :=
  let md := cveMetadata doc in
  if negb (truthy (cveId md)) then data
  else
    let cve_id := get_or_empty (cveId md) in
    match date_filter (datePublished md) with
    | Raise _ => data
    | Ok Drop => data
    | Ok Keep =>
        let cna_ := py_or (assignerShortName md) (assignerOrgId md) in
        let idx := record_cwes cve_id doc
                     (Compact.cve_to_cwes data, Compact.cwe_to_cves data) in
        {| Compact.cve_to_cwes := fst idx;
           Compact.cve_to_cna :=
             (if truthy cna_
              then dict_set cve_id (get_or_empty cna_) (Compact.cve_to_cna data)
              else Compact.cve_to_cna data);
           Compact.cwe_to_cves := snd idx;
           Compact.cna_to_cves :=
             (if truthy cna_
              then Alternative.dict_set_add (get_or_empty cna_) cve_id
                     (Compact.cna_to_cves data)
              else Compact.cna_to_cves data) |}
    end.

Definition parse_cve_files_compact (corpus : list cve_document)
  : Compact.compact_data :=
  fold_left process_file corpus empty_data.
End Parse.

End CompactParser.

(* ================================================================== *)
(** * scripts/build_extended_graphs.py: the Sankey data and the heat map *)
(* ================================================================== *)

Module Charts.

(** [counts[k] += count] on a [defaultdict(int)] *)
Definition add_count {K} `{Hashable K} (k : K) (count : Z) (counts : dict K Z)
  : dict K Z :=
  dict_set k (dict_get_default k 0 counts + count) counts.

(** Lines 364-369 and 425-430: the totals of the authorities and of the
    weaknesses. *)
Definition totals (cna_cwe : dict (string * string) Z)
  : dict string Z * dict string Z :=
  fold_left
    (fun acc kv =>
       (add_count (fst (fst kv)) (snd kv) (fst acc),
        add_count (snd (fst kv)) (snd kv) (snd acc)))
    cna_cwe ([], []).

(** [sorted(cna_counts.items(), key=lambda x: x[1], reverse=True)[:n]] *)
Definition top_cna_entries (cna_cwe : dict (string * string) Z) (n : Z)
  : list (string * Z) :=
  slice_to n (sorted_by_count_desc (fst (totals cna_cwe))).

Definition top_cwe_entries (cna_cwe : dict (string * string) Z) (n : Z)
  : list (string * Z) :=
  slice_to n (sorted_by_count_desc (snd (totals cna_cwe))).

(** ** [build_heatmap_matrix] *)

(** The object written to the file, without its description. *)
Record heatmap := {
  cnas : list string;
  cwes : list string;
  matrix : list (list Z);
  max_value : Z
}.

(** [max(xs)]: [ValueError] on an empty sequence. *)
Definition py_max (xs : list Z) : result Z :=
  match xs with
  | [] => Raise ValueError
  | x :: r => Ok (fold_left Z.max r x)
  end.

(** The values of a generator that may raise, up to the first exception. *)
Fixpoint collect {A B} (f : A -> result B) (l : list A) : result (list B) :=
  match l with
  | [] => Ok []
  | x :: r => y <- f x ;; ys <- collect f r ;; Ok (y :: ys)
  end.

(** Lines 432-456 *)
Definition build_heatmap_matrix (data : Extended.ext_data)
    (top_cnas top_cwes : Z) : result heatmap :=
  let cna_cwe := Extended.cna_cwe_associations data in
  let cna_names := Extended.cna_names data in
  let top_cnas := top_cna_entries cna_cwe top_cnas in
  let top_cwes := top_cwe_entries cna_cwe top_cwes in
  let cna_list :=
    map (fun c => BuildGraph.display_name cna_names (fst c)) top_cnas in
  let cwe_list := map fst top_cwes in
  let matrix :=
    map (fun c =>
           map (fun w => dict_get_default (fst c, fst w) 0 cna_cwe) top_cwes)
        top_cnas in
  max_value <-
    match matrix with
    | [] => Ok 0
    | _ :: _ => row_maxima <- collect py_max matrix ;; py_max row_maxima
    end ;;
  Ok {| cnas := cna_list; cwes := cwe_list; matrix := matrix;
        max_value := max_value |}.

(** ** [build_sankey_diagram_data] *)

Record sankey_node := { name : string; type : string }.

Record sankey_link := { source : Z; target : Z; value : Z }.

(** The object written to the file, without its description. *)
Record sankey := {
  sankey_nodes : list sankey_node;
  sankey_links : list sankey_link;
  cna_count : Z;
  cwe_count : Z;
  total_flow : Z
}.

(** [{c[0] for c in entries}] *)
Definition names_of (entries : list (string * Z)) : pyset string :=
  fold_left (fun s c => set_add (fst c) s) entries [].

(** Lines 375-388: a round of either loop appends a node and binds its name
    to the index of the node. *)
Definition add_sankey_node (node_name node_type : string)
    (acc : list sankey_node * dict string Z * Z)
  : list sankey_node * dict string Z * Z :=
  let '(nodes, node_map, idx) := acc in
  (nodes ++ [ {| name := node_name; type := node_type |} ],
   dict_set node_name idx node_map, idx + 1).

(** Lines 391-399; [None] stands for the [KeyError] of a name missing from
    [node_map]. *)
Fixpoint build_links (cna_names : dict string string)
    (top_cna_uuids top_cwe_ids : pyset string) (node_map : dict string Z)
    (items : list (string * string * Z)) : option (list sankey_link) :=
  match items with
  | [] => Some []
  | ((cna_uuid, cwe), count) :: r =>
      if set_mem cna_uuid top_cna_uuids && set_mem cwe top_cwe_ids then
        match dict_get (BuildGraph.display_name cna_names cna_uuid) node_map,
              dict_get cwe node_map with
        | Some s, Some t =>
            option_map
              (cons {| source := s; target := t; value := count |})
              (build_links cna_names top_cna_uuids top_cwe_ids node_map r)
        | _, _ => None
        end
      else build_links cna_names top_cna_uuids top_cwe_ids node_map r
  end.

(** Lines 360-410 *)
Definition build_sankey_diagram_data (data : Extended.ext_data)
    (top_cnas top_cwes : Z) : option sankey :=
  let cna_cwe := Extended.cna_cwe_associations data in
  let cna_names := Extended.cna_names data in
  let top_cna_uuids := names_of (top_cna_entries cna_cwe top_cnas) in
  let top_cwe_ids := names_of (top_cwe_entries cna_cwe top_cwes) in
  let after_cnas :=
    fold_left
      (fun acc cna_uuid =>
         add_sankey_node (BuildGraph.display_name cna_names cna_uuid) "cna"
           acc) top_cna_uuids ([], [], 0) in
  let '(nodes, node_map, _) :=
    fold_left (fun acc cwe => add_sankey_node cwe "cwe" acc)
      top_cwe_ids after_cnas in
  match build_links cna_names top_cna_uuids top_cwe_ids node_map cna_cwe with
  | Some links =>
      Some {| sankey_nodes := nodes;
              sankey_links := links;
              cna_count := Z.of_nat (List.length top_cna_uuids);
              cwe_count := Z.of_nat (List.length top_cwe_ids);
              total_flow := fold_right Z.add 0 (map value links) |}
  | None => None
  end.

End Charts.

(* ================================================================== *)
(** * scripts/build_all.py *)
(* ================================================================== *)

Module BuildAll.

Definition BUILD_SCRIPTS : list string :=
  ["build_graph.py"; "build_alternative_graphs.py"; "build_compact_graphs.py";
   "build_extended_graphs.py"].

Definition POST_PROCESS_SCRIPTS : list string := ["optimize_data.py"].

Section Main.

(** [run_script]: whether the script ran to a zero exit status.  The
    subprocess is outside the embedding; [main] runs every script at most
    once. *)
Variable run_script : string -> bool.

(** Lines 88-96: the loop stops after a failure of [build_graph.py]. *)
Fixpoint run_build_scripts (scripts : list string) (results : dict string bool)
  : dict string bool :=
  match scripts with
  | [] => results
  | script :: r =>
      let success := run_script script in
      let results := dict_set script success results in
      if negb success && existsb (String.eqb script) ["build_graph.py"]
      then results
      else run_build_scripts r results
  end.

(** Lines 99-106 *)
Definition run_post_processing (results : dict string bool)
  : dict string bool :=
  if forallb (fun kv => snd kv) results then
    fold_left (fun results script => dict_set script (run_script script) results)
      POST_PROCESS_SCRIPTS results
  else results.

(** Lines 69-127: the exit status and the results, given whether the CVE
    data directory exists. *)
Definition main (cve_data_dir_exists : bool) : Z * dict string bool :=
  if negb cve_data_dir_exists then (1, [])
  else
    let results := run_post_processing (run_build_scripts BUILD_SCRIPTS []) in
    let total := List.length results in
    let successful := List.length (filter (fun kv => snd kv) results) in
    (if Nat.eqb successful total then 0 else 1, results).
End Main.

End BuildAll.

(* ================================================================== *)
(** * scripts/optimize_data.py: [optimize_vendor_map] *)
(* ================================================================== *)

Module Optimize.

(** The node-link data read back from a file: the fields of a node and of
    a link that the function reads, [None] for a key that is missing.  The
    other fields are carried along unchanged and are left out. *)
Record node := { id : option string; node_type : option string }.

Record link := {
  source : option string;
  target : option string;
  weight : option Z
}.

Record graph_data := { nodes : list node; links : list link }.

Definition option_eqb (a b : option string) : bool :=
  match a, b with
  | Some x, Some y => String.eqb x y
  | None, None => true
  | _, _ => false
  end.

Lemma option_eqb_spec (a b : option string) : option_eqb a b = true <-> a = b.
Proof.
  destruct a as [x|], b as [y|]; cbn; try (split; congruence).
  rewrite String.eqb_eq. split; congruence.
Qed.

(** [link.get("source")] is a key of [vendor_counts] whether the key is
    there or not. *)
#[export] Instance Hashable_option_string : Hashable (option string) :=
  {| keqb := option_eqb; keqb_spec := option_eqb_spec |}.

(** Lines 127-130 *)
Definition vendor_counts (ls : list link) : dict (option string) Z :=
  fold_left
    (fun acc l =>
       Charts.add_count (source l)
         (match weight l with Some w => w | None => 1 end) acc) ls [].

(** Line 133 *)
Definition top_vendors (ls : list link) (top_n : Z) : pyset (option string) :=
  fold_left (fun s v => set_add (fst v) s)
    (slice_to top_n (sorted_by_count_desc (vendor_counts ls))) [].

(** Lines 136-137: the condition of the filter on the nodes. *)
Definition keeps_node (top : pyset (option string)) (n : node) : bool :=
  set_mem (id n) top
  || match node_type n with
     | Some t => String.eqb t "cwe"
     | None => false
     end.

(** Line 138, [{n["id"] for n in filtered_nodes}]; [None] stands for the
    [KeyError] of a node without id. *)
Definition node_ids (ns : list node) : option (pyset string) :=
  fold_left
    (fun acc n =>
       match acc, id n with
       | Some s, Some i => Some (set_add i s)
       | _, _ => None
       end) ns (Some []).

(** [key in node_ids], for the result of [l.get(...)]. *)
Definition among (o : option string) (ids : pyset string) : bool :=
  match o with
  | Some s => set_mem s ids
  | None => false
  end.

(** Lines 126-150, from the data read to the data written. *)
Definition optimize_vendor_map (data : graph_data) (top_n : Z)
  : option graph_data :=
  let top := top_vendors (links data) top_n in
  let filtered_nodes := filter (keeps_node top) (nodes data) in
  match node_ids filtered_nodes with
  | Some ids =>
      Some {| nodes := filtered_nodes;
              links := filter (fun l => among (source l) ids
                                        && among (target l) ids)
                         (links data) |}
  | None => None
  end.

End Optimize.

(* ================================================================== *)
(** * build_compact_graphs.py: [build_cna_collaboration_network] *)
(* ================================================================== *)

Module Collaboration.

(** Lines 319-324: the weaknesses of each authority. *)
Definition cna_cwes (data : Compact.compact_data)
  : dict string (pyset string) :=
  fold_left
    (fun acc kv =>
       dict_set (fst kv)
         (fold_left
            (fun cwes cve_id =>
               set_update cwes
                 (dict_get_default cve_id [] (Compact.cve_to_cwes data)))
            (snd kv) [])
         acc)
    (Compact.cna_to_cves data) [].

(** [cna_cwes[cna1] & cna_cwes[cna2]], for two keys of the dictionary. *)
Definition shared (cna_cwes : dict string (pyset string)) (cna1 cna2 : string)
  : pyset string :=
  set_inter (dict_get_default cna1 [] cna_cwes)
            (dict_get_default cna2 [] cna_cwes).

Definition shared_attrs (n : Z) : attrs :=
  [("weight", AInt n); ("shared_count", AInt n)].

(** Lines 327-339: the pairs [cna1], [cna2] with [cna2] after [cna1] in the
    list of the keys are those of [combinations2]. *)
Definition build_cna_collaboration_network (data : Compact.compact_data)
    (min_shared_cwes : Z) : Graph :=
  let cna_cwes := cna_cwes data in
  let G :=
    fold_left
      (fun G kv =>
         add_node (fst kv)
           [("type", AStr "cna"); ("label", AStr (fst kv));
            ("cwe_count", AInt (Z.of_nat (List.length (snd kv))))] G)
      cna_cwes empty in
  fold_left
    (fun G p =>
       let n := Z.of_nat (List.length (shared cna_cwes (fst p) (snd p))) in
       if min_shared_cwes <=? n
       then add_edge (fst p) (snd p) (shared_attrs n) G
       else G)
    (combinations2 (dict_keys cna_cwes)) G.

End Collaboration.

(* ================================================================== *)
(** * scripts/build_alternative_graphs.py: [build_shared_reference_graph] *)
(* ================================================================== *)

Module SharedReferences.

(** Lines 329-332: the CVEs of each reference URL. *)
Definition url_to_cves (cve_to_references : dict string (pyset string))
  : dict string (pyset string) :=
  fold_left
    (fun acc kv =>
       fold_left (fun acc url => Alternative.dict_set_add url (fst kv) acc)
         (snd kv) acc)
    cve_to_references [].

(** Lines 335-339: the URLs that link each pair of CVEs. *)
Definition cve_pairs (url_to_cves : dict string (pyset string))
  : dict (string * string) (pyset string) :=
  fold_left
    (fun acc kv =>
       if (1 <? List.length (snd kv))%nat then
         fold_left (fun acc p => Alternative.dict_set_add p (fst kv) acc)
           (combinations2 (sorted_strings (snd kv))) acc
       else acc)
    url_to_cves [].

Definition shared_attrs (n : Z) : attrs :=
  [("weight", AInt n); ("shared_refs", AInt n)].

(** Lines 342-354 *)
Definition build_shared_reference_graph (data : Alternative.alt_data)
    (min_shared : Z) : Graph :=
  let cve_pairs :=
    cve_pairs (url_to_cves (Alternative.cve_to_references data)) in
  let G :=
    fold_left
      (fun G kv =>
         let n := Z.of_nat (List.length (snd kv)) in
         if min_shared <=? n
         then add_edge (fst (fst kv)) (snd (fst kv)) (shared_attrs n) G
         else G)
      cve_pairs empty in
  Alternative.tag_cve_nodes data G.

End SharedReferences.

(* ================================================================== *)
(** * scripts/build_alternative_graphs.py: the nodes of the products *)
(* ================================================================== *)

Module ProductGraphs.

(** [prod.split("::", 1)]: the text before the first "::" and the text
    after it; [None] when there is no "::", where the unpacking into two
    names raises [ValueError]. *)
Fixpoint split_colons (prod : string) : option (string * string) :=
  match prod with
  | EmptyString => None
  | String ":" (String ":" rest) => Some (EmptyString, rest)
  | String c r =>
      option_map (fun p => (String c (fst p), snd p)) (split_colons r)
  end.

(** Lines 199-200 and 389-390: the attributes of the node of a product
    key. *)
Definition product_node_attrs (prod : string) : result attrs :=
  match split_colons prod with
  | Some (vendor, product) =>
      Ok [("type", AStr "product"); ("label", AStr product);
          ("vendor", AStr vendor)]
  | None => Raise ValueError
  end.

(** [s.endswith(":")] *)
Fixpoint ends_with_colon (s : string) : bool :=
  match s with
  | EmptyString => false
  | String c EmptyString => Ascii.eqb c ":"
  | String _ r => ends_with_colon r
  end.

End ProductGraphs.

(* ================================================================== *)
(** * build_graph.py, the copy at the root of the repository *)
(* ================================================================== *)

Module Legacy.

Section Parse.
Variable fromisoformat : string -> option datetime.
Variable cutoff : Z.

(** The body of the loop of [parse_cve_files].  The date is compared as it
    is read (lines 61-70); the [TypeError] of a date without offset reaches
    the handler of line 132, which counts the file as skipped.  The rest of
    the body is that of scripts/build_graph.py. *)
Definition process_file (st : BuildGraph.parse_state) (doc : cve_document)
  : BuildGraph.parse_state :=
  let md := cveMetadata doc in
  let total := BuildGraph.total_files st + 1 in
  match date_filter_plain fromisoformat cutoff (datePublished md) with
  | Raise _ =>
      {| BuildGraph.associations := BuildGraph.associations st;
         BuildGraph.cna_names := BuildGraph.cna_names st;
         BuildGraph.total_files := total;
         BuildGraph.parsed_files := BuildGraph.parsed_files st;
         BuildGraph.skipped_files := BuildGraph.skipped_files st + 1;
         BuildGraph.date_filtered := BuildGraph.date_filtered st |}
  | Ok Drop =>
      {| BuildGraph.associations := BuildGraph.associations st;
         BuildGraph.cna_names := BuildGraph.cna_names st;
         BuildGraph.total_files := total;
         BuildGraph.parsed_files := BuildGraph.parsed_files st;
         BuildGraph.skipped_files := BuildGraph.skipped_files st;
         BuildGraph.date_filtered := BuildGraph.date_filtered st + 1 |}
  | Ok Keep =>
      if negb (truthy (assignerOrgId md)) then
        {| BuildGraph.associations := BuildGraph.associations st;
           BuildGraph.cna_names := BuildGraph.cna_names st;
           BuildGraph.total_files := total;
           BuildGraph.parsed_files := BuildGraph.parsed_files st;
           BuildGraph.skipped_files := BuildGraph.skipped_files st + 1;
           BuildGraph.date_filtered := BuildGraph.date_filtered st |}
      else
        let cna_uuid := get_or_empty (assignerOrgId md) in
        let names :=
          BuildGraph.store_name cna_uuid (assignerShortName md)
            (BuildGraph.cna_names st) in
        let cwes_found := extract_cwes doc [] in
        {| BuildGraph.associations :=
             BuildGraph.record_associations cna_uuid cwes_found
               (BuildGraph.associations st);
           BuildGraph.cna_names := names;
           BuildGraph.total_files := total;
           BuildGraph.parsed_files :=
             (if negb (Nat.eqb (List.length cwes_found) 0)
              then BuildGraph.parsed_files st + 1
              else BuildGraph.parsed_files st);
           BuildGraph.skipped_files := BuildGraph.skipped_files st;
           BuildGraph.date_filtered := BuildGraph.date_filtered st |}
  end.

Definition parse_cve_files (corpus : list cve_document)
  : BuildGraph.parse_state :=
  fold_left process_file corpus BuildGraph.initial.
End Parse.

End Legacy.

(* ================================================================== *)
(** * scripts/build_extended_graphs.py: the CVSS distribution *)
(* ================================================================== *)

Module Severity.
Import PrimFloat.

(** A number of a JSON document as [json.load] reads it: an [int] or a
    [float]. *)
Inductive number :=
| PyInt (z : Z)
| PyFloat (f : PrimFloat.float).

(** An entry of [data["cvss_data"]], lines 169-178, with the fields
    [build_cvss_severity_distribution] reads.  [base_score] is [None] when
    the stored value is no number (it is [None] for a metric without
    [baseScore]); [severity] is [None] for [None] (a metric without
    [baseSeverity], and every CVSS 2.0 metric). *)
Record cvss_item := {
  cna : string;
  cwes : list string;
  base_score : option number;
  severity : option string
}.

Record tallies := {
  severity_counts : dict string Z;
  severity_by_cna : dict string (dict string Z);
  severity_by_cwe : dict string (dict string Z)
}.

Definition no_tallies : tallies :=
  {| severity_counts := []; severity_by_cna := []; severity_by_cwe := [] |}.

(** [item["severity"] or "Unknown"] *)
Definition severity_of (item : cvss_item) : string :=
  match py_or (severity item) (Some "Unknown") with
  | Some s => s
  | None => "Unknown"
  end.

(** [d[outer][key] += 1] on a [defaultdict(lambda: Counter())] *)
Definition counter_incr (outer key : string) (d : dict string (dict string Z))
  : dict string (dict string Z) :=
  dict_set outer (dict_incr key (dict_get_default outer [] d)) d.

(** The body of the first loop, lines 475-480. *)
Definition tally (t : tallies) (item : cvss_item) : tallies :=
  let severity := severity_of item in
  {| severity_counts := dict_incr severity (severity_counts t);
     severity_by_cna := counter_incr (cna item) severity (severity_by_cna t);
     severity_by_cwe :=
       fold_left (fun by_cwe cwe => counter_incr cwe severity by_cwe)
         (cwes item) (severity_by_cwe t) |}.

(** Lines 483-489 *)
Definition score_ranges_init : dict string Z :=
  [("None (0.0)", 0); ("Low (0.1-3.9)", 0); ("Medium (4.0-6.9)", 0);
   ("High (7.0-8.9)", 0); ("Critical (9.0-10.0)", 0)].

(** [score == 0] *)
Definition is_zero (score : number) : bool :=
  match score with
  | PyInt z => z =? 0
  | PyFloat f => PrimFloat.eqb f 0%float
  end.

(** [score < b] for a float literal [b] of integral value [z]; Python
    compares an [int] with a [float] exactly. *)
Definition below (z : Z) (b : PrimFloat.float) (score : number) : bool :=
  match score with
  | PyInt n => n <? z
  | PyFloat f => PrimFloat.ltb f b
  end.

(** The key of the range a score is counted in, lines 493-502. *)
Definition range_of (score : number) : string :=
  if is_zero score then "None (0.0)"
  else if below 4 4%float score then "Low (0.1-3.9)"
  else if below 7 7%float score then "Medium (4.0-6.9)"
  else if below 9 9%float score then "High (7.0-8.9)"
  else "Critical (9.0-10.0)".

(** The second loop, lines 491-502: the comparison [score < 4.0] raises
    [TypeError] on a value that is no number (for which [score == 0] is
    false). *)
Fixpoint count_scores (cvss_data : list cvss_item) (score_ranges : dict string Z)
  : result (dict string Z) :=
  match cvss_data with
  | [] => Ok score_ranges
  | item :: rest =>
      match base_score item with
      | None => Raise TypeError
      | Some score =>
          count_scores rest (dict_incr (range_of score) score_ranges)
      end
  end.

(** The object written to the output file, lines 511-519 (without the
    constant description). *)
Record distribution := {
  out_severity_counts : dict string Z;
  score_ranges : dict string Z;
  top_critical_cnas : list (string * Z);
  total_cves : Z
}.

(** Lines 505-509 *)
Definition critical_by_cna (by_cna : dict string (dict string Z))
  : list (string * Z) :=
  map (fun kv => (fst kv, dict_get_default "CRITICAL" 0 (snd kv))) by_cna.

Definition build_cvss_severity_distribution (cvss_data : list cvss_item)
  : result distribution :=
  let t := fold_left tally cvss_data no_tallies in
  bind (count_scores cvss_data score_ranges_init) (fun score_ranges =>
  Ok {| out_severity_counts := severity_counts t;
        score_ranges := score_ranges;
        top_critical_cnas :=
          slice_to 20 (sorted_by_count_desc (critical_by_cna (severity_by_cna t)));
        total_cves := Z.of_nat (List.length cvss_data) |}).

End Severity.

(* ================================================================== *)
(** * scripts/optimize_data.py: the timeline of the temporal map *)
(* ================================================================== *)

Module Timeline.

(** A node of the JSON document, with the fields [optimize_temporal_map]
    reads; a field is [None] when the node has no such key.  Identifiers
    and authorities are strings, as the graph builders write them. *)
Record node := {
  id : option string;
  type : option string;
  cna : option string
}.

(** An entry of [monthly_stats], line 42; the table ["cwes"] is never
    written or read. *)
Record stats := {
  count : Z;
  cnas : dict string Z
}.

Definition no_stats : stats := {| count := 0; cnas := [] |}.

(** [s.split("-")] *)
Fixpoint split_dash (s : string) : list string :=
  match s with
  | EmptyString => [EmptyString]
  | String c r =>
      if Ascii.eqb c "-" then EmptyString :: split_dash r
      else match split_dash r with
           | part :: parts => String c part :: parts
           | [] => [String c EmptyString]
           end
  end.

(** Lines 52-54: two accesses to the [defaultdict], the second one if the
    node has a key ["cna"]. *)
Definition count_node (year_month : string) (n : node)
    (monthly_stats : dict string stats) : dict string stats :=
  let s := dict_get_default year_month no_stats monthly_stats in
  let s := {| count := count s + 1; cnas := cnas s |} in
  let s :=
    match cna n with
    | Some c => {| count := count s; cnas := dict_incr c (cnas s) |}
    | None => s
    end in
  dict_set year_month s monthly_stats.

(** The body of the loop over the nodes, lines 44-54. *)
Definition record_node (monthly_stats : dict string stats) (n : node)
  : dict string stats :=
  if Optimize.option_eqb (type n) (Some "cve") then
    let cve_id := match id n with Some s => s | None => "" end in
    if startswith "CVE-" cve_id then
      let parts := split_dash cve_id in
      if (2 <=? List.length parts)%nat then
        let year_month := nth 1 parts "" in
        count_node year_month n monthly_stats
      else monthly_stats
    else monthly_stats
  else monthly_stats.

Record entry := {
  period : string;
  entry_count : Z;
  top_cnas : list (string * Z)
}.

(** The object written to the output file, lines 65-72 (without the
    constant metadata). *)
Record optimized := {
  timeline : list entry;
  total_cves : Z
}.

(** Lines 57-63; the periods are the keys of a dictionary, so that
    [sorted] orders the items by their period alone. *)
Definition timeline_of (monthly_stats : dict string stats) : list entry :=
  map (fun kv =>
         {| period := fst kv;
            entry_count := count (snd kv);
            top_cnas := slice_to 10 (sorted_by_count_desc (cnas (snd kv))) |})
    (sorted (fun a b => String.leb (fst a) (fst b)) monthly_stats).

Definition optimize_temporal_map (nodes : list node) : optimized :=
  let monthly_stats := fold_left record_node nodes [] in
  {| timeline := timeline_of monthly_stats;
     total_cves := fold_right Z.add 0 (map (fun kv => count (snd kv)) monthly_stats) |}.

End Timeline.

(* ================================================================== *)
(** * build_compact_graphs.py: the circular layout of the weaknesses *)
(* ================================================================== *)

Module Circular.

(** [{cwe: len(cves) for cwe, cves in data['cwe_to_cves'].items()}],
    line 279 *)
Definition cwe_counts (data : Compact.compact_data) : dict string Z :=
  fold_left
    (fun acc kv => dict_set (fst kv) (Z.of_nat (List.length (snd kv))) acc)
    (Compact.cwe_to_cves data) [].

Definition top_cwes (data : Compact.compact_data) (top_n : Z)
  : list (string * Z) :=
  slice_to top_n (sorted_by_count_desc (cwe_counts data)).

(** [c in top_cwe_ids] *)
Definition in_list (c : string) (l : list string) : bool :=
  existsb (String.eqb c) l.

(** Lines 295-297: every element of [cwes_in_top] with the ones after
    it. *)
Fixpoint count_pairs (cwes_in_top : list string)
    (edge_weights : dict (string * string) Z) : dict (string * string) Z :=
  match cwes_in_top with
  | [] => edge_weights
  | cwe1 :: rest =>
      count_pairs rest
        (fold_left (fun acc cwe2 => dict_incr (cwe1, cwe2) acc) rest
           edge_weights)
  end.

(** Lines 291-297 *)
Definition edge_weights (data : Compact.compact_data)
    (top_cwe_ids : list string) : dict (string * string) Z :=
  fold_left
    (fun acc kv =>
       let cwes_in_top := filter (fun c => in_list c top_cwe_ids) (snd kv) in
       if (1 <? List.length cwes_in_top)%nat
       then count_pairs cwes_in_top acc
       else acc)
    (Compact.cve_to_cwes data) [].

Definition build_circular_cwe_layout (data : Compact.compact_data)
    (top_n : Z) : Graph :=
  let top := top_cwes data top_n in
  let top_cwe_ids := map fst top in
  let G :=
    fold_left
      (fun G kv =>
         add_node (fst kv)
           [("type", AStr "cwe"); ("label", AStr (fst kv));
            ("cve_count", AInt (snd kv))] G)
      top empty in
  fold_left
    (fun G kv =>
       add_edge (fst (fst kv)) (snd (fst kv)) [("weight", AInt (snd kv))] G)
    (edge_weights data top_cwe_ids) G.

End Circular.

(* ================================================================== *)
(** * build_compact_graphs.py: the star graphs of the weaknesses *)
(* ================================================================== *)

Module Stars.

(** Lines 210-214: the authorities of the CVEs of a weakness, with the
    number of those CVEs; a CVE without authority is passed over. *)
Definition cna_counts (data : Compact.compact_data) (cwe : string)
  : dict string Z :=
  fold_left
    (fun cna_counts cve_id =>
       match dict_get cve_id (Compact.cve_to_cna data) with
       | Some cna_ => if nonempty cna_ then dict_incr cna_ cna_counts
                      else cna_counts
       | None => cna_counts
       end)
    (dict_get_default cwe [] (Compact.cwe_to_cves data)) [].

(** Line 217: the authorities that get a spoke. *)
Definition spokes (data : Compact.compact_data) (cwe : string)
  : list (string * Z) :=
  slice_to 20 (sorted_by_count_desc (cna_counts data cwe)).

(** [f"{cwe}_{cna}"] *)
Definition node_id (cwe cna_ : string) : string := cwe ++ "_" ++ cna_.

(** The body of the loop over the top weaknesses, lines 205-220. *)
Definition add_star (data : Compact.compact_data) (G : Graph)
    (kv : string * Z) : Graph :=
  let cwe := fst kv in
  let G :=
    add_node cwe
      [("type", AStr "cwe"); ("label", AStr cwe); ("role", AStr "center");
       ("cve_count", AInt (snd kv))] G in
  fold_left
    (fun G cc =>
       add_edge cwe (node_id cwe (fst cc)) [("weight", AInt (snd cc))]
         (add_node (node_id cwe (fst cc))
            [("type", AStr "cna"); ("label", AStr (fst cc));
             ("role", AStr "spoke"); ("parent", AStr cwe)] G))
    (spokes data cwe) G.

(** The top weaknesses are chosen as in [build_circular_cwe_layout]
    (lines 199-200 and 279-280 are the same). *)
Definition build_cwe_star_graphs (data : Compact.compact_data) (top_n : Z)
  : Graph :=
  fold_left (add_star data) (Circular.top_cwes data top_n) empty.

End Stars.

(* ================================================================== *)
(** * scripts/build_extended_graphs.py: the temporal trends *)
(* ================================================================== *)

Module Trends.

(** An entry of [data["temporal_data"]], lines 182-190, with the fields
    [build_temporal_trends] reads. *)
Record item := {
  cna : string;
  year : Z;
  month : Z;
  cwes : list string
}.

(** ** Integers in an f-string *)

Definition digit_char (d : Z) : ascii := ascii_of_nat (48 + Z.to_nat d).

(** The decimal digits of a natural number in front of [acc]; [fuel] is
    more than the number of digits. *)
Fixpoint decimal (fuel : nat) (n : Z) (acc : string) : string :=
  match fuel with
  | O => acc
  | S fuel' =>
      let acc' := String (digit_char (n mod 10)) acc in
      if n <? 10 then acc' else decimal fuel' (n / 10) acc'
  end.

(** [str(n)], which is [f"{n}"] *)
Definition str (n : Z) : string :=
  if n <? 0 then "-" ++ decimal (S (Z.to_nat (- n))) (- n) ""
  else decimal (S (Z.to_nat n)) n "".

(** [f"{n:02d}"]: zeros in front up to a width of two, the sign counted
    in. *)
Definition format_02d (n : Z) : string :=
  let s := str n in
  if (String.length s <? 2)%nat then "0" ++ s else s.

(** Line 538 *)
Definition year_month (i : item) : string :=
  str (year i) ++ "-" ++ format_02d (month i).

(** ** The counters, lines 533-550 *)

Record counters := {
  monthly_counts : dict string Z;
  monthly_by_cna : dict string (dict string Z);
  monthly_by_cwe : dict string (dict string Z)
}.

Definition no_counters : counters :=
  {| monthly_counts := []; monthly_by_cna := []; monthly_by_cwe := [] |}.

(** The body of the first loop, lines 538-542. *)
Definition count_item (c : counters) (i : item) : counters :=
  let ym := year_month i in
  {| monthly_counts := dict_incr ym (monthly_counts c);
     monthly_by_cna := Severity.counter_incr (cna i) ym (monthly_by_cna c);
     monthly_by_cwe :=
       fold_left (fun by_cwe cwe => Severity.counter_incr cwe ym by_cwe)
         (cwes i) (monthly_by_cwe c) |}.

(** Lines 548-550 *)
Definition cna_totals (temporal_data : list item) : dict string Z :=
  fold_left (fun acc i => dict_incr (cna i) acc) temporal_data [].

(** ** The object written to the output file, lines 553-565 *)

Record timeline_data := {
  monthly_totals : dict string Z;
  top_cnas : list string;
  cna_timelines : dict string (dict string Z);
  total_cves : Z;
  date_range : string
}.

(** [{month: value(month) for month in sorted_months}] *)
Definition by_month (value : string -> Z) (sorted_months : list string)
  : dict string Z :=
  fold_left (fun acc month_ => dict_set month_ (value month_) acc)
    sorted_months [].

Definition build_temporal_trends (temporal_data : list item) : timeline_data :=
  let c := fold_left count_item temporal_data no_counters in
  let sorted_months := sorted_strings (dict_keys (monthly_counts c)) in
  let top_cnas :=
    map fst (slice_to 10 (sorted_by_count_desc (cna_totals temporal_data))) in
  {| monthly_totals :=
       by_month (fun m => dict_get_default m 0 (monthly_counts c))
         sorted_months;
     top_cnas := top_cnas;
     cna_timelines :=
       fold_left
         (fun acc cna_ =>
            dict_set cna_
              (by_month
                 (fun m =>
                    dict_get_default m 0
                      (dict_get_default cna_ [] (monthly_by_cna c)))
                 sorted_months) acc)
         top_cnas [];
     total_cves := Z.of_nat (List.length temporal_data);
     date_range :=
       match sorted_months with
       | [] => "N/A"
       | first_ :: _ => first_ ++ " to " ++ last sorted_months first_
       end |}.

End Trends.

(* ================================================================== *)
(** * Predicates of the specification *)
(* ================================================================== *)

(** Every edge joins two nodes of the graph. *)
Definition closed (G : Graph) : Prop :=
  forall e, In e (edges G) ->
    has_node (src e) G = true /\ has_node (dst e) G = true.

(** [n] is an end point of [e]. *)
Definition endpoint (n : string) (e : edge) : Prop := src e = n \/ dst e = n.

(** [G[u][v][key]], when there is an edge between [u] and [v] that carries
    the attribute. *)
Definition edge_attr (u v key : string) (G : Graph) : option attr :=
  match edge_data u v G with
  | Some a => dict_get key a
  | None => None
  end.

(** The association [kv] of [build_graph] lands on the edge between [a] and
    [b]: its authority, under its display name, and its weakness are [a] and
    [b] in one order or the other. *)
Definition lands_on (names : dict string string) (a b : string)
    (kv : string * string * Z) : bool :=
  joins a b {| src := BuildGraph.display_name names (fst (fst kv));
               dst := snd (fst kv); data := [] |}.

(** The number of edges of [G] between [u] and [v]. *)
Definition edge_count (u v : string) (G : Graph) : nat :=
  List.length (filter (joins u v) (edges G)).

(** A graph without parallel edges. *)
Definition simple (G : Graph) : Prop :=
  forall u v, (edge_count u v G <= 1)%nat.

(** Two authorities with one display name, for the examples. *)
Definition names_acme : dict string string :=
  [("uuid-1", "acme"); ("uuid-2", "acme")].

Definition assoc_acme : dict (string * string) Z :=
  [(("uuid-1", "CWE-79"), 3); (("uuid-2", "CWE-79"), 5)].

(** ** Documents for the examples *)

Definition cwe_description (code : string) : description :=
  {| desc_type := Some "CWE"; desc_cweId := Some code; desc_value := None |}.

(** A document with one problem type holding the given codes and one affected
    item per vendor. *)
Definition document (id : string) (org short published : option string)
    (codes vendors : list string) : cve_document :=
  {| cveMetadata :=
       {| cveId := Some id; datePublished := published; dateUpdated := None;
          state := None; assignerOrgId := org; assignerShortName := short |};
     cna := {| problemTypes := [ {| descriptions := map cwe_description codes |} ];
               affected :=
                 map (fun v => {| item_vendor := Some v;
                                  item_product := Some "product" |}) vendors;
               references := [] |};
     adp := [] |}.

(** ** The authority of a document in [parse_cve_files] *)

(** The document passes the date filter and has an authority UUID, so that
    lines 106-110 of scripts/build_graph.py run for it. *)
Definition reaches_authority (fromisoformat : string -> option datetime)
    (cutoff : Z) (doc : cve_document) : bool :=
  match date_filter fromisoformat cutoff (datePublished (cveMetadata doc)) with
  | Ok Keep => truthy (assignerOrgId (cveMetadata doc))
  | _ => false
  end.

Definition carries (fromisoformat : string -> option datetime) (cutoff : Z)
    (uuid : string) (doc : cve_document) : bool :=
  reaches_authority fromisoformat cutoff doc
  && String.eqb (get_or_empty (assignerOrgId (cveMetadata doc))) uuid.

(** The name a document binds to its UUID when it is the first to carry it:
    the short name, or the UUID itself when there is none. *)
Definition bound_name (uuid : string) (doc : cve_document) : string :=
  if truthy (assignerShortName (cveMetadata doc))
  then get_or_empty (assignerShortName (cveMetadata doc))
  else uuid.

(** ** Sums of counts *)

(** The sum of all the counts of a mapping. *)
Definition total_weight {K : Type} (d : dict K Z) : Z :=
  fold_right Z.add 0 (map snd d).

(** The sum of the counts of the pairs [(a, b)] of a mapping, over all
    [b]. *)
Definition incident_weight (a : string) (assoc : dict (string * string) Z)
  : Z :=
  total_weight (filter (fun kv => String.eqb (fst (fst kv)) a) assoc).


Section Contributions.
Variable fromisoformat : string -> option datetime.
Variable cutoff : Z.
Variable a : string.

(** The number of increments the documents with authority [a] make in
    [parse_cve_files]: one for each weakness of each of them. *)
Definition contributions (corpus : list cve_document) : Z :=
  fold_right Z.add 0
    (map (fun doc =>
            if carries fromisoformat cutoff a doc
            then Z.of_nat (List.length (extract_cwes doc []))
            else 0) corpus).

(** The number of documents with authority [a] that contribute to some
    pair [(a, b)]: those with at least one weakness. *)
Definition contributing_records (corpus : list cve_document) : Z :=
  Z.of_nat
    (List.length
       (filter (fun doc =>
                  carries fromisoformat cutoff a doc
                  && negb (Nat.eqb (List.length (extract_cwes doc [])) 0))
          corpus)).
End Contributions.

(** Every count of a mapping is at least one. *)
Definition positive_counts {K : Type} (d : dict K Z) : Prop :=
  Forall (fun v => 1 <= v) (map snd d).

(** ** The scenario of three records *)

Definition R1 : cve_document :=
  document "CVE-2024-0001" (Some "A") None (Some "2024-01-01T00:00:00.000Z")
    ["CWE-79"; "CWE-89"] [].

Definition R2 : cve_document :=
  document "CVE-2024-0002" (Some "A") None (Some "2024-06-01T00:00:00.000Z")
    ["CWE-79"] [].

Definition R3 : cve_document :=
  document "CVE-2024-0003" (Some "B") None (Some "2024-01-15T00:00:00.000Z")
    ["CWE-89"] [].

Definition scenario : list cve_document := [R1; R2; R3].

(** 2024-01-01T00:00:00 UTC, the earliest date of the scenario, in
    microseconds. *)
Definition scenario_start : Z := 63839664000000000.

(** 2024-06-01T00:00:00 UTC, the latest date of the scenario. *)
Definition scenario_end : Z := 63852796800000000.

(** ** Documents for the date filter *)

(** A publication date that no ISO 8601 reader accepts. *)
Definition doc_unreadable_date : cve_document :=
  document "CVE-2024-0004" (Some "A") None (Some "not-a-date") ["CWE-79"] [].

(** A publication date without offset. *)
Definition doc_naive_date : cve_document :=
  document "CVE-2024-0005" (Some "A") None (Some "2024-03-01T12:00:00")
    ["CWE-79"] [].

(** The same authority, first without and then with a short name. *)
Definition doc_without_short : cve_document :=
  document "CVE-2024-0006" (Some "uuid-1") None None ["CWE-79"] [].

Definition doc_with_short : cve_document :=
  document "CVE-2024-0007" (Some "uuid-1") (Some "acme") None ["CWE-89"] [].




(** What [replace("_", " ")] does to one character. *)
Definition underscore_to_space (c : ascii) : ascii :=
  if Ascii.eqb c "_" then " "%char else c.

(** ** Vendors *)





(** ** Data for the examples of the compact builders *)

(** The scenario as [parse_cve_files_compact] indexes it. *)
Definition scenario_compact : Compact.compact_data :=
  {| Compact.cve_to_cwes :=
       [("CVE-2024-0001", ["CWE-79"; "CWE-89"]); ("CVE-2024-0002", ["CWE-79"]);
        ("CVE-2024-0003", ["CWE-89"])];
     Compact.cve_to_cna :=
       [("CVE-2024-0001", "A"); ("CVE-2024-0002", "A"); ("CVE-2024-0003", "B")];
     Compact.cwe_to_cves :=
       [("CWE-79", ["CVE-2024-0001"; "CVE-2024-0002"]);
        ("CWE-89", ["CVE-2024-0001"; "CVE-2024-0003"])];
     Compact.cna_to_cves :=
       [("A", ["CVE-2024-0001"; "CVE-2024-0002"]); ("B", ["CVE-2024-0003"])] |}.

(** ** Reachability *)

(** [v] is reachable from [c] in at most [k] edge hops. *)
Inductive within_hops (G : Graph) : nat -> string -> string -> Prop :=
| hops_here : forall k c, within_hops G k c c
| hops_step : forall k c v w,
    within_hops G k c v -> has_edge v w G = true ->
    within_hops G (S k) c w.

(** An authority whose name is also one of its weakness codes. *)
Definition data_loop : Compact.compact_data :=
  {| Compact.cve_to_cwes := [("CVE-2024-0009", ["CWE-79"])];
     Compact.cve_to_cna := [("CVE-2024-0009", "CWE-79")];
     Compact.cwe_to_cves := [("CWE-79", ["CVE-2024-0009"])];
     Compact.cna_to_cves := [("CWE-79", ["CVE-2024-0009"])] |}.

(** The state of the breadth-first search from [c] after [k] levels: the
    nodes seen are those within [k] hops, the current level is among them,
    and a node seen outside the current level has all its neighbours
    seen. *)
Definition search_invariant (G : Graph) (c : string) (k : nat)
    (seen level : list string) : Prop :=
  (forall v, In v seen <-> within_hops G k c v)
  /\ (forall v, In v level -> In v seen)
  /\ (forall v, In v seen ->
        In v level \/ forall w, has_edge v w G = true -> In w seen).

(** ** Edge attributes *)



(** The edge carries the attributes of a temporal link, a product and a
    distance in days within the window, and no weight. *)
Definition temporal_edge (days_window : Z) (e : edge) : Prop :=
  dict_get "weight" (data e) = None
  /\ (exists key, dict_get "product" (data e) = Some (AStr key))
  /\ (exists days, dict_get "days_apart" (data e) = Some (AInt days)
                   /\ days <= days_window).

(** Two CVEs of one product published two days apart. *)
Definition temporal_corpus : list cve_document :=
  [ document "CVE-2024-0010" (Some "A") None (Some "2024-03-01T00:00:00.000Z")
      ["CWE-79"] ["acme"];
    document "CVE-2024-0011" (Some "A") None (Some "2024-03-03T00:00:00.000Z")
      ["CWE-89"] ["acme"] ].

(** ** Dates kept by [parse_cve_files_extended] *)

(** The publication date of the metadata, when it is read, has an offset. *)
Definition published_aware (fromisoformat : string -> option datetime)
    (meta : Alternative.cve_meta) : Prop :=
  forall s d,
    Alternative.published meta = Some s -> nonempty s = true ->
    fromisoformat (replace_char_by "Z" "+00:00" s) = Some d ->
    is_aware d = true.

(** Every date of a list of CVEs has an offset. *)
Definition all_aware (cve_list : list (string * datetime)) : Prop :=
  Forall (fun x => is_aware (snd x) = true) cve_list.

(** A graph of temporal links. *)
Definition temporal_graph (days_window : Z) (G : Graph) : Prop :=
  closed G /\ Forall (temporal_edge days_window) (edges G).

(** ** What [parse_cve_files] does with a document *)

(** The date filter drops the document. *)
Definition date_dropped (fromisoformat : string -> option datetime)
    (cutoff : Z) (doc : cve_document) : bool :=
  match date_filter fromisoformat cutoff (datePublished (cveMetadata doc)) with
  | Ok Drop => true
  | _ => false
  end.

(** The document passes the date filter and has no authority UUID. *)
Definition without_authority (fromisoformat : string -> option datetime)
    (cutoff : Z) (doc : cve_document) : bool :=
  match date_filter fromisoformat cutoff (datePublished (cveMetadata doc)) with
  | Ok Keep => negb (truthy (assignerOrgId (cveMetadata doc)))
  | _ => false
  end.

(** The document reaches the aggregator with at least one weakness. *)
Definition contributes (fromisoformat : string -> option datetime)
    (cutoff : Z) (doc : cve_document) : bool :=
  reaches_authority fromisoformat cutoff doc
  && negb (Nat.eqb (List.length (extract_cwes doc [])) 0).

(** The number of documents of a corpus that satisfy [p]. *)
Definition count_documents (p : cve_document -> bool)
    (corpus : list cve_document) : Z :=
  Z.of_nat (List.length (filter p corpus)).

(** Every description of the document: those of the CNA container, then
    those of the ADP containers. *)
Definition all_descriptions (doc : cve_document) : list description :=
  flat_map descriptions (problemTypes (cna doc))
  ++ flat_map (fun a => flat_map descriptions (problemTypes a)) (adp doc).

(** The attributes of a node give it one of the two types of the
    authority-weakness graph. *)
Definition typed_node (d : attrs) : Prop :=
  BuildGraphMain.has_type "cna" d = true
  \/ BuildGraphMain.has_type "cwe" d = true.

(** ** The indexes of [parse_cve_files_extended] *)


(** ** Temporal links *)

(** The edge carries a distance in days between zero and the window. *)
Definition days_in_window (days_window : Z) (e : edge) : Prop :=
  exists days,
    dict_get "days_apart" (data e) = Some (AInt days)
    /\ 0 <= days <= days_window.

(** The dates of the list do not decrease. *)
Definition by_date (cve_list : list (string * datetime)) : Prop :=
  StronglySorted
    (fun a b => (instant (snd a) <=? instant (snd b)) = true) cve_list.

(** Every node of the graph is an end point of one of its edges. *)
Definition covered (G : Graph) : Prop :=
  forall n, has_node n G = true -> exists e, In e (edges G) /\ endpoint n e.

(** The node is tagged as a CVE and labelled with its id. *)
Definition tagged_cve (n : string) (G : Graph) : Prop :=
  exists a,
    dict_get n (nodes G) = Some a
    /\ dict_get "type" a = Some (AStr "cve")
    /\ dict_get "label" a = Some (AStr n).

(** ** Corpora whose dates carry an offset *)

(** Every publication date of the corpus that is read has an offset. *)
Definition dates_aware (fromisoformat : string -> option datetime)
    (corpus : list cve_document) : Prop :=
  Forall (fun doc =>
    forall s d,
      datePublished (cveMetadata doc) = Some s ->
      fromisoformat (replace_char_by "Z" "+00:00" s) = Some d ->
      is_aware d = true) corpus.

(** ** The node table of the Sankey data *)

(** The index bound to each name is the position of a node with that name,
    and the next index is the number of nodes. *)
Definition indexes_nodes
    (acc : list Charts.sankey_node * dict string Z * Z) : Prop :=
  snd acc = Z.of_nat (List.length (fst (fst acc)))
  /\ forall node_name i,
       dict_get node_name (snd (fst acc)) = Some i ->
       0 <= i
       /\ exists node,
            nth_error (fst (fst acc)) (Z.to_nat i) = Some node
            /\ Charts.name node = node_name.

(** The link joins the node of the authority and the node of the weakness
    of a pair of the mapping, and carries the count of the pair. *)
Definition resolves (cna_cwe : dict (string * string) Z)
    (cna_names : dict string string) (nodes : list Charts.sankey_node)
    (link : Charts.sankey_link) : Prop :=
  exists cna_uuid cwe,
    In ((cna_uuid, cwe), Charts.value link) cna_cwe
    /\ 0 <= Charts.source link /\ 0 <= Charts.target link
    /\ (exists node,
          nth_error nodes (Z.to_nat (Charts.source link)) = Some node
          /\ Charts.name node = BuildGraph.display_name cna_names cna_uuid)
    /\ (exists node,
          nth_error nodes (Z.to_nat (Charts.target link)) = Some node
          /\ Charts.name node = cwe).

(** ** Links between the members of a pair *)

(** The edge carries, as its weight and under [key], the count of what its
    end points share, and the count reaches the threshold. *)
Definition links_shared (count : string -> string -> Z) (key : string)
    (threshold : Z) (e : edge) : Prop :=
  exists k,
    dict_get "weight" (data e) = Some (AInt k)
    /\ dict_get key (data e) = Some (AInt k)
    /\ k = count (src e) (dst e)
    /\ threshold <= k.

(** The entry has a number for its score, and
    [build_cvss_severity_distribution] counts it in the range [r]. *)
Definition in_range (r : string) (item : Severity.cvss_item) : bool :=
  match Severity.base_score item with
  | Some score => String.eqb (Severity.range_of score) r
  | None => false
  end.

(** The node is a CVE node whose identifier starts with [CVE-]. *)
Definition dated (n : Timeline.node) : bool :=
  Optimize.option_eqb (Timeline.type n) (Some "cve")
  && startswith "CVE-" (match Timeline.id n with Some s => s | None => "" end).

(** The part of the identifier between its first and its second dash. *)
Definition period_of (n : Timeline.node) : string :=
  nth 1 (Timeline.split_dash
           (match Timeline.id n with Some s => s | None => "" end)) "".

(** The number of the nodes of [nodes] that satisfy [p]. *)
Definition count_nodes (p : Timeline.node -> bool) (nodes : list Timeline.node)
  : Z :=
  Z.of_nat (List.length (filter p nodes)).

(** The counts of the periods of [monthly_stats], as a counter. *)
Definition counts_of (ms : dict string Timeline.stats) : dict string Z :=
  map (fun kv => (fst kv, Timeline.count (snd kv))) ms.

(** The authorities counted for a period. *)
Definition cnas_of (p : string) (ms : dict string Timeline.stats)
  : dict string Z :=
  Timeline.cnas (dict_get_default p Timeline.no_stats ms).

(** The number of the CVEs of [data] that carry both weaknesses. *)
Definition cooccurrences (data : Compact.compact_data) (a b : string) : Z :=
  Z.of_nat
    (List.length
       (filter (fun kv => set_mem a (snd kv) && set_mem b (snd kv))
          (Compact.cve_to_cwes data))).

(** The edge carries a weight between 1 and [bound] of its end points. *)
Definition weight_within (bound : string -> string -> Z) (e : edge) : Prop :=
  exists k,
    dict_get "weight" (data e) = Some (AInt k)
    /\ 1 <= k <= bound (src e) (dst e).

(** The pairs [build_circular_cwe_layout] counts, CVE after CVE. *)
Definition counted_pairs (data : Compact.compact_data)
    (top_cwe_ids : list string) : list (string * string) :=
  flat_map
    (fun kv : string * list string =>
       combinations2
         (filter (fun c => Circular.in_list c top_cwe_ids) (snd kv)))
    (Compact.cve_to_cwes data).

(** The number of the CVEs of the weakness [cwe] whose authority is
    [cna_]. *)
Definition assigned (data : Compact.compact_data) (cwe cna_ : string) : Z :=
  Z.of_nat
    (List.length
       (filter
          (fun cve_id =>
             Optimize.option_eqb (dict_get cve_id (Compact.cve_to_cna data))
               (Some cna_))
          (dict_get_default cwe [] (Compact.cwe_to_cves data)))).

(** The authorities [build_cwe_star_graphs] counts for the CVEs [cves],
    CVE after CVE. *)
Definition authorities_of (data : Compact.compact_data) (cves : list string)
  : list string :=
  flat_map
    (fun cve_id =>
       match dict_get cve_id (Compact.cve_to_cna data) with
       | Some cna_ => if nonempty cna_ then [cna_] else []
       | None => []
       end) cves.

(** The links of the stars, in the order [build_cwe_star_graphs] adds
    them: a weakness with an authority and its count. *)
Definition star_links (data : Compact.compact_data) (top : list (string * Z))
  : list (string * (string * Z)) :=
  flat_map
    (fun kv => map (fun cc => (fst kv, cc)) (Stars.spokes data (fst kv))) top.

(** The edges after the link [t] is added. *)
Definition link_edge (es : list edge) (t : string * (string * Z))
  : list edge :=
  update_edge (fst t) (Stars.node_id (fst t) (fst (snd t)))
    [("weight", AInt (snd (snd t)))] es.

(** The month of an entry, counted from the year 0. *)
Definition months_since_0 (i : Trends.item) : Z :=
  Trends.year i * 12 + Trends.month i.

(** The year has four digits and the month is one of the twelve, as for
    any recent date of a [datetime]. *)
Definition dated_item (i : Trends.item) : Prop :=
  1000 <= Trends.year i <= 9999 /\ 1 <= Trends.month i <= 12.

(** Three entries over two months, the later month first. *)
Definition trends_scenario : list Trends.item :=
  [{| Trends.cna := "A"; Trends.year := 2024; Trends.month := 3;
      Trends.cwes := ["CWE-79"] |};
   {| Trends.cna := "B"; Trends.year := 2023; Trends.month := 11;
      Trends.cwes := [] |};
   {| Trends.cna := "A"; Trends.year := 2024; Trends.month := 3;
      Trends.cwes := ["CWE-89"] |}].

(* ================================================================== *)
(** * Lemmas on dictionaries and sets *)
(* ================================================================== *)

Section DictFacts.
Context {K V : Type} `{Hashable K}.
Implicit Types (k : K) (v : V) (d : dict K V).

Lemma keqb_refl k : keqb k k = true.
Proof. apply keqb_spec; reflexivity. Qed.

Lemma keqb_neq k k' : k <> k' -> keqb k k' = false.
Proof.
  intros N. destruct (keqb k k') eqn:E; [|reflexivity].
  apply keqb_spec in E. contradiction.
Qed.

Lemma keqb_false k k' : keqb k k' = false -> k <> k'.
Proof. intros E ->. rewrite keqb_refl in E. discriminate. Qed.

Lemma keqb_sym k k' : keqb k k' = keqb k' k.
Proof.
  destruct (keqb k k') eqn:E.
  - apply keqb_spec in E; subst. symmetry; apply keqb_refl.
  - symmetry. apply keqb_neq. intros ->. rewrite keqb_refl in E.
    discriminate.
Qed.

Lemma dict_get_set_same k v d : dict_get k (dict_set k v d) = Some v.
Proof.
  induction d as [|[k' v'] r IH]; simpl.
  - rewrite keqb_refl; reflexivity.
  - destruct (keqb k k') eqn:E; simpl; rewrite E; auto.
Qed.

Lemma dict_get_set_other k k' v d :
  k <> k' -> dict_get k' (dict_set k v d) = dict_get k' d.
Proof.
  intros N. induction d as [|[k0 v0] r IH]; simpl.
  - rewrite (keqb_neq k' k); auto.
  - destruct (keqb k k0) eqn:E; simpl.
    + apply keqb_spec in E; subst k0. rewrite (keqb_neq k' k); auto.
    + destruct (keqb k' k0); auto.
Qed.

Lemma dict_get_set k k' v d :
  dict_get k' (dict_set k v d) = if keqb k k' then Some v else dict_get k' d.
Proof.
  destruct (keqb k k') eqn:E.
  - apply keqb_spec in E; subst. apply dict_get_set_same.
  - apply dict_get_set_other. now apply keqb_false.
Qed.

Lemma dict_contains_set k k' v d :
  dict_contains k' (dict_set k v d) = keqb k k' || dict_contains k' d.
Proof.
  unfold dict_contains. rewrite dict_get_set.
  destruct (keqb k k'); reflexivity.
Qed.

Lemma dict_get_In k d :
  dict_contains k d = true <-> In k (dict_keys d).
Proof.
  unfold dict_contains. induction d as [|[k' v'] r IH]; simpl.
  - split; [discriminate | tauto].
  - destruct (keqb k k') eqn:E.
    + apply keqb_spec in E; subst. split; auto.
    + rewrite IH. split; auto. intros [->|]; auto.
      rewrite keqb_refl in E; discriminate.
Qed.

Lemma dict_keys_set k v d :
  dict_keys (dict_set k v d)
  = if dict_contains k d then dict_keys d else dict_keys d ++ [k].
Proof.
  unfold dict_contains. induction d as [|[k' v'] r IH]; simpl; auto.
  destruct (keqb k k') eqn:E; simpl; auto.
  rewrite IH. destruct (dict_get k r); reflexivity.
Qed.

Lemma dict_keys_set_In k k' v d :
  In k' (dict_keys (dict_set k v d)) <-> k' = k \/ In k' (dict_keys d).
Proof.
  rewrite dict_keys_set. destruct (dict_contains k d) eqn:E.
  - apply dict_get_In in E. split; auto. intros [->|]; auto.
  - rewrite in_app_iff; simpl. intuition.
Qed.

Lemma dict_keys_set_NoDup k v d :
  NoDup (dict_keys d) -> NoDup (dict_keys (dict_set k v d)).
Proof.
  intros ND. rewrite dict_keys_set. destruct (dict_contains k d) eqn:E; auto.
  apply NoDup_app; auto.
  - repeat constructor; simpl; tauto.
  - intros x Hx [<-|[]]. apply dict_get_In in Hx. congruence.
Qed.

Lemma dict_set_values k v d (P : V -> Prop) :
  P v -> Forall P (map snd d) -> Forall P (map snd (dict_set k v d)).
Proof.
  intros Pv. induction d as [|[k' v'] r IH]; simpl; intros F.
  - constructor; auto.
  - inversion F; subst. destruct (keqb k k'); simpl; constructor; auto.
Qed.

Lemma dict_get_values k v d (P : V -> Prop) :
  Forall P (map snd d) -> dict_get k d = Some v -> P v.
Proof.
  induction d as [|[k' v'] r IH]; simpl; intros F E; [discriminate|].
  inversion F; subst. destruct (keqb k k'); auto. now inversion E; subst.
Qed.

Lemma dict_In_get k v d :
  NoDup (dict_keys d) -> In (k, v) d -> dict_get k d = Some v.
Proof.
  induction d as [|[k' v'] r IH]; simpl; intros ND I; [destruct I|].
  apply NoDup_cons_iff in ND. destruct ND as [NI ND].
  destruct I as [E|I].
  - inversion E; subst. now rewrite keqb_refl.
  - destruct (keqb k k') eqn:E.
    + apply keqb_spec in E; subst. exfalso. apply NI.
      change k' with (fst (k', v)). now apply in_map.
    + auto.
Qed.

Lemma dict_get_Some_In k v d : dict_get k d = Some v -> In (k, v) d.
Proof.
  induction d as [|[k' v'] r IH]; simpl; intros E; [discriminate|].
  destruct (keqb k k') eqn:Ek; auto.
  apply keqb_spec in Ek; subst. inversion E; subst. now left.
Qed.
End DictFacts.

Section SetFacts.
Context {A : Type} `{Hashable A}.
Implicit Types (x : A) (s : pyset A).

Lemma set_mem_In x s : set_mem x s = true <-> In x s.
Proof.
  unfold set_mem. rewrite existsb_exists. split.
  - intros [y [I E]]. apply keqb_spec in E; now subst.
  - intros I. exists x. split; auto. apply keqb_refl.
Qed.

Lemma set_mem_false x s : set_mem x s = false <-> ~ In x s.
Proof.
  rewrite <- set_mem_In. destruct (set_mem x s); split; congruence.
Qed.

Lemma set_add_In x y s : In y (set_add x s) <-> y = x \/ In y s.
Proof.
  unfold set_add. destruct (set_mem x s) eqn:E.
  - apply set_mem_In in E. split; auto. intros [->|]; auto.
  - rewrite in_app_iff; simpl. intuition.
Qed.

Lemma set_add_NoDup x s : NoDup s -> NoDup (set_add x s).
Proof.
  intros ND. unfold set_add. destruct (set_mem x s) eqn:E; auto.
  apply set_mem_false in E. apply NoDup_app; auto.
  - repeat constructor; simpl; tauto.
  - intros y Hy [<-|[]]. contradiction.
Qed.

(** A set filled by [add] from items [f y]. *)
Lemma fold_set_add_In {B} (f : B -> A) (l : list B) s x :
  In x (fold_left (fun acc y => set_add (f y) acc) l s)
  <-> In x s \/ exists y, In y l /\ x = f y.
Proof.
  revert s. induction l as [|b r IH]; simpl; intros s.
  - split; auto. intros [|[y [[] _]]]; auto.
  - rewrite IH, set_add_In. split.
    + intros [[->|I]|[y [I E]]]; eauto.
    + intros [I|[y [[->|I] E]]]; eauto.
Qed.

Lemma fold_set_add_NoDup {B} (f : B -> A) (l : list B) s :
  NoDup s -> NoDup (fold_left (fun acc y => set_add (f y) acc) l s).
Proof.
  revert s. induction l as [|b r IH]; simpl; intros s ND; auto.
  apply IH. now apply set_add_NoDup.
Qed.
End SetFacts.

(* ================================================================== *)
(** * Lemmas on graphs *)
(* ================================================================== *)

Section GraphFacts.
Implicit Types (G : Graph) (n u v : string) (a : attrs) (e : edge).

Lemma has_node_add_node n m a G :
  has_node n (add_node m a G) = String.eqb m n || has_node n G.
Proof.
  unfold has_node, add_node; simpl.
  apply (@dict_contains_set string attrs Hashable_string).
Qed.

Lemma contains_touch_node n m (ns : dict string attrs) :
  dict_contains n (touch_node m ns) = String.eqb m n || dict_contains n ns.
Proof.
  unfold touch_node. destruct (dict_contains m ns) eqn:E.
  - destruct (String.eqb_spec m n); subst; simpl; auto.
  - apply (@dict_contains_set string attrs Hashable_string).
Qed.

Lemma has_node_add_edge n u v a G :
  has_node n (add_edge u v a G)
  = String.eqb v n || (String.eqb u n || has_node n G).
Proof.
  unfold has_node, add_edge; simpl. now rewrite !contains_touch_node.
Qed.

Lemma has_node_set_node_attr n m key (value : attr) G :
  has_node n (set_node_attr m key value G)
  = String.eqb m n || has_node n G.
Proof.
  unfold has_node, set_node_attr; simpl.
  apply (@dict_contains_set string attrs Hashable_string).
Qed.

Lemma has_node_In n G : has_node n G = true <-> In n (dict_keys (nodes G)).
Proof. apply dict_get_In. Qed.

Lemma joins_endpoints u v e :
  joins u v e = true <->
  (src e = u /\ dst e = v) \/ (src e = v /\ dst e = u).
Proof.
  unfold joins. rewrite orb_true_iff, !andb_true_iff, !String.eqb_eq.
  intuition.
Qed.

Lemma joins_sym u v e : joins u v e = joins v u e.
Proof.
  unfold joins.
  destruct (String.eqb u (src e)), (String.eqb v (dst e)),
    (String.eqb u (dst e)), (String.eqb v (src e)); reflexivity.
Qed.

(** An edge joins at most one unordered pair. *)
Lemma joins_same_pair u v u' v' e :
  joins u v e = true -> joins u' v' e = true ->
  (u' = u /\ v' = v) \/ (u' = v /\ v' = u).
Proof. rewrite !joins_endpoints. intuition congruence. Qed.

Lemma update_edge_Forall (P : edge -> Prop) u v a es :
  (forall e, P e -> joins u v e = true ->
     P {| src := src e; dst := dst e; data := dict_update (data e) a |}) ->
  P {| src := u; dst := v; data := dict_update [] a |} ->
  Forall P es -> Forall P (update_edge u v a es).
Proof.
  intros Hupd Hnew. induction es as [|e r IH]; simpl; intros F.
  - repeat constructor; auto.
  - inversion F; subst. destruct (joins u v e) eqn:E; constructor; auto.
Qed.

Lemma update_edge_has u v a es :
  existsb (joins u v) (update_edge u v a es) = true.
Proof.
  induction es as [|e r IH]; simpl.
  - unfold joins; simpl. now rewrite !String.eqb_refl.
  - destruct (joins u v e) eqn:E; simpl.
    + unfold joins in *; simpl. now rewrite E.
    + now rewrite E.
Qed.

Lemma update_edge_keeps u v a u' v' es :
  existsb (joins u' v') es = true ->
  existsb (joins u' v') (update_edge u v a es) = true.
Proof.
  induction es as [|e r IH]; simpl; [discriminate|].
  intros E. destruct (joins u v e) eqn:J; simpl.
  - unfold joins in *; simpl in *. exact E.
  - apply orb_true_iff in E. destruct E as [E|E].
    + now rewrite E.
    + rewrite IH; auto. apply orb_true_r.
Qed.

Lemma update_edge_endpoints u v a es e :
  In e (update_edge u v a es) ->
  (src e = u /\ dst e = v)
  \/ exists e0, In e0 es /\ src e = src e0 /\ dst e = dst e0.
Proof.
  induction es as [|e0 r IH]; simpl.
  - intros [<-|[]]. now left.
  - destruct (joins u v e0) eqn:J; simpl.
    + intros [E|I]; right.
      * exists e0. subst e. simpl. auto.
      * exists e. auto.
    + intros [E|I].
      * right. exists e0. subst e. auto.
      * destruct (IH I) as [?|[e1 [? ?]]]; auto. right. exists e1. auto.
Qed.

Lemma has_edge_add_edge u v a G : has_edge u v (add_edge u v a G) = true.
Proof. apply update_edge_has. Qed.

Lemma has_edge_add_edge_keeps u v a u' v' G :
  has_edge u' v' G = true -> has_edge u' v' (add_edge u v a G) = true.
Proof. apply update_edge_keeps. Qed.

Lemma closed_empty : closed empty.
Proof. intros e []. Qed.

Lemma closed_add_node n a G : closed G -> closed (add_node n a G).
Proof.
  intros C e I. destruct (C e I) as [Hs Hd].
  rewrite !has_node_add_node, Hs, Hd, !orb_true_r. auto.
Qed.

Lemma closed_set_node_attr n key (value : attr) G :
  closed G -> closed (set_node_attr n key value G).
Proof.
  intros C e I. destruct (C e I) as [Hs Hd].
  rewrite !has_node_set_node_attr, Hs, Hd, !orb_true_r. auto.
Qed.

Lemma closed_add_edge u v a G : closed G -> closed (add_edge u v a G).
Proof.
  intros C e I. rewrite !has_node_add_edge.
  apply update_edge_endpoints in I.
  destruct I as [[-> ->]|[e0 [I0 [-> ->]]]].
  - rewrite !String.eqb_refl, !orb_true_r. auto.
  - destruct (C e0 I0) as [-> ->]. rewrite !orb_true_r. auto.
Qed.

Lemma has_edge_endpoint u v G :
  has_edge u v G = true ->
  exists e, In e (edges G) /\ endpoint u e /\ endpoint v e.
Proof.
  unfold has_edge. rewrite existsb_exists. intros [e [I J]].
  exists e. split; auto. apply joins_endpoints in J.
  unfold endpoint. intuition.
Qed.
End GraphFacts.

(** Folding a step that preserves an invariant preserves it. *)
Lemma fold_left_invariant {A B} (P : A -> Prop) (f : A -> B -> A) l a :
  (forall a b, In b l -> P a -> P (f a b)) -> P a -> P (fold_left f l a).
Proof.
  revert a. induction l as [|b r IH]; simpl; intros a Hf Ha; [exact Ha|].
  apply IH.
  - intros a' b' I Pa. apply Hf; auto.
  - apply Hf; auto.
Qed.

(* ================================================================== *)
(** * build_graph: nodes, edges and weights *)
(* ================================================================== *)

Section BuildGraphFacts.
Import BuildGraph.
Variable names : dict string string.

Lemma has_node_fold_add_node {B} (key : B -> string) (at_ : B -> attrs)
    (l : list B) G n :
  has_node n (fold_left (fun G b => add_node (key b) (at_ b) G) l G) = true
  <-> has_node n G = true \/ exists b, In b l /\ n = key b.
Proof.
  revert G. induction l as [|b r IH]; simpl; intros G.
  - split; auto. intros [|[b [[] _]]]; auto.
  - rewrite IH, has_node_add_node, orb_true_iff, String.eqb_eq. split.
    + intros [[E|I]|[b' [I E]]]; eauto.
    + intros [I|[b' [[->|I] E]]]; eauto.
Qed.

Lemma edges_fold_add_node {B} (key : B -> string) (at_ : B -> attrs)
    (l : list B) G :
  edges (fold_left (fun G b => add_node (key b) (at_ b) G) l G) = edges G.
Proof. revert G. induction l as [|b r IH]; simpl; intros G; auto.
       now rewrite IH. Qed.

Lemma has_node_add_weighted_edges assoc G n :
  has_node n (add_weighted_edges names assoc G) = true
  <-> has_node n G = true
      \/ exists kv, In kv assoc
           /\ (n = display_name names (fst (fst kv)) \/ n = snd (fst kv)).
Proof.
  unfold add_weighted_edges. revert G.
  induction assoc as [|kv r IH]; simpl; intros G.
  - split; auto. intros [|[b [[] _]]]; auto.
  - rewrite IH, has_node_add_edge, !orb_true_iff, !String.eqb_eq. split.
    + intros [[E|[E|I]]|[b' [I E]]]; eauto 6.
    + intros [I|[b' [[->|I] [E|E]]]]; eauto 6.
Qed.

Lemma has_edge_add_weighted_edges_keeps assoc G u v :
  has_edge u v G = true ->
  has_edge u v (add_weighted_edges names assoc G) = true.
Proof.
  unfold add_weighted_edges. revert G.
  induction assoc as [|kv r IH]; simpl; intros G E; auto.
  apply IH. now apply has_edge_add_edge_keeps.
Qed.

Lemma has_edge_add_weighted_edges assoc G kv :
  In kv assoc ->
  has_edge (display_name names (fst (fst kv))) (snd (fst kv))
    (add_weighted_edges names assoc G) = true.
Proof.
  revert G. induction assoc as [|kv' r IH]; simpl; intros G [].
  - subst kv'. apply has_edge_add_weighted_edges_keeps.
    apply has_edge_add_edge.
  - now apply IH.
Qed.

Lemma collect_cnas_In assoc u :
  In u (collect_cnas assoc) <-> exists kv, In kv assoc /\ u = fst (fst kv).
Proof.
  unfold collect_cnas.
  rewrite (fold_set_add_In (fun kv : string * string * Z => fst (fst kv))).
  simpl. tauto.
Qed.

Lemma collect_cwes_In assoc c :
  In c (collect_cwes assoc) <-> exists kv, In kv assoc /\ c = snd (fst kv).
Proof.
  unfold collect_cwes.
  rewrite (fold_set_add_In (fun kv : string * string * Z => snd (fst kv))).
  simpl. tauto.
Qed.

(** The nodes of the graph are the display names and the weaknesses of the
    association keys. *)
Lemma build_graph_nodes assoc n :
  has_node n (build_graph assoc names) = true
  <-> exists kv, In kv assoc
        /\ (n = display_name names (fst (fst kv)) \/ n = snd (fst kv)).
Proof.
  unfold build_graph. rewrite has_node_add_weighted_edges.
  unfold add_cwe_nodes, add_cna_nodes.
  rewrite (has_node_fold_add_node (fun c => c) cwe_attrs).
  rewrite (has_node_fold_add_node (display_name names)
             (fun u => cna_attrs (display_name names u) u)).
  split.
  - intros [[[E|[u [I ->]]]|[c [I ->]]]|E]; auto.
    + discriminate.
    + apply collect_cnas_In in I. destruct I as [kv [I ->]]. eauto.
    + apply collect_cwes_In in I. destruct I as [kv [I ->]]. eauto.
  - auto.
Qed.

Lemma closed_fold {B} (f : Graph -> B -> Graph) (l : list B) G :
  (forall G b, closed G -> closed (f G b)) ->
  closed G -> closed (fold_left f l G).
Proof. intros Hf. apply fold_left_invariant. auto. Qed.

Lemma build_graph_closed assoc : closed (build_graph assoc names).
Proof.
  unfold build_graph, add_weighted_edges, add_cwe_nodes, add_cna_nodes.
  repeat apply closed_fold;
    auto using closed_add_edge, closed_add_node, closed_empty.
Qed.
End BuildGraphFacts.

Section WeightFacts.
Import BuildGraph.

Lemma joins_data a b u v d d' :
  joins a b {| src := u; dst := v; data := d |}
  = joins a b {| src := u; dst := v; data := d' |}.
Proof. reflexivity. Qed.

(** Two pairs that are the same up to order join the same edges. *)
Lemma joins_pair_eq a b u v d e :
  joins a b {| src := u; dst := v; data := d |} = true ->
  joins a b e = joins u v e.
Proof.
  intros J. apply joins_endpoints in J; simpl in J.
  destruct J as [[-> ->]|[-> ->]]; auto using joins_sym.
Qed.

Lemma joins_pair_of_edge a b u v d e :
  joins a b e = true -> joins u v e = true ->
  joins a b {| src := u; dst := v; data := d |} = true.
Proof.
  intros J1 J2. apply joins_endpoints; simpl.
  destruct (joins_same_pair _ _ _ _ _ J2 J1) as [[-> ->]|[-> ->]]; auto.
Qed.

Lemma weight_after_update (d : attrs) k :
  dict_get "weight" (dict_update d [("weight", AInt k)]) = Some (AInt k).
Proof.
  unfold dict_update; simpl.
  apply (@dict_get_set_same string attr Hashable_string).
Qed.

(** Adding an edge with a weight sets the weight between its end points
    and leaves every other weight as it was. *)
Lemma edge_attr_add_edge a b u v k G :
  edge_attr a b "weight" (add_edge u v [("weight", AInt k)] G)
  = if joins a b {| src := u; dst := v; data := [] |}
    then Some (AInt k) else edge_attr a b "weight" G.
Proof.
  unfold edge_attr, edge_data, add_edge; simpl.
  induction (edges G) as [|e r IH].
  - cbn [update_edge find].
    rewrite (joins_data a b u v _ []).
    destruct (joins a b _); simpl; auto.
  - cbn [update_edge find]. destruct (joins u v e) eqn:J.
    + cbn [find].
      replace (joins a b {| src := src e; dst := dst e;
                 data := dict_update (data e) [("weight", AInt k)] |})
        with (joins a b e) by reflexivity.
      destruct (joins a b e) eqn:Jab.
      * rewrite (joins_pair_of_edge a b u v [] e Jab J).
        cbn [option_map data]. apply weight_after_update.
      * destruct (joins a b {| src := u; dst := v; data := [] |}) eqn:P;
          auto.
        rewrite (joins_pair_eq a b u v [] e P) in Jab. congruence.
    + cbn [find]. destruct (joins a b e) eqn:Jab.
      * destruct (joins a b {| src := u; dst := v; data := [] |}) eqn:P;
          auto.
        rewrite (joins_pair_eq a b u v [] e P) in Jab. congruence.
      * exact IH.
Qed.

Variable names : dict string string.

(** Associations that do not land on an edge leave its weight alone. *)
Lemma edge_attr_skip a b post G :
  Forall (fun kv => lands_on names a b kv = false) post ->
  edge_attr a b "weight" (add_weighted_edges names post G)
  = edge_attr a b "weight" G.
Proof.
  unfold add_weighted_edges. revert G.
  induction post as [|kv r IH]; simpl; intros G F; auto.
  inversion F; subst. rewrite IH by assumption.
  rewrite edge_attr_add_edge. unfold lands_on in *.
  match goal with H : joins _ _ _ = false |- _ => now rewrite H end.
Qed.

(** The weight of an edge is the count of the last association that lands
    on it. *)
Lemma edge_attr_last a b pre kv post G :
  lands_on names a b kv = true ->
  Forall (fun kv => lands_on names a b kv = false) post ->
  edge_attr a b "weight" (add_weighted_edges names (pre ++ kv :: post) G)
  = Some (AInt (snd kv)).
Proof.
  intros L F.
  replace (add_weighted_edges names (pre ++ kv :: post) G)
    with (add_weighted_edges names post
            (add_edge (display_name names (fst (fst kv))) (snd (fst kv))
               [("weight", AInt (snd kv))]
               (add_weighted_edges names pre G)))
    by (unfold add_weighted_edges; now rewrite fold_left_app).
  rewrite edge_attr_skip by assumption.
  rewrite edge_attr_add_edge. unfold lands_on in L. now rewrite L.
Qed.

Lemma nodup_fold {B} (f : Graph -> B -> Graph) (l : list B) G :
  (forall G b, NoDup (dict_keys (nodes G)) ->
               NoDup (dict_keys (nodes (f G b)))) ->
  NoDup (dict_keys (nodes G)) -> NoDup (dict_keys (nodes (fold_left f l G))).
Proof.
  intros Hf.
  apply (fold_left_invariant (fun G => NoDup (dict_keys (nodes G)))). auto.
Qed.

Lemma nodup_add_node n a G :
  NoDup (dict_keys (nodes G)) -> NoDup (dict_keys (nodes (add_node n a G))).
Proof. apply dict_keys_set_NoDup. Qed.

Lemma nodup_touch_node n (ns : dict string attrs) :
  NoDup (dict_keys ns) -> NoDup (dict_keys (touch_node n ns)).
Proof.
  unfold touch_node. destruct (dict_contains n ns); auto.
  apply dict_keys_set_NoDup.
Qed.

Lemma nodup_add_edge u v a G :
  NoDup (dict_keys (nodes G)) ->
  NoDup (dict_keys (nodes (add_edge u v a G))).
Proof. intros ND. simpl. now repeat apply nodup_touch_node. Qed.

Lemma nodup_set_node_attr n key (value : attr) G :
  NoDup (dict_keys (nodes G)) ->
  NoDup (dict_keys (nodes (set_node_attr n key value G))).
Proof. apply dict_keys_set_NoDup. Qed.

Lemma build_graph_nodup assoc :
  NoDup (dict_keys (nodes (build_graph assoc names))).
Proof.
  unfold build_graph, add_weighted_edges, add_cwe_nodes, add_cna_nodes.
  repeat apply nodup_fold; auto using nodup_add_edge, nodup_add_node.
  constructor.
Qed.
End WeightFacts.

Section SimpleFacts.
Lemma filter_update_edge a b u v x es :
  List.length (filter (joins a b) (update_edge u v x es))
  = (List.length (filter (joins a b) es)
     + (if existsb (joins u v) es then 0
        else if joins a b {| src := u; dst := v; data := [] |} then 1
        else 0))%nat.
Proof.
  induction es as [|e r IH].
  - cbn [update_edge filter existsb].
    rewrite (joins_data a b u v _ []).
    destruct (joins a b _); reflexivity.
  - cbn [update_edge existsb]. destruct (joins u v e) eqn:J.
    + cbn [filter orb].
      replace (joins a b {| src := src e; dst := dst e;
                 data := dict_update (data e) x |})
        with (joins a b e) by reflexivity.
      destruct (joins a b e); simpl; lia.
    + cbn [filter orb]. destruct (joins a b e); simpl; rewrite IH; lia.
Qed.

Lemma simple_empty : simple empty.
Proof. intros u v. unfold edge_count; simpl. lia. Qed.

Lemma simple_add_node n a G : simple G -> simple (add_node n a G).
Proof. intros S u v. apply S. Qed.

Lemma simple_add_edge u v x G : simple G -> simple (add_edge u v x G).
Proof.
  intros S a b. unfold edge_count; simpl. rewrite filter_update_edge.
  specialize (S a b). unfold edge_count in S.
  destruct (existsb (joins u v) (edges G)) eqn:E; [lia|].
  destruct (joins a b {| src := u; dst := v; data := [] |}) eqn:P; [|lia].
  assert (Z0 : filter (joins a b) (edges G) = []).
  { destruct (filter (joins a b) (edges G)) as [|e r] eqn:F; auto.
    assert (I : In e (filter (joins a b) (edges G)))
      by (rewrite F; now left).
    apply filter_In in I. destruct I as [I J].
    rewrite (joins_pair_eq a b u v [] e P) in J.
    assert (X : existsb (joins u v) (edges G) = true)
      by (apply existsb_exists; eauto).
    congruence. }
  rewrite Z0. simpl. lia.
Qed.

Lemma edge_count_has_edge u v G :
  has_edge u v G = true -> (1 <= edge_count u v G)%nat.
Proof.
  unfold has_edge, edge_count. rewrite existsb_exists. intros [e [I J]].
  assert (F : In e (filter (joins u v) (edges G)))
    by (apply filter_In; auto).
  destruct (filter (joins u v) (edges G)); [destruct F | simpl; lia].
Qed.

Lemma build_graph_simple assoc names :
  simple (BuildGraph.build_graph assoc names).
Proof.
  unfold BuildGraph.build_graph, BuildGraph.add_weighted_edges,
    BuildGraph.add_cwe_nodes, BuildGraph.add_cna_nodes.
  repeat apply (fold_left_invariant simple);
    auto using simple_add_edge, simple_add_node, simple_empty.
Qed.
End SimpleFacts.

(** C10. [build_graph] never produces an isolated node: every node of the
    graph is an end point of at least one of its edges. *)
Theorem build_graph_no_isolated_node :
  forall (assoc : dict (string * string) Z) (names : dict string string)
         (n : string),
    has_node n (BuildGraph.build_graph assoc names) = true ->
    exists e, In e (edges (BuildGraph.build_graph assoc names))
              /\ endpoint n e.
Proof.
  intros assoc names n Hn.
  apply build_graph_nodes in Hn. destruct Hn as [kv [I Hn]].
  pose proof (has_edge_add_weighted_edges names assoc
    (BuildGraph.add_cwe_nodes (BuildGraph.collect_cwes assoc)
       (BuildGraph.add_cna_nodes names (BuildGraph.collect_cnas assoc) empty))
    kv I) as E.
  apply has_edge_endpoint in E. destruct E as [e [Ie [E1 E2]]].
  exists e. split; [exact Ie|]. destruct Hn; subst n; assumption.
Qed.

Lemma build_graph_no_isolated_node_witness :
  has_node "acme" (BuildGraph.build_graph assoc_acme names_acme) = true
  /\ exists e, In e (edges (BuildGraph.build_graph assoc_acme names_acme))
               /\ endpoint "acme" e.
Proof.
  split; [reflexivity|].
  apply (build_graph_no_isolated_node assoc_acme names_acme "acme").
  reflexivity.
Defined.

(** C8. [build_graph] keys the authority nodes by display name.  When two
    distinct UUIDs have the same display name they share one node, and when
    both are associated with the same weakness there is one edge, whose
    weight is the count of the association processed last: the counts are
    overwritten, not added. *)
Theorem build_graph_merges_equal_names :
  forall (names : dict string string)
         (pre mid post : dict (string * string) Z)
         (u1 u2 cwe : string) (k1 k2 : Z),
    u1 <> u2 ->
    BuildGraph.display_name names u1 = BuildGraph.display_name names u2 ->
    Forall (fun kv =>
      lands_on names (BuildGraph.display_name names u2) cwe kv = false) post ->
    let G := BuildGraph.build_graph
               (pre ++ ((u1, cwe), k1) :: mid ++ ((u2, cwe), k2) :: post)
               names in
    let n := BuildGraph.display_name names u1 in
    count_occ string_dec (dict_keys (nodes G)) n = 1%nat
    /\ edge_count n cwe G = 1%nat
    /\ edge_attr n cwe "weight" G = Some (AInt k2).
Proof.
  intros names pre mid post u1 u2 cwe k1 k2 _ Hname Hpost G n.
  assert (Hin : In ((u1, cwe), k1)
                  (pre ++ ((u1, cwe), k1) :: mid ++ ((u2, cwe), k2) :: post))
    by (apply in_or_app; right; now left).
  split; [|split].
  - apply NoDup_count_occ'; [apply build_graph_nodup|].
    apply has_node_In. apply build_graph_nodes. eauto.
  - apply Nat.le_antisymm; [apply build_graph_simple|].
    apply edge_count_has_edge.
    apply (has_edge_add_weighted_edges names _ _ ((u1, cwe), k1) Hin).
  - subst G n. unfold BuildGraph.build_graph. rewrite Hname.
    replace (pre ++ ((u1, cwe), k1) :: mid ++ ((u2, cwe), k2) :: post)
      with ((pre ++ ((u1, cwe), k1) :: mid) ++ ((u2, cwe), k2) :: post)
      by (now rewrite <- app_assoc).
    apply (edge_attr_last names _ _ _ ((u2, cwe), k2)); auto.
    unfold lands_on, joins; simpl. now rewrite !String.eqb_refl.
Qed.

Lemma build_graph_merges_equal_names_witness :
  let G := BuildGraph.build_graph assoc_acme names_acme in
  "uuid-1" <> "uuid-2"
  /\ count_occ string_dec (dict_keys (nodes G)) "acme" = 1%nat
  /\ edge_count "acme" "CWE-79" G = 1%nat
  /\ edge_attr "acme" "CWE-79" "weight" G = Some (AInt 5).
Proof.
  split; [discriminate|].
  apply (build_graph_merges_equal_names names_acme [] [] []
           "uuid-1" "uuid-2" "CWE-79" 3 5).
  - discriminate.
  - reflexivity.
  - constructor.
Defined.

(* ================================================================== *)
(** * parse_cve_files: display names *)
(* ================================================================== *)

Section NameFacts.
Import BuildGraph.
Variable fromisoformat : string -> option datetime.
Variable cutoff : Z.

Lemma store_name_get u short (names : dict string string) u' :
  dict_get u' (store_name u short names)
  = match dict_get u' names with
    | Some n => Some n
    | None =>
        if String.eqb u u'
        then Some (if truthy short then get_or_empty short else u)
        else None
    end.
Proof.
  unfold store_name, dict_contains.
  destruct (dict_get u names) eqn:Eu.
  - rewrite andb_false_r. simpl.
    destruct (dict_get u' names) eqn:Eu'; auto.
    destruct (String.eqb_spec u u'); auto. subst. congruence.
  - rewrite andb_true_r. simpl.
    destruct (truthy short);
      rewrite (@dict_get_set string string Hashable_string); simpl;
      destruct (String.eqb_spec u u'); subst;
      try rewrite Eu; auto; destruct (dict_get u' names); auto.
Qed.

Lemma process_file_names st doc :
  cna_names (process_file fromisoformat cutoff st doc)
  = if reaches_authority fromisoformat cutoff doc
    then store_name (get_or_empty (assignerOrgId (cveMetadata doc)))
           (assignerShortName (cveMetadata doc)) (cna_names st)
    else cna_names st.
Proof.
  unfold process_file, reaches_authority.
  destruct (date_filter _ _ _) as [[|]|]; simpl; auto.
  destruct (truthy (assignerOrgId (cveMetadata doc))); reflexivity.
Qed.

Lemma names_from st corpus uuid :
  dict_get uuid
    (cna_names (parse_cve_files_from fromisoformat cutoff st corpus))
  = match dict_get uuid (cna_names st) with
    | Some n => Some n
    | None =>
        option_map (bound_name uuid)
          (find (carries fromisoformat cutoff uuid) corpus)
    end.
Proof.
  unfold parse_cve_files_from. revert st.
  induction corpus as [|doc r IH]; simpl; intros st.
  - destruct (dict_get uuid (cna_names st)); reflexivity.
  - rewrite IH, process_file_names. unfold carries.
    destruct (reaches_authority fromisoformat cutoff doc); simpl.
    + rewrite store_name_get.
      destruct (dict_get uuid (cna_names st)); auto.
      destruct (String.eqb _ uuid) eqn:E; auto.
      apply String.eqb_eq in E. unfold bound_name. now rewrite E.
    + destruct (dict_get uuid (cna_names st)); reflexivity.
Qed.
End NameFacts.

(** C9. The display name of an authority UUID in [cna_names] is the one
    bound by the first document of the corpus that carries the UUID: its
    short name, or the UUID itself when it has none.  A name that is bound
    stays the same whatever documents follow. *)
Theorem cna_name_fixed_by_first_record :
  forall (fromisoformat : string -> option datetime) (cutoff : Z)
         (corpus later : list cve_document) (uuid : string),
    let names c :=
      BuildGraph.cna_names (BuildGraph.parse_cve_files fromisoformat cutoff c)
    in
    dict_get uuid (names corpus)
    = option_map (bound_name uuid)
        (find (carries fromisoformat cutoff uuid) corpus)
    /\ (forall n, dict_get uuid (names corpus) = Some n ->
                  dict_get uuid (names (corpus ++ later)) = Some n).
Proof.
  intros f c corpus later uuid names. subst names. cbv beta.
  unfold BuildGraph.parse_cve_files. split.
  - now rewrite names_from.
  - intros n E. unfold BuildGraph.parse_cve_files_from in *.
    rewrite fold_left_app.
    change (fold_left (BuildGraph.process_file f c) later ?s)
      with (BuildGraph.parse_cve_files_from f c s later).
    rewrite names_from. now rewrite E.
Qed.

(* ================================================================== *)
(** * Sorting and the order of strings *)
(* ================================================================== *)

Section SortFacts.
Context {A : Type} (le : A -> A -> bool).

Lemma insert_sorted_perm x l : Permutation (insert_sorted le x l) (x :: l).
Proof.
  induction l as [|y r IH]; simpl; auto.
  destruct (le y x); auto.
  rewrite IH. apply perm_swap.
Qed.

Lemma sorted_perm l : Permutation (sorted le l) l.
Proof.
  unfold sorted. rewrite (Permutation_rev l) at 2.
  induction (rev l) as [|x r IH]; simpl; auto.
  rewrite insert_sorted_perm. now constructor.
Qed.

Lemma sorted_In x l : In x (sorted le l) <-> In x l.
Proof.
  split; apply Permutation_in; [|symmetry]; apply sorted_perm.
Qed.

Lemma sorted_NoDup l : NoDup l -> NoDup (sorted le l).
Proof. apply Permutation_NoDup. symmetry. apply sorted_perm. Qed.

Lemma sorted_length l : List.length (sorted le l) = List.length l.
Proof. apply Permutation_length, sorted_perm. Qed.

Hypothesis le_total : forall x y, le x y = true \/ le y x = true.
Hypothesis le_trans :
  forall x y z, le x y = true -> le y z = true -> le x z = true.

Lemma insert_sorted_sorted x l :
  StronglySorted (fun a b => le a b = true) l ->
  StronglySorted (fun a b => le a b = true) (insert_sorted le x l).
Proof.
  induction l as [|y r IH]; simpl; intros S.
  - repeat constructor.
  - inversion S as [|? ? S' F]; subst. destruct (le y x) eqn:E.
    + constructor; auto.
      apply Forall_forall. intros z Hz.
      apply (Permutation_in _ (insert_sorted_perm x r)) in Hz.
      destruct Hz as [<-|Hz]; auto.
      rewrite Forall_forall in F. auto.
    + assert (Exy : le x y = true) by (destruct (le_total x y); congruence).
      constructor; auto. constructor; auto.
      eapply Forall_impl; [|exact F]. simpl. eauto.
Qed.

Lemma sorted_sorted l : StronglySorted (fun a b => le a b = true) (sorted le l).
Proof.
  unfold sorted. induction (rev l) as [|x r IH]; simpl.
  - constructor.
  - now apply insert_sorted_sorted.
Qed.
End SortFacts.

Section StringOrder.
Import OrdersEx.

Lemma compare_as_OT a b : String.compare a b = String_as_OT.compare a b.
Proof.
  revert b. induction a as [|c a IH]; destruct b as [|d b]; simpl; auto.
  all: rewrite IH; unfold Ascii_as_OT.compare, Ascii.compare;
    destruct (_ ?= _)%N; reflexivity.
Qed.

Lemma ltb_lt a b : String.ltb a b = true <-> String_as_OT.lt a b.
Proof.
  unfold String.ltb, String_as_OT.lt. rewrite compare_as_OT.
  destruct (String_as_OT.compare a b); split; congruence.
Qed.

Lemma leb_ltb a b : String.leb a b = true <-> String.ltb a b = true \/ a = b.
Proof.
  unfold String.leb, String.ltb.
  destruct (String.compare a b) eqn:E.
  - apply String.compare_eq_iff in E. intuition.
  - intuition.
  - split; [discriminate|]. intros [?| ->]; [discriminate|].
    rewrite compare_as_OT in E.
    destruct (String_as_OT.compare_spec b b) as [_|L|L]; try discriminate;
      exfalso; now apply (StrictOrder_Irreflexive (R := String_as_OT.lt)) in L.
Qed.

Lemma ltb_irrefl a : String.ltb a a = false.
Proof.
  destruct (String.ltb a a) eqn:E; auto. apply ltb_lt in E.
  now apply (StrictOrder_Irreflexive (R := String_as_OT.lt)) in E.
Qed.

Lemma ltb_trans a b c :
  String.ltb a b = true -> String.ltb b c = true -> String.ltb a c = true.
Proof.
  rewrite !ltb_lt. apply (StrictOrder_Transitive (R := String_as_OT.lt)).
Qed.

Lemma ltb_asym a b : String.ltb a b = true -> String.ltb b a = false.
Proof.
  intros L. destruct (String.ltb b a) eqn:E; auto.
  pose proof (ltb_trans _ _ _ L E) as X. rewrite ltb_irrefl in X.
  discriminate.
Qed.

Lemma leb_trans a b c :
  String.leb a b = true -> String.leb b c = true -> String.leb a c = true.
Proof.
  rewrite !leb_ltb. intros [L1| ->] [L2| ->]; eauto using ltb_trans.
Qed.

Lemma ltb_total a b :
  a <> b -> String.ltb a b = true \/ String.ltb b a = true.
Proof.
  intros N. destruct (String.leb_total a b) as [L|L];
    apply leb_ltb in L; destruct L; auto; congruence.
Qed.

Lemma sorted_strings_sorted l :
  StronglySorted (fun a b => String.leb a b = true) (sorted_strings l).
Proof. apply sorted_sorted; [apply String.leb_total | apply leb_trans]. Qed.
End StringOrder.

(* ================================================================== *)
(** * Counters *)
(* ================================================================== *)

Section CounterFacts.
Context {K : Type} `{Hashable K}.
Implicit Types (k : K) (d : dict K Z).

Lemma dict_incr_cons k k' v d :
  dict_incr k ((k', v) :: d)
  = if keqb k k' then (k', v + 1) :: d else (k', v) :: dict_incr k d.
Proof.
  unfold dict_incr, dict_get_default; simpl.
  destruct (keqb k k'); reflexivity.
Qed.

Lemma dict_incr_get k k' d :
  dict_get_default k' 0 (dict_incr k d)
  = dict_get_default k' 0 d + (if keqb k k' then 1 else 0).
Proof.
  unfold dict_incr, dict_get_default at 1. rewrite dict_get_set.
  destruct (keqb k k') eqn:E.
  - apply keqb_spec in E. now subst.
  - fold (dict_get_default k' 0 d). lia.
Qed.


Lemma dict_incr_keys k k' d :
  In k' (dict_keys (dict_incr k d)) <-> k' = k \/ In k' (dict_keys d).
Proof. apply dict_keys_set_In. Qed.

Lemma fold_incr_get {B} (key : B -> K) (l : list B) k d :
  dict_get_default k 0 (fold_left (fun acc x => dict_incr (key x) acc) l d)
  = dict_get_default k 0 d
    + Z.of_nat (List.length (filter (fun x => keqb (key x) k) l)).
Proof.
  revert d. induction l as [|x r IH]; simpl; intros d; [lia|].
  rewrite IH, dict_incr_get. destruct (keqb (key x) k); simpl; lia.
Qed.

Lemma fold_incr_keys {B} (key : B -> K) (l : list B) k d :
  In k (dict_keys (fold_left (fun acc x => dict_incr (key x) acc) l d))
  <-> In k (dict_keys d) \/ exists x, In x l /\ k = key x.
Proof.
  revert d. induction l as [|x r IH]; simpl; intros d.
  - split; auto. intros [|[x [[] _]]]; auto.
  - rewrite IH, dict_incr_keys. split.
    + intros [[->|I]|[y [I E]]]; eauto.
    + intros [I|[y [[->|I] E]]]; eauto.
Qed.

Lemma filter_keqb_NoDup (l : list K) k :
  NoDup l ->
  List.length (filter (fun x => keqb x k) l)
  = if set_mem k l then 1%nat else 0%nat.
Proof.
  induction l as [|x r IH]; simpl; intros ND; auto.
  inversion ND as [|? ? NI ND']; subst. rewrite (keqb_sym k x).
  destruct (keqb x k) eqn:E; simpl.
  - apply keqb_spec in E; subst x. rewrite IH by assumption.
    assert (M : set_mem k r = false) by now apply set_mem_false.
    now rewrite M.
  - now apply IH.
Qed.

Lemma total_weight_incr k d : total_weight (dict_incr k d) = total_weight d + 1.
Proof.
  induction d as [|[k' v] r IH].
  - reflexivity.
  - rewrite dict_incr_cons. unfold total_weight in *.
    destruct (keqb k k'); simpl; [lia|]. rewrite IH. lia.
Qed.

Lemma total_weight_fold_incr {B} (key : B -> K) (l : list B) d :
  total_weight (fold_left (fun acc x => dict_incr (key x) acc) l d)
  = total_weight d + Z.of_nat (List.length l).
Proof.
  revert d. induction l as [|x r IH]; intros d.
  - simpl. lia.
  - cbn [fold_left List.length]. rewrite IH, total_weight_incr. lia.
Qed.

Lemma positive_counts_incr k d :
  positive_counts d -> positive_counts (dict_incr k d).
Proof.
  intros P. unfold dict_incr. apply dict_set_values; auto.
  unfold dict_get_default. destruct (dict_get k d) eqn:E; [|lia].
  pose proof (dict_get_values k z d _ P E). simpl in *. lia.
Qed.


Lemma nodup_keys_incr k d :
  NoDup (dict_keys d) -> NoDup (dict_keys (dict_incr k d)).
Proof. apply dict_keys_set_NoDup. Qed.

Lemma nodup_keys_fold {B} (key : B -> K) (l : list B) d :
  NoDup (dict_keys d) ->
  NoDup (dict_keys (fold_left (fun acc x => dict_incr (key x) acc) l d)).
Proof.
  apply (fold_left_invariant (fun d => NoDup (dict_keys d))).
  intros; now apply nodup_keys_incr.
Qed.
End CounterFacts.

Lemma incident_weight_incr a u c (d : dict (string * string) Z) :
  incident_weight a (dict_incr (u, c) d)
  = incident_weight a d + (if String.eqb u a then 1 else 0).
Proof.
  induction d as [|[[u' c'] v] r IH].
  - unfold incident_weight, total_weight; simpl.
    destruct (String.eqb u a); reflexivity.
  - rewrite dict_incr_cons. unfold incident_weight, total_weight in *.
    destruct (keqb (u, c) (u', c')) eqn:E.
    + apply keqb_spec in E. inversion E; subst. simpl.
      destruct (String.eqb u' a); simpl; lia.
    + simpl. destruct (String.eqb u' a); simpl; rewrite IH; lia.
Qed.

(* ================================================================== *)
(** * parse_cve_files: the association counts *)
(* ================================================================== *)

Section AggregatorFacts.
Import BuildGraph.
Variable fromisoformat : string -> option datetime.
Variable cutoff : Z.

Lemma process_file_associations st doc :
  associations (process_file fromisoformat cutoff st doc)
  = if reaches_authority fromisoformat cutoff doc
    then record_associations
           (get_or_empty (assignerOrgId (cveMetadata doc)))
           (extract_cwes doc []) (associations st)
    else associations st.
Proof.
  unfold process_file, reaches_authority.
  destruct (date_filter _ _ _) as [[|]|]; simpl; auto.
  destruct (truthy (assignerOrgId (cveMetadata doc))); reflexivity.
Qed.

Lemma incident_weight_record a u cwes assoc :
  incident_weight a (record_associations u cwes assoc)
  = incident_weight a assoc
    + (if String.eqb u a then Z.of_nat (List.length cwes) else 0).
Proof.
  unfold record_associations. revert assoc.
  induction cwes as [|c r IH]; intros assoc.
  - simpl. destruct (String.eqb u a); lia.
  - cbn [fold_left List.length]. rewrite IH, incident_weight_incr.
    destruct (String.eqb u a); lia.
Qed.

Lemma incident_weight_from a st corpus :
  incident_weight a
    (associations (parse_cve_files_from fromisoformat cutoff st corpus))
  = incident_weight a (associations st)
    + contributions fromisoformat cutoff a corpus.
Proof.
  unfold parse_cve_files_from. revert st.
  induction corpus as [|doc r IH]; intros st.
  - unfold contributions. cbn [fold_left map fold_right]. lia.
  - cbn [fold_left]. rewrite IH, process_file_associations.
    unfold contributions; cbn [map fold_right]. unfold carries.
    destruct (reaches_authority fromisoformat cutoff doc); simpl.
    + rewrite incident_weight_record.
      destruct (String.eqb _ a); lia.
    + lia.
Qed.

Lemma contributing_le_contributions a corpus :
  contributing_records fromisoformat cutoff a corpus
  <= contributions fromisoformat cutoff a corpus.
Proof.
  unfold contributing_records, contributions.
  induction corpus as [|doc r IH]; [simpl; lia|].
  cbn [filter map fold_right].
  destruct (carries fromisoformat cutoff a doc); cbn [andb]; [|lia].
  destruct (extract_cwes doc []) as [|c cs];
    cbn [List.length Nat.eqb negb]; [lia|].
  rewrite !Nat2Z.inj_succ. lia.
Qed.

Lemma associations_invariant (P : dict (string * string) Z -> Prop) :
  (forall k d, P d -> P (dict_incr k d)) ->
  forall st corpus, P (associations st) ->
    P (associations (parse_cve_files_from fromisoformat cutoff st corpus)).
Proof.
  intros Hincr st corpus. unfold parse_cve_files_from. revert st.
  induction corpus as [|doc r IH]; intros st Pst; auto.
  cbn [fold_left]. apply IH. rewrite process_file_associations.
  destruct (reaches_authority fromisoformat cutoff doc); auto.
  unfold record_associations. apply fold_left_invariant; auto.
Qed.

Lemma associations_nodup corpus :
  NoDup (dict_keys (associations (parse_cve_files fromisoformat cutoff corpus))).
Proof.
  apply (associations_invariant (fun d => NoDup (dict_keys d))).
  - intros; now apply nodup_keys_incr.
  - constructor.
Qed.

Lemma associations_positive corpus :
  positive_counts (associations (parse_cve_files fromisoformat cutoff corpus)).
Proof.
  apply (associations_invariant positive_counts).
  - intros; now apply positive_counts_incr.
  - constructor.
Qed.
End AggregatorFacts.

Lemma cna_name_fixed_by_first_record_witness :
  let names c :=
    BuildGraph.cna_names (BuildGraph.parse_cve_files iso8601 0 c) in
  dict_get "uuid-1" (names [doc_without_short]) = Some "uuid-1"
  /\ dict_get "uuid-1" (names ([doc_without_short] ++ [doc_with_short]))
     = Some "uuid-1".
Proof.
  split; [reflexivity|].
  apply (proj2 (cna_name_fixed_by_first_record iso8601 0
                  [doc_without_short] [doc_with_short] "uuid-1")).
  reflexivity.
Defined.

(* ================================================================== *)
(** * The date filters *)
(* ================================================================== *)

Section DateFilterFacts.
Variable fromisoformat : string -> option datetime.
Variable cutoff : Z.

Lemma lt_cutoff_aware d :
  is_aware d = true ->
  Datetime.lt d (cutoff_date cutoff) = Ok (instant d <? cutoff).
Proof.
  unfold Datetime.lt, is_aware, instant, cutoff_date, utc; simpl.
  destruct (utcoffset d); [|discriminate]. intros _.
  now rewrite Z.sub_0_r.
Qed.

Lemma lt_cutoff_naive d :
  is_aware d = false ->
  Datetime.lt d (cutoff_date cutoff) = Raise TypeError.
Proof.
  unfold Datetime.lt, is_aware, cutoff_date, utc; simpl.
  destruct (utcoffset d); [discriminate|reflexivity].
Qed.

Lemma date_filter_unreadable s :
  nonempty s = true ->
  fromisoformat (replace_char_by "Z" "+00:00" s) = None ->
  date_filter fromisoformat cutoff (Some s) = Ok Keep.
Proof.
  intros N E. unfold date_filter, parse_published. now rewrite N, E.
Qed.

Lemma date_filter_read s d :
  nonempty s = true ->
  fromisoformat (replace_char_by "Z" "+00:00" s) = Some d ->
  date_filter fromisoformat cutoff (Some s)
  = Ok (if instant d <? cutoff then Drop else Keep).
Proof.
  intros N E. unfold date_filter, parse_published. rewrite N, E.
  cbn [bind]. unfold instant.
  destruct (utcoffset d) as [o|] eqn:O.
  - rewrite lt_cutoff_aware by (unfold is_aware; now rewrite O).
    unfold instant. rewrite O. reflexivity.
  - rewrite lt_cutoff_aware by reflexivity.
    unfold instant, replace_tzinfo_utc; simpl. now rewrite Z.sub_0_r.
Qed.

Lemma date_filter_plain_unreadable s :
  nonempty s = true ->
  fromisoformat (replace_char_by "Z" "+00:00" s) = None ->
  date_filter_plain fromisoformat cutoff (Some s) = Ok Keep.
Proof.
  intros N E. unfold date_filter_plain, parse_published. now rewrite N, E.
Qed.


Lemma date_filter_analytical_unreadable s :
  nonempty s = true ->
  fromisoformat (replace_char_by "Z" "+00:00" s) = None ->
  date_filter_analytical fromisoformat cutoff (Some s) = Ok Drop.
Proof.
  intros N E. unfold date_filter_analytical, parse_published.
  now rewrite N, E.
Qed.

Lemma date_filter_analytical_aware s d :
  nonempty s = true ->
  fromisoformat (replace_char_by "Z" "+00:00" s) = Some d ->
  is_aware d = true ->
  date_filter_analytical fromisoformat cutoff (Some s)
  = Ok (if instant d <? cutoff then Drop else Keep).
Proof.
  intros N E A. unfold date_filter_analytical, parse_published.
  rewrite N, E. cbn [bind]. now rewrite lt_cutoff_aware.
Qed.

(** Before the cutoff, the analytical filter lets nothing pass, with or
    without an offset. *)
Lemma date_filter_analytical_before s d :
  nonempty s = true ->
  fromisoformat (replace_char_by "Z" "+00:00" s) = Some d ->
  instant d < cutoff ->
  date_filter_analytical fromisoformat cutoff (Some s) <> Ok Keep.
Proof.
  intros N E L. unfold date_filter_analytical, parse_published.
  rewrite N, E. cbn [bind].
  destruct (is_aware d) eqn:A.
  - rewrite lt_cutoff_aware by assumption. cbn [bind].
    apply Z.ltb_lt in L. rewrite L. discriminate.
  - rewrite lt_cutoff_naive by assumption. discriminate.
Qed.

(** The date filter of [parse_cve_files] never raises. *)
Lemma date_filter_total date_published :
  exists v, date_filter fromisoformat cutoff date_published = Ok v.
Proof.
  destruct date_published as [s|]; [|now exists Keep].
  destruct (nonempty s) eqn:N;
    [|exists Keep; unfold date_filter; now rewrite N].
  destruct (fromisoformat (replace_char_by "Z" "+00:00" s)) as [d|] eqn:E.
  - rewrite (date_filter_read s d N E). eauto.
  - rewrite (date_filter_unreadable s N E). eauto.
Qed.
End DateFilterFacts.

Section DateFilterEffect.
Import BuildGraph.
Variable fromisoformat : string -> option datetime.
Variable cutoff : Z.

Lemma process_file_keep st doc :
  date_filter fromisoformat cutoff (datePublished (cveMetadata doc)) = Ok Keep ->
  date_filtered (process_file fromisoformat cutoff st doc) = date_filtered st.
Proof.
  intros E. unfold process_file. rewrite E.
  destruct (negb _); reflexivity.
Qed.

Lemma process_file_drop st doc :
  date_filter fromisoformat cutoff (datePublished (cveMetadata doc)) = Ok Drop ->
  let st' := process_file fromisoformat cutoff st doc in
  date_filtered st' = date_filtered st + 1
  /\ associations st' = associations st
  /\ cna_names st' = cna_names st.
Proof. intros E. unfold process_file. rewrite E. simpl. auto. Qed.
End DateFilterEffect.

(** C3, as amended.  In [parse_cve_files] a publication date that is present
    but cannot be read keeps the document; a date that is read and lies
    strictly before the cutoff drops it: the counter of filtered documents
    grows and nothing else is recorded; a date read without offset is
    compared as the same reading in UTC.  In [parse_cve_analytical_data] a
    date that cannot be read leaves the document out, as does one before the
    cutoff; a date with an offset that is not before the cutoff passes. *)
Theorem date_filter_policy :
  forall (fromisoformat : string -> option datetime) (cutoff : Z)
         (st : BuildGraph.parse_state) (doc : cve_document) (s : string),
    datePublished (cveMetadata doc) = Some s ->
    nonempty s = true ->
    let parsed := fromisoformat (replace_char_by "Z" "+00:00" s) in
    let st' := BuildGraph.process_file fromisoformat cutoff st doc in
    (parsed = None ->
       date_filter fromisoformat cutoff (Some s) = Ok Keep
       /\ BuildGraph.date_filtered st' = BuildGraph.date_filtered st
       /\ Analytical.passes fromisoformat cutoff doc = false)
    /\ (forall d, parsed = Some d ->
          (utcoffset d = None ->
             date_filter fromisoformat cutoff (Some s)
             = Ok (if instant (replace_tzinfo_utc d) <? cutoff
                   then Drop else Keep))
          /\ (instant d < cutoff ->
                date_filter fromisoformat cutoff (Some s) = Ok Drop
                /\ BuildGraph.date_filtered st'
                   = BuildGraph.date_filtered st + 1
                /\ BuildGraph.associations st' = BuildGraph.associations st
                /\ BuildGraph.cna_names st' = BuildGraph.cna_names st
                /\ Analytical.passes fromisoformat cutoff doc = false)
          /\ (cutoff <= instant d ->
                date_filter fromisoformat cutoff (Some s) = Ok Keep
                /\ BuildGraph.date_filtered st' = BuildGraph.date_filtered st
                /\ (is_aware d = true ->
                    Analytical.passes fromisoformat cutoff doc = true))).
Proof.
  intros f c st doc s Hs N parsed st'. subst parsed st'. split.
  - intros E. pose proof (date_filter_unreadable f c s N E) as K.
    split; [exact K|]. split.
    + apply process_file_keep. now rewrite Hs.
    + unfold Analytical.passes. rewrite Hs.
      now rewrite (date_filter_analytical_unreadable f c s N E).
  - intros d E. pose proof (date_filter_read f c s d N E) as R.
    split; [|split].
    + intros O. rewrite R. unfold instant, replace_tzinfo_utc; simpl.
      now rewrite O, Z.sub_0_r.
    + intros L. apply Z.ltb_lt in L. rewrite L in R.
      split; [exact R|].
      destruct (process_file_drop f c st doc) as [A [B C]];
        [now rewrite Hs|].
      repeat split; auto.
      unfold Analytical.passes. rewrite Hs.
      destruct (date_filter_analytical f c (Some s)) as [[|]|] eqn:X; auto.
      exfalso. apply Z.ltb_lt in L.
      now apply (date_filter_analytical_before f c s d N E L).
    + intros G. apply Z.ltb_ge in G. rewrite G in R.
      split; [exact R|]. split.
      * apply process_file_keep. now rewrite Hs.
      * intros A. unfold Analytical.passes. rewrite Hs.
        rewrite (date_filter_analytical_aware f c s d N E A). now rewrite G.
Qed.

Lemma date_filter_policy_witness :
  (datePublished (cveMetadata doc_unreadable_date) = Some "not-a-date"
   /\ nonempty "not-a-date" = true
   /\ date_filter iso8601 scenario_start (Some "not-a-date") = Ok Keep
   /\ BuildGraph.date_filtered
        (BuildGraph.process_file iso8601 scenario_start BuildGraph.initial
           doc_unreadable_date)
      = BuildGraph.date_filtered BuildGraph.initial
   /\ Analytical.passes iso8601 scenario_start doc_unreadable_date = false)
  /\ (datePublished (cveMetadata doc_naive_date) = Some "2024-03-01T12:00:00"
      /\ date_filter iso8601 scenario_end (Some "2024-03-01T12:00:00")
         = Ok Drop
      /\ BuildGraph.associations
           (BuildGraph.process_file iso8601 scenario_end BuildGraph.initial
              doc_naive_date)
         = BuildGraph.associations BuildGraph.initial).
Proof.
  split.
  - split; [reflexivity|]. split; [reflexivity|].
    apply (proj1 (date_filter_policy iso8601 scenario_start BuildGraph.initial
                    doc_unreadable_date "not-a-date" eq_refl eq_refl)).
    reflexivity.
  - split; [reflexivity|].
    destruct (proj2 (date_filter_policy iso8601 scenario_end BuildGraph.initial
                       doc_naive_date "2024-03-01T12:00:00" eq_refl eq_refl)
                {| wall := 63844891200000000; utcoffset := None |} eq_refl)
      as [_ [Before _]].
    destruct (Before eq_refl) as [D [_ [A _]]].
    split; [exact D|exact A].
Defined.

(** C3 as stated fails in [parse_cve_analytical_data]: the publication date
    of [doc_unreadable_date] is present and cannot be read, and the document
    is left out instead of kept. *)
Lemma analytical_drops_unreadable_date :
  datePublished (cveMetadata doc_unreadable_date) = Some "not-a-date"
  /\ iso8601 (replace_char_by "Z" "+00:00" "not-a-date") = None
  /\ date_filter_analytical iso8601 scenario_start (Some "not-a-date")
     = Ok Drop
  /\ Analytical.passes iso8601 scenario_start doc_unreadable_date = false
  /\ Analytical.parsed_files iso8601 scenario_start [doc_unreadable_date] = 0.
Proof. repeat split. Qed.

(* ================================================================== *)
(** * The cutoff matters only through the date filter *)
(* ================================================================== *)

Section CutoffFacts.
Variable fromisoformat : string -> option datetime.
Variables c1 c2 : Z.


End CutoffFacts.


(** C2, as amended.  For every authority [a], the counts of the pairs
    [(a, b)] of the authority-weakness mapping add up to the number of
    contributions of the documents with authority [a], a document counting
    once for each weakness it carries.  The sum is at least the number of
    contributing documents. *)
Theorem incident_weight_counts_contributions :
  forall (fromisoformat : string -> option datetime) (cutoff : Z)
         (corpus : list cve_document) (a : string),
    let assoc :=
      BuildGraph.associations
        (BuildGraph.parse_cve_files fromisoformat cutoff corpus) in
    NoDup (dict_keys assoc)
    /\ incident_weight a assoc = contributions fromisoformat cutoff a corpus
    /\ contributing_records fromisoformat cutoff a corpus
       <= incident_weight a assoc.
Proof.
  intros f c corpus a assoc. subst assoc.
  assert (E : incident_weight a
                (BuildGraph.associations (BuildGraph.parse_cve_files f c corpus))
              = contributions f c a corpus).
  { unfold BuildGraph.parse_cve_files. rewrite incident_weight_from.
    reflexivity. }
  split; [apply associations_nodup|]. split; [exact E|].
  rewrite E. apply contributing_le_contributions.
Qed.

(** C2 as stated fails on the scenario: the pairs of authority A have the
    counts 2 and 1, which add up to 3, and two documents contribute to
    them. *)
Lemma incident_weight_exceeds_record_count :
  incident_weight "A"
    (BuildGraph.associations
       (BuildGraph.parse_cve_files iso8601 scenario_start scenario)) = 3
  /\ contributing_records iso8601 scenario_start "A" scenario = 2.
Proof. split; reflexivity. Qed.

(* ================================================================== *)
(** * Weakness co-occurrence *)
(* ================================================================== *)

Section CombinationFacts.
Lemma combinations2_In {A} (l : list A) a b :
  In (a, b) (combinations2 l) -> In a l /\ In b l.
Proof.
  induction l as [|x r IH]; simpl; [tauto|].
  rewrite in_app_iff, in_map_iff.
  intros [[y [E I]]|I].
  - inversion E; subst. auto.
  - destruct (IH I). auto.
Qed.

Lemma NoDup_map_pair {A} (x : A) (r : list A) :
  NoDup r -> NoDup (map (fun y => (x, y)) r).
Proof.
  induction r as [|y r IH]; simpl; intros ND; [constructor|].
  inversion ND as [|? ? NI ND']; subst. constructor; auto.
  rewrite in_map_iff. intros [z [E I]]. inversion E; subst. contradiction.
Qed.

Lemma combinations2_NoDup {A} (l : list A) :
  NoDup l -> NoDup (combinations2 l).
Proof.
  induction l as [|x r IH]; simpl; intros ND; [constructor|].
  inversion ND as [|? ? NI ND']; subst.
  apply NoDup_app.
  - now apply NoDup_map_pair.
  - auto.
  - intros [a b] I1 I2. apply in_map_iff in I1. destruct I1 as [y [E _]].
    inversion E; subst. apply combinations2_In in I2. tauto.
Qed.



(** In a sorted set the pairs are those in increasing order. *)
Lemma combinations2_sorted (l : list string) a b :
  StronglySorted (fun x y => String.leb x y = true) l -> NoDup l ->
  (In (a, b) (combinations2 l)
   <-> In a l /\ In b l /\ String.ltb a b = true).
Proof.
  induction l as [|x r IH]; intros S ND.
  - simpl. tauto.
  - inversion S as [|? ? S' F]; subst.
    inversion ND as [|? ? NI ND']; subst.
    assert (Lt : forall y, In y r -> String.ltb x y = true).
    { intros y Iy. rewrite Forall_forall in F.
      destruct (proj1 (leb_ltb x y) (F y Iy)) as [|E]; auto.
      subst. contradiction. }
    cbn [combinations2]. rewrite in_app_iff, in_map_iff, (IH S' ND').
    simpl. split.
    + intros [[y [E I]]|[Ia [Ib L]]].
      * inversion E; subst. auto.
      * auto.
    + intros [[Ea|Ia] [[Eb|Ib] L]].
      * subst. rewrite ltb_irrefl in L. discriminate.
      * subst. left. eauto.
      * subst. rewrite (ltb_asym _ _ (Lt a Ia)) in L. discriminate.
      * auto.
Qed.

Lemma sorted_pairs (cwes : list string) a b :
  NoDup cwes ->
  (In (a, b) (combinations2 (sorted_strings cwes))
   <-> In a cwes /\ In b cwes /\ String.ltb a b = true).
Proof.
  intros ND. unfold sorted_strings.
  rewrite combinations2_sorted;
    [| apply sorted_strings_sorted | now apply sorted_NoDup].
  now rewrite !sorted_In.
Qed.



End CombinationFacts.



(* ================================================================== *)
(** * Case functions *)
(* ================================================================== *)

Section CaseFacts.
Local Ltac by_cases c :=
  destruct c as [[] [] [] [] [] [] [] []]; vm_compute; reflexivity.




Lemma upper_underscore c :
  upper_char (underscore_to_space c) = underscore_to_space (upper_char c).
Proof. by_cases c. Qed.

Lemma cased_underscore c : is_cased (underscore_to_space c) = is_cased c.
Proof. by_cases c. Qed.

Lemma cased_lower c : is_cased (lower_char c) = is_cased c.
Proof. by_cases c. Qed.











End CaseFacts.

(* ================================================================== *)
(** * Vendors *)
(* ================================================================== *)

Section VendorFacts.
Import Extended.







End VendorFacts.

Section VendorKeys.
Variable fromisoformat : string -> option datetime.
Variable cutoff : Z.






End VendorKeys.

Section VendorRecorded.
Variable fromisoformat : string -> option datetime.
Variable cutoff : Z.








End VendorRecorded.




(* ================================================================== *)
(** * Top-N selections *)
(* ================================================================== *)

Section TopFacts.
Lemma slice_to_nat {A} (N : nat) (l : list A) :
  slice_to (Z.of_nat N) l = firstn N l.
Proof.
  unfold slice_to. destruct (Z.ltb_spec (Z.of_nat N) 0); [lia|].
  now rewrite Nat2Z.id.
Qed.

Lemma firstn_le_In {A} (N N' : nat) (l : list A) x :
  (N <= N')%nat -> In x (firstn N l) -> In x (firstn N' l).
Proof.
  revert N N'. induction l as [|y r IH]; intros N N' L.
  - now rewrite !firstn_nil.
  - destruct N as [|N]; [intros []|].
    destruct N' as [|N']; [lia|]. simpl.
    intros [E|I]; auto. right. apply (IH N N'); auto. lia.
Qed.

Lemma slice_to_mono {A} (N N' : nat) (l : list A) x :
  (N <= N')%nat ->
  In x (slice_to (Z.of_nat N) l) -> In x (slice_to (Z.of_nat N') l).
Proof. rewrite !slice_to_nat. apply firstn_le_In. Qed.

(** Keys of a mapping filled step by step. *)
Lemma fold_keys_union {B K V : Type} (F : dict K V -> B -> dict K V)
    (S : B -> K -> Prop) (l : list B) (d : dict K V) k :
  (forall acc x k, In k (dict_keys (F acc x))
                   <-> In k (dict_keys acc) \/ S x k) ->
  (In k (dict_keys (fold_left F l d))
   <-> In k (dict_keys d) \/ exists x, In x l /\ S x k).
Proof.
  intros HF. revert d. induction l as [|x r IH]; simpl; intros d.
  - split; auto. intros [|[x [[] _]]]; auto.
  - rewrite IH, HF. split.
    + intros [[I|I]|[y [I P]]]; eauto.
    + intros [I|[y [[->|I] P]]]; eauto.
Qed.

Lemma cwe_counts_keys data names k :
  In k (dict_keys (Compact.cwe_counts data names))
  <-> exists cna_ cve_id,
        In cna_ names
        /\ In cve_id (dict_get_default cna_ [] (Compact.cna_to_cves data))
        /\ In (snd k) (dict_get_default cve_id [] (Compact.cve_to_cwes data))
        /\ fst k = cna_.
Proof.
  unfold Compact.cwe_counts.
  rewrite (fold_keys_union _
    (fun cna_ k => exists cve_id,
       In cve_id (dict_get_default cna_ [] (Compact.cna_to_cves data))
       /\ In (snd k) (dict_get_default cve_id [] (Compact.cve_to_cwes data))
       /\ fst k = cna_)).
  - simpl. split.
    + intros [[]|[x [I [cve P]]]]. exists x, cve. tauto.
    + intros [x [cve [I P]]]. right. exists x. split; auto. exists cve. auto.
  - intros acc cna_ k0.
    rewrite (fold_keys_union _
      (fun cve_id k =>
         In (snd k) (dict_get_default cve_id [] (Compact.cve_to_cwes data))
         /\ fst k = cna_)).
    + split.
      * intros [I|[cve [I P]]]; eauto.
      * intros [I|[cve [I P]]]; eauto.
    + intros acc' cve k1.
      rewrite (fold_incr_keys (fun cwe => (cna_, cwe))).
      split.
      * intros [I|[cwe [I ->]]]; auto.
      * intros [I|[I E]]; auto. right. exists (snd k1).
        split; auto. destruct k1; simpl in *; now subst.
Qed.

Lemma fold_nodes_union {B S : Type} (step : Graph * S -> B -> Graph * S)
    (u v : B -> string) (l : list B) (acc : Graph * S) n :
  (forall acc x, has_node n (fst (step acc x)) = true
                 <-> (n = u x \/ n = v x) \/ has_node n (fst acc) = true) ->
  (has_node n (fst (fold_left step l acc)) = true
   <-> has_node n (fst acc) = true
       \/ exists x, In x l /\ (n = u x \/ n = v x)).
Proof.
  intros Hstep. revert acc. induction l as [|x r IH]; simpl; intros acc.
  - split; auto. intros [|[x [[] _]]]; auto.
  - rewrite IH, Hstep. split.
    + intros [[P|I]|[y [I P]]]; eauto.
    + intros [I|[y [[->|I] P]]]; eauto.
Qed.

Lemma top_bipartite_nodes data top_n n :
  has_node n (Compact.build_top_cna_cwe_bipartite data top_n) = true
  <-> In n (map fst (Compact.top_cnas data top_n))
      \/ exists k,
           In k (dict_keys (Compact.cwe_counts data
                              (map fst (Compact.top_cnas data top_n))))
           /\ (n = fst k \/ n = snd k).
Proof.
  unfold Compact.build_top_cna_cwe_bipartite.
  set (top := Compact.top_cnas data top_n).
  set (counts := Compact.cwe_counts data (map fst top)).
  rewrite (fold_nodes_union _
             (fun kv : string * string * Z => fst (fst kv))
             (fun kv : string * string * Z => snd (fst kv))).
  - cbn [fst].
    rewrite (has_node_fold_add_node (fun kv : string * Z => fst kv)
               (fun kv => [("bipartite", AInt 0); ("type", AStr "cna");
                           ("label", AStr (fst kv));
                           ("cve_count", AInt (snd kv))])).
    unfold dict_keys. split.
    + intros [[E|[b [I ->]]]|[kv [I P]]].
      * discriminate.
      * left. now apply in_map.
      * right. exists (fst kv). split; auto. now apply in_map.
    + intros [I|[k [I P]]].
      * apply in_map_iff in I. destruct I as [b [<- I]]. left. eauto.
      * apply in_map_iff in I. destruct I as [kv [<- I]]. eauto.
  - intros [G s] kv. cbn [fst snd]. rewrite has_node_add_edge.
    destruct (set_mem (snd (fst kv)) s).
    + rewrite !orb_true_iff, !String.eqb_eq. intuition.
    + rewrite has_node_add_node, !orb_true_iff, !String.eqb_eq. intuition.
Qed.
End TopFacts.

Section TopMonotone.
Variables N N' : nat.
Hypothesis N_le : (N <= N')%nat.

Lemma top_cnas_mono data x :
  In x (map fst (Compact.top_cnas data (Z.of_nat N))) ->
  In x (map fst (Compact.top_cnas data (Z.of_nat N'))).
Proof.
  unfold Compact.top_cnas. rewrite !in_map_iff.
  intros [kv [E I]]. exists kv. split; auto.
  now apply (slice_to_mono N N').
Qed.

Lemma top_vendor_names_mono vendor_cwe v :
  set_mem v (Extended.top_vendor_names vendor_cwe (Z.of_nat N)) = true ->
  set_mem v (Extended.top_vendor_names vendor_cwe (Z.of_nat N')) = true.
Proof.
  rewrite !set_mem_In. unfold Extended.top_vendor_names.
  rewrite !(fold_set_add_In (fun kv : string * Z => fst kv)).
  intros [[]|[kv [I E]]]. right. exists kv. split; auto.
  now apply (slice_to_mono N N').
Qed.

Lemma fold_nodes_cond {B : Type} (step : Graph -> B -> Graph)
    (p : B -> bool) (u v : B -> string) (l : list B) (G : Graph) n :
  (forall G x, has_node n (step G x) = true
               <-> (p x = true /\ (n = u x \/ n = v x))
                   \/ has_node n G = true) ->
  (has_node n (fold_left step l G) = true
   <-> has_node n G = true
       \/ exists x, In x l /\ p x = true /\ (n = u x \/ n = v x)).
Proof.
  intros Hstep. revert G. induction l as [|x r IH]; simpl; intros G.
  - split; auto. intros [|[x [[] _]]]; auto.
  - rewrite IH, Hstep. split.
    + intros [[[P Q]|I]|[y [I P]]]; eauto 6.
    + intros [I|[y [[->|I] [P Q]]]]; eauto 6.
Qed.

Lemma vendor_profile_nodes data top_n n :
  has_node n (Extended.build_vendor_vulnerability_profiles data top_n) = true
  <-> exists kv,
        In kv (Extended.vendor_cwe_associations data)
        /\ set_mem (fst (fst kv))
             (Extended.top_vendor_names
                (Extended.vendor_cwe_associations data) top_n) = true
        /\ (n = fst (fst kv) \/ n = snd (fst kv)).
Proof.
  unfold Extended.build_vendor_vulnerability_profiles.
  rewrite (fold_nodes_cond _
    (fun kv : string * string * Z =>
       set_mem (fst (fst kv))
         (Extended.top_vendor_names
            (Extended.vendor_cwe_associations data) top_n))
    (fun kv => fst (fst kv)) (fun kv => snd (fst kv))).
  - split; [intros [E|P]; [discriminate|exact P] | auto].
  - intros G kv. destruct (set_mem _ _).
    + rewrite has_node_add_edge, !has_node_add_node, !orb_true_iff,
        !String.eqb_eq. intuition.
    + intuition discriminate.
Qed.
End TopMonotone.

(** C6. Top-N projection is monotonic in N: with thresholds [N <= N'], every
    node of the graph of the top [N] authorities with their weaknesses is a
    node of the graph of the top [N'], and likewise for the graph of the top
    vendors. *)
Theorem top_n_projection_monotone :
  forall (N N' : nat), (N <= N')%nat ->
    (forall (data : Compact.compact_data) (n : string),
        has_node n (Compact.build_top_cna_cwe_bipartite data (Z.of_nat N))
        = true ->
        has_node n (Compact.build_top_cna_cwe_bipartite data (Z.of_nat N'))
        = true)
    /\ (forall (data : Extended.ext_data) (n : string),
          has_node n
            (Extended.build_vendor_vulnerability_profiles data (Z.of_nat N))
          = true ->
          has_node n
            (Extended.build_vendor_vulnerability_profiles data (Z.of_nat N'))
          = true).
Proof.
  intros N N' L. split.
  - intros data n. rewrite !top_bipartite_nodes.
    intros [I|[k [I P]]].
    + left. now apply (top_cnas_mono N N').
    + right. exists k. split; auto.
      apply cwe_counts_keys in I. apply cwe_counts_keys.
      destruct I as [c [cve [Ic Q]]]. exists c, cve. split; auto.
      now apply (top_cnas_mono N N').
  - intros data n. rewrite !vendor_profile_nodes.
    intros [kv [I [T P]]]. exists kv. split; auto. split; auto.
    now apply (top_vendor_names_mono N N').
Qed.

Lemma top_n_projection_monotone_witness :
  (1 <= 2)%nat
  /\ has_node "CWE-89" (Compact.build_top_cna_cwe_bipartite scenario_compact 1)
     = true
  /\ has_node "CWE-89" (Compact.build_top_cna_cwe_bipartite scenario_compact 2)
     = true.
Proof.
  assert (L : (1 <= 2)%nat) by (repeat constructor).
  split; [exact L|]. split; [reflexivity|].
  apply (proj1 (top_n_projection_monotone 1 2 L) scenario_compact "CWE-89").
  reflexivity.
Defined.

(* ================================================================== *)
(** * Breadth-first search and ego graphs *)
(* ================================================================== *)

Section SearchFacts.
Variable G : Graph.

Lemma neighbors_has_edge v w :
  In w (neighbors G v) <-> has_edge v w G = true.
Proof.
  unfold neighbors, has_edge. rewrite in_flat_map, existsb_exists.
  split; intros [e [I P]]; exists e; split; auto.
  - apply joins_endpoints.
    destruct (String.eqb_spec v (src e)) as [->|N1].
    + destruct P as [<-|[]]. auto.
    + destruct (String.eqb_spec v (dst e)) as [->|N2].
      * destruct P as [<-|[]]. auto.
      * destruct P.
  - apply joins_endpoints in P.
    destruct (String.eqb_spec v (src e)) as [->|N1].
    + destruct P as [[_ <-]|[<- <-]]; now left.
    + destruct (String.eqb_spec v (dst e)) as [->|N2].
      * destruct P as [[E _]|[<- _]]; [congruence|now left].
      * destruct P as [[E _]|[_ E]]; congruence.
Qed.

Lemma within_hops_S k c v : within_hops G k c v -> within_hops G (S k) c v.
Proof.
  induction 1 as [k c|k c v w _ IH E].
  - constructor.
  - econstructor; eauto.
Qed.

Lemma within_hops_0 c v : within_hops G 0 c v <-> v = c.
Proof.
  split.
  - intros W. now inversion W.
  - intros ->. constructor.
Qed.

Lemma visit_seen ws seen next x :
  In x (fst (visit ws seen next)) <-> In x seen \/ In x ws.
Proof.
  revert seen next. induction ws as [|w r IH]; simpl; intros seen next.
  - tauto.
  - destruct (set_mem w seen) eqn:M.
    + rewrite IH. apply set_mem_In in M. intuition (subst; auto).
    + rewrite IH, in_app_iff. simpl. intuition.
Qed.

Lemma visit_new ws seen next x :
  In x (fst (visit ws seen next)) ->
  In x seen \/ In x (snd (visit ws seen next)).
Proof.
  revert seen next. induction ws as [|w r IH]; simpl; intros seen next; auto.
  destruct (set_mem w seen).
  - apply IH.
  - intros I. apply IH in I. destruct I as [I|I]; auto.
    apply in_app_iff in I. destruct I as [I|[<-|[]]]; auto.
    right. clear. revert seen next.
    assert (K : forall ws s n y, In y n -> In y (snd (visit ws s n))).
    { induction ws as [|w' r' IH']; simpl; intros s n y Iy; auto.
      destruct (set_mem w' s); apply IH'; auto.
      apply in_app_iff; auto. }
    intros seen next. apply K. apply in_app_iff. simpl. auto.
Qed.

Lemma visit_next_keeps ws seen next x :
  In x next -> In x (snd (visit ws seen next)).
Proof.
  revert seen next. induction ws as [|w r IH]; simpl; intros seen next I; auto.
  destruct (set_mem w seen); apply IH; auto. apply in_app_iff; auto.
Qed.

Lemma visit_next_seen ws seen next :
  (forall x, In x next -> In x seen) ->
  forall x, In x (snd (visit ws seen next)) ->
            In x (fst (visit ws seen next)).
Proof.
  revert seen next. induction ws as [|w r IH]; simpl; intros seen next S; auto.
  destruct (set_mem w seen); apply IH; auto.
  intros x I. apply in_app_iff in I. apply in_app_iff.
  destruct I; auto.
Qed.

Lemma expand_seen level seen next x :
  In x (fst (expand G level seen next))
  <-> In x seen \/ exists v, In v level /\ In x (neighbors G v).
Proof.
  revert seen next. induction level as [|v r IH]; simpl; intros seen next.
  - split; auto. intros [|[v [[] _]]]; auto.
  - destruct (visit (neighbors G v) seen next) as [s' n'] eqn:E.
    rewrite IH.
    replace s' with (fst (visit (neighbors G v) seen next))
      by (now rewrite E).
    rewrite visit_seen. split.
    + intros [[I|I]|[u [I P]]]; eauto.
    + intros [I|[u [[->|I] P]]]; eauto.
Qed.

Lemma expand_new level seen next x :
  In x (fst (expand G level seen next)) ->
  In x seen \/ In x (snd (expand G level seen next)).
Proof.
  revert seen next. induction level as [|v r IH]; simpl; intros seen next;
    auto.
  destruct (visit (neighbors G v) seen next) as [s' n'] eqn:E.
  intros I. apply IH in I. destruct I as [I|I]; auto.
  replace s' with (fst (visit (neighbors G v) seen next)) in I
    by (now rewrite E).
  apply visit_new in I. destruct I as [I|I]; auto.
  right. rewrite E in I. simpl in I.
  clear -I. revert s' n' I.
  induction r as [|u r IH]; simpl; intros s' n' I; auto.
  destruct (visit (neighbors G u) s' n') as [s2 n2] eqn:E2.
  apply IH.
  replace n2 with (snd (visit (neighbors G u) s' n')) by (now rewrite E2).
  now apply visit_next_keeps.
Qed.

Lemma expand_next_seen level seen next :
  (forall x, In x next -> In x seen) ->
  forall x, In x (snd (expand G level seen next)) ->
            In x (fst (expand G level seen next)).
Proof.
  revert seen next. induction level as [|v r IH]; simpl; intros seen next S;
    auto.
  destruct (visit (neighbors G v) seen next) as [s' n'] eqn:E.
  apply IH. intros x I.
  replace s' with (fst (visit (neighbors G v) seen next)) by (now rewrite E).
  apply visit_next_seen; auto. now rewrite E.
Qed.
End SearchFacts.

Section EgoFacts.
Variable G : Graph.
Variable c : string.

Lemma search_invariant_step k seen level :
  search_invariant G c k seen level ->
  search_invariant G c (S k) (fst (expand G level seen []))
    (snd (expand G level seen [])).
Proof.
  intros [Hseen [Hsub Hdone]]. split; [|split].
  - intros v. rewrite expand_seen. split.
    + intros [I|[u [Iu N]]].
      * apply within_hops_S. now apply Hseen.
      * apply hops_step with u.
        -- apply Hseen. auto.
        -- now apply neighbors_has_edge.
    + intros W. inversion W as [|k' c' u w Wu E]; subst.
      * left. apply Hseen. constructor.
      * assert (Iu : In u seen) by now apply Hseen.
        destruct (Hdone u Iu) as [L|D].
        -- right. exists u. split; auto. now apply neighbors_has_edge.
        -- left. auto.
  - apply expand_next_seen. intros x [].
  - intros v I. destruct (expand_new G level seen [] v I) as [Is|In']; auto.
    right. intros w E. apply expand_seen.
    destruct (Hdone v Is) as [L|D].
    + right. exists v. split; auto. now apply neighbors_has_edge.
    + left. auto.
Qed.

Lemma search_correct levels k seen level :
  search_invariant G c k seen level ->
  forall v, In v (search G levels seen level)
            <-> within_hops G (levels + k) c v.
Proof.
  revert k seen level. induction levels as [|n IH]; intros k seen level Inv.
  - simpl. apply Inv.
  - cbn [search].
    destruct (expand G level seen []) as [seen' next] eqn:E.
    intros v. rewrite (IH (S k) seen' next).
    + now rewrite Nat.add_succ_r.
    + pose proof (search_invariant_step k seen level Inv) as S.
      now rewrite E in S.
Qed.

Lemma within_cutoff_correct (radius : nat) v :
  In v (within_cutoff G c (Z.of_nat radius)) <-> within_hops G radius c v.
Proof.
  unfold within_cutoff. rewrite Nat2Z.id.
  rewrite (search_correct radius 0 [c] [c]).
  - now rewrite Nat.add_0_r.
  - split; [|split].
    + intros v'. rewrite within_hops_0. simpl. intuition.
    + auto.
    + intros v' I. now left.
Qed.

Lemma within_hops_node k v :
  closed G -> has_node c G = true ->
  within_hops G k c v -> has_node v G = true.
Proof.
  intros C Hc W. induction W as [k c|k c v w _ IH E]; auto.
  apply has_edge_endpoint in E. destruct E as [e [I [_ [E|E]]]];
    destruct (C e I); congruence.
Qed.

Lemma contains_filter {V} (p : string -> bool) (d : dict string V) k :
  dict_contains k (filter (fun kv => p (fst kv)) d) = true
  <-> dict_contains k d = true /\ p k = true.
Proof.
  rewrite !dict_get_In. unfold dict_keys. rewrite !in_map_iff. split.
  - intros [kv [E I]]. apply filter_In in I. destruct I as [I P].
    subst. eauto.
  - intros [[kv [E I]] P]. exists kv. split; auto.
    apply filter_In. subst. auto.
Qed.

Lemma ego_graph_nodes (radius : nat) v :
  closed G -> has_node c G = true ->
  (has_node v (ego_graph G c (Z.of_nat radius)) = true
   <-> within_hops G radius c v).
Proof.
  intros C Hc. unfold ego_graph, subgraph, has_node; simpl.
  rewrite (contains_filter
             (fun k => set_mem k (within_cutoff G c (Z.of_nat radius)))).
  rewrite set_mem_In, within_cutoff_correct. split; [tauto|].
  intros W. split; auto. now apply (within_hops_node radius).
Qed.

Lemma ego_graph_edges (radius : nat) e :
  closed G -> has_node c G = true ->
  (In e (edges (ego_graph G c (Z.of_nat radius)))
   <-> In e (edges G)
       /\ has_node (src e) (ego_graph G c (Z.of_nat radius)) = true
       /\ has_node (dst e) (ego_graph G c (Z.of_nat radius)) = true).
Proof.
  intros C Hc. rewrite !ego_graph_nodes by assumption.
  unfold ego_graph, subgraph; simpl.
  rewrite filter_In, andb_true_iff, !set_mem_In, !within_cutoff_correct.
  tauto.
Qed.
End EgoFacts.

Section FullGraphFacts.
Lemma closed_set_edge_attr u v key (value : attr) G :
  closed G -> closed (set_edge_attr u v key value G).
Proof.
  intros C e I. unfold set_edge_attr in I; simpl in I.
  apply in_map_iff in I. destruct I as [e0 [E I]].
  destruct (C e0 I) as [Hs Hd].
  unfold has_node; simpl. fold (has_node (src e) G) (has_node (dst e) G).
  destruct (joins u v e0); subst e; simpl; auto.
Qed.

Lemma closed_count_edge u v G : closed G -> closed (Compact.count_edge u v G).
Proof.
  intros C. unfold Compact.count_edge. destruct (has_edge u v G).
  - now apply closed_set_edge_attr.
  - now apply closed_add_edge.
Qed.

Lemma closed_tag_nodes G : closed G -> closed (Compact.tag_nodes G).
Proof.
  unfold Compact.tag_nodes. apply fold_left_invariant.
  intros G' n _ C. now repeat apply closed_set_node_attr.
Qed.

Lemma full_graph_closed data : closed (Compact.full_graph data).
Proof.
  unfold Compact.full_graph. apply closed_tag_nodes.
  apply fold_left_invariant; [|apply closed_empty].
  intros G kv _ C. apply fold_left_invariant; auto.
  intros G' cwe _ C'. now apply closed_count_edge.
Qed.
End FullGraphFacts.

(** C5, as amended.  On a base graph whose edges join nodes of the graph,
    with a center and a radius that is not negative: when the center is in
    the graph, the ego projection has exactly the nodes within that many
    edge hops of the center, the center included, and exactly the edges of
    the base graph between two of them; when the center is not in the
    graph, it is the empty graph; at radius 0 with the center in the graph
    its only node is the center and its edges are the loops of the base
    graph on the center, so that there is no edge unless the center is
    joined to itself.  The graph [build_cna_ego_network] projects is such a
    base graph. *)
Theorem ego_projection_within_radius :
  forall (base : Graph) (center : string) (radius : nat),
    closed base ->
    let H := Compact.ego_projection base center (Z.of_nat radius) in
    (has_node center base = true ->
       (forall v, has_node v H = true <-> within_hops base radius center v)
       /\ (forall e, In e (edges H)
                     <-> In e (edges base) /\ has_node (src e) H = true
                         /\ has_node (dst e) H = true))
    /\ (has_node center base = false -> H = empty)
    /\ (has_node center base = true -> radius = 0%nat ->
          (forall v, has_node v H = true <-> v = center)
          /\ (forall e, In e (edges H)
                        <-> In e (edges base) /\ src e = center
                            /\ dst e = center))
    /\ (forall data cna_name,
          closed (Compact.full_graph data)
          /\ Compact.build_cna_ego_network data cna_name (Z.of_nat radius)
             = Compact.ego_projection (Compact.full_graph data) cna_name
                 (Z.of_nat radius)).
Proof.
  intros base center radius C H. subst H. unfold Compact.ego_projection.
  split; [|split; [|split]].
  - intros Hc. rewrite Hc. split.
    + intros v. now apply ego_graph_nodes.
    + intros e. now apply ego_graph_edges.
  - intros Hc. now rewrite Hc.
  - intros Hc ->. rewrite Hc.
    assert (Nodes : forall v,
              has_node v (ego_graph base center (Z.of_nat 0)) = true
              <-> v = center).
    { intros v. rewrite ego_graph_nodes by assumption.
      apply within_hops_0. }
    split; [exact Nodes|].
    intros e. rewrite ego_graph_edges by assumption.
    now rewrite !Nodes.
  - intros data cna_name. split; [apply full_graph_closed|reflexivity].
Qed.

Lemma ego_projection_within_radius_witness :
  let base := Compact.full_graph scenario_compact in
  let H := Compact.ego_projection base "A" 1 in
  closed base
  /\ has_node "A" base = true
  /\ (forall v, has_node v H = true <-> within_hops base 1 "A" v)
  /\ has_node "CWE-79" H = true /\ has_node "CWE-89" H = true
  /\ has_node "B" H = false.
Proof.
  intros base H.
  assert (C : closed base) by apply full_graph_closed.
  split; [exact C|]. split; [reflexivity|]. split.
  - apply (proj1 (proj1 (ego_projection_within_radius base "A" 1 C) eq_refl)).
  - repeat split.
Defined.

(** C5 as stated fails at radius 0 when the center is joined to itself: the
    authority of [data_loop] is named like its weakness, the base graph has
    a loop on it, and the ego projection of radius 0 keeps the loop. *)
Lemma ego_radius_zero_keeps_loop :
  let H := Compact.build_cna_ego_network data_loop "CWE-79" 0 in
  has_node "CWE-79" (Compact.full_graph data_loop) = true
  /\ dict_keys (nodes H) = ["CWE-79"]
  /\ List.length (edges H) = 1%nat
  /\ edge_count "CWE-79" "CWE-79" H = 1%nat.
Proof. repeat split. Qed.

(* ================================================================== *)
(** * Weights on the edges *)
(* ================================================================== *)

Section WeightedFacts.











End WeightedFacts.

Section WeightedBuilders.
Variable fromisoformat : string -> option datetime.
Variable cutoff : Z.







End WeightedBuilders.

(* ================================================================== *)
(** * Temporal links *)
(* ================================================================== *)

Section TemporalFacts.
Variable fromisoformat : string -> option datetime.
Variable cutoff : Z.

Lemma date_filter_plain_keep_aware s d :
  date_filter_plain fromisoformat cutoff (Some s) = Ok Keep ->
  nonempty s = true ->
  fromisoformat (replace_char_by "Z" "+00:00" s) = Some d ->
  is_aware d = true.
Proof.
  intros K N E. destruct (is_aware d) eqn:A; auto.
  unfold date_filter_plain, parse_published in K. rewrite N, E in K.
  cbn [bind] in K. rewrite lt_cutoff_naive in K by assumption.
  discriminate.
Qed.

Lemma parsed_metadata_aware corpus :
  Forall (published_aware fromisoformat)
    (map snd (Alternative.cve_metadata
                (Alternative.parse_cve_files_extended fromisoformat cutoff
                   corpus))).
Proof.
  unfold Alternative.parse_cve_files_extended.
  apply (fold_left_invariant
           (fun data => Forall (published_aware fromisoformat)
                          (map snd (Alternative.cve_metadata data))));
    [|constructor].
  intros data doc _ P. unfold Alternative.process_file.
  destruct (negb _); auto.
  destruct (date_filter_plain _ _ _) as [[|]|] eqn:K; auto.
  simpl. apply dict_set_values; auto.
  intros s d Hs N E. simpl in Hs. rewrite Hs in K.
  now apply (date_filter_plain_keep_aware s d).
Qed.

Variable parsed : Alternative.alt_data.
Variable days_window : Z.
Hypothesis metadata_aware :
  Forall (published_aware fromisoformat)
    (map snd (Alternative.cve_metadata parsed)).

Lemma group_by_product_aware :
  Forall all_aware (map snd (Alternative.group_by_product fromisoformat parsed)).
Proof.
  unfold Alternative.group_by_product.
  apply (fold_left_invariant
           (fun groups : dict string (list (string * datetime)) =>
              Forall all_aware (map snd groups))); [|constructor].
  intros groups kv _ P.
  destruct (dict_get (fst kv) (Alternative.cve_metadata parsed)) as [meta|] eqn:M;
    auto.
  destruct (truthy (Alternative.published meta)) eqn:T; auto.
  destruct (fromisoformat _) as [pub_date|] eqn:E; auto.
  assert (A : is_aware pub_date = true).
  { pose proof (dict_get_values _ _ _ _ metadata_aware M) as PA.
    destruct (Alternative.published meta) as [s|] eqn:Hs; [|discriminate].
    apply (PA s pub_date); auto. }
  apply (fold_left_invariant
           (fun groups : dict string (list (string * datetime)) =>
              Forall all_aware (map snd groups))); auto.
  intros g vp _ Pg. unfold Alternative.dict_append.
  apply dict_set_values; auto.
  apply Forall_app. split; [|repeat constructor; auto].
  unfold dict_get_default.
  destruct (dict_get _ g) as [old|] eqn:O; [|constructor].
  apply (dict_get_values _ _ _ _ Pg O).
Qed.

Lemma sort_by_date_aware cve_list :
  all_aware cve_list ->
  exists sorted_list,
    Alternative.sort_by_date cve_list = Ok sorted_list
    /\ all_aware sorted_list.
Proof.
  intros A. unfold Alternative.sort_by_date.
  assert (N : existsb (fun x => negb (is_aware (snd x))) cve_list = false).
  { destruct (existsb _ cve_list) eqn:X; auto.
    apply existsb_exists in X. destruct X as [x [I Nx]].
    unfold all_aware in A. rewrite Forall_forall in A.
    rewrite (A x I) in Nx. discriminate. }
  rewrite N, andb_false_r. eexists. split; [reflexivity|].
  unfold all_aware in *. rewrite Forall_forall in *.
  intros x I. apply A. now apply sorted_In in I.
Qed.

Lemma days_between_aware a b :
  is_aware a = true -> is_aware b = true ->
  exists days, days_between b a = Ok days.
Proof.
  unfold is_aware, days_between.
  destruct (utcoffset a), (utcoffset b); try discriminate. eauto.
Qed.

Lemma temporal_add_edge u v key days G :
  days <= days_window -> temporal_graph days_window G ->
  temporal_graph days_window
    (add_edge u v (Alternative.temporal_attrs key days) G).
Proof.
  intros L [C F]. split; [now apply closed_add_edge|].
  assert (New : forall d : attrs,
            dict_get "weight" d = None ->
            temporal_edge days_window
              {| src := u; dst := v;
                 data := dict_update d (Alternative.temporal_attrs key days) |}
            /\ forall s t,
                 temporal_edge days_window
                   {| src := s; dst := t;
                      data := dict_update d
                                (Alternative.temporal_attrs key days) |}).
  { intros d W.
    assert (T : forall s t,
              temporal_edge days_window
                {| src := s; dst := t;
                   data := dict_update d
                             (Alternative.temporal_attrs key days) |}).
    { intros s t. unfold temporal_edge, dict_update; simpl.
      rewrite !(@dict_get_set string attr Hashable_string). simpl.
      split; [exact W|]. split; eauto. }
    split; auto. }
  simpl. apply update_edge_Forall; auto.
  - intros e [W _] _. apply (New (data e) W).
  - apply (New [] eq_refl).
Qed.

Lemma link_following_ok key cve1 date1 following G :
  is_aware date1 = true -> all_aware following ->
  temporal_graph days_window G ->
  exists G',
    Alternative.link_following days_window key cve1 date1 following G = Ok G'
    /\ temporal_graph days_window G'.
Proof.
  intros A1 F. revert G.
  induction F as [|[cve2 date2] r A2 F IH]; intros G T; simpl; eauto.
  simpl in A2.
  destruct (days_between_aware date1 date2 A1 A2) as [days ->].
  cbn [bind]. destruct (Z.leb_spec days days_window); eauto.
  apply IH. now apply temporal_add_edge.
Qed.

Lemma link_window_ok key cve_list G :
  all_aware cve_list -> temporal_graph days_window G ->
  exists G',
    Alternative.link_window days_window key cve_list G = Ok G'
    /\ temporal_graph days_window G'.
Proof.
  intros F. revert G.
  induction F as [|[cve1 date1] r A1 F IH]; intros G T; simpl; eauto.
  destruct (link_following_ok key cve1 date1 r G A1 F T) as [G1 [-> T1]].
  cbn [bind]. now apply IH.
Qed.

Lemma link_products_ok groups G :
  Forall all_aware (map snd groups) -> temporal_graph days_window G ->
  exists G',
    Alternative.link_products days_window groups G = Ok G'
    /\ temporal_graph days_window G'.
Proof.
  revert G. induction groups as [|[key cve_list] r IH]; intros G F T;
    simpl; eauto.
  inversion F as [|? ? A F']; subst. simpl in A.
  destruct (sort_by_date_aware cve_list A) as [sorted_list [-> As]].
  cbn [bind].
  destruct (link_window_ok key sorted_list G As T) as [G1 [-> T1]].
  cbn [bind]. now apply IH.
Qed.

Lemma tag_cve_nodes_temporal G :
  temporal_graph days_window G ->
  temporal_graph days_window (Alternative.tag_cve_nodes parsed G).
Proof.
  unfold Alternative.tag_cve_nodes.
  apply (fold_left_invariant (temporal_graph days_window)).
  intros G' n _ [C F].
  assert (S : forall key value G0,
            temporal_graph days_window G0 ->
            temporal_graph days_window (set_node_attr n key value G0)).
  { intros key value G0 [C0 F0]. split; auto using closed_set_node_attr. }
  destruct (dict_get n (Alternative.cve_to_cna parsed)) as [cna_|];
    [destruct (nonempty cna_)|]; repeat apply S; now split.
Qed.

Lemma build_cve_temporal_graph_ok :
  exists G,
    Alternative.build_cve_temporal_graph fromisoformat parsed days_window = Ok G
    /\ temporal_graph days_window G.
Proof.
  unfold Alternative.build_cve_temporal_graph.
  destruct (link_products_ok (Alternative.group_by_product fromisoformat parsed)
              empty group_by_product_aware) as [G [-> T]].
  - split; [apply closed_empty|constructor].
  - cbn [bind]. eexists. split; [reflexivity|].
    now apply tag_cve_nodes_temporal.
Qed.
End TemporalFacts.


(* ================================================================== *)
(** * The weakness codes of a document *)
(* ================================================================== *)

Section ExtractFacts.

Lemma fold_left_flat_map {A B C} (f : A -> C -> A) (g : B -> list C)
    (l : list B) (a : A) :
  fold_left f (flat_map g l) a
  = fold_left (fun acc x => fold_left f (g x) acc) l a.
Proof.
  revert a. induction l as [|x r IH]; intros a; [reflexivity|].
  cbn [flat_map fold_left]. now rewrite fold_left_app, IH.
Qed.

Lemma scan_descriptions_app ds1 ds2 found :
  scan_descriptions (ds1 ++ ds2) found
  = scan_descriptions ds2 (scan_descriptions ds1 found).
Proof. unfold scan_descriptions. apply fold_left_app. Qed.

Lemma scan_problem_types_flat pts found :
  scan_problem_types pts found
  = scan_descriptions (flat_map descriptions pts) found.
Proof.
  unfold scan_problem_types, scan_descriptions.
  now rewrite fold_left_flat_map.
Qed.

Lemma scan_adp_flat adps found :
  scan_adp adps found
  = scan_descriptions
      (flat_map (fun a => flat_map descriptions (problemTypes a)) adps) found.
Proof.
  unfold scan_adp, scan_descriptions.
  rewrite fold_left_flat_map.
  revert found. induction adps as [|a r IH]; intros found; [reflexivity|].
  cbn [fold_left]. rewrite scan_problem_types_flat. apply IH.
Qed.

Lemma extract_cwes_flat doc found :
  extract_cwes doc found = scan_descriptions (all_descriptions doc) found.
Proof.
  unfold extract_cwes, all_descriptions.
  now rewrite scan_adp_flat, scan_problem_types_flat, scan_descriptions_app.
Qed.

Lemma scan_descriptions_In ds found c :
  In c (scan_descriptions ds found)
  <-> In c found \/ exists d, In d ds /\ cwe_of_description d = Some c.
Proof.
  unfold scan_descriptions. revert found.
  induction ds as [|d r IH]; intros found; cbn [fold_left].
  - split; [auto|]. intros [I|[d [[] _]]]. exact I.
  - rewrite IH. destruct (cwe_of_description d) as [v|] eqn:E.
    + rewrite set_add_In. split.
      * intros [[->|I]|[d' [I E']]]; eauto.
        -- right. exists d. split; [now left|exact E].
        -- right. exists d'. split; [now right|exact E'].
      * intros [I|[d' [[<-|I] E']]]; auto.
        -- rewrite E in E'. inversion E'; subst. auto.
        -- right. eauto.
    + split.
      * intros [I|[d' [I E']]]; auto. right. exists d'. split; [now right|exact E'].
      * intros [I|[d' [[<-|I] E']]]; auto.
        -- rewrite E in E'. discriminate.
        -- right. eauto.
Qed.

Lemma scan_descriptions_NoDup ds found :
  NoDup found -> NoDup (scan_descriptions ds found).
Proof.
  unfold scan_descriptions. revert found.
  induction ds as [|d r IH]; intros found ND; cbn [fold_left]; auto.
  apply IH. destruct (cwe_of_description d); auto.
  now apply set_add_NoDup.
Qed.

Lemma extract_cwes_NoDup doc found :
  NoDup found -> NoDup (extract_cwes doc found).
Proof. rewrite extract_cwes_flat. apply scan_descriptions_NoDup. Qed.

Lemma extract_cwes_In doc found c :
  In c (extract_cwes doc found)
  <-> In c found
      \/ exists d, In d (all_descriptions doc) /\ cwe_of_description d = Some c.
Proof. rewrite extract_cwes_flat. apply scan_descriptions_In. Qed.

(** What an accepted code looks like. *)
Lemma cwe_of_description_Some d c :
  cwe_of_description d = Some c ->
  desc_type d = Some "CWE"
  /\ py_or (desc_cweId d) (desc_value d) = Some c
  /\ nonempty c = true /\ startswith "CWE-" c = true.
Proof.
  unfold cwe_of_description.
  destruct (desc_type d) as [t|]; [|discriminate].
  destruct (String.eqb_spec t "CWE") as [->|]; [|discriminate].
  destruct (py_or _ _) as [v|]; [|discriminate].
  destruct (nonempty v) eqn:N; [|discriminate].
  destruct (startswith "CWE-" v) eqn:P; [|discriminate].
  simpl. intros E; inversion E; subst. auto.
Qed.

End ExtractFacts.

(** X1.  The codes [parse_cve_files] finds in a document are exactly the
    codes accepted from its descriptions, those of the CNA container and
    those of every ADP container, each of them once; an accepted code is
    the [cweId] of a description of type CWE, or its [value] when the
    [cweId] is missing or empty, and starts with "CWE-". *)
Theorem extract_cwes_exact :
  forall (doc : cve_document),
    NoDup (extract_cwes doc [])
    /\ (forall c, In c (extract_cwes doc [])
          <-> exists d, In d (all_descriptions doc)
                /\ desc_type d = Some "CWE"
                /\ py_or (desc_cweId d) (desc_value d) = Some c
                /\ startswith "CWE-" c = true).
Proof.
  intros doc. split; [apply extract_cwes_NoDup; constructor|].
  intros c. rewrite extract_cwes_In. split.
  - intros [[]|[d [I E]]]. exists d.
    apply cwe_of_description_Some in E. tauto.
  - intros [d [I [T [O P]]]]. right. exists d. split; [exact I|].
    unfold cwe_of_description. rewrite T, O. simpl.
    rewrite P. destruct c; [discriminate|reflexivity].
Qed.

(* ================================================================== *)
(** * The counters and the counts of [parse_cve_files] *)
(* ================================================================== *)

Section CounterAccounting.
Import BuildGraph.
Variable fromisoformat : string -> option datetime.
Variable cutoff : Z.

Lemma count_documents_cons p doc corpus :
  count_documents p (doc :: corpus)
  = (if p doc then 1 else 0) + count_documents p corpus.
Proof.
  unfold count_documents. cbn [filter].
  destruct (p doc); cbn [List.length]; lia.
Qed.

Lemma count_documents_nonneg p corpus : 0 <= count_documents p corpus.
Proof. unfold count_documents. lia. Qed.

Lemma count_documents_positive p corpus :
  1 <= count_documents p corpus <-> exists doc, In doc corpus /\ p doc = true.
Proof.
  unfold count_documents. split.
  - intros L. destruct (filter p corpus) as [|doc r] eqn:E;
      [simpl in L; lia|].
    assert (I : In doc (filter p corpus)) by (rewrite E; now left).
    apply filter_In in I. eauto.
  - intros [doc [I P]].
    assert (I' : In doc (filter p corpus)) by (apply filter_In; auto).
    destruct (filter p corpus); [destruct I'|]. cbn [List.length]. lia.
Qed.

Lemma counters_from st corpus :
  let st' := parse_cve_files_from fromisoformat cutoff st corpus in
  total_files st' = total_files st + Z.of_nat (List.length corpus)
  /\ date_filtered st'
     = date_filtered st
       + count_documents (date_dropped fromisoformat cutoff) corpus
  /\ skipped_files st'
     = skipped_files st
       + count_documents (without_authority fromisoformat cutoff) corpus
  /\ parsed_files st'
     = parsed_files st
       + count_documents (contributes fromisoformat cutoff) corpus.
Proof.
  unfold parse_cve_files_from. revert st.
  induction corpus as [|doc r IH]; intros st.
  - unfold count_documents. simpl. repeat split; lia.
  - cbn [fold_left]. destruct (IH (process_file fromisoformat cutoff st doc))
      as [T [D [S P]]].
    cbn zeta. rewrite T, D, S, P, !count_documents_cons.
    cbn [List.length]. rewrite Nat2Z.inj_succ.
    unfold process_file, date_dropped, without_authority, contributes,
      reaches_authority.
    destruct (date_filter_total fromisoformat cutoff
                (datePublished (cveMetadata doc))) as [v ->].
    destruct v.
    + destruct (truthy (assignerOrgId (cveMetadata doc)));
        cbn -[Z.add Z.of_nat count_documents].
      * destruct (Nat.eqb _ 0); cbn -[Z.add Z.of_nat count_documents];
          repeat split; lia.
      * repeat split; lia.
    + cbn -[Z.add Z.of_nat count_documents]. repeat split; lia.
Qed.

Lemma exclusive_outcomes doc :
  (if date_dropped fromisoformat cutoff doc then 1 else 0)
  + (if without_authority fromisoformat cutoff doc then 1 else 0)
  + (if reaches_authority fromisoformat cutoff doc then 1 else 0) = 1.
Proof.
  unfold date_dropped, without_authority, reaches_authority.
  destruct (date_filter_total fromisoformat cutoff
              (datePublished (cveMetadata doc))) as [v ->].
  destruct v; [|reflexivity].
  now destruct (truthy (assignerOrgId (cveMetadata doc))).
Qed.

Lemma outcomes_partition corpus :
  count_documents (date_dropped fromisoformat cutoff) corpus
  + count_documents (without_authority fromisoformat cutoff) corpus
  + count_documents (reaches_authority fromisoformat cutoff) corpus
  = Z.of_nat (List.length corpus).
Proof.
  induction corpus as [|doc r IH]; [reflexivity|].
  rewrite !count_documents_cons. cbn [List.length].
  rewrite Nat2Z.inj_succ. pose proof (exclusive_outcomes doc). lia.
Qed.

Lemma contributes_le_reaches corpus :
  count_documents (contributes fromisoformat cutoff) corpus
  <= count_documents (reaches_authority fromisoformat cutoff) corpus.
Proof.
  induction corpus as [|doc r IH]; [reflexivity|].
  rewrite !count_documents_cons. unfold contributes at 1.
  destruct (reaches_authority fromisoformat cutoff doc); cbn [andb].
  - destruct (negb _); lia.
  - lia.
Qed.

End CounterAccounting.

(** X2.  The counters of [parse_cve_files] on a corpus of decoded documents:
    [total_files] is the number of documents, [date_filtered] the number the
    date filter drops, [skipped_files] the number that pass it without an
    authority UUID, [parsed_files] the number that reach the aggregator with
    at least one weakness.  Every document is dropped, skipped or reaches
    the aggregator, so the first two counters and the documents that reach
    it add up to the total. *)
Theorem parse_cve_files_counters :
  forall (fromisoformat : string -> option datetime) (cutoff : Z)
         (corpus : list cve_document),
    let st := BuildGraph.parse_cve_files fromisoformat cutoff corpus in
    BuildGraph.total_files st = Z.of_nat (List.length corpus)
    /\ BuildGraph.date_filtered st
       = count_documents (date_dropped fromisoformat cutoff) corpus
    /\ BuildGraph.skipped_files st
       = count_documents (without_authority fromisoformat cutoff) corpus
    /\ BuildGraph.parsed_files st
       = count_documents (contributes fromisoformat cutoff) corpus
    /\ BuildGraph.date_filtered st + BuildGraph.skipped_files st
       + count_documents (reaches_authority fromisoformat cutoff) corpus
       = BuildGraph.total_files st
    /\ BuildGraph.date_filtered st + BuildGraph.skipped_files st
       + BuildGraph.parsed_files st <= BuildGraph.total_files st.
Proof.
  intros f c corpus st. subst st. unfold BuildGraph.parse_cve_files.
  destruct (counters_from f c BuildGraph.initial corpus) as [T [D [S P]]].
  cbn zeta in *. rewrite T, D, S, P. cbn.
  pose proof (outcomes_partition f c corpus).
  pose proof (contributes_le_reaches f c corpus).
  repeat split; lia.
Qed.

Section CountFacts.
Import BuildGraph.
Variable fromisoformat : string -> option datetime.
Variable cutoff : Z.

Lemma record_associations_get u u' w cwes assoc :
  NoDup cwes ->
  dict_get_default (u, w) 0 (record_associations u' cwes assoc)
  = dict_get_default (u, w) 0 assoc
    + (if String.eqb u' u && set_mem w cwes then 1 else 0).
Proof.
  intros ND. unfold record_associations.
  rewrite (fold_incr_get (fun cwe => (u', cwe))). f_equal.
  destruct (String.eqb_spec u' u) as [->|N]; cbn [andb].
  - rewrite (filter_ext _ (fun x => keqb x w)).
    + rewrite (filter_keqb_NoDup cwes w ND). now destruct (set_mem w cwes).
    + intros x. cbn. unfold pair_eqb. cbn. now rewrite String.eqb_refl.
  - rewrite (filter_ext _ (fun _ => false)).
    + clear ND. now induction cwes.
    + intros x. cbn. unfold pair_eqb. cbn.
      apply String.eqb_neq in N. now rewrite N.
Qed.

Lemma counts_from st corpus u w :
  dict_get_default (u, w) 0
    (associations (parse_cve_files_from fromisoformat cutoff st corpus))
  = dict_get_default (u, w) 0 (associations st)
    + count_documents
        (fun doc => carries fromisoformat cutoff u doc
                    && set_mem w (extract_cwes doc [])) corpus.
Proof.
  unfold parse_cve_files_from. revert st.
  induction corpus as [|doc r IH]; intros st.
  - unfold count_documents. simpl. lia.
  - cbn [fold_left]. rewrite IH, count_documents_cons.
    rewrite process_file_associations. unfold carries.
    destruct (reaches_authority fromisoformat cutoff doc); cbn [andb].
    + rewrite record_associations_get
        by (apply extract_cwes_NoDup; constructor). lia.
    + lia.
Qed.

Lemma get_default_positive_key {K} `{Hashable K} (k : K) (d : dict K Z) :
  1 <= dict_get_default k 0 d -> In k (dict_keys d).
Proof.
  unfold dict_get_default. intros L. apply dict_get_In.
  unfold dict_contains. destruct (dict_get k d); [reflexivity|lia].
Qed.

Lemma key_positive_get_default {K} `{Hashable K} (k : K) (d : dict K Z) :
  positive_counts d -> In k (dict_keys d) -> 1 <= dict_get_default k 0 d.
Proof.
  intros P I. apply dict_get_In in I. unfold dict_contains in I.
  unfold dict_get_default. destruct (dict_get k d) as [v|] eqn:E;
    [|discriminate].
  exact (dict_get_values k v d _ P E).
Qed.

Lemma association_keys corpus u w :
  In (u, w)
    (dict_keys (associations (parse_cve_files fromisoformat cutoff corpus)))
  <-> exists doc, In doc corpus
        /\ carries fromisoformat cutoff u doc = true
        /\ In w (extract_cwes doc []).
Proof.
  pose proof (counts_from initial corpus u w) as C.
  change (parse_cve_files_from fromisoformat cutoff initial corpus)
    with (parse_cve_files fromisoformat cutoff corpus) in C.
  cbn in C. split.
  - intros I.
    apply (key_positive_get_default _ _
             (associations_positive fromisoformat cutoff corpus)) in I.
    rewrite C in I. apply count_documents_positive in I.
    destruct I as [doc [I P]]. apply andb_true_iff in P.
    destruct P as [P1 P2]. apply set_mem_In in P2. eauto.
  - intros [doc [I [P1 P2]]]. apply get_default_positive_key.
    rewrite C. apply count_documents_positive. exists doc.
    split; [exact I|]. rewrite P1. cbn. now apply set_mem_In.
Qed.

End CountFacts.

(** X3.  The count [parse_cve_files] gives to the pair of an authority and
    a weakness is the number of documents that pass the date filter, carry
    the UUID of the authority and hold the weakness; a pair is a key of the
    mapping exactly when there is such a document. *)
Theorem association_count_is_document_count :
  forall (fromisoformat : string -> option datetime) (cutoff : Z)
         (corpus : list cve_document) (u w : string),
    let assoc :=
      BuildGraph.associations
        (BuildGraph.parse_cve_files fromisoformat cutoff corpus) in
    dict_get_default (u, w) 0 assoc
    = count_documents
        (fun doc => carries fromisoformat cutoff u doc
                    && set_mem w (extract_cwes doc [])) corpus
    /\ (In (u, w) (dict_keys assoc)
        <-> exists doc, In doc corpus
              /\ carries fromisoformat cutoff u doc = true
              /\ In w (extract_cwes doc [])).
Proof.
  intros f c corpus u w assoc. subst assoc. split.
  - unfold BuildGraph.parse_cve_files. now rewrite counts_from.
  - apply association_keys.
Qed.

Section KeyFacts.
Import BuildGraph.
Variable fromisoformat : string -> option datetime.
Variable cutoff : Z.

Lemma truthy_get_or_empty o :
  truthy o = true -> nonempty (get_or_empty o) = true.
Proof. destruct o; [auto|discriminate]. Qed.

Lemma carries_uuid u doc :
  carries fromisoformat cutoff u doc = true ->
  reaches_authority fromisoformat cutoff doc = true
  /\ get_or_empty (assignerOrgId (cveMetadata doc)) = u
  /\ nonempty u = true.
Proof.
  unfold carries. rewrite andb_true_iff, String.eqb_eq. intros [R E].
  split; [exact R|]. split; [exact E|]. subst u.
  apply truthy_get_or_empty. unfold reaches_authority in R.
  destruct (date_filter _ _ _) as [[|]|]; try discriminate. exact R.
Qed.

Lemma bound_name_nonempty u doc :
  nonempty u = true -> nonempty (bound_name u doc) = true.
Proof.
  intros N. unfold bound_name.
  destruct (truthy (assignerShortName (cveMetadata doc))) eqn:T; [|exact N].
  now apply truthy_get_or_empty.
Qed.

Lemma carried_uuid_named corpus u doc :
  In doc corpus -> carries fromisoformat cutoff u doc = true ->
  exists first,
    find (carries fromisoformat cutoff u) corpus = Some first
    /\ dict_get u (cna_names (parse_cve_files fromisoformat cutoff corpus))
       = Some (bound_name u first).
Proof.
  intros I C. unfold parse_cve_files. rewrite names_from. cbn [initial cna_names dict_get].
  destruct (find (carries fromisoformat cutoff u) corpus) as [first|] eqn:F.
  - exists first. auto.
  - rewrite (find_none _ _ F doc I) in C. discriminate.
Qed.

End KeyFacts.

(** X4.  Every pair [parse_cve_files] returns is well formed: its authority
    is a non-empty UUID that has a non-empty name in [cna_names], so that
    [build_graph] never falls back on the UUID for want of a name, and its
    weakness starts with "CWE-". *)
Theorem association_keys_are_named :
  forall (fromisoformat : string -> option datetime) (cutoff : Z)
         (corpus : list cve_document) (u w : string),
    let st := BuildGraph.parse_cve_files fromisoformat cutoff corpus in
    In (u, w) (dict_keys (BuildGraph.associations st)) ->
    nonempty u = true
    /\ startswith "CWE-" w = true
    /\ exists n, dict_get u (BuildGraph.cna_names st) = Some n
                 /\ nonempty n = true
                 /\ BuildGraph.display_name (BuildGraph.cna_names st) u = n.
Proof.
  intros f c corpus u w st I. subst st.
  apply association_keys in I. destruct I as [doc [I [C W]]].
  destruct (carries_uuid f c u doc C) as [_ [_ N]].
  split; [exact N|]. split.
  - apply extract_cwes_In in W. destruct W as [[]|[d [_ E]]].
    now apply cwe_of_description_Some in E.
  - destruct (carried_uuid_named f c corpus u doc I C) as [first [_ G]].
    exists (bound_name u first). split; [exact G|]. split.
    + now apply bound_name_nonempty.
    + unfold BuildGraph.display_name, dict_get_default. now rewrite G.
Qed.

Lemma association_keys_are_named_witness :
  let st := BuildGraph.parse_cve_files iso8601 scenario_start scenario in
  In ("A", "CWE-79") (dict_keys (BuildGraph.associations st))
  /\ nonempty "A" = true
  /\ startswith "CWE-" "CWE-79" = true
  /\ exists n, dict_get "A" (BuildGraph.cna_names st) = Some n
               /\ nonempty n = true
               /\ BuildGraph.display_name (BuildGraph.cna_names st) "A" = n.
Proof.
  assert (I : In ("A", "CWE-79")
                (dict_keys
                   (BuildGraph.associations
                      (BuildGraph.parse_cve_files iso8601 scenario_start
                         scenario)))) by (vm_compute; auto).
  split; [exact I|].
  exact (association_keys_are_named iso8601 scenario_start scenario
           "A" "CWE-79" I).
Defined.

(* ================================================================== *)
(** * The exported graph *)
(* ================================================================== *)

Section ExportFacts.
Import BuildGraph BuildGraphMain.

Lemma has_type_cna_attrs old n u t :
  has_type t (dict_update old (cna_attrs n u)) = String.eqb "cna" t.
Proof.
  unfold has_type, dict_update, cna_attrs. cbn [fold_left fst snd].
  now rewrite !dict_get_set.
Qed.

Lemma has_type_cwe_attrs old c t :
  has_type t (dict_update old (cwe_attrs c)) = String.eqb "cwe" t.
Proof.
  unfold has_type, dict_update, cwe_attrs. cbn [fold_left fst snd].
  now rewrite !dict_get_set.
Qed.

Lemma typed_add_node n a G :
  typed_node (dict_update (dict_get_default n [] (nodes G)) a) ->
  Forall typed_node (map snd (nodes G)) ->
  Forall typed_node (map snd (nodes (add_node n a G))).
Proof. intros T F. unfold add_node; cbn [nodes]. now apply dict_set_values. Qed.

Lemma nodes_add_edge_present u v a G :
  has_node u G = true -> has_node v G = true ->
  nodes (add_edge u v a G) = nodes G.
Proof.
  unfold has_node, add_edge, touch_node. cbn [nodes]. intros U V.
  now rewrite U, V.
Qed.

Lemma nodes_add_weighted_edges names assoc G :
  (forall kv, In kv assoc ->
     has_node (display_name names (fst (fst kv))) G = true
     /\ has_node (snd (fst kv)) G = true) ->
  nodes (add_weighted_edges names assoc G) = nodes G.
Proof.
  unfold add_weighted_edges. revert G.
  induction assoc as [|kv r IH]; intros G P; [reflexivity|].
  cbn [fold_left].
  destruct (P kv (or_introl eq_refl)) as [U V].
  pose proof (nodes_add_edge_present _ _ [("weight", AInt (snd kv))] G U V)
    as E.
  rewrite IH; [exact E|].
  intros kv' I. unfold has_node. rewrite E. apply P. now right.
Qed.

Lemma build_graph_typed assoc names :
  Forall typed_node (map snd (nodes (build_graph assoc names))).
Proof.
  unfold build_graph. rewrite nodes_add_weighted_edges.
  - unfold add_cwe_nodes, add_cna_nodes.
    apply (fold_left_invariant
             (fun G => Forall typed_node (map snd (nodes G)))).
    + intros G c _ F. apply typed_add_node; [|exact F].
      right. now rewrite has_type_cwe_attrs.
    + apply (fold_left_invariant
               (fun G => Forall typed_node (map snd (nodes G)))).
      * intros G u _ F. apply typed_add_node; [|exact F].
        left. now rewrite has_type_cna_attrs.
      * constructor.
  - intros kv I. unfold add_cwe_nodes, add_cna_nodes.
    rewrite !(has_node_fold_add_node (fun c => c) cwe_attrs).
    rewrite (has_node_fold_add_node (display_name names)
               (fun u => cna_attrs (display_name names u) u)).
    split.
    + left. right. exists (fst (fst kv)). split; [|reflexivity].
      apply collect_cnas_In. eauto.
    + right. exists (snd (fst kv)). split; [|reflexivity].
      apply collect_cwes_In. eauto.
Qed.

Lemma has_type_exclusive d :
  has_type "cna" d = true -> has_type "cwe" d = true -> False.
Proof.
  unfold has_type. destruct (dict_get "type" d) as [[s|z]|]; try discriminate.
  rewrite !String.eqb_eq. intros -> E. discriminate.
Qed.

Lemma typed_count (ns : dict string attrs) :
  Forall typed_node (map snd ns) ->
  List.length ns
  = (List.length (filter (fun nd => has_type "cna" (snd nd)) ns)
     + List.length (filter (fun nd => has_type "cwe" (snd nd)) ns))%nat.
Proof.
  induction ns as [|[n d] r IH]; intros F; [reflexivity|].
  inversion F as [|? ? T F']; subst. cbn [filter snd List.length].
  rewrite (IH F').
  destruct (has_type "cna" d) eqn:A, (has_type "cwe" d) eqn:B;
    cbn [List.length]; try lia.
  - destruct (has_type_exclusive d A B).
  - destruct T; congruence.
Qed.

Lemma length_update_edge u v a es :
  List.length (update_edge u v a es)
  = (List.length es + (if existsb (joins u v) es then 0 else 1))%nat.
Proof.
  induction es as [|e r IH]; [reflexivity|].
  cbn [update_edge existsb]. destruct (joins u v e); cbn [orb List.length].
  - lia.
  - rewrite IH. lia.
Qed.

Lemma length_edges_add_weighted_edges names assoc G :
  (List.length (edges (add_weighted_edges names assoc G))
   <= List.length (edges G) + List.length assoc)%nat.
Proof.
  unfold add_weighted_edges. revert G.
  induction assoc as [|kv r IH]; intros G; cbn [fold_left List.length];
    [lia|].
  etransitivity; [apply IH|]. cbn [add_edge edges].
  rewrite length_update_edge. destruct (existsb _ _); lia.
Qed.

Lemma edges_build_graph_start names assoc :
  edges (add_cwe_nodes (collect_cwes assoc)
           (add_cna_nodes names (collect_cnas assoc) empty)) = [].
Proof.
  unfold add_cwe_nodes, add_cna_nodes.
  rewrite (edges_fold_add_node (fun c => c) cwe_attrs).
  now rewrite (edges_fold_add_node (display_name names)
                 (fun u => cna_attrs (display_name names u) u)).
Qed.

End ExportFacts.

Section MainFacts.
Import BuildGraph.
Variable fromisoformat : string -> option datetime.
Variable cutoff : Z.

Lemma contributes_key doc :
  contributes fromisoformat cutoff doc = true ->
  exists u w, carries fromisoformat cutoff u doc = true
              /\ In w (extract_cwes doc []).
Proof.
  unfold contributes, carries. rewrite andb_true_iff. intros [R L].
  exists (get_or_empty (assignerOrgId (cveMetadata doc))).
  destruct (extract_cwes doc []) as [|w r]; [discriminate|].
  exists w. rewrite R, String.eqb_refl. split; [reflexivity|now left].
Qed.

Lemma key_contributes u w doc :
  carries fromisoformat cutoff u doc = true -> In w (extract_cwes doc []) ->
  contributes fromisoformat cutoff doc = true.
Proof.
  unfold contributes, carries. rewrite andb_true_iff. intros [R _] I.
  rewrite R. destruct (extract_cwes doc []); [destruct I|reflexivity].
Qed.

Lemma associations_empty_iff corpus :
  associations (parse_cve_files fromisoformat cutoff corpus) = []
  <-> count_documents (contributes fromisoformat cutoff) corpus = 0.
Proof.
  split.
  - intros E.
    destruct (Z.eq_dec (count_documents (contributes fromisoformat cutoff)
                          corpus) 0) as [|N]; [assumption|].
    pose proof (count_documents_nonneg (contributes fromisoformat cutoff)
                  corpus).
    assert (P : 1 <= count_documents (contributes fromisoformat cutoff)
                       corpus) by lia.
    apply count_documents_positive in P. destruct P as [doc [I C]].
    destruct (contributes_key doc C) as [u [w [Cu Iw]]].
    assert (K : In (u, w)
                  (dict_keys (associations
                     (parse_cve_files fromisoformat cutoff corpus))))
      by (apply association_keys; eauto).
    rewrite E in K. destruct K.
  - intros Z0.
    destruct (associations (parse_cve_files fromisoformat cutoff corpus))
      as [|[[u w] k] r] eqn:E; [reflexivity|].
    assert (K : In (u, w)
                  (dict_keys (associations
                     (parse_cve_files fromisoformat cutoff corpus))))
      by (rewrite E; now left).
    apply association_keys in K. destruct K as [doc [I [C W]]].
    assert (P : 1 <= count_documents (contributes fromisoformat cutoff)
                       corpus).
    { apply count_documents_positive. exists doc. split; [exact I|].
      eapply key_contributes; eauto. }
    lia.
Qed.

End MainFacts.

(** X5.  [main] of scripts/build_graph.py ends with exit status 1 exactly
    when no document of the corpus reaches the aggregator with a weakness.
    Otherwise it exports the graph of [build_graph], and in the metadata
    the count of CVEs is the number of such documents, every node is
    counted once as an authority or as a weakness, and the graph has at
    least one edge and at most one edge for each pair of the mapping. *)
Theorem main_exports_consistent_metadata :
  forall (fromisoformat : string -> option datetime) (cutoff : Z)
         (corpus : list cve_document),
    let st := BuildGraph.parse_cve_files fromisoformat cutoff corpus in
    let contributing :=
      count_documents (contributes fromisoformat cutoff) corpus in
    match BuildGraphMain.main fromisoformat cutoff corpus with
    | BuildGraphMain.Exit status => status = 1 /\ contributing = 0
    | BuildGraphMain.Exported graph md =>
        graph = BuildGraph.build_graph (BuildGraph.associations st)
                  (BuildGraph.cna_names st)
        /\ BuildGraphMain.cve_count md = contributing
        /\ 1 <= contributing
        /\ BuildGraphMain.node_count md
           = BuildGraphMain.cna_count md + BuildGraphMain.cwe_count md
        /\ 1 <= BuildGraphMain.edge_count md
           <= Z.of_nat (List.length (BuildGraph.associations st))
    end.
Proof.
  intros f c corpus st contributing. subst st contributing.
  unfold BuildGraphMain.main.
  pose proof (associations_empty_iff f c corpus) as Em.
  destruct (BuildGraph.associations (BuildGraph.parse_cve_files f c corpus))
    as [|kv r] eqn:E.
  - split; [reflexivity|]. now apply Em.
  - rewrite <- E. cbn zeta. split; [reflexivity|].
    destruct (counters_from f c BuildGraph.initial corpus) as [_ [_ [_ P]]].
    cbn zeta in P. cbn [BuildGraph.initial BuildGraph.parsed_files] in P.
    cbn [BuildGraphMain.export_graph BuildGraphMain.cve_count
         BuildGraphMain.node_count BuildGraphMain.cna_count
         BuildGraphMain.cwe_count BuildGraphMain.edge_count].
    split; [exact P|]. split.
    { pose proof (count_documents_nonneg (contributes f c) corpus).
      destruct (Z.eq_dec (count_documents (contributes f c) corpus) 0) as [Z0|];
        [|lia].
      apply Em in Z0. rewrite Z0 in E. discriminate. }
    split.
    { unfold BuildGraphMain.count_nodes_of_type.
      rewrite (typed_count _ (build_graph_typed _ _)). lia. }
    split.
    + assert (H : has_edge
                    (BuildGraph.display_name
                       (BuildGraph.cna_names
                          (BuildGraph.parse_cve_files f c corpus))
                       (fst (fst kv))) (snd (fst kv))
                    (BuildGraph.build_graph
                       (BuildGraph.associations
                          (BuildGraph.parse_cve_files f c corpus))
                       (BuildGraph.cna_names
                          (BuildGraph.parse_cve_files f c corpus))) = true).
      { unfold BuildGraph.build_graph.
        apply has_edge_add_weighted_edges. rewrite E. now left. }
      unfold has_edge in H.
      destruct (edges _); [discriminate|]. cbn [List.length]. lia.
    + unfold BuildGraph.build_graph.
      pose proof (length_edges_add_weighted_edges
                    (BuildGraph.cna_names
                       (BuildGraph.parse_cve_files f c corpus))
                    (BuildGraph.associations
                       (BuildGraph.parse_cve_files f c corpus))
                    (BuildGraph.add_cwe_nodes
                       (BuildGraph.collect_cwes
                          (BuildGraph.associations
                             (BuildGraph.parse_cve_files f c corpus)))
                       (BuildGraph.add_cna_nodes
                          (BuildGraph.cna_names
                             (BuildGraph.parse_cve_files f c corpus))
                          (BuildGraph.collect_cnas
                             (BuildGraph.associations
                                (BuildGraph.parse_cve_files f c corpus)))
                          empty))) as L.
      rewrite edges_build_graph_start in L. cbn [List.length] in L. lia.
Qed.

(* ================================================================== *)
(** * [build_graph] on authorities with distinct names *)
(* ================================================================== *)

Section LosslessFacts.
Import BuildGraph.
Variable names : dict string string.

Lemma joins_updated a b e d :
  joins a b {| src := src e; dst := dst e; data := d |} = joins a b e.
Proof. reflexivity. Qed.

Lemma existsb_update_edge a b u v x es :
  existsb (joins a b) (update_edge u v x es)
  = existsb (joins a b) es || joins a b {| src := u; dst := v; data := [] |}.
Proof.
  induction es as [|e r IH].
  - cbn [update_edge existsb]. rewrite orb_false_r. cbn [orb].
    apply joins_data.
  - cbn [update_edge]. destruct (joins u v e) eqn:J; cbn [existsb].
    + rewrite joins_updated.
      destruct (joins a b {| src := u; dst := v; data := [] |}) eqn:P;
        [|now rewrite orb_false_r].
      rewrite (joins_pair_eq a b u v [] e P), J. reflexivity.
    + rewrite IH. now rewrite orb_assoc.
Qed.

Lemma has_edge_add_edge_iff a b u v x G :
  has_edge a b (add_edge u v x G)
  = has_edge a b G || joins a b {| src := u; dst := v; data := [] |}.
Proof. unfold has_edge, add_edge. cbn [edges]. apply existsb_update_edge. Qed.

(** The key of [kv] is told apart from every other key of the mapping by
    the edge it lands on. *)
Hypothesis distinct_names :
  forall u1 u2 : string,
    display_name names u1 = display_name names u2 -> u1 = u2.




End LosslessFacts.


(* ================================================================== *)
(** * Dates without offset in the other parsers *)
(* ================================================================== *)

Section NaiveDates.
Variable fromisoformat : string -> option datetime.
Variable cutoff : Z.

Lemma date_filter_plain_naive s d :
  nonempty s = true ->
  fromisoformat (replace_char_by "Z" "+00:00" s) = Some d ->
  utcoffset d = None ->
  date_filter_plain fromisoformat cutoff (Some s) = Raise TypeError.
Proof.
  intros N E O. unfold date_filter_plain, parse_published.
  rewrite N, E. cbn [bind]. rewrite lt_cutoff_naive; [reflexivity|].
  unfold is_aware. now rewrite O.
Qed.

Lemma date_filter_compact_naive s d :
  nonempty s = true ->
  fromisoformat (replace_char_by "Z" "+00:00" s) = Some d ->
  utcoffset d = None ->
  CompactParser.date_filter fromisoformat cutoff (Some s) = Ok Keep.
Proof.
  intros N E O. unfold CompactParser.date_filter, parse_published.
  rewrite N, E. cbn [bind]. rewrite lt_cutoff_naive; [reflexivity|].
  unfold is_aware. now rewrite O.
Qed.

End NaiveDates.

(** X7.  A publication date that is read without offset cannot be compared
    with the cutoff.  In [parse_cve_files_extended] and in
    [parse_cve_extended_data] the [TypeError] of the comparison leaves the
    [try] of the date filter and is swallowed by the handler of the loop:
    the document is left out and nothing is recorded for it, whatever the
    cutoff.  In the copy of [parse_cve_files] at the root of the repository
    the same handler counts the document as skipped and records nothing.
    In [parse_cve_files_compact] the bare [except] of the date filter
    handles it: the document is kept whatever the cutoff, and its authority
    is recorded. *)
Theorem naive_date_leaves_document_out :
  forall (fromisoformat : string -> option datetime) (cutoff : Z)
         (doc : cve_document) (s : string) (d : datetime)
         (alt : Alternative.alt_data) (ext : Extended.ext_data)
         (cmp : Compact.compact_data) (st : BuildGraph.parse_state),
    datePublished (cveMetadata doc) = Some s ->
    nonempty s = true ->
    fromisoformat (replace_char_by "Z" "+00:00" s) = Some d ->
    utcoffset d = None ->
    Alternative.process_file fromisoformat cutoff alt doc = alt
    /\ Extended.process_file fromisoformat cutoff ext doc = ext
    /\ (let st' := Legacy.process_file fromisoformat cutoff st doc in
        BuildGraph.associations st' = BuildGraph.associations st
        /\ BuildGraph.cna_names st' = BuildGraph.cna_names st
        /\ BuildGraph.skipped_files st' = BuildGraph.skipped_files st + 1
        /\ BuildGraph.date_filtered st' = BuildGraph.date_filtered st)
    /\ CompactParser.date_filter fromisoformat cutoff (Some s) = Ok Keep
    /\ (forall id name,
          cveId (cveMetadata doc) = Some id -> nonempty id = true ->
          py_or (assignerShortName (cveMetadata doc))
                (assignerOrgId (cveMetadata doc)) = Some name ->
          nonempty name = true ->
          dict_get id
            (Compact.cve_to_cna
               (CompactParser.process_file fromisoformat cutoff cmp doc))
          = Some name).
Proof.
  intros f c doc s d alt ext cmp st Hs N E O.
  pose proof (date_filter_plain_naive f c s d N E O) as P.
  pose proof (date_filter_compact_naive f c s d N E O) as Q.
  split; [|split; [|split; [|split]]].
  - unfold Alternative.process_file. rewrite Hs, P.
    now destruct (negb _).
  - unfold Extended.process_file. now rewrite Hs, P.
  - unfold Legacy.process_file. rewrite Hs, P. cbn. auto.
  - exact Q.
  - intros id name Hid Nid Hn Nn. unfold CompactParser.process_file.
    rewrite Hs, Q, Hid, Hn. cbn [truthy get_or_empty]. rewrite Nid, Nn.
    cbn [negb Compact.cve_to_cna]. apply dict_get_set_same.
Qed.

Lemma naive_date_leaves_document_out_witness :
  Alternative.process_file iso8601 scenario_end Alternative.empty_data
    doc_naive_date = Alternative.empty_data
  /\ Extended.process_file iso8601 scenario_end Extended.empty_data
       doc_naive_date = Extended.empty_data
  /\ BuildGraph.skipped_files
       (Legacy.process_file iso8601 scenario_end BuildGraph.initial
          doc_naive_date) = 1
  /\ CompactParser.date_filter iso8601 scenario_end
       (Some "2024-03-01T12:00:00") = Ok Keep
  /\ dict_get "CVE-2024-0005"
       (Compact.cve_to_cna
          (CompactParser.process_file iso8601 scenario_end
             CompactParser.empty_data doc_naive_date)) = Some "A".
Proof.
  destruct (naive_date_leaves_document_out iso8601 scenario_end doc_naive_date
              "2024-03-01T12:00:00"
              {| wall := 63844891200000000; utcoffset := None |}
              Alternative.empty_data Extended.empty_data
              CompactParser.empty_data BuildGraph.initial
              eq_refl eq_refl eq_refl eq_refl)
    as [A [B [[_ [_ [L _]]] [C D]]]].
  split; [exact A|]. split; [exact B|]. split; [exact L|].
  split; [exact C|].
  exact (D "CVE-2024-0005" "A" eq_refl eq_refl eq_refl eq_refl).
Defined.

(* ================================================================== *)
(** * The indexes of [parse_cve_files_compact] *)
(* ================================================================== *)

Section IndexFacts.

Lemma dict_set_add_In {K A} `{Hashable K} `{Hashable A} (k k' : K) (x w : A)
    (d : dict K (pyset A)) :
  In w (dict_get_default k' [] (Alternative.dict_set_add k x d))
  <-> In w (dict_get_default k' [] d) \/ (k = k' /\ w = x).
Proof.
  unfold Alternative.dict_set_add, dict_get_default at 1.
  rewrite dict_get_set. destruct (keqb k k') eqn:E.
  - apply keqb_spec in E. subst k'. rewrite set_add_In. tauto.
  - apply keqb_false in E. fold (dict_get_default k' [] d). tauto.
Qed.


Lemma dict_set_add_NoDup {K A} `{Hashable K} `{Hashable A} (k : K) (x : A)
    (d : dict K (pyset A)) :
  Forall (@NoDup A) (map snd d) ->
  Forall (@NoDup A) (map snd (Alternative.dict_set_add k x d)).
Proof.
  intros F. unfold Alternative.dict_set_add. apply dict_set_values; auto.
  apply set_add_NoDup. unfold dict_get_default.
  assert (N : forall o : option (pyset A),
            (forall s, o = Some s -> NoDup s) ->
            NoDup (match o with Some v => v | None => [] end)).
  { intros [s|] Hs; [now apply Hs|apply NoDup_nil]. }
  apply N. intros s E. exact (dict_get_values k s d _ F E).
Qed.

(** The two indexes hold the same pairs. *)
Lemma record_cwes_inverse cve_id doc idx :
  (forall a b, In b (dict_get_default a [] (fst idx))
               <-> In a (dict_get_default b [] (snd idx))) ->
  forall a b,
    In b (dict_get_default a [] (fst (CompactParser.record_cwes cve_id doc idx)))
    <-> In a (dict_get_default b []
                (snd (CompactParser.record_cwes cve_id doc idx))).
Proof.
  unfold CompactParser.record_cwes.
  set (P := fun idx : dict string (pyset string) * dict string (pyset string) =>
              forall a b, In b (dict_get_default a [] (fst idx))
                          <-> In a (dict_get_default b [] (snd idx))).
  assert (D : forall ds acc, P acc ->
            P (fold_left
                 (fun acc x =>
                    match cwe_of_description x with
                    | Some v =>
                        (Alternative.dict_set_add cve_id v (fst acc),
                         Alternative.dict_set_add v cve_id (snd acc))
                    | None => acc
                    end) ds acc)).
  { intros ds acc. apply fold_left_invariant. intros acc' x _ Pa.
    destruct (cwe_of_description x) as [v|]; [|exact Pa].
    intros a b. cbn [fst snd]. rewrite !dict_set_add_In, (Pa a b).
    intuition congruence. }
  assert (T : forall pts acc, P acc ->
            P (fold_left
                 (fun acc pt =>
                    fold_left
                      (fun acc x =>
                         match cwe_of_description x with
                         | Some v =>
                             (Alternative.dict_set_add cve_id v (fst acc),
                              Alternative.dict_set_add v cve_id (snd acc))
                         | None => acc
                         end) (descriptions pt) acc) pts acc)).
  { intros pts acc. apply fold_left_invariant. intros acc' pt _. apply D. }
  intros Pi. change (P idx) in Pi.
  apply (fold_left_invariant P).
  - intros acc a _. apply T.
  - now apply T.
Qed.

End IndexFacts.

(** X8.  The indexes [parse_cve_files_compact] returns agree with one
    another: a weakness is among the weaknesses of a CVE exactly when the
    CVE is among the CVEs of the weakness, the CVE of an authority is among
    the CVEs of that authority, and every CVE listed under an authority has
    an authority. *)
Theorem compact_indexes_agree :
  forall (fromisoformat : string -> option datetime) (cutoff : Z)
         (corpus : list cve_document),
    let data :=
      CompactParser.parse_cve_files_compact fromisoformat cutoff corpus in
    (forall cve cwe,
       In cwe (dict_get_default cve [] (Compact.cve_to_cwes data))
       <-> In cve (dict_get_default cwe [] (Compact.cwe_to_cves data)))
    /\ (forall cve cna_,
          dict_get cve (Compact.cve_to_cna data) = Some cna_ ->
          In cve (dict_get_default cna_ [] (Compact.cna_to_cves data)))
    /\ (forall cna_ cve,
          In cve (dict_get_default cna_ [] (Compact.cna_to_cves data)) ->
          dict_contains cve (Compact.cve_to_cna data) = true).
Proof.
  intros f c corpus data. subst data.
  unfold CompactParser.parse_cve_files_compact.
  apply (fold_left_invariant
           (fun data =>
              (forall cve cwe,
                 In cwe (dict_get_default cve [] (Compact.cve_to_cwes data))
                 <-> In cve (dict_get_default cwe []
                               (Compact.cwe_to_cves data)))
              /\ (forall cve cna_,
                    dict_get cve (Compact.cve_to_cna data) = Some cna_ ->
                    In cve (dict_get_default cna_ []
                              (Compact.cna_to_cves data)))
              /\ (forall cna_ cve,
                    In cve (dict_get_default cna_ []
                              (Compact.cna_to_cves data)) ->
                    dict_contains cve (Compact.cve_to_cna data) = true))).
  - intros data doc _ [I1 [I2 I3]]. unfold CompactParser.process_file.
    destruct (negb _); [auto|].
    destruct (CompactParser.date_filter _ _ _) as [[|]|]; auto.
    cbn [Compact.cve_to_cwes Compact.cve_to_cna Compact.cwe_to_cves
         Compact.cna_to_cves].
    split; [|split].
    + apply record_cwes_inverse. exact I1.
    + destruct (truthy (py_or _ _)); [|exact I2].
      intros cve cna_. rewrite dict_get_set, dict_set_add_In.
      destruct (keqb _ cve) eqn:E.
      * apply keqb_spec in E. intros X. inversion X; subst. auto.
      * intros X. left. now apply I2.
    + destruct (truthy (py_or _ _)); [|exact I3].
      intros cna_ cve. rewrite dict_set_add_In, dict_contains_set.
      intros [I|[_ ->]].
      * rewrite (I3 cna_ cve I). apply orb_true_r.
      * now rewrite keqb_refl.
  - cbn. repeat split; intros; try tauto; try discriminate.
Qed.

(* ================================================================== *)
(** * The weakness codes in the other parsers *)
(* ================================================================== *)

Section SharedNormalizer.

Lemma dict_set_add_same {K A} `{Hashable K} `{Hashable A} (k : K) (x : A)
    (d : dict K (pyset A)) :
  dict_get_default k [] (Alternative.dict_set_add k x d)
  = set_add x (dict_get_default k [] d).
Proof.
  unfold Alternative.dict_set_add, dict_get_default at 1.
  now rewrite dict_get_set_same.
Qed.

Lemma dict_set_add_other {K A} `{Hashable K} `{Hashable A} (k k' : K) (x : A)
    (d : dict K (pyset A)) :
  k <> k' -> dict_get k' (Alternative.dict_set_add k x d) = dict_get k' d.
Proof. intros N. unfold Alternative.dict_set_add. now apply dict_get_set_other. Qed.

Lemma alternative_record_cwes_get cve_id doc d :
  dict_get_default cve_id [] (Alternative.record_cwes cve_id doc d)
  = extract_cwes doc (dict_get_default cve_id [] d).
Proof.
  unfold Alternative.record_cwes, extract_cwes, scan_adp, scan_problem_types,
    scan_descriptions.
  assert (D : forall ds d0,
            dict_get_default cve_id []
              (fold_left
                 (fun acc x =>
                    match cwe_of_description x with
                    | Some v => Alternative.dict_set_add cve_id v acc
                    | None => acc
                    end) ds d0)
            = fold_left
                (fun acc x =>
                   match cwe_of_description x with
                   | Some v => set_add v acc
                   | None => acc
                   end) ds (dict_get_default cve_id [] d0)).
  { induction ds as [|x r IH]; intros d0; [reflexivity|].
    cbn [fold_left]. rewrite IH.
    destruct (cwe_of_description x); [|reflexivity].
    now rewrite dict_set_add_same. }
  assert (T : forall pts d0,
            dict_get_default cve_id []
              (fold_left
                 (fun acc pt =>
                    fold_left
                      (fun acc x =>
                         match cwe_of_description x with
                         | Some v => Alternative.dict_set_add cve_id v acc
                         | None => acc
                         end) (descriptions pt) acc) pts d0)
            = fold_left
                (fun acc pt =>
                   fold_left
                     (fun acc x =>
                        match cwe_of_description x with
                        | Some v => set_add v acc
                        | None => acc
                        end) (descriptions pt) acc) pts
                (dict_get_default cve_id [] d0)).
  { induction pts as [|pt r IH]; intros d0; [reflexivity|].
    cbn [fold_left]. now rewrite IH, D. }
  rewrite <- T. generalize (fold_left
       (fun acc pt =>
          fold_left
            (fun acc x =>
               match cwe_of_description x with
               | Some v => Alternative.dict_set_add cve_id v acc
               | None => acc
               end) (descriptions pt) acc) (problemTypes (cna doc)) d).
  induction (adp doc) as [|a r IH]; intros d0; [reflexivity|].
  cbn [fold_left]. now rewrite IH, T.
Qed.

Lemma alternative_record_cwes_other cve_id doc d cve :
  cve_id <> cve ->
  dict_get cve (Alternative.record_cwes cve_id doc d) = dict_get cve d.
Proof.
  intros N. unfold Alternative.record_cwes.
  set (P := fun d0 : dict string (pyset string) =>
              dict_get cve d0 = dict_get cve d).
  assert (D : forall ds d0, P d0 ->
            P (fold_left
                 (fun acc x =>
                    match cwe_of_description x with
                    | Some v => Alternative.dict_set_add cve_id v acc
                    | None => acc
                    end) ds d0)).
  { intros ds d0. apply fold_left_invariant. intros acc x _ Pa.
    destruct (cwe_of_description x); [|exact Pa].
    unfold P. now rewrite dict_set_add_other. }
  assert (T : forall pts d0, P d0 ->
            P (fold_left
                 (fun acc pt =>
                    fold_left
                      (fun acc x =>
                         match cwe_of_description x with
                         | Some v => Alternative.dict_set_add cve_id v acc
                         | None => acc
                         end) (descriptions pt) acc) pts d0)).
  { intros pts d0. apply fold_left_invariant. intros acc pt _. apply D. }
  apply (fold_left_invariant P).
  - intros acc a _. apply T.
  - apply T. reflexivity.
Qed.

Lemma compact_record_cwes_get cve_id doc idx :
  dict_get_default cve_id [] (fst (CompactParser.record_cwes cve_id doc idx))
  = extract_cwes doc (dict_get_default cve_id [] (fst idx)).
Proof.
  unfold CompactParser.record_cwes, extract_cwes, scan_adp,
    scan_problem_types, scan_descriptions.
  assert (D : forall ds (d0 : dict string (pyset string)
                               * dict string (pyset string)),
            dict_get_default cve_id []
              (fst (fold_left
                 (fun acc x =>
                    match cwe_of_description x with
                    | Some v =>
                        (Alternative.dict_set_add cve_id v (fst acc),
                         Alternative.dict_set_add v cve_id (snd acc))
                    | None => acc
                    end) ds d0))
            = fold_left
                (fun acc x =>
                   match cwe_of_description x with
                   | Some v => set_add v acc
                   | None => acc
                   end) ds (dict_get_default cve_id [] (fst d0))).
  { induction ds as [|x r IH]; intros d0; [reflexivity|].
    cbn [fold_left]. rewrite IH.
    destruct (cwe_of_description x); [|reflexivity].
    cbn [fst]. now rewrite dict_set_add_same. }
  assert (T : forall pts (d0 : dict string (pyset string)
                                * dict string (pyset string)),
            dict_get_default cve_id []
              (fst (fold_left
                 (fun acc pt =>
                    fold_left
                      (fun acc x =>
                         match cwe_of_description x with
                         | Some v =>
                             (Alternative.dict_set_add cve_id v (fst acc),
                              Alternative.dict_set_add v cve_id (snd acc))
                         | None => acc
                         end) (descriptions pt) acc) pts d0))
            = fold_left
                (fun acc pt =>
                   fold_left
                     (fun acc x =>
                        match cwe_of_description x with
                        | Some v => set_add v acc
                        | None => acc
                        end) (descriptions pt) acc) pts
                (dict_get_default cve_id [] (fst d0))).
  { induction pts as [|pt r IH]; intros d0; [reflexivity|].
    cbn [fold_left]. now rewrite IH, D. }
  rewrite <- T. generalize (fold_left
       (fun acc pt =>
          fold_left
            (fun acc x =>
               match cwe_of_description x with
               | Some v =>
                   (Alternative.dict_set_add cve_id v (fst acc),
                    Alternative.dict_set_add v cve_id (snd acc))
               | None => acc
               end) (descriptions pt) acc) (problemTypes (cna doc)) idx).
  induction (adp doc) as [|a r IH]; intros d0; [reflexivity|].
  cbn [fold_left]. now rewrite IH, T.
Qed.

End SharedNormalizer.

(** X9.  The parsers agree on the weakness codes of a document.  For a
    document with a CVE id that passes their date filter,
    [parse_cve_files_extended] and [parse_cve_files_compact] leave under the
    id of the document the codes [parse_cve_files] finds in it, added to the
    codes already recorded under that id; the former leaves the codes of
    every other CVE as they were. *)
Theorem parsers_agree_on_weaknesses :
  forall (fromisoformat : string -> option datetime) (cutoff : Z)
         (doc : cve_document) (id : string)
         (alt : Alternative.alt_data) (cmp : Compact.compact_data),
    cveId (cveMetadata doc) = Some id ->
    nonempty id = true ->
    (date_filter_plain fromisoformat cutoff (datePublished (cveMetadata doc))
     = Ok Keep ->
     dict_get_default id []
       (Alternative.cve_to_cwes
          (Alternative.process_file fromisoformat cutoff alt doc))
     = extract_cwes doc (dict_get_default id [] (Alternative.cve_to_cwes alt))
     /\ forall other, id <> other ->
          dict_get other
            (Alternative.cve_to_cwes
               (Alternative.process_file fromisoformat cutoff alt doc))
          = dict_get other (Alternative.cve_to_cwes alt))
    /\ (CompactParser.date_filter fromisoformat cutoff
          (datePublished (cveMetadata doc)) = Ok Keep ->
        dict_get_default id []
          (Compact.cve_to_cwes
             (CompactParser.process_file fromisoformat cutoff cmp doc))
        = extract_cwes doc (dict_get_default id [] (Compact.cve_to_cwes cmp))).
Proof.
  intros f c doc id alt cmp Hid N. split.
  - intros K. unfold Alternative.process_file.
    rewrite Hid, K. cbn [truthy get_or_empty]. rewrite N.
    cbn [negb Alternative.cve_to_cwes]. split.
    + apply alternative_record_cwes_get.
    + intros other D. now apply alternative_record_cwes_other.
  - intros K. unfold CompactParser.process_file.
    rewrite Hid, K. cbn [truthy get_or_empty]. rewrite N.
    cbn [negb Compact.cve_to_cwes]. apply compact_record_cwes_get.
Qed.

Lemma parsers_agree_on_weaknesses_witness :
  dict_get_default "CVE-2024-0001" []
    (Alternative.cve_to_cwes
       (Alternative.process_file iso8601 scenario_start
          Alternative.empty_data R1))
  = extract_cwes R1 []
  /\ dict_get_default "CVE-2024-0001" []
       (Compact.cve_to_cwes
          (CompactParser.process_file iso8601 scenario_start
             CompactParser.empty_data R1))
     = extract_cwes R1 [].
Proof.
  destruct (parsers_agree_on_weaknesses iso8601 scenario_start R1
              "CVE-2024-0001" Alternative.empty_data CompactParser.empty_data
              eq_refl eq_refl) as [A C].
  split.
  - exact (proj1 (A eq_refl)).
  - exact (C eq_refl).
Defined.

(* ================================================================== *)
(** * The indexes of [parse_cve_files_extended] *)
(* ================================================================== *)

Section StripFacts.






End StripFacts.

Section AlternativeIndexFacts.
Variable fromisoformat : string -> option datetime.
Variable cutoff : Z.






End AlternativeIndexFacts.

(* ================================================================== *)
(** * The temporal links of a product *)
(* ================================================================== *)

Section TemporalLinks.
Variable days_window : Z.

Lemma days_between_instant a b :
  is_aware a = true -> is_aware b = true ->
  days_between b a = Ok ((instant b - instant a) / usec_per_day).
Proof.
  unfold is_aware, days_between, instant.
  destruct (utcoffset a), (utcoffset b); try discriminate. reflexivity.
Qed.

Lemma update_edge_keeps_endpoints u v a es e :
  In e es ->
  exists e', In e' (update_edge u v a es)
             /\ src e' = src e /\ dst e' = dst e.
Proof.
  induction es as [|e0 r IH]; intros I; [destruct I|].
  cbn [update_edge]. destruct I as [->|I].
  - destruct (joins u v e); eexists; (split; [now left|]); auto.
  - destruct (joins u v e0).
    + exists e. split; [now right|auto].
    + destruct (IH I) as [e' [I' E]]. exists e'. split; [now right|auto].
Qed.

Lemma covered_add_edge u v a G : covered G -> covered (add_edge u v a G).
Proof.
  intros C n. rewrite has_node_add_edge, !orb_true_iff.
  intros [E|[E|Hn]].
  - apply String.eqb_eq in E. subst n.
    destruct (has_edge_endpoint u v _ (has_edge_add_edge u v a G))
      as [e [I [_ Ev]]]. eauto.
  - apply String.eqb_eq in E. subst n.
    destruct (has_edge_endpoint u v _ (has_edge_add_edge u v a G))
      as [e [I [Eu _]]]. eauto.
  - destruct (C n Hn) as [e [I En]].
    destruct (update_edge_keeps_endpoints u v a (edges G) e I)
      as [e' [I' [Es Ed]]].
    exists e'. split; [exact I'|]. unfold endpoint in *. now rewrite Es, Ed.
Qed.

Lemma days_add_edge u v key days G :
  0 <= days <= days_window ->
  Forall (days_in_window days_window) (edges G) ->
  Forall (days_in_window days_window)
    (edges (add_edge u v (Alternative.temporal_attrs key days) G)).
Proof.
  intros L F. cbn [add_edge edges].
  assert (New : forall (d : attrs) s t,
            days_in_window days_window
              {| src := s; dst := t;
                 data := dict_update d
                           (Alternative.temporal_attrs key days) |}).
  { intros d s t. exists days. split; [|exact L].
    unfold dict_update, Alternative.temporal_attrs. cbn [fold_left fst snd data].
    apply dict_get_set_same. }
  apply update_edge_Forall; auto.
Qed.

Lemma link_following_links key cve1 date1 following G G' :
  Alternative.link_following days_window key cve1 date1 following G = Ok G' ->
  is_aware date1 = true -> all_aware following ->
  Forall (fun x => (instant date1 <=? instant (snd x)) = true) following ->
  Forall (days_in_window days_window) (edges G) /\ covered G ->
  Forall (days_in_window days_window) (edges G') /\ covered G'.
Proof.
  intros L A1 Aw. revert G L.
  induction Aw as [|[cve2 date2] r A2 Aw IH]; intros G L Le Q.
  - cbn in L. inversion L; subst. exact Q.
  - cbn [Alternative.link_following] in L. cbn [snd] in A2.
    rewrite (days_between_instant date1 date2 A1 A2) in L. cbn [bind] in L.
    inversion Le as [|? ? Le1 Le']; subst. cbn [snd] in Le1.
    destruct (Z.leb_spec ((instant date2 - instant date1) / usec_per_day)
                days_window) as [Lw|Lw].
    + apply (IH _ L Le'). destruct Q as [F C]. split.
      * apply days_add_edge; [|exact F]. split; [|exact Lw].
        apply Z.div_pos; [|reflexivity]. apply Z.leb_le in Le1. lia.
      * now apply covered_add_edge.
    + inversion L; subst. exact Q.
Qed.

Lemma link_window_links key cve_list G G' :
  Alternative.link_window days_window key cve_list G = Ok G' ->
  all_aware cve_list -> by_date cve_list ->
  Forall (days_in_window days_window) (edges G) /\ covered G ->
  Forall (days_in_window days_window) (edges G') /\ covered G'.
Proof.
  intros L Aw. revert G L.
  induction Aw as [|[cve1 date1] r A1 Aw IH]; intros G L S Q.
  - cbn in L. inversion L; subst. exact Q.
  - cbn [Alternative.link_window] in L.
    destruct (Alternative.link_following days_window key cve1 date1 r G)
      as [G1|] eqn:F; [|discriminate].
    cbn [bind] in L. inversion S as [|? ? S' Le]; subst.
    apply (IH _ L S').
    now apply (link_following_links key cve1 date1 r G G1 F A1 Aw Le).
Qed.

Lemma sort_by_date_sorted cve_list sorted_list :
  Alternative.sort_by_date cve_list = Ok sorted_list ->
  by_date sorted_list /\ (forall x, In x sorted_list <-> In x cve_list).
Proof.
  unfold Alternative.sort_by_date. destruct (_ && _); [discriminate|].
  intros E. inversion E; subst. split.
  - apply sorted_sorted.
    + intros x y. rewrite !Z.leb_le. lia.
    + intros x y z. rewrite !Z.leb_le. lia.
  - intros x. apply sorted_In.
Qed.

Lemma link_products_links groups G G' :
  Alternative.link_products days_window groups G = Ok G' ->
  Forall all_aware (map snd groups) ->
  Forall (days_in_window days_window) (edges G) /\ covered G ->
  Forall (days_in_window days_window) (edges G') /\ covered G'.
Proof.
  revert G. induction groups as [|[key cve_list] r IH]; intros G L F Q.
  - cbn in L. inversion L; subst. exact Q.
  - cbn [Alternative.link_products] in L.
    inversion F as [|? ? A F']; subst. cbn [snd] in A.
    destruct (Alternative.sort_by_date cve_list) as [sorted_list|] eqn:S;
      [|discriminate].
    cbn [bind] in L.
    destruct (Alternative.link_window days_window key sorted_list G)
      as [G1|] eqn:W; [|discriminate].
    cbn [bind] in L. apply (IH _ L F').
    destruct (sort_by_date_sorted _ _ S) as [Sd In_].
    apply (link_window_links key sorted_list G G1 W); auto.
    unfold all_aware in *. rewrite Forall_forall in *.
    intros x I. apply A. now apply In_.
Qed.

End TemporalLinks.

Section TagFacts.
Variable parsed : Alternative.alt_data.

Lemma set_node_attr_get n m key (value : attr) G :
  dict_get n (nodes (set_node_attr m key value G))
  = if String.eqb m n
    then Some (dict_set key value (dict_get_default m [] (nodes G)))
    else dict_get n (nodes G).
Proof.
  unfold set_node_attr. cbn [nodes].
  apply (@dict_get_set string attrs Hashable_string).
Qed.

Lemma edges_set_node_attr m key (value : attr) G :
  edges (set_node_attr m key value G) = edges G.
Proof. reflexivity. Qed.

(** One round of the loop of lines 304-309. *)
Lemma tag_step_edges G m :
  edges
    (let G := set_node_attr m "type" (AStr "cve") G in
     let G := set_node_attr m "label" (AStr m) G in
     match dict_get m (Alternative.cve_to_cna parsed) with
     | Some cna_ =>
         if nonempty cna_ then set_node_attr m "cna" (AStr cna_) G else G
     | None => G
     end) = edges G.
Proof.
  cbn zeta. destruct (dict_get m (Alternative.cve_to_cna parsed)) as [c|]; [destruct (nonempty c)|];
    reflexivity.
Qed.

Lemma tag_step_has_node G m n :
  has_node m G = true ->
  has_node n
    (let G := set_node_attr m "type" (AStr "cve") G in
     let G := set_node_attr m "label" (AStr m) G in
     match dict_get m (Alternative.cve_to_cna parsed) with
     | Some cna_ =>
         if nonempty cna_ then set_node_attr m "cna" (AStr cna_) G else G
     | None => G
     end) = has_node n G.
Proof.
  intros Hm. cbn zeta.
  assert (E : String.eqb m n || has_node n G = has_node n G).
  { destruct (String.eqb_spec m n) as [->|]; [|reflexivity].
    now rewrite Hm. }
  destruct (dict_get m (Alternative.cve_to_cna parsed)) as [c|]; [destruct (nonempty c)|];
    rewrite !has_node_set_node_attr, ?E; auto.
  all: now rewrite E.
Qed.

Lemma set_node_attr_default m key (value : attr) G :
  dict_get_default m [] (nodes (set_node_attr m key value G))
  = dict_set key value (dict_get_default m [] (nodes G)).
Proof.
  unfold dict_get_default at 1.
  now rewrite set_node_attr_get, String.eqb_refl.
Qed.

Lemma tag_step_self G m :
  tagged_cve m
    (let G := set_node_attr m "type" (AStr "cve") G in
     let G := set_node_attr m "label" (AStr m) G in
     match dict_get m (Alternative.cve_to_cna parsed) with
     | Some cna_ =>
         if nonempty cna_ then set_node_attr m "cna" (AStr cna_) G else G
     | None => G
     end).
Proof.
  cbn zeta. unfold tagged_cve.
  destruct (dict_get m (Alternative.cve_to_cna parsed)) as [c|];
    [destruct (nonempty c)|];
    rewrite set_node_attr_get, String.eqb_refl, !set_node_attr_default;
    (eexists; split; [reflexivity|]);
    rewrite !(@dict_get_set string attr Hashable_string); cbn; auto.
Qed.

Lemma tag_step_other G m n :
  tagged_cve n G ->
  tagged_cve n
    (let G := set_node_attr m "type" (AStr "cve") G in
     let G := set_node_attr m "label" (AStr m) G in
     match dict_get m (Alternative.cve_to_cna parsed) with
     | Some cna_ =>
         if nonempty cna_ then set_node_attr m "cna" (AStr cna_) G else G
     | None => G
     end).
Proof.
  intros T. destruct (String.eqb_spec m n) as [->|N].
  - apply tag_step_self.
  - destruct T as [a [Ga [Ta La]]]. exists a. split; [|auto].
    apply String.eqb_neq in N. cbn zeta.
    destruct (dict_get m (Alternative.cve_to_cna parsed)) as [c|]; [destruct (nonempty c)|];
      rewrite !set_node_attr_get, N; exact Ga.
Qed.

Lemma tag_fold_tagged l G n :
  In n l \/ tagged_cve n G ->
  tagged_cve n
    (fold_left
       (fun G node =>
          let G := set_node_attr node "type" (AStr "cve") G in
          let G := set_node_attr node "label" (AStr node) G in
          match dict_get node (Alternative.cve_to_cna parsed) with
          | Some cna_ =>
              if nonempty cna_ then set_node_attr node "cna" (AStr cna_) G
              else G
          | None => G
          end) l G).
Proof.
  revert G. induction l as [|m r IH]; intros G H.
  - destruct H as [[]|T]. exact T.
  - cbn [fold_left]. apply IH. destruct H as [[->|I]|T].
    + right. apply tag_step_self.
    + now left.
    + right. now apply tag_step_other.
Qed.

Lemma tag_fold_graph l G :
  (forall m, In m l -> has_node m G = true) ->
  let G' :=
    fold_left
      (fun G node =>
         let G := set_node_attr node "type" (AStr "cve") G in
         let G := set_node_attr node "label" (AStr node) G in
         match dict_get node (Alternative.cve_to_cna parsed) with
         | Some cna_ =>
             if nonempty cna_ then set_node_attr node "cna" (AStr cna_) G
             else G
         | None => G
         end) l G in
  edges G' = edges G /\ forall n, has_node n G' = has_node n G.
Proof.
  revert G. induction l as [|m r IH]; intros G H; [cbn; auto|].
  cbn [fold_left]. cbn zeta.
  pose proof (H m (or_introl eq_refl)) as Hm.
  destruct (IH _ (fun m' I =>
                    eq_trans (tag_step_has_node G m m' Hm)
                             (H m' (or_intror I)))) as [E N].
  cbn zeta in E, N. split.
  - rewrite E. apply tag_step_edges.
  - intros n. rewrite N. now apply tag_step_has_node.
Qed.

Lemma tag_cve_nodes_graph G :
  edges (Alternative.tag_cve_nodes parsed G) = edges G
  /\ (forall n, has_node n (Alternative.tag_cve_nodes parsed G)
                = has_node n G)
  /\ (forall n, has_node n G = true ->
                tagged_cve n (Alternative.tag_cve_nodes parsed G)).
Proof.
  unfold Alternative.tag_cve_nodes.
  destruct (tag_fold_graph (dict_keys (nodes G)) G) as [E N].
  { intros m I. now apply has_node_In. }
  split; [exact E|]. split; [exact N|].
  intros n Hn. apply tag_fold_tagged. left. now apply has_node_In.
Qed.

End TagFacts.

(** X11.  On the data [parse_cve_files_extended] returns,
    [build_cve_temporal_graph] returns a graph and never raises.  Every link
    carries a distance in days between zero and the window, the dates of a
    product being sorted before they are compared; every node is tagged as a
    CVE, labelled with its id, and is an end point of a link.  With a
    negative window the graph is empty. *)
Theorem temporal_links_within_window :
  forall (fromisoformat : string -> option datetime) (cutoff : Z)
         (corpus : list cve_document) (days_window : Z),
    let data :=
      Alternative.parse_cve_files_extended fromisoformat cutoff corpus in
    exists G,
      Alternative.build_cve_temporal_graph fromisoformat data days_window
      = Ok G
      /\ Forall (days_in_window days_window) (edges G)
      /\ (forall n, has_node n G = true ->
            tagged_cve n G /\ exists e, In e (edges G) /\ endpoint n e)
      /\ (days_window < 0 -> G = empty).
Proof.
  intros f c corpus w data. subst data.
  set (data := Alternative.parse_cve_files_extended f c corpus).
  pose proof (parsed_metadata_aware f c corpus) as Aw. fold data in Aw.
  destruct (build_cve_temporal_graph_ok f data w Aw) as [G [B _]].
  exists G. split; [exact B|].
  unfold Alternative.build_cve_temporal_graph in B.
  destruct (Alternative.link_products w
              (Alternative.group_by_product f data) empty) as [G0|] eqn:L;
    [|discriminate].
  cbn [bind] in B. inversion B; subst G. clear B.
  destruct (link_products_links w _ empty G0 L
              (group_by_product_aware f data Aw)) as [F C].
  { split; [constructor|]. intros n Hn. discriminate. }
  destruct (tag_cve_nodes_graph data G0) as [E [N T]].
  assert (Cov : forall n,
            has_node n (Alternative.tag_cve_nodes data G0) = true ->
            tagged_cve n (Alternative.tag_cve_nodes data G0)
            /\ exists e, In e (edges (Alternative.tag_cve_nodes data G0))
                         /\ endpoint n e).
  { intros n Hn. rewrite N in Hn. split; [now apply T|].
    rewrite E. now apply C. }
  split; [now rewrite E|]. split; [exact Cov|].
  intros Neg.
  assert (Ed : edges (Alternative.tag_cve_nodes data G0) = []).
  { rewrite E. destruct (edges G0) as [|e r]; [reflexivity|].
    inversion F as [|? ? [days [_ D]] _]; subst. lia. }
  destruct (Alternative.tag_cve_nodes data G0) as [ns es] eqn:TG.
  cbn [edges] in Ed. subst es. unfold empty. f_equal.
  destruct ns as [|[n a] r]; [reflexivity|].
  destruct (Cov n) as [_ [e [[] _]]].
  unfold has_node, dict_contains. cbn. now rewrite String.eqb_refl.
Qed.
(* ================================================================== *)
(** * Selection of the top entries *)
(* ================================================================== *)

Section SelectionFacts.
Context {K : Type}.
Implicit Types (items : list (K * Z)).

Lemma sorted_by_count_desc_sorted items :
  StronglySorted (fun y x => (snd x <=? snd y) = true)
    (sorted_by_count_desc items).
Proof.
  unfold sorted_by_count_desc. apply sorted_sorted.
  - intros x y. rewrite !Z.leb_le. lia.
  - intros x y z. rewrite !Z.leb_le. lia.
Qed.

Lemma StronglySorted_app_order {A} (R : A -> A -> Prop) (l1 l2 : list A) :
  StronglySorted R (l1 ++ l2) ->
  forall a b, In a l1 -> In b l2 -> R a b.
Proof.
  induction l1 as [|x r IH]; intros S a b Ia Ib; [destruct Ia|].
  cbn [app] in S. inversion S as [|? ? S' F]; subst.
  destruct Ia as [->|Ia].
  - rewrite Forall_forall in F. apply F. apply in_or_app. now right.
  - now apply IH.
Qed.

(** A slice [l[:n]] is a prefix of [l]. *)
Lemma slice_to_prefix {A} (n : Z) (l : list A) :
  exists m, slice_to n l = firstn m l.
Proof. unfold slice_to. destruct (n <? 0); eauto. Qed.

Lemma slice_to_length {A} (n : Z) (l : list A) :
  Z.of_nat (List.length (slice_to n l))
  = if n <? 0 then Z.max 0 (Z.of_nat (List.length l) + n)
    else Z.min n (Z.of_nat (List.length l)).
Proof.
  unfold slice_to. destruct (Z.ltb_spec n 0); rewrite length_firstn; lia.
Qed.

Lemma top_slice_largest n items a b :
  In a (slice_to n (sorted_by_count_desc items)) ->
  In b items ->
  ~ In b (slice_to n (sorted_by_count_desc items)) ->
  snd b <= snd a.
Proof.
  destruct (slice_to_prefix n (sorted_by_count_desc items)) as [m ->].
  intros Ia Ib Nb.
  pose proof (sorted_by_count_desc_sorted items) as S.
  rewrite <- (firstn_skipn m (sorted_by_count_desc items)) in S.
  assert (Ib' : In b (skipn m (sorted_by_count_desc items))).
  { apply (proj2 (sorted_In (fun y x : K * Z => snd x <=? snd y) b items))
      in Ib.
    fold (sorted_by_count_desc items) in Ib.
    rewrite <- (firstn_skipn m (sorted_by_count_desc items)) in Ib.
    apply in_app_or in Ib. tauto. }
  apply Z.leb_le. exact (StronglySorted_app_order _ _ _ S a b Ia Ib').
Qed.

(** The sort is stable: the entries of one count stay in the order of the
    dictionary. *)
Lemma insert_sorted_stable k (x : K * Z) l :
  StronglySorted (fun y x => (snd x <=? snd y) = true) l ->
  filter (fun y => snd y =? k) (insert_sorted (fun y x => snd x <=? snd y) x l)
  = filter (fun y => snd y =? k) l
    ++ (if snd x =? k then [x] else []).
Proof.
  induction l as [|y r IH]; intros S.
  - cbn. now destruct (snd x =? k).
  - inversion S as [|? ? S' F]; subst. cbn [insert_sorted].
    destruct (Z.leb_spec (snd x) (snd y)) as [L|L].
    + cbn [filter]. rewrite (IH S').
      now destruct (snd y =? k).
    + cbn [filter]. destruct (Z.eqb_spec (snd x) k) as [E|E].
      * assert (Z0 : filter (fun y => snd y =? k) (y :: r) = []).
        { rewrite Forall_forall in F.
          assert (Fy : forall z, In z (y :: r) -> (snd z =? k) = false).
          { intros z [<-|Iz]; apply Z.eqb_neq.
            - lia.
            - specialize (F z Iz). apply Z.leb_le in F. lia. }
          clear - Fy. induction (y :: r) as [|z t IHt]; [reflexivity|].
          cbn [filter]. rewrite (Fy z (or_introl eq_refl)).
          apply IHt. intros w Iw. apply Fy. now right. }
        cbn [filter] in Z0. now rewrite Z0.
      * now rewrite app_nil_r.
Qed.

Lemma sorted_by_count_desc_stable k items :
  filter (fun y => snd y =? k) (sorted_by_count_desc items)
  = filter (fun y => snd y =? k) items.
Proof.
  unfold sorted_by_count_desc, sorted.
  rewrite <- (rev_involutive items) at 2.
  induction (rev items) as [|x r IH]; [reflexivity|].
  cbn [fold_right rev]. rewrite insert_sorted_stable.
  - rewrite IH, filter_app. cbn [filter].
    now destruct (snd x =? k).
  - pose proof (sorted_by_count_desc_sorted (rev r)) as S.
    unfold sorted_by_count_desc, sorted in S.
    now rewrite rev_involutive in S.
Qed.

Lemma NoDup_split_unique {A} (a : A) (x1 x2 y1 y2 : list A) :
  NoDup (x1 ++ a :: x2) -> x1 ++ a :: x2 = y1 ++ a :: y2 -> x1 = y1.
Proof.
  revert y1. induction x1 as [|h t IH]; intros y1 ND E.
  - destruct y1 as [|h' t']; [reflexivity|].
    cbn in E. inversion E; subst. inversion ND as [|? ? NI _]; subst.
    exfalso. apply NI. apply in_or_app. right. now left.
  - destruct y1 as [|h' t'].
    + cbn in E. inversion E; subst. inversion ND as [|? ? NI _]; subst.
      exfalso. apply NI. apply in_or_app. right. now left.
    + cbn in E. inversion E; subst. inversion ND; subst.
      f_equal. now apply IH.
Qed.

Lemma NoDup_app_disjoint {A} (l l' : list A) x :
  NoDup (l ++ l') -> In x l -> In x l' -> False.
Proof.
  induction l as [|h t IH]; intros ND I I'; [destruct I|].
  cbn [app] in ND. inversion ND as [|? ? NI ND']; subst.
  destruct I as [->|I]; [|now apply IH].
  apply NI. apply in_or_app. now right.
Qed.

Lemma NoDup_filter {A} (p : A -> bool) (l : list A) :
  NoDup l -> NoDup (filter p l).
Proof.
  induction l as [|x r IH]; intros ND; [constructor|].
  inversion ND; subst. cbn [filter]. destruct (p x); auto.
  constructor; auto. rewrite filter_In. tauto.
Qed.

(** Among the entries of one count, one that comes first in the dictionary
    is selected before one that comes later. *)
Lemma top_slice_ties n items (l1 l2 l3 : list (K * Z)) a b :
  NoDup items ->
  items = l1 ++ a :: l2 ++ b :: l3 ->
  snd a = snd b ->
  In b (slice_to n (sorted_by_count_desc items)) ->
  In a (slice_to n (sorted_by_count_desc items)).
Proof.
  intros ND E Same.
  destruct (slice_to_prefix n (sorted_by_count_desc items)) as [m ->].
  intros Ib.
  set (S := sorted_by_count_desc items) in *.
  set (f := filter (fun y : K * Z => snd y =? snd a)).
  assert (Ia : In a S).
  { apply (proj2 (sorted_In (fun y x : K * Z => snd x <=? snd y) a items)).
    rewrite E. apply in_or_app. right. now left. }
  rewrite <- (firstn_skipn m S) in Ia. apply in_app_or in Ia.
  destruct Ia as [Ia|Ia]; [exact Ia|]. exfalso.
  assert (St : f (firstn m S) ++ f (skipn m S) = f items).
  { unfold f. rewrite <- filter_app, firstn_skipn.
    apply sorted_by_count_desc_stable. }
  assert (Fa : In a (f (skipn m S))).
  { apply filter_In. split; [exact Ia|apply Z.eqb_refl]. }
  assert (Fb : In b (f (firstn m S))).
  { apply filter_In. split; [exact Ib|]. cbv beta. rewrite Same. apply Z.eqb_refl. }
  destruct (in_split _ _ Fa) as [q1 [q2 Eq]].
  destruct (in_split _ _ Fb) as [p1 [p2 Ep]].
  assert (Fi : f items = f l1 ++ a :: f l2 ++ b :: f l3).
  { rewrite E. unfold f. rewrite filter_app. cbn [filter].
    rewrite Z.eqb_refl, filter_app. cbn [filter].
    replace (snd b =? snd a) with true
      by (symmetry; apply Z.eqb_eq; now symmetry).
    reflexivity. }
  assert (NDf : NoDup (f items)) by (apply NoDup_filter; exact ND).
  rewrite Ep, Eq in St.
  assert (St' : (p1 ++ b :: p2 ++ q1) ++ a :: q2 = f l1 ++ a :: f l2 ++ b :: f l3).
  { rewrite <- Fi, <- St. rewrite <- !app_assoc. cbn [app].
    now rewrite <- !app_assoc. }
  assert (X : p1 ++ b :: p2 ++ q1 = f l1).
  { apply (NoDup_split_unique a _ q2 _ (f l2 ++ b :: f l3)); [|exact St'].
    rewrite St', <- Fi. exact NDf. }
  rewrite Fi in NDf. rewrite <- X in NDf.
  apply (NoDup_app_disjoint _ _ b NDf).
  - apply in_or_app. right. now left.
  - right. apply in_or_app. right. now left.
Qed.

End SelectionFacts.

Section CnaCountFacts.

Lemma cna_counts_NoDup (data : Compact.compact_data) :
  NoDup (dict_keys (Compact.cna_counts data)).
Proof.
  unfold Compact.cna_counts.
  apply (fold_left_invariant
           (fun d : dict string Z => NoDup (dict_keys d))); [|constructor].
  intros acc kv _ ND. now apply dict_keys_set_NoDup.
Qed.

Lemma NoDup_keys_items {K V} (d : dict K V) :
  NoDup (dict_keys d) -> NoDup d.
Proof. unfold dict_keys. apply NoDup_map_inv. Qed.

End CnaCountFacts.

(** X12.  The top authorities of [build_top_cna_cwe_bipartite] are those with
    the most CVEs: an authority that is selected has at least as many CVEs
    as any authority that is not; between two authorities with the same
    number of CVEs the one that comes first in the dictionary is selected
    first; and the number selected is the threshold, or the number of
    authorities when there are fewer.  A negative threshold leaves out
    that many authorities from the end. *)
Theorem top_cnas_are_largest :
  forall (data : Compact.compact_data) (top_n : Z),
    let counts := Compact.cna_counts data in
    let top := Compact.top_cnas data top_n in
    (forall a b, In a top -> In b counts -> ~ In b top -> snd b <= snd a)
    /\ (forall l1 l2 l3 a b,
          counts = l1 ++ a :: l2 ++ b :: l3 -> snd a = snd b ->
          In b top -> In a top)
    /\ Z.of_nat (List.length top)
       = (if top_n <? 0
          then Z.max 0 (Z.of_nat (List.length counts) + top_n)
          else Z.min top_n (Z.of_nat (List.length counts))).
Proof.
  intros data top_n counts top. subst counts top. unfold Compact.top_cnas.
  split; [|split].
  - intros a b. apply top_slice_largest.
  - intros l1 l2 l3 a b E. apply (top_slice_ties top_n _ l1 l2 l3 a b); auto.
    apply NoDup_keys_items, cna_counts_NoDup.
  - rewrite slice_to_length. unfold sorted_by_count_desc.
    now rewrite sorted_length.
Qed.
(* ================================================================== *)
(** * The ego network and its radius *)
(* ================================================================== *)

Section RadiusFacts.
Variable G : Graph.

Lemma within_hops_le k k' c v :
  (k <= k')%nat -> within_hops G k c v -> within_hops G k' c v.
Proof.
  induction 1 as [|k' L IH]; intros W; [exact W|].
  apply within_hops_S. now apply IH.
Qed.

Lemma ego_graph_to_nat c (radius : Z) :
  ego_graph G c radius = ego_graph G c (Z.of_nat (Z.to_nat radius)).
Proof. unfold ego_graph, within_cutoff. now rewrite Nat2Z.id. Qed.

End RadiusFacts.

(** X13.  The ego network of [build_cna_ego_network] grows with the radius:
    every node and every edge of the network of one radius belong to the
    network of any larger radius.  A radius that is zero or negative gives
    the centre alone, when it is a node of the full graph. *)
Theorem ego_network_grows_with_radius :
  forall (data : Compact.compact_data) (cna_name : string) (r r' : Z),
    r <= r' ->
    let H := Compact.build_cna_ego_network data cna_name r in
    let H' := Compact.build_cna_ego_network data cna_name r' in
    (forall n, has_node n H = true -> has_node n H' = true)
    /\ (forall e, In e (edges H) -> In e (edges H'))
    /\ (r <= 0 -> has_node cna_name (Compact.full_graph data) = true ->
        forall n, has_node n H = true <-> n = cna_name).
Proof.
  intros data c r r' L H H'. subst H H'.
  unfold Compact.build_cna_ego_network, Compact.ego_projection.
  pose proof (full_graph_closed data) as C.
  destruct (has_node c (Compact.full_graph data)) eqn:Hc.
  - rewrite (ego_graph_to_nat _ c r), (ego_graph_to_nat _ c r').
    assert (Ln : (Z.to_nat r <= Z.to_nat r')%nat) by lia.
    assert (Nodes : forall n,
              has_node n (ego_graph (Compact.full_graph data) c
                            (Z.of_nat (Z.to_nat r))) = true ->
              has_node n (ego_graph (Compact.full_graph data) c
                            (Z.of_nat (Z.to_nat r'))) = true).
    { intros n. rewrite !ego_graph_nodes by assumption.
      now apply within_hops_le. }
    split; [exact Nodes|]. split.
    + intros e. rewrite !ego_graph_edges by assumption.
      intros [I [Hs Hd]]. auto.
    + intros Neg _ n. rewrite ego_graph_nodes by assumption.
      replace (Z.to_nat r) with 0%nat by lia. apply within_hops_0.
  - split; [discriminate|]. split; [intros e []|]. discriminate.
Qed.

Lemma ego_network_grows_with_radius_witness :
  let H := Compact.build_cna_ego_network scenario_compact "A" 1 in
  let H' := Compact.build_cna_ego_network scenario_compact "A" 2 in
  (forall n, has_node n H = true -> has_node n H' = true)
  /\ (forall e, In e (edges H) -> In e (edges H')).
Proof.
  assert (L : 1 <= 2) by lia.
  destruct (ego_network_grows_with_radius scenario_compact "A" 1 2 L)
    as [N [E _]].
  split; [exact N|exact E].
Defined.
(* ================================================================== *)
(** * [parse_cve_extended_data] and [parse_cve_files] *)
(* ================================================================== *)

Section ParityFacts.
Variable fromisoformat : string -> option datetime.
Variable cutoff : Z.

Lemma date_filter_plain_agrees date_published :
  (forall s d, date_published = Some s ->
     fromisoformat (replace_char_by "Z" "+00:00" s) = Some d ->
     is_aware d = true) ->
  date_filter_plain fromisoformat cutoff date_published
  = date_filter fromisoformat cutoff date_published.
Proof.
  intros A. destruct date_published as [s|]; [|reflexivity].
  unfold date_filter_plain, date_filter, parse_published.
  destruct (nonempty s); [|reflexivity].
  destruct (fromisoformat _) as [d|] eqn:E; [|reflexivity].
  cbn [bind]. specialize (A s d eq_refl E). unfold is_aware in A.
  destruct (utcoffset d); [reflexivity|discriminate].
Qed.

Lemma extended_record_cna_cwe u cwes vendors data names :
  Extended.cna_cwe_associations
    (Extended.record_associations u cwes vendors data names)
  = BuildGraph.record_associations u cwes
      (Extended.cna_cwe_associations data).
Proof.
  unfold Extended.record_associations, BuildGraph.record_associations.
  cbn [Extended.cna_cwe_associations].
  generalize (Extended.cna_cwe_associations data)
             (Extended.vendor_cwe_associations data).
  induction cwes as [|cwe r IH]; intros d1 d2; [reflexivity|].
  cbn [fold_left fst snd]. apply IH.
Qed.

Lemma extended_parity_from ext st corpus :
  dates_aware fromisoformat corpus ->
  Extended.cna_cwe_associations ext = BuildGraph.associations st ->
  Extended.cna_names ext = BuildGraph.cna_names st ->
  Extended.cna_cwe_associations
    (fold_left (Extended.process_file fromisoformat cutoff) corpus ext)
  = BuildGraph.associations
      (BuildGraph.parse_cve_files_from fromisoformat cutoff st corpus)
  /\ Extended.cna_names
       (fold_left (Extended.process_file fromisoformat cutoff) corpus ext)
     = BuildGraph.cna_names
         (BuildGraph.parse_cve_files_from fromisoformat cutoff st corpus).
Proof.
  unfold BuildGraph.parse_cve_files_from. intros Aw. revert ext st.
  induction Aw as [|doc r A Aw IH]; intros ext st E1 E2; [auto|].
  cbn [fold_left]. apply IH.
  - unfold Extended.process_file, BuildGraph.process_file.
    rewrite (date_filter_plain_agrees _ A).
    destruct (date_filter _ _ _) as [[|]|]; auto.
    destruct (negb _); auto.
    rewrite extended_record_cna_cwe. cbn [BuildGraph.associations].
    now rewrite E1.
  - unfold Extended.process_file, BuildGraph.process_file.
    rewrite (date_filter_plain_agrees _ A).
    destruct (date_filter _ _ _) as [[|]|]; auto.
    destruct (negb _); auto.
    unfold Extended.record_associations.
    cbn [Extended.cna_names BuildGraph.cna_names]. now rewrite E2.
Qed.

End ParityFacts.

(** X14.  On a corpus whose publication dates all carry an offset,
    [parse_cve_extended_data] returns the authority-weakness mapping and the
    names of [parse_cve_files]: the two scripts count the same pairs and
    name the authorities alike. *)
Theorem extended_parser_matches_build_graph :
  forall (fromisoformat : string -> option datetime) (cutoff : Z)
         (corpus : list cve_document),
    dates_aware fromisoformat corpus ->
    let ext := Extended.parse_cve_extended_data fromisoformat cutoff corpus in
    let st := BuildGraph.parse_cve_files fromisoformat cutoff corpus in
    Extended.cna_cwe_associations ext = BuildGraph.associations st
    /\ Extended.cna_names ext = BuildGraph.cna_names st.
Proof.
  intros f c corpus Aw ext st. subst ext st.
  unfold Extended.parse_cve_extended_data, BuildGraph.parse_cve_files.
  now apply extended_parity_from.
Qed.

Lemma extended_parser_matches_build_graph_witness :
  Extended.cna_cwe_associations
    (Extended.parse_cve_extended_data iso8601 scenario_start scenario)
  = BuildGraph.associations
      (BuildGraph.parse_cve_files iso8601 scenario_start scenario)
  /\ Extended.cna_names
       (Extended.parse_cve_extended_data iso8601 scenario_start scenario)
     = BuildGraph.cna_names
         (BuildGraph.parse_cve_files iso8601 scenario_start scenario).
Proof.
  apply (extended_parser_matches_build_graph iso8601 scenario_start scenario).
  unfold dates_aware, scenario.
  repeat constructor; intros s d E F; inversion E; subst s;
    vm_compute in F; inversion F; reflexivity.
Defined.
(* ================================================================== *)
(** * The heat map *)
(* ================================================================== *)

Section HeatmapFacts.

Lemma dict_set_not_nil {K V} `{Hashable K} (k : K) (v : V) (d : dict K V) :
  dict_set k v d <> [].
Proof. destruct d as [|[k' v'] r]; cbn; [|destruct (keqb k k')]; discriminate. Qed.

Lemma totals_nil (cna_cwe : dict (string * string) Z) :
  (fst (Charts.totals cna_cwe) = [] <-> cna_cwe = [])
  /\ (snd (Charts.totals cna_cwe) = [] <-> cna_cwe = []).
Proof.
  unfold Charts.totals. destruct cna_cwe as [|kv r].
  - cbn. tauto.
  - cbn [fold_left fst snd].
    assert (P : fst (fold_left
                  (fun acc kv0 =>
                     (Charts.add_count (fst (fst kv0)) (snd kv0) (fst acc),
                      Charts.add_count (snd (fst kv0)) (snd kv0) (snd acc)))
                  r (Charts.add_count (fst (fst kv)) (snd kv) [],
                     Charts.add_count (snd (fst kv)) (snd kv) [])) <> []
              /\ snd (fold_left
                  (fun acc kv0 =>
                     (Charts.add_count (fst (fst kv0)) (snd kv0) (fst acc),
                      Charts.add_count (snd (fst kv0)) (snd kv0) (snd acc)))
                  r (Charts.add_count (fst (fst kv)) (snd kv) [],
                     Charts.add_count (snd (fst kv)) (snd kv) [])) <> []).
    { apply (fold_left_invariant
               (fun acc : dict string Z * dict string Z =>
                  fst acc <> [] /\ snd acc <> [])).
      - intros acc x _ _. cbn [fst snd]. unfold Charts.add_count.
        split; apply dict_set_not_nil.
      - cbn [fst snd]. unfold Charts.add_count.
        split; apply dict_set_not_nil. }
    destruct P as [P1 P2]. split; split; intros E; try discriminate;
      contradiction.
Qed.

Lemma sorted_by_count_desc_nil {K} (items : list (K * Z)) :
  sorted_by_count_desc items = [] <-> items = [].
Proof.
  split; intros E.
  - apply length_zero_iff_nil.
    rewrite <- (sorted_length (fun y x : K * Z => snd x <=? snd y) items).
    fold (sorted_by_count_desc items). now rewrite E.
  - now subst.
Qed.

Lemma slice_to_positive {A} (n : Z) (l : list A) :
  1 <= n -> l <> [] -> slice_to n l <> [].
Proof.
  intros L N. unfold slice_to.
  destruct (Z.ltb_spec n 0); [lia|].
  destruct l as [|x r]; [contradiction|].
  destruct (Z.to_nat n) eqn:E; [lia|]. discriminate.
Qed.

Lemma slice_to_of_nil {A} (n : Z) : slice_to n (@nil A) = [].
Proof. unfold slice_to. destruct (n <? 0); now rewrite firstn_nil. Qed.

Lemma py_max_spec xs m :
  Charts.py_max xs = Ok m -> Forall (fun v => v <= m) xs /\ In m xs.
Proof.
  destruct xs as [|x r]; [discriminate|]. cbn [Charts.py_max].
  intros E. inversion E; subst m. clear E.
  revert x. induction r as [|y r IH]; intros x.
  - cbn. split; [repeat constructor; lia|now left].
  - cbn [fold_left]. destruct (IH (Z.max x y)) as [F I]. split.
    + inversion F as [|? ? Fx Fr]; subst. repeat constructor; auto; lia.
    + destruct I as [E|I]; [|now right; right].
      rewrite <- E. destruct (Z.max_spec x y) as [[_ ->]|[_ ->]];
        [right; now left|now left].
Qed.

Lemma py_max_raises xs e :
  Charts.py_max xs = Raise e -> xs = [] /\ e = ValueError.
Proof.
  destruct xs; cbn; intros E; [|discriminate]. inversion E. auto.
Qed.

Lemma collect_length {A B} (f : A -> result B) l ys :
  Charts.collect f l = Ok ys -> List.length ys = List.length l.
Proof.
  revert ys. induction l as [|x r IH]; intros ys E.
  - inversion E. reflexivity.
  - cbn [Charts.collect] in E. destruct (f x) as [y|]; [|discriminate].
    cbn [bind] in E. destruct (Charts.collect f r) as [ys'|]; [|discriminate].
    cbn [bind] in E. inversion E; subst. cbn [List.length].
    now rewrite (IH ys').
Qed.

Lemma collect_pairs {A B} (f : A -> result B) l ys y :
  Charts.collect f l = Ok ys -> In y ys -> exists x, In x l /\ f x = Ok y.
Proof.
  revert ys. induction l as [|x r IH]; intros ys E I.
  - inversion E; subst. destruct I.
  - cbn [Charts.collect] in E. destruct (f x) as [y0|] eqn:Fx; [|discriminate].
    cbn [bind] in E. destruct (Charts.collect f r) as [ys'|]; [|discriminate].
    cbn [bind] in E. inversion E; subst. destruct I as [<-|I].
    + exists x. split; [now left|exact Fx].
    + destruct (IH ys' eq_refl I) as [x' [I' F']]. exists x'.
      split; [now right|exact F'].
Qed.

Lemma collect_all {A B} (f : A -> result B) l ys x :
  Charts.collect f l = Ok ys -> In x l -> exists y, In y ys /\ f x = Ok y.
Proof.
  revert ys. induction l as [|x0 r IH]; intros ys E I; [destruct I|].
  cbn [Charts.collect] in E. destruct (f x0) as [y0|] eqn:Fx; [|discriminate].
  cbn [bind] in E. destruct (Charts.collect f r) as [ys'|]; [|discriminate].
  cbn [bind] in E. inversion E; subst. destruct I as [<-|I].
  - exists y0. split; [now left|exact Fx].
  - destruct (IH ys' eq_refl I) as [y [I' F']]. exists y.
    split; [now right|exact F'].
Qed.

Lemma collect_raises {A B} (f : A -> result B) l e :
  Charts.collect f l = Raise e -> exists x, In x l /\ f x = Raise e.
Proof.
  induction l as [|x r IH]; intros E; [discriminate|].
  cbn [Charts.collect] in E. destruct (f x) as [y|e'] eqn:Fx.
  - cbn [bind] in E. destruct (Charts.collect f r) as [ys|e'']; [discriminate|].
    cbn [bind] in E. inversion E; subst.
    destruct (IH eq_refl) as [x' [I F]]. exists x'. split; [now right|exact F].
  - cbn [bind] in E. inversion E; subst. exists x. split; [now left|exact Fx].
Qed.

Lemma collect_total {A B} (f : A -> result B) l :
  (forall x, In x l -> exists y, f x = Ok y) ->
  exists ys, Charts.collect f l = Ok ys.
Proof.
  induction l as [|x r IH]; intros T; [eexists; reflexivity|].
  destruct (T x (or_introl eq_refl)) as [y Fx].
  destruct IH as [ys E]; [intros x' I; apply T; now right|].
  exists (y :: ys). cbn [Charts.collect]. rewrite Fx. cbn [bind].
  rewrite E. reflexivity.
Qed.

End HeatmapFacts.

(** X15.  [build_heatmap_matrix] gives a rectangular matrix: one row for each
    authority listed and, in every row, one cell for each weakness listed;
    [max_value] is at least every cell and is the value of a cell when there
    is a row.  The function raises only [ValueError], and it does so exactly
    when an authority is selected and no weakness is, the maximum of an
    empty row being undefined; with thresholds of one or more it never
    raises. *)
Theorem heatmap_matrix_is_rectangular :
  forall (data : Extended.ext_data) (top_cnas top_cwes : Z),
    let cna_cwe := Extended.cna_cwe_associations data in
    let rows := Charts.top_cna_entries cna_cwe top_cnas in
    let columns := Charts.top_cwe_entries cna_cwe top_cwes in
    let built := Charts.build_heatmap_matrix data top_cnas top_cwes in
    (forall h, built = Ok h ->
       List.length (Charts.matrix h) = List.length (Charts.cnas h)
       /\ Forall (fun row => List.length row = List.length (Charts.cwes h))
            (Charts.matrix h)
       /\ Forall (Forall (fun v => v <= Charts.max_value h))
            (Charts.matrix h)
       /\ (Charts.matrix h <> [] ->
           exists row, In row (Charts.matrix h)
                       /\ In (Charts.max_value h) row))
    /\ (forall e, built = Raise e ->
          e = ValueError /\ rows <> [] /\ columns = [])
    /\ (rows <> [] -> columns = [] -> built = Raise ValueError)
    /\ (1 <= top_cnas -> 1 <= top_cwes -> exists h, built = Ok h).
Proof.
  intros data top_cnas top_cwes cna_cwe rows columns built.
  subst built. unfold Charts.build_heatmap_matrix.
  fold cna_cwe. fold rows. fold columns.
  set (cell := fun c : string * Z =>
                 map (fun w : string * Z =>
                        dict_get_default (fst c, fst w) 0 cna_cwe) columns).
  assert (RowLen : forall row, In row (map cell rows) ->
            List.length row = List.length columns).
  { intros row I. apply in_map_iff in I. destruct I as [c [<- _]].
    unfold cell. apply length_map. }
  split; [|split; [|split]].
  - intros h B.
    destruct (map cell rows) as [|row0 rest] eqn:M.
    + cbn [bind] in B. inversion B; subst h. cbn.
      rewrite length_map. apply (f_equal (@List.length _)) in M.
      rewrite length_map in M. cbn in M. rewrite <- M.
      repeat split; try constructor. intros N. now contradiction N.
    + rewrite <- M in *.
      destruct (Charts.collect Charts.py_max (map cell rows)) as [maxima|]
        eqn:C; [|discriminate].
      cbn [bind] in B.
      destruct (Charts.py_max maxima) as [m|] eqn:Pm; [|discriminate].
      cbn [bind] in B. inversion B; subst h. clear B.
      cbn [Charts.matrix Charts.cnas Charts.cwes Charts.max_value].
      destruct (py_max_spec maxima m Pm) as [Fm Im].
      split; [now rewrite !length_map|]. split.
      { apply Forall_forall. intros row I. rewrite length_map.
        now apply RowLen. }
      split.
      { apply Forall_forall. intros row I.
        destruct (collect_all _ _ _ row C I) as [y [Iy Fy]].
        destruct (py_max_spec row y Fy) as [Fr _].
        rewrite Forall_forall in Fm. specialize (Fm y Iy).
        eapply Forall_impl; [|exact Fr]. intros v L. cbv beta in L. lia. }
      intros _. destruct (collect_pairs _ _ _ m C Im) as [row [I Fr]].
      exists row. split; [exact I|]. now apply py_max_spec.
  - intros e B.
    destruct (map cell rows) as [|row0 rest] eqn:M; [discriminate|].
    rewrite <- M in *.
    assert (Rn : rows <> []).
    { intros Z0. rewrite Z0 in M. discriminate. }
    destruct (Charts.collect Charts.py_max (map cell rows)) as [maxima|e']
      eqn:C.
    + cbn [bind] in B.
      destruct (Charts.py_max maxima) as [m|e''] eqn:Pm; [discriminate|].
      cbn [bind] in B. inversion B; subst e''.
      destruct (py_max_raises _ _ Pm) as [Z0 ->].
      apply collect_length in C. rewrite Z0, M in C. discriminate.
    + cbn [bind] in B. inversion B; subst e'.
      destruct (collect_raises _ _ _ C) as [row [I Fr]].
      destruct (py_max_raises _ _ Fr) as [Z0 ->].
      split; [reflexivity|]. split; [exact Rn|].
      apply RowLen in I. rewrite Z0 in I. cbn in I.
      symmetry in I. now apply length_zero_iff_nil in I.
  - intros Rn Cn. destruct rows as [|c r] eqn:R; [contradiction|].
    cbn [map]. unfold cell at 1. rewrite Cn. cbn. reflexivity.
  - intros L1 L2.
    destruct (map cell rows) as [|row0 rest] eqn:M;
      [cbn [bind]; eexists; reflexivity|].
    rewrite <- M in *.
    assert (Rn : rows <> []).
    { intros Z0. rewrite Z0 in M. discriminate. }
    assert (Cn : columns <> []).
    { unfold columns, Charts.top_cwe_entries.
      apply slice_to_positive; [exact L2|].
      rewrite sorted_by_count_desc_nil.
      rewrite (proj2 (totals_nil cna_cwe)). intros Z0.
      apply Rn. unfold rows, Charts.top_cna_entries.
      rewrite (proj2 (proj1 (totals_nil cna_cwe)) Z0). apply slice_to_of_nil. }
    destruct (collect_total Charts.py_max (map cell rows)) as [maxima C].
    { intros row I. apply RowLen in I.
      destruct row as [|x r]; [|eexists; reflexivity].
      cbn in I. symmetry in I. apply length_zero_iff_nil in I. contradiction. }
    rewrite C. cbn [bind].
    destruct maxima as [|y ys].
    + apply collect_length in C. rewrite M in C. discriminate.
    + cbn [Charts.py_max bind]. eexists. reflexivity.
Qed.
(* ================================================================== *)
(** * The Sankey data *)
(* ================================================================== *)

Section SankeyFacts.

Lemma add_sankey_node_indexes node_name node_type acc :
  indexes_nodes acc ->
  indexes_nodes (Charts.add_sankey_node node_name node_type acc).
Proof.
  destruct acc as [[nodes node_map] idx]. unfold indexes_nodes.
  cbn [Charts.add_sankey_node fst snd]. intros [L P]. subst idx. split.
  - rewrite length_app. cbn [List.length]. lia.
  - intros nm i. rewrite dict_get_set. destruct (keqb node_name nm) eqn:E.
    + apply keqb_spec in E. subst nm. intros X. inversion X; subst i.
      split; [lia|]. rewrite Nat2Z.id.
      eexists. split.
      * rewrite nth_error_app2 by lia. now rewrite Nat.sub_diag.
      * reflexivity.
    + intros G. destruct (P nm i G) as [Pos [node [N Nm]]].
      split; [exact Pos|]. exists node. split; [|exact Nm].
      rewrite nth_error_app1; [exact N|].
      apply nth_error_Some. now rewrite N.
Qed.

Lemma add_sankey_node_contains node_name node_type acc nm :
  dict_contains nm
    (snd (fst (Charts.add_sankey_node node_name node_type acc)))
  = keqb node_name nm || dict_contains nm (snd (fst acc)).
Proof.
  destruct acc as [[nodes node_map] idx].
  cbn [Charts.add_sankey_node fst snd]. apply dict_contains_set.
Qed.

Lemma add_sankey_node_length node_name node_type acc :
  List.length (fst (fst (Charts.add_sankey_node node_name node_type acc)))
  = S (List.length (fst (fst acc))).
Proof.
  destruct acc as [[nodes node_map] idx].
  cbn [Charts.add_sankey_node fst snd]. rewrite length_app. cbn. lia.
Qed.

Lemma fold_sankey_nodes {B} (nm : B -> string) (ty : string) (l : list B) acc :
  let acc' :=
    fold_left (fun acc x => Charts.add_sankey_node (nm x) ty acc) l acc in
  (indexes_nodes acc -> indexes_nodes acc')
  /\ List.length (fst (fst acc'))
     = (List.length (fst (fst acc)) + List.length l)%nat
  /\ (forall k, dict_contains k (snd (fst acc)) = true ->
                dict_contains k (snd (fst acc')) = true)
  /\ (forall x, In x l -> dict_contains (nm x) (snd (fst acc')) = true).
Proof.
  revert acc. induction l as [|x r IH]; intros acc; cbn zeta.
  - cbn [fold_left List.length].
    split; [auto|split; [lia|split; [auto|intros x []]]].
  - cbn [fold_left List.length].
    destruct (IH (Charts.add_sankey_node (nm x) ty acc)) as [I [L [Kp Kn]]].
    cbn zeta in I, L, Kp, Kn. split; [|split; [|split]].
    + intros P. apply I. now apply add_sankey_node_indexes.
    + rewrite L, add_sankey_node_length. lia.
    + intros k C. apply Kp. rewrite add_sankey_node_contains, C.
      apply orb_true_r.
    + intros y [<-|Iy]; [|now apply Kn].
      apply Kp. rewrite add_sankey_node_contains, keqb_refl. reflexivity.
Qed.

Lemma build_links_resolve cna_cwe cna_names top_cna_uuids top_cwe_ids
    (acc : list Charts.sankey_node * dict string Z * Z) items :
  indexes_nodes acc ->
  (forall u, In u top_cna_uuids ->
     dict_contains (BuildGraph.display_name cna_names u) (snd (fst acc))
     = true) ->
  (forall w, In w top_cwe_ids -> dict_contains w (snd (fst acc)) = true) ->
  (forall kv, In kv items -> In kv cna_cwe) ->
  exists links,
    Charts.build_links cna_names top_cna_uuids top_cwe_ids (snd (fst acc))
      items = Some links
    /\ Forall (resolves cna_cwe cna_names (fst (fst acc))) links.
Proof.
  intros [_ P] Cu Cw. induction items as [|[[u w] k] r IH]; intros Sub.
  - exists []. split; [reflexivity|constructor].
  - destruct IH as [links [E F]]; [intros kv I; apply Sub; now right|].
    cbn [Charts.build_links].
    destruct (set_mem u top_cna_uuids && set_mem w top_cwe_ids) eqn:M.
    + apply andb_true_iff in M. destruct M as [Mu Mw].
      apply set_mem_In in Mu. apply set_mem_In in Mw.
      specialize (Cu u Mu). specialize (Cw w Mw).
      unfold dict_contains in Cu, Cw.
      destruct (dict_get (BuildGraph.display_name cna_names u) (snd (fst acc)))
        as [s|] eqn:Gs; [|discriminate].
      destruct (dict_get w (snd (fst acc))) as [t|] eqn:Gt; [|discriminate].
      rewrite E. cbn [option_map]. eexists. split; [reflexivity|].
      constructor; [|exact F].
      destruct (P _ _ Gs) as [Ps Ns]. destruct (P _ _ Gt) as [Pt Nt].
      exists u, w. cbn [Charts.value Charts.source Charts.target].
      split; [apply Sub; now left|]. auto.
    + exists links. split; [exact E|exact F].
Qed.

End SankeyFacts.

(** X16.  [build_sankey_diagram_data] never fails on a missing name: every
    name it looks up in [node_map] was bound while the nodes were listed.
    The data have one node for each selected authority and each selected
    weakness, and every link carries the count of a pair of the mapping and
    points, by position, at a node named after the authority of the pair and
    at a node named after its weakness. *)
Theorem sankey_links_resolve :
  forall (data : Extended.ext_data) (top_cnas top_cwes : Z),
    exists s,
      Charts.build_sankey_diagram_data data top_cnas top_cwes = Some s
      /\ Z.of_nat (List.length (Charts.sankey_nodes s))
         = Charts.cna_count s + Charts.cwe_count s
      /\ Forall (resolves (Extended.cna_cwe_associations data)
                   (Extended.cna_names data) (Charts.sankey_nodes s))
           (Charts.sankey_links s).
Proof.
  intros data top_cnas top_cwes. unfold Charts.build_sankey_diagram_data.
  set (cna_cwe := Extended.cna_cwe_associations data).
  set (names := Extended.cna_names data).
  set (uuids := Charts.names_of (Charts.top_cna_entries cna_cwe top_cnas)).
  set (ids := Charts.names_of (Charts.top_cwe_entries cna_cwe top_cwes)).
  destruct (fold_sankey_nodes (BuildGraph.display_name names) "cna" uuids
              ([], [], 0)) as [I1 [L1 [_ K1]]].
  cbn zeta in I1, L1, K1.
  set (after_cnas :=
         fold_left
           (fun acc cna_uuid =>
              Charts.add_sankey_node (BuildGraph.display_name names cna_uuid)
                "cna" acc) uuids ([], [], 0)) in *.
  destruct (fold_sankey_nodes (fun w : string => w) "cwe" ids after_cnas)
    as [I2 [L2 [P2 K2]]].
  cbn zeta in I2, L2, P2, K2.
  set (final := fold_left (fun acc cwe => Charts.add_sankey_node cwe "cwe" acc)
                  ids after_cnas) in *.
  assert (Ix : indexes_nodes final).
  { apply I2, I1. split; [reflexivity|]. intros nm i G. discriminate. }
  destruct (build_links_resolve cna_cwe names uuids ids final cna_cwe Ix)
    as [links [E F]]; auto.
  destruct final as [[nodes node_map] idx] eqn:Fin.
  cbn [fst snd] in *. rewrite E.
  eexists. split; [reflexivity|].
  cbn [Charts.sankey_nodes Charts.sankey_links Charts.cna_count
       Charts.cwe_count Charts.total_flow].
  split; [|exact F].
  rewrite L2, L1. cbn [List.length]. lia.
Qed.
(* ================================================================== *)
(** * The unified build *)
(* ================================================================== *)

Section BuildAllFacts.
Variable run_script : string -> bool.

(** The results of a run, by cases on the outcome of the scripts. *)
Lemma build_all_results :
  BuildAll.main run_script true
  = if run_script "build_graph.py" then
      if run_script "build_alternative_graphs.py"
         && run_script "build_compact_graphs.py"
         && run_script "build_extended_graphs.py"
      then
        ((if run_script "optimize_data.py" then 0 else 1),
         [("build_graph.py", true); ("build_alternative_graphs.py", true);
          ("build_compact_graphs.py", true);
          ("build_extended_graphs.py", true);
          ("optimize_data.py", run_script "optimize_data.py")])
      else
        (1,
         [("build_graph.py", true);
          ("build_alternative_graphs.py",
           run_script "build_alternative_graphs.py");
          ("build_compact_graphs.py", run_script "build_compact_graphs.py");
          ("build_extended_graphs.py", run_script "build_extended_graphs.py")])
    else (1, [("build_graph.py", false)]).
Proof.
  unfold BuildAll.main, BuildAll.run_post_processing, BuildAll.BUILD_SCRIPTS,
    BuildAll.POST_PROCESS_SCRIPTS.
  cbn [negb BuildAll.run_build_scripts].
  destruct (run_script "build_graph.py");
    [destruct (run_script "build_alternative_graphs.py"),
       (run_script "build_compact_graphs.py"),
       (run_script "build_extended_graphs.py")|];
    vm_compute; try reflexivity.
  now destruct (run_script "optimize_data.py").
Qed.

End BuildAllFacts.

(** X17.  [main] of scripts/build_all.py, when the CVE data directory exists:
    the exit status is zero exactly when the four build scripts and the
    post-processing script all succeed, and one otherwise; a failure of
    [build_graph.py] stops the build at once, so that no other script runs;
    after any other failure the remaining build scripts still run; the
    post-processing script runs exactly when every build script succeeded;
    and the result recorded for a script is the outcome of its run. *)
Theorem build_all_exit_status :
  forall (run_script : string -> bool),
    let status := fst (BuildAll.main run_script true) in
    let results := snd (BuildAll.main run_script true) in
    (status = 0
     <-> Forall (fun script => run_script script = true)
           (BuildAll.BUILD_SCRIPTS ++ BuildAll.POST_PROCESS_SCRIPTS))
    /\ (status = 0 \/ status = 1)
    /\ (run_script "build_graph.py" = false ->
        dict_keys results = ["build_graph.py"])
    /\ (run_script "build_graph.py" = true ->
        incl BuildAll.BUILD_SCRIPTS (dict_keys results))
    /\ (In "optimize_data.py" (dict_keys results)
        <-> Forall (fun script => run_script script = true)
              BuildAll.BUILD_SCRIPTS)
    /\ Forall (fun kv => snd kv = run_script (fst kv)) results.
Proof.
  intros run status results. subst status results.
  rewrite build_all_results.
  unfold BuildAll.BUILD_SCRIPTS, BuildAll.POST_PROCESS_SCRIPTS.
  cbn [app].
  set (bg := "build_graph.py"). set (alt := "build_alternative_graphs.py").
  set (cmp := "build_compact_graphs.py").
  set (ext := "build_extended_graphs.py"). set (opt := "optimize_data.py").
  assert (D : alt <> opt /\ cmp <> opt /\ ext <> opt /\ bg <> opt)
    by (repeat split; discriminate).
  destruct D as [D1 [D2 [D3 D4]]].
  destruct (run bg) eqn:E1;
    [destruct (run alt) eqn:E2; destruct (run cmp) eqn:E3;
     destruct (run ext) eqn:E4; cbn [andb];
     try (destruct (run opt) eqn:E5)|];
    cbn [fst snd dict_keys map];
    (split; [split; [intros H; try discriminate; repeat constructor; assumption
                    |intros H; try reflexivity;
                     repeat match goal with
                            | F : Forall _ (_ :: _) |- _ =>
                                inversion F; clear F; subst
                            end; congruence]|]);
    (split; [auto|]);
    (split; [intros H; try discriminate; reflexivity|]);
    (split; [intros H; try discriminate;
             intros s I; cbn [In] in *; tauto|]);
    (split; [split; [intros H; try (repeat constructor; assumption);
                     cbn [In] in H; decompose [or] H; try contradiction;
                     congruence
                    |intros H;
                     repeat match goal with
                            | F : Forall _ (_ :: _) |- _ =>
                                inversion F; clear F; subst
                            end; try congruence; cbn [In]; tauto]|]);
    repeat constructor; cbn [fst snd]; congruence.
Qed.
(* ================================================================== *)
(** * The optimized vendor map *)
(* ================================================================== *)

Section OptimizeFacts.
Import Optimize.

Lemma node_ids_snoc (ns : list node) (n : node) :
  node_ids (ns ++ [n])
  = match node_ids ns, id n with
    | Some s, Some i => Some (set_add i s)
    | _, _ => None
    end.
Proof. unfold node_ids. now rewrite fold_left_app. Qed.

Lemma node_ids_spec (ns : list node) :
  match node_ids ns with
  | Some ids =>
      forall s, In s ids <-> exists n, In n ns /\ id n = Some s
  | None => exists n, In n ns /\ id n = None
  end.
Proof.
  induction ns as [|n r IH] using rev_ind.
  - cbn. intros s. split; [intros []|intros [n [[] _]]].
  - rewrite node_ids_snoc. destruct (node_ids r) as [ids|].
    + destruct (id n) as [i|] eqn:E.
      * intros s. rewrite set_add_In, IH. split.
        -- intros [->|[n' [I E']]].
           ++ exists n. split; [apply in_or_app; right; now left|exact E].
           ++ exists n'. split; [apply in_or_app; now left|exact E'].
        -- intros [n' [I E']]. apply in_app_or in I.
           destruct I as [I|[<-|[]]]; [right; eauto|left; congruence].
      * exists n. split; [apply in_or_app; right; now left|exact E].
    + destruct IH as [n' [I E']]. exists n'.
      split; [apply in_or_app; now left|exact E'].
Qed.

Lemma add_count_keys {K} `{Hashable K} (k k' : K) (c : Z) (d : dict K Z) :
  In k' (dict_keys (Charts.add_count k c d)) <-> k' = k \/ In k' (dict_keys d).
Proof. unfold Charts.add_count. apply dict_keys_set_In. Qed.

Lemma vendor_counts_keys (ls : list link) o :
  In o (dict_keys (vendor_counts ls)) -> exists l, In l ls /\ source l = o.
Proof.
  unfold vendor_counts.
  assert (G : forall d : dict (option string) Z,
            In o (dict_keys
                    (fold_left
                       (fun acc l =>
                          Charts.add_count (source l)
                            (match weight l with Some w => w | None => 1 end)
                            acc) ls d)) ->
            In o (dict_keys d) \/ exists l, In l ls /\ source l = o).
  { induction ls as [|l r IH]; intros d I; [now left|].
    cbn [fold_left] in I. apply IH in I. destruct I as [I|[l' [I E]]].
    - apply add_count_keys in I. destruct I as [->|I]; [|now left].
      right. exists l. split; [now left|reflexivity].
    - right. exists l'. split; [now right|exact E]. }
  intros I. apply G in I. destruct I as [[]|I]. exact I.
Qed.

Lemma slice_to_In {A} (n : Z) (l : list A) x : In x (slice_to n l) -> In x l.
Proof.
  destruct (slice_to_prefix n l) as [m ->]. intros I.
  rewrite <- (firstn_skipn m l). apply in_or_app. now left.
Qed.

Lemma top_vendors_sources (ls : list link) top_n o :
  In o (top_vendors ls top_n) -> exists l, In l ls /\ source l = o.
Proof.
  unfold top_vendors. rewrite fold_set_add_In.
  intros [[]|[y [I ->]]]. apply vendor_counts_keys.
  apply slice_to_In in I.
  apply (proj1 (sorted_In _ y (vendor_counts ls))) in I.
  unfold dict_keys. now apply in_map.
Qed.

End OptimizeFacts.

(** X18.  [optimize_vendor_map] fails only with the [KeyError] of a kept node
    that has no id.  Otherwise the data written are a part of the data
    read in which every link has both end points among the nodes kept.
    When no node of the data read carries the node type "cwe" and no target
    of a link is also the source of a link, no link at all is kept: the
    nodes kept are then sources of links, and the target of a link is not
    one of them. *)
Theorem optimize_vendor_map_keeps_closed_links :
  forall (data : Optimize.graph_data) (top_n : Z),
    match Optimize.optimize_vendor_map data top_n with
    | Some out =>
        (forall n, In n (Optimize.nodes out) -> In n (Optimize.nodes data))
        /\ (forall l, In l (Optimize.links out) ->
              In l (Optimize.links data)
              /\ exists s t,
                   Optimize.source l = Some s /\ Optimize.target l = Some t
                   /\ (exists n, In n (Optimize.nodes out)
                                 /\ Optimize.id n = Some s)
                   /\ (exists n, In n (Optimize.nodes out)
                                 /\ Optimize.id n = Some t))
        /\ ((forall n, In n (Optimize.nodes data) ->
               Optimize.node_type n <> Some "cwe") ->
            (forall l l', In l (Optimize.links data) ->
               In l' (Optimize.links data) ->
               Optimize.target l <> Optimize.source l') ->
            Optimize.links out = [])
    | None =>
        exists n,
          In n (Optimize.nodes data)
          /\ Optimize.keeps_node
               (Optimize.top_vendors (Optimize.links data) top_n) n = true
          /\ Optimize.id n = None
    end.
Proof.
  intros data top_n. unfold Optimize.optimize_vendor_map.
  set (top := Optimize.top_vendors (Optimize.links data) top_n).
  set (kept := filter (Optimize.keeps_node top) (Optimize.nodes data)).
  pose proof (node_ids_spec kept) as N.
  destruct (Optimize.node_ids kept) as [ids|].
  - rename N into Ids. cbn [Optimize.nodes Optimize.links].
    assert (Among : forall o, Optimize.among o ids = true ->
              exists s, o = Some s
                        /\ exists n, In n kept /\ Optimize.id n = Some s).
    { intros [s|] A; [|discriminate]. cbn in A. apply set_mem_In in A.
      apply Ids in A. eauto. }
    split; [|split].
    + intros n I. apply filter_In in I. tauto.
    + intros l I. apply filter_In in I. destruct I as [I A].
      apply andb_true_iff in A. destruct A as [As At].
      split; [exact I|].
      destruct (Among _ As) as [s [Es Ns]].
      destruct (Among _ At) as [t [Et Nt]]. exists s, t. auto.
    + intros NoCwe Bip.
      destruct (filter _ (Optimize.links data)) as [|l r] eqn:F;
        [reflexivity|]. exfalso.
      assert (I : In l (filter
                          (fun l => Optimize.among (Optimize.source l) ids
                                    && Optimize.among (Optimize.target l) ids)
                          (Optimize.links data))) by (rewrite F; now left).
      apply filter_In in I. destruct I as [I A].
      apply andb_true_iff in A. destruct A as [_ At].
      destruct (Among _ At) as [t [Et [n [In_ En]]]].
      apply filter_In in In_. destruct In_ as [In_ Kn].
      unfold Optimize.keeps_node in Kn. apply orb_true_iff in Kn.
      destruct Kn as [Kn|Kn].
      * apply set_mem_In in Kn. apply top_vendors_sources in Kn.
        destruct Kn as [l' [I' E']].
        apply (Bip l l' I I'). congruence.
      * destruct (Optimize.node_type n) as [ty|] eqn:Ty; [|discriminate].
        apply String.eqb_eq in Kn. subst ty. now apply (NoCwe n In_).
  - destruct N as [n [I E]]. apply filter_In in I. destruct I as [I Kn].
    exists n. auto.
Qed.
(* ================================================================== *)
(** * Graphs that link the pairs above a threshold *)
(* ================================================================== *)

Section PairGraphFacts.
Context {B : Type}.
Variables (u v : B -> string) (cond : B -> bool) (at_ : B -> attrs).

Lemma has_edge_fold_pairs (l : list B) G a b :
  has_edge a b
    (fold_left
       (fun G p => if cond p then add_edge (u p) (v p) (at_ p) G else G) l G)
  = true
  <-> has_edge a b G = true
      \/ exists p, In p l /\ cond p = true
           /\ joins a b {| src := u p; dst := v p; data := [] |} = true.
Proof.
  revert G. induction l as [|p r IH]; intros G; cbn [fold_left].
  - split; [auto|]. intros [H|[p [[] _]]]. exact H.
  - rewrite IH. destruct (cond p) eqn:C.
    + rewrite has_edge_add_edge_iff, orb_true_iff. split.
      * intros [[H|J]|[q [I [Cq J]]]]; auto.
        -- right. exists p. split; [now left|auto].
        -- right. exists q. split; [now right|auto].
      * intros [H|[q [[<-|I] [Cq J]]]]; auto.
        right. eauto.
    + split.
      * intros [H|[q [I [Cq J]]]]; auto.
        right. exists q. split; [now right|auto].
      * intros [H|[q [[<-|I] [Cq J]]]]; auto.
        -- congruence.
        -- right. eauto.
Qed.

Lemma edges_fold_pairs (P : edge -> Prop) (l : list B) G :
  (forall p s t (d : attrs),
     In p l -> cond p = true ->
     (s = u p /\ t = v p) \/ (s = v p /\ t = u p) ->
     P {| src := s; dst := t; data := dict_update d (at_ p) |}) ->
  Forall P (edges G) ->
  Forall P
    (edges
       (fold_left
          (fun G p => if cond p then add_edge (u p) (v p) (at_ p) G else G)
          l G)).
Proof.
  intros New. apply (fold_left_invariant (fun G => Forall P (edges G))).
  intros G' p I F. destruct (cond p) eqn:C; [|exact F].
  cbn [add_edge edges]. apply update_edge_Forall; auto.
  intros e _ J. apply New; auto. apply joins_endpoints in J.
  destruct J as [[-> ->]|[-> ->]]; auto.
Qed.

Lemma has_node_fold_pairs (l : list B) G n :
  (forall p, In p l ->
     has_node (u p) G = true /\ has_node (v p) G = true) ->
  has_node n
    (fold_left
       (fun G p => if cond p then add_edge (u p) (v p) (at_ p) G else G) l G)
  = has_node n G.
Proof.
  revert G. induction l as [|p r IH]; intros G H; [reflexivity|].
  cbn [fold_left].
  assert (E : forall m,
            has_node m (if cond p then add_edge (u p) (v p) (at_ p) G else G)
            = has_node m G).
  { intros m. destruct (cond p); [|reflexivity].
    rewrite has_node_add_edge.
    destruct (H p (or_introl eq_refl)) as [Hu Hv].
    destruct (String.eqb_spec (v p) m) as [<-|]; [now rewrite Hv|].
    destruct (String.eqb_spec (u p) m) as [<-|]; [now rewrite Hu|].
    reflexivity. }
  rewrite IH; [apply E|].
  intros q I. rewrite !E. apply H. now right.
Qed.

End PairGraphFacts.

Section CombinationPairs.
Context {A : Type}.

Lemma combinations2_distinct (l : list A) a b :
  NoDup l -> In (a, b) (combinations2 l) -> a <> b.
Proof.
  induction l as [|x r IH]; intros ND I; [destruct I|].
  inversion ND as [|? ? NI ND']; subst.
  cbn [combinations2] in I. apply in_app_or in I. destruct I as [I|I].
  - apply in_map_iff in I. destruct I as [y [E I]]. inversion E; subst.
    intros ->. contradiction.
  - now apply IH.
Qed.

Lemma combinations2_complete (l : list A) a b :
  In a l -> In b l -> a <> b ->
  In (a, b) (combinations2 l) \/ In (b, a) (combinations2 l).
Proof.
  induction l as [|x r IH]; intros Ia Ib N; [destruct Ia|].
  cbn [combinations2]. rewrite !in_app_iff, !in_map_iff.
  destruct Ia as [->|Ia], Ib as [->|Ib].
  - contradiction.
  - left. left. eauto.
  - right. left. eauto.
  - destruct (IH Ia Ib N); auto.
Qed.

End CombinationPairs.

Section SetInterFacts.
Context {A : Type} `{Hashable A}.

Lemma set_inter_In (s t : pyset A) x :
  In x (set_inter s t) <-> In x s /\ In x t.
Proof. unfold set_inter. now rewrite filter_In, set_mem_In. Qed.

Lemma set_inter_length_comm (s t : pyset A) :
  NoDup s -> NoDup t ->
  List.length (set_inter s t) = List.length (set_inter t s).
Proof.
  intros Ns Nt. apply Permutation_length. apply NoDup_Permutation.
  - now apply NoDup_filter.
  - now apply NoDup_filter.
  - intros x. rewrite !set_inter_In. tauto.
Qed.

Lemma set_update_NoDup (s t : pyset A) : NoDup s -> NoDup (set_update s t).
Proof. unfold set_update. apply (fold_set_add_NoDup (fun x => x)). Qed.

End SetInterFacts.

Section CollaborationFacts.
Variable data : Compact.compact_data.

Lemma cna_cwes_keys n :
  In n (dict_keys (Collaboration.cna_cwes data))
  <-> In n (dict_keys (Compact.cna_to_cves data)).
Proof.
  unfold Collaboration.cna_cwes.
  rewrite (fold_keys_union
             (fun (acc : dict string (pyset string))
                  (kv : string * pyset string) =>
                dict_set (fst kv)
                  (fold_left
                     (fun cwes cve_id =>
                        set_update cwes
                          (dict_get_default cve_id []
                             (Compact.cve_to_cwes data))) (snd kv) []) acc)
             (fun kv k => k = fst kv)).
  - split.
    + intros [[]|[kv [I ->]]]. unfold dict_keys. now apply in_map.
    + intros I. right. unfold dict_keys in I. apply in_map_iff in I.
      destruct I as [kv [<- I]]. eauto.
  - intros acc x k. rewrite dict_keys_set_In. tauto.
Qed.

Lemma cna_cwes_keys_NoDup : NoDup (dict_keys (Collaboration.cna_cwes data)).
Proof.
  unfold Collaboration.cna_cwes.
  apply (fold_left_invariant
           (fun d : dict string (pyset string) => NoDup (dict_keys d)));
    [|constructor].
  intros acc kv _ ND. now apply dict_keys_set_NoDup.
Qed.

Lemma cna_cwes_sets_NoDup :
  Forall (@NoDup string) (map snd (Collaboration.cna_cwes data)).
Proof.
  unfold Collaboration.cna_cwes.
  apply (fold_left_invariant
           (fun d : dict string (pyset string) =>
              Forall (@NoDup string) (map snd d))); [|constructor].
  intros acc kv _ F. apply dict_set_values; [|exact F].
  apply (fold_left_invariant (@NoDup string)); [|constructor].
  intros s cve _ ND. now apply set_update_NoDup.
Qed.

Lemma cna_cwes_get_NoDup n :
  NoDup (dict_get_default n [] (Collaboration.cna_cwes data)).
Proof.
  assert (N : forall o : option (pyset string),
            (forall s, o = Some s -> NoDup s) ->
            NoDup (match o with Some s => s | None => [] end)).
  { intros [s|] Hs; [now apply Hs|constructor]. }
  apply N. intros s E.
  exact (dict_get_values n s _ _ cna_cwes_sets_NoDup E).
Qed.

Lemma shared_comm a b :
  List.length (Collaboration.shared (Collaboration.cna_cwes data) a b)
  = List.length (Collaboration.shared (Collaboration.cna_cwes data) b a).
Proof.
  unfold Collaboration.shared.
  apply set_inter_length_comm; apply cna_cwes_get_NoDup.
Qed.

End CollaborationFacts.

(** X19.  In the collaboration network every authority is a node, whether it
    is linked or not.  Two authorities are linked exactly when they are
    distinct and the number of weaknesses they share reaches the threshold;
    the link carries that number as its weight and as its shared count.
    With a threshold of zero or less all the authorities are linked to one
    another. *)
Theorem collaboration_links_shared_weaknesses :
  forall (data : Compact.compact_data) (min_shared_cwes : Z),
    let G :=
      Collaboration.build_cna_collaboration_network data min_shared_cwes in
    let count a b :=
      Z.of_nat
        (List.length
           (Collaboration.shared (Collaboration.cna_cwes data) a b)) in
    (forall n, has_node n G = true
               <-> In n (dict_keys (Compact.cna_to_cves data)))
    /\ (forall a b,
          has_edge a b G = true
          <-> a <> b
              /\ In a (dict_keys (Compact.cna_to_cves data))
              /\ In b (dict_keys (Compact.cna_to_cves data))
              /\ min_shared_cwes <= count a b)
    /\ Forall (links_shared count "shared_count" min_shared_cwes) (edges G).
Proof.
  intros data m G count. subst G.
  unfold Collaboration.build_cna_collaboration_network.
  set (cc := Collaboration.cna_cwes data).
  set (G0 := fold_left
               (fun G kv =>
                  add_node (fst kv)
                    [("type", AStr "cna"); ("label", AStr (fst kv));
                     ("cwe_count", AInt (Z.of_nat (List.length (snd kv))))] G)
               cc empty).
  assert (N0 : forall n, has_node n G0 = true <-> In n (dict_keys cc)).
  { intros n. unfold G0.
    rewrite (has_node_fold_add_node
               (fun kv : string * pyset string => fst kv)
               (fun kv => [("type", AStr "cna"); ("label", AStr (fst kv));
                           ("cwe_count",
                            AInt (Z.of_nat (List.length (snd kv))))])).
    split.
    - intros [X|[kv [I ->]]]; [discriminate|]. unfold dict_keys.
      now apply in_map.
    - intros I. right. unfold dict_keys in I. apply in_map_iff in I.
      destruct I as [kv [<- I]]. eauto. }
  assert (E0 : edges G0 = []).
  { unfold G0.
    now rewrite (edges_fold_add_node
                   (fun kv : string * pyset string => fst kv)
                   (fun kv => [("type", AStr "cna"); ("label", AStr (fst kv));
                               ("cwe_count",
                                AInt (Z.of_nat (List.length (snd kv))))])). }
  set (cond := fun p : string * string =>
                 m <=? Z.of_nat
                         (List.length (Collaboration.shared cc (fst p) (snd p)))).
  set (at_ := fun p : string * string =>
                Collaboration.shared_attrs
                  (Z.of_nat
                     (List.length (Collaboration.shared cc (fst p) (snd p))))).
  change (fold_left _ (combinations2 (dict_keys cc)) G0)
    with (fold_left
            (fun G p =>
               if cond p then add_edge (fst p) (snd p) (at_ p) G else G)
            (combinations2 (dict_keys cc)) G0).
  split; [|split].
  - intros n. rewrite has_node_fold_pairs.
    + rewrite N0. apply cna_cwes_keys.
    + intros [a b] I. apply combinations2_In in I. cbn [fst snd].
      split; apply N0; tauto.
  - intros a b. rewrite has_edge_fold_pairs. unfold has_edge at 1.
    rewrite E0. cbn [existsb]. rewrite <- !(cna_cwes_keys data). fold cc.
    split.
    + intros [X|[[x y] [I [C J]]]]; [discriminate|].
      pose proof (combinations2_distinct _ x y (cna_cwes_keys_NoDup data) I)
        as D.
      pose proof (combinations2_In _ x y I) as [Ix Iy].
      apply joins_endpoints in J. cbn [src dst fst snd] in J.
      unfold cond in C. cbn [fst snd] in C. apply Z.leb_le in C.
      destruct J as [[-> ->]|[-> ->]].
      * repeat split; auto.
      * repeat split; auto. unfold count. fold cc.
        unfold cc. rewrite shared_comm. exact C.
    + intros [D [Ia [Ib L]]]. right.
      destruct (combinations2_complete (dict_keys cc) a b Ia Ib D) as [I|I].
      * exists (a, b). split; [exact I|]. split.
        -- unfold cond. cbn [fst snd]. now apply Z.leb_le.
        -- unfold joins. cbn [src dst fst snd].
           now rewrite !String.eqb_refl.
      * exists (b, a). split; [exact I|]. split.
        -- unfold cond. cbn [fst snd]. apply Z.leb_le.
           unfold cc. rewrite shared_comm. exact L.
        -- unfold joins. cbn [src dst fst snd].
           rewrite !String.eqb_refl. apply orb_true_r.
  - apply edges_fold_pairs; [|rewrite E0; constructor].
    intros [x y] s t d I C Ends. cbn [fst snd] in Ends.
    unfold cond in C. cbn [fst snd] in C. apply Z.leb_le in C.
    unfold links_shared. cbn [Nx.data src dst].
    exists (Z.of_nat (List.length (Collaboration.shared cc x y))).
    unfold at_, Collaboration.shared_attrs, dict_update.
    cbn [fold_left fst snd].
    rewrite !(@dict_get_set string attr Hashable_string). cbn.
    split; [reflexivity|]. split; [reflexivity|]. split; [|exact C].
    unfold count. fold cc. destruct Ends as [[-> ->]|[-> ->]];
      [reflexivity|]. unfold cc. now rewrite shared_comm.
Qed.
(* ================================================================== *)
(** * Shared references *)
(* ================================================================== *)

Section InvertFacts.
Context {K A : Type} `{Hashable K} `{Hashable A}.

Lemma fold_dict_set_add_In (c : A) (ys : list K) (d : dict K (pyset A)) x k :
  In k (dict_get_default x []
          (fold_left (fun acc y => Alternative.dict_set_add y c acc) ys d))
  <-> In k (dict_get_default x [] d) \/ (k = c /\ In x ys).
Proof.
  revert d. induction ys as [|y r IH]; intros d; cbn [fold_left].
  - cbn. tauto.
  - rewrite IH, dict_set_add_In. cbn [In]. intuition congruence.
Qed.

Lemma fold_dict_set_add_keys_NoDup (c : A) (ys : list K)
    (d : dict K (pyset A)) :
  NoDup (dict_keys d) ->
  NoDup (dict_keys
           (fold_left (fun acc y => Alternative.dict_set_add y c acc) ys d)).
Proof.
  intros ND0.
  apply (fold_left_invariant
           (fun d : dict K (pyset A) => NoDup (dict_keys d))); [|exact ND0].
  intros acc y _ ND.
  unfold Alternative.dict_set_add. now apply dict_keys_set_NoDup.
Qed.

Lemma fold_dict_set_add_values (P : pyset A -> Prop) (c : A) (ys : list K)
    (d : dict K (pyset A)) :
  (forall s, P (set_add c s)) ->
  Forall P (map snd d) ->
  Forall P
    (map snd (fold_left (fun acc y => Alternative.dict_set_add y c acc) ys d)).
Proof.
  intros Pc F0.
  apply (fold_left_invariant
           (fun d : dict K (pyset A) => Forall P (map snd d))); [|exact F0].
  intros acc y _ F.
  unfold Alternative.dict_set_add. now apply dict_set_values.
Qed.

Lemma fold_dict_set_add_sets_NoDup (c : A) (ys : list K)
    (d : dict K (pyset A)) :
  Forall (@NoDup A) (map snd d) ->
  Forall (@NoDup A)
    (map snd (fold_left (fun acc y => Alternative.dict_set_add y c acc) ys d)).
Proof.
  intros F0.
  apply (fold_left_invariant
           (fun d : dict K (pyset A) => Forall (@NoDup A) (map snd d)));
    [|exact F0].
  intros acc y _ F. now apply dict_set_add_NoDup.
Qed.

Lemma set_add_not_nil (c : A) (s : pyset A) : set_add c s <> [].
Proof.
  unfold set_add. destruct (set_mem c s) eqn:M.
  - apply set_mem_In in M. destruct s; [destruct M|discriminate].
  - destruct s; discriminate.
Qed.

End InvertFacts.

Lemma two_members_length {A} (l : list A) a b :
  In a l -> In b l -> a <> b -> (1 < List.length l)%nat.
Proof.
  destruct l as [|x [|y r]]; cbn; intros Ia Ib N; try tauto.
  - destruct Ia as [<-|[]], Ib as [<-|[]]. contradiction.
  - lia.
Qed.

Lemma get_default_In_get {K V} `{Hashable K} (k : K) (d : dict K (list V)) x :
  In x (dict_get_default k [] d) ->
  exists s, dict_get k d = Some s /\ In x s.
Proof.
  unfold dict_get_default. destruct (dict_get k d) as [s|]; [eauto|].
  intros [].
Qed.

Lemma get_default_elim {K V} `{Hashable K} (P : list V -> Prop) (k : K)
    (d : dict K (list V)) :
  P [] -> (forall s, dict_get k d = Some s -> P s) ->
  P (dict_get_default k [] d).
Proof. unfold dict_get_default. destruct (dict_get k d); auto. Qed.

Section SharedReferenceFacts.
Variable refs : dict string (pyset string).
Hypothesis refs_keys : NoDup (dict_keys refs).
Hypothesis refs_sets : Forall (@NoDup string) (map snd refs).

Lemma refs_get_NoDup cve : NoDup (dict_get_default cve [] refs).
Proof.
  assert (N : forall o : option (pyset string),
            (forall s, o = Some s -> NoDup s) ->
            NoDup (match o with Some s => s | None => [] end)).
  { intros [s|] Hs; [now apply Hs|constructor]. }
  apply N. intros s E. exact (dict_get_values cve s _ _ refs_sets E).
Qed.

Lemma url_to_cves_In url cve :
  In cve (dict_get_default url [] (SharedReferences.url_to_cves refs))
  <-> In url (dict_get_default cve [] refs).
Proof.
  unfold SharedReferences.url_to_cves.
  assert (G : forall items (d : dict string (pyset string)),
            In cve (dict_get_default url []
                      (fold_left
                         (fun acc kv =>
                            fold_left
                              (fun acc url =>
                                 Alternative.dict_set_add url (fst kv) acc)
                              (snd kv) acc) items d))
            <-> In cve (dict_get_default url [] d)
                \/ exists kv, In kv items /\ fst kv = cve /\ In url (snd kv)).
  { induction items as [|kv r IH]; intros d; cbn [fold_left].
    - split; [auto|]. intros [I|[kv [[] _]]]. exact I.
    - rewrite IH, fold_dict_set_add_In. split.
      + intros [[I|[E I]]|[kv' [I [E U]]]]; auto.
        * right. exists kv. split; [now left|auto].
        * right. exists kv'. split; [now right|auto].
      + intros [I|[kv' [[<-|I] [E U]]]]; auto.
        right. eauto. }
  rewrite G. cbn [dict_get_default dict_get]. split.
  - intros [[]|[[c urls] [I [E U]]]]. cbn [fst snd] in E, U. subst c.
    unfold dict_get_default. now rewrite (dict_In_get cve urls refs refs_keys I).
  - intros I. right. apply get_default_In_get in I.
    destruct I as [urls [G' I]]. exists (cve, urls).
    split; [now apply dict_get_Some_In|auto].
Qed.

Lemma url_to_cves_keys_NoDup :
  NoDup (dict_keys (SharedReferences.url_to_cves refs)).
Proof.
  unfold SharedReferences.url_to_cves.
  apply (fold_left_invariant
           (fun d : dict string (pyset string) => NoDup (dict_keys d)));
    [|constructor].
  intros acc kv _. apply fold_dict_set_add_keys_NoDup.
Qed.

Lemma url_to_cves_sets_NoDup :
  Forall (@NoDup string) (map snd (SharedReferences.url_to_cves refs)).
Proof.
  unfold SharedReferences.url_to_cves.
  apply (fold_left_invariant
           (fun d : dict string (pyset string) =>
              Forall (@NoDup string) (map snd d))); [|constructor].
  intros acc kv _. apply fold_dict_set_add_sets_NoDup.
Qed.

Lemma cve_pairs_In a b url :
  In url (dict_get_default (a, b) []
            (SharedReferences.cve_pairs (SharedReferences.url_to_cves refs)))
  <-> String.ltb a b = true
      /\ In url (dict_get_default a [] refs)
      /\ In url (dict_get_default b [] refs).
Proof.
  unfold SharedReferences.cve_pairs.
  assert (G : forall items (d : dict (string * string) (pyset string)),
            In url (dict_get_default (a, b) []
                      (fold_left
                         (fun acc kv =>
                            if (1 <? List.length (snd kv))%nat then
                              fold_left
                                (fun acc p =>
                                   Alternative.dict_set_add p (fst kv) acc)
                                (combinations2 (sorted_strings (snd kv))) acc
                            else acc) items d))
            <-> In url (dict_get_default (a, b) [] d)
                \/ exists kv : string * pyset string,
                     In kv items /\ fst kv = url
                     /\ (1 <? List.length (snd kv))%nat = true
                     /\ In (a, b) (combinations2 (sorted_strings (snd kv)))).
  { induction items as [|kv r IH]; intros d; cbn [fold_left].
    - split; [auto|]. intros [I|[kv [[] _]]]. exact I.
    - rewrite IH. destruct (1 <? List.length (snd kv))%nat eqn:L.
      + rewrite fold_dict_set_add_In. split.
        * intros [[I|[E I]]|[kv' [I [E U]]]]; auto.
          -- right. exists kv. split; [now left|auto].
          -- right. exists kv'. split; [now right|auto].
        * intros [I|[kv' [[<-|I] [E [L' U]]]]]; auto.
          right. eauto.
      + split.
        * intros [I|[kv' [I [E U]]]]; auto.
          right. exists kv'. split; [now right|auto].
        * intros [I|[kv' [[<-|I] [E [L' U]]]]]; auto.
          -- exfalso. unfold pyset in *. congruence.
          -- right. eauto. }
  rewrite G. cbn [dict_get_default dict_get].
  pose proof (fun cves : pyset string => sorted_pairs cves a b) as Comb.
  split.
  - intros [[]|[[u cves] [I [E [L C]]]]]. cbn [fst snd] in E, L, C. subst u.
    pose proof (dict_In_get url cves (SharedReferences.url_to_cves refs) url_to_cves_keys_NoDup I) as Gu.
    assert (ND : NoDup cves)
      by exact (dict_get_values url cves (SharedReferences.url_to_cves refs) _ url_to_cves_sets_NoDup Gu).
    apply (Comb cves ND) in C. destruct C as [Ia [Ib Lt]].
    split; [exact Lt|]. rewrite <- !url_to_cves_In.
    unfold dict_get_default, pyset in *. rewrite Gu. auto.
  - intros [Lt [Ia Ib]]. right.
    rewrite <- url_to_cves_In in Ia, Ib.
    destruct (get_default_In_get url (SharedReferences.url_to_cves refs) a Ia) as [cves [Gu Ia']].
    unfold dict_get_default, pyset in *. rewrite Gu in Ib.
    assert (ND : NoDup cves)
      by exact (dict_get_values url cves (SharedReferences.url_to_cves refs) _ url_to_cves_sets_NoDup Gu).
    exists (url, cves). cbn [fst snd].
    split; [now apply dict_get_Some_In|]. split; [reflexivity|]. split.
    + apply Nat.ltb_lt. apply (two_members_length cves a b Ia' Ib).
      intros ->. now rewrite ltb_irrefl in Lt.
    + apply (Comb cves ND). auto.
Qed.

Lemma cve_pairs_invariant :
  NoDup (dict_keys
           (SharedReferences.cve_pairs (SharedReferences.url_to_cves refs)))
  /\ Forall (fun s : pyset string => NoDup s /\ s <> [])
       (map snd
          (SharedReferences.cve_pairs (SharedReferences.url_to_cves refs))).
Proof.
  unfold SharedReferences.cve_pairs.
  apply (fold_left_invariant
           (fun d : dict (string * string) (pyset string) =>
              NoDup (dict_keys d)
              /\ Forall (fun s : pyset string => NoDup s /\ s <> [])
                   (map snd d))).
  - intros acc kv _ [ND F]. destruct (1 <? _)%nat; [|auto].
    apply (fold_left_invariant
             (fun d : dict (string * string) (pyset string) =>
                NoDup (dict_keys d)
                /\ Forall (fun s : pyset string => NoDup s /\ s <> [])
                     (map snd d))); [|auto].
    intros acc' p _ [ND' F']. unfold Alternative.dict_set_add. split.
    + now apply dict_keys_set_NoDup.
    + apply dict_set_values; [|exact F']. split.
      * apply set_add_NoDup.
        apply (get_default_elim (@NoDup string)); [constructor|].
        intros s E. exact (proj1 (dict_get_values p s acc' _ F' E)).
      * apply set_add_not_nil.
  - split; constructor.
Qed.

(** The URLs recorded for a pair are the references the two CVEs share. *)
Lemma cve_pairs_length a b :
  String.ltb a b = true ->
  List.length
    (dict_get_default (a, b) []
       (SharedReferences.cve_pairs (SharedReferences.url_to_cves refs)))
  = List.length
      (set_inter (dict_get_default a [] refs) (dict_get_default b [] refs)).
Proof.
  intros Lt. apply Permutation_length. apply NoDup_Permutation.
  - destruct cve_pairs_invariant as [_ F].
    apply (get_default_elim (@NoDup string)); [constructor|].
    intros s E. exact (proj1 (dict_get_values (a, b) s _ _ F E)).
  - apply NoDup_filter. apply refs_get_NoDup.
  - intros url. rewrite cve_pairs_In, set_inter_In. tauto.
Qed.

Lemma shared_refs_comm a b :
  List.length
    (set_inter (dict_get_default a [] refs) (dict_get_default b [] refs))
  = List.length
      (set_inter (dict_get_default b [] refs) (dict_get_default a [] refs)).
Proof. apply set_inter_length_comm; apply refs_get_NoDup. Qed.

(** An item of the dictionary of the pairs. *)
Lemma cve_pairs_item kv :
  In kv (SharedReferences.cve_pairs (SharedReferences.url_to_cves refs)) ->
  String.ltb (fst (fst kv)) (snd (fst kv)) = true
  /\ (1 <= List.length (snd kv))%nat
  /\ List.length (snd kv)
     = List.length
         (set_inter (dict_get_default (fst (fst kv)) [] refs)
                    (dict_get_default (snd (fst kv)) [] refs)).
Proof.
  destruct kv as [[a b] urls]. cbn [fst snd]. intros I.
  destruct cve_pairs_invariant as [ND F].
  pose proof (dict_In_get (a, b) urls _ ND I) as G.
  destruct (dict_get_values (a, b) urls _ _ F G) as [_ Ne].
  assert (E : dict_get_default (a, b) []
                (SharedReferences.cve_pairs (SharedReferences.url_to_cves refs))
              = urls) by (unfold dict_get_default, pyset in *; now rewrite G).
  destruct urls as [|url r]; [contradiction|].
  assert (Lt : String.ltb a b = true).
  { assert (Iu : In url
                   (dict_get_default (a, b) []
                      (SharedReferences.cve_pairs
                         (SharedReferences.url_to_cves refs))))
      by (rewrite E; now left).
    now apply cve_pairs_In in Iu. }
  split; [exact Lt|]. split; [cbn; lia|].
  rewrite <- E at 1. now apply cve_pairs_length.
Qed.

End SharedReferenceFacts.

Section AlternativeReferences.
Variable fromisoformat : string -> option datetime.
Variable cutoff : Z.

Lemma alternative_references_wellformed corpus :
  let refs :=
    Alternative.cve_to_references
      (Alternative.parse_cve_files_extended fromisoformat cutoff corpus) in
  NoDup (dict_keys refs) /\ Forall (@NoDup string) (map snd refs).
Proof.
  unfold Alternative.parse_cve_files_extended.
  apply (fold_left_invariant
           (fun data =>
              NoDup (dict_keys (Alternative.cve_to_references data))
              /\ Forall (@NoDup string)
                   (map snd (Alternative.cve_to_references data)))).
  - intros data doc _ Inv. unfold Alternative.process_file.
    destruct (negb _); [exact Inv|].
    destruct (date_filter_plain _ _ _) as [[|]|]; try exact Inv.
    cbn [Alternative.cve_to_references]. unfold Alternative.record_references.
    apply (fold_left_invariant
             (fun d : dict string (pyset string) =>
                NoDup (dict_keys d) /\ Forall (@NoDup string) (map snd d)));
      [|exact Inv].
    intros acc r _ [ND F]. destruct (nonempty _); [|auto]. split.
    + unfold Alternative.dict_set_add. now apply dict_keys_set_NoDup.
    + now apply dict_set_add_NoDup.
  - split; constructor.
Qed.

End AlternativeReferences.

(** X20.  In the graph of the shared references built from the data of
    [parse_cve_files_extended], two CVEs are linked exactly when they are
    distinct, share at least one reference URL and share at least as many
    as the threshold asks for; the link carries the number of URLs they
    share as its weight and as its count of shared references.  Every node
    is tagged as a CVE, labelled with its id, and is an end point of a
    link. *)
Theorem shared_references_link_cves :
  forall (fromisoformat : string -> option datetime) (cutoff : Z)
         (corpus : list cve_document) (min_shared : Z),
    let parsed :=
      Alternative.parse_cve_files_extended fromisoformat cutoff corpus in
    let refs := Alternative.cve_to_references parsed in
    let G := SharedReferences.build_shared_reference_graph parsed min_shared in
    let count a b :=
      Z.of_nat
        (List.length
           (set_inter (dict_get_default a [] refs)
                      (dict_get_default b [] refs))) in
    (forall a b,
       has_edge a b G = true
       <-> a <> b /\ 1 <= count a b /\ min_shared <= count a b)
    /\ Forall (links_shared count "shared_refs" min_shared) (edges G)
    /\ (forall n, has_node n G = true ->
          tagged_cve n G /\ exists e, In e (edges G) /\ endpoint n e).
Proof.
  intros f c corpus m parsed refs G count. subst G.
  destruct (alternative_references_wellformed f c corpus) as [RK RS].
  fold parsed in RK, RS. fold refs in RK, RS.
  unfold SharedReferences.build_shared_reference_graph. fold refs.
  set (pairs := SharedReferences.cve_pairs (SharedReferences.url_to_cves refs)).
  set (cond := fun kv : string * string * pyset string =>
                 m <=? Z.of_nat (List.length (snd kv))).
  set (at_ := fun kv : string * string * pyset string =>
                SharedReferences.shared_attrs
                  (Z.of_nat (List.length (snd kv)))).
  set (G0 := fold_left
               (fun G kv =>
                  let n := Z.of_nat (List.length (snd kv)) in
                  if m <=? n
                  then add_edge (fst (fst kv)) (snd (fst kv))
                         (SharedReferences.shared_attrs n) G
                  else G) pairs empty).
  assert (EG : G0 = fold_left
                      (fun G kv =>
                         if cond kv
                         then add_edge (fst (fst kv)) (snd (fst kv)) (at_ kv) G
                         else G) pairs empty) by reflexivity.
  destruct (tag_cve_nodes_graph parsed G0) as [E [N T]].
  assert (Item : forall kv, In kv pairs ->
            String.ltb (fst (fst kv)) (snd (fst kv)) = true
            /\ (1 <= List.length (snd kv))%nat
            /\ Z.of_nat (List.length (snd kv))
               = count (fst (fst kv)) (snd (fst kv))).
  { intros kv I. destruct (cve_pairs_item refs RK RS kv I) as [Lt [L1 L2]].
    split; [exact Lt|]. split; [exact L1|]. unfold count. now rewrite L2. }
  assert (Comm : forall a b, count a b = count b a).
  { intros a b. unfold count. f_equal. now apply shared_refs_comm. }
  assert (Cov : covered G0).
  { rewrite EG. apply (fold_left_invariant covered).
    - intros G' kv _ C'. destruct (cond kv); [|exact C'].
      now apply covered_add_edge.
    - intros n Hn. discriminate. }
  split; [|split].
  - intros a b. unfold has_edge. rewrite E. fold (has_edge a b G0).
    rewrite EG, has_edge_fold_pairs. split.
    + intros [X|[kv [I [C J]]]]; [discriminate|].
      destruct (Item kv I) as [Lt [L1 L2]].
      unfold cond in C. apply Z.leb_le in C.
      apply joins_endpoints in J. cbn [src dst] in J.
      assert (D : fst (fst kv) <> snd (fst kv)).
      { intros X. rewrite X, ltb_irrefl in Lt. discriminate. }
      destruct J as [[Ea Eb]|[Ea Eb]]; rewrite Ea, Eb in *.
      * split; [exact D|]. rewrite <- L2. lia.
      * split; [auto|]. rewrite Comm, <- L2. lia.
    + intros [D [L1 Lm]]. right.
      assert (Key : forall x y, String.ltb x y = true ->
                1 <= count x y -> m <= count x y ->
                exists kv, In kv pairs /\ cond kv = true
                           /\ fst (fst kv) = x /\ snd (fst kv) = y).
      { intros x y Lt C1 Cm.
        pose proof (cve_pairs_length refs RK RS x y Lt) as Len.
        fold pairs in Len.
        destruct (dict_get_default (x, y) [] pairs) as [|url r] eqn:Gd.
        { unfold count in C1. rewrite <- Len in C1. cbn in C1. lia. }
        assert (Iu : In url (dict_get_default (x, y) [] pairs))
          by (rewrite Gd; now left).
        destruct (get_default_In_get (x, y) pairs url Iu) as [urls [Gp _]].
        assert (Eu : urls = url :: r).
        { unfold dict_get_default, pyset in *. rewrite Gp in Gd. exact Gd. }
        exists ((x, y), urls). split; [now apply dict_get_Some_In|].
        split; [|auto]. unfold cond. cbn [snd]. apply Z.leb_le.
        rewrite Eu. unfold count in Cm. now rewrite <- Len in Cm. }
      destruct (ltb_total a b D) as [Lt|Lt].
      * destruct (Key a b Lt L1 Lm) as [kv [I [C [Ea Eb]]]].
        exists kv. split; [exact I|]. split; [exact C|].
        unfold joins. cbn [src dst]. rewrite Ea, Eb.
        now rewrite !String.eqb_refl.
      * rewrite Comm in L1, Lm.
        destruct (Key b a Lt L1 Lm) as [kv [I [C [Ea Eb]]]].
        exists kv. split; [exact I|]. split; [exact C|].
        unfold joins. cbn [src dst]. rewrite Ea, Eb.
        rewrite !String.eqb_refl. apply orb_true_r.
  - rewrite E, EG. apply edges_fold_pairs; [|constructor].
    intros kv s t d I C Ends.
    destruct (Item kv I) as [Lt [L1 L2]].
    unfold cond in C. apply Z.leb_le in C.
    unfold links_shared. cbn [Nx.data src dst].
    exists (Z.of_nat (List.length (snd kv))).
    unfold at_, SharedReferences.shared_attrs, dict_update.
    cbn [fold_left fst snd].
    rewrite !(@dict_get_set string attr Hashable_string). cbn.
    split; [reflexivity|]. split; [reflexivity|]. split; [|exact C].
    destruct Ends as [[-> ->]|[-> ->]]; [exact L2|].
    now rewrite Comm.
  - intros n Hn. rewrite N in Hn. split; [now apply T|].
    rewrite E. now apply Cov.
Qed.
(* ================================================================== *)
(** * Product keys *)
(* ================================================================== *)

Section ProductKeyFacts.
Import ProductGraphs.

Lemma split_colons_cons c r :
  split_colons (String c r)
  = if Ascii.eqb c ":"
       && match r with String c' _ => Ascii.eqb c' ":" | EmptyString => false end
    then Some (EmptyString,
               match r with String _ rest => rest | EmptyString => EmptyString end)
    else option_map (fun p => (String c (fst p), snd p)) (split_colons r).
Proof.
  destruct (Ascii.eqb_spec c ":") as [->|N].
  - destruct r as [|c' rest]; [reflexivity|].
    destruct (Ascii.eqb_spec c' ":") as [->|N']; [reflexivity|].
    cbn [andb].
    destruct c' as [[] [] [] [] [] [] [] []]; try reflexivity.
    now contradiction N'.
  - cbn [andb].
    destruct c as [[] [] [] [] [] [] [] []]; try reflexivity.
    now contradiction N.
Qed.

Lemma split_colons_joins s vendor product :
  split_colons s = Some (vendor, product) ->
  Alternative.product_key vendor product = s.
Proof.
  revert vendor. induction s as [|c r IH]; intros vendor E; [discriminate|].
  rewrite split_colons_cons in E.
  destruct (Ascii.eqb_spec c ":") as [->|N]; cbn [andb] in E.
  - destruct r as [|c' rest].
    + cbn in E. discriminate.
    + destruct (Ascii.eqb_spec c' ":") as [->|N'].
      * inversion E; subst. reflexivity.
      * destruct (split_colons (String c' rest)) as [[a b]|] eqn:S;
          [|discriminate].
        cbn in E. inversion E; subst. unfold Alternative.product_key.
        cbn [String.append]. f_equal. now apply IH.
  - destruct (split_colons r) as [[a b]|] eqn:S; [|discriminate].
    cbn in E. inversion E; subst. unfold Alternative.product_key.
    cbn [String.append]. f_equal. now apply IH.
Qed.

Lemma split_colons_key vendor product :
  exists v p, split_colons (Alternative.product_key vendor product) = Some (v, p).
Proof.
  unfold Alternative.product_key.
  induction vendor as [|c r [v [p IH]]]; [cbn; eauto|].
  cbn [String.append] in *. rewrite split_colons_cons, IH.
  destruct (_ && _); cbn; eauto.
Qed.

Lemma ends_with_colon_cons c r :
  ends_with_colon (String c r)
  = match r with
    | EmptyString => Ascii.eqb c ":"
    | String _ _ => ends_with_colon r
    end.
Proof. reflexivity. Qed.

Lemma split_colons_exact vendor product :
  split_colons (Alternative.product_key vendor product)
  = Some (vendor, product)
  <-> split_colons vendor = None /\ ends_with_colon vendor = false.
Proof.
  unfold Alternative.product_key.
  induction vendor as [|c r IH]; [cbn; tauto|].
  cbn [String.append] in *. rewrite !split_colons_cons, ends_with_colon_cons.
  destruct r as [|c' rest].
  - cbn [String.append split_colons option_map]. rewrite Ascii.eqb_refl.
    rewrite andb_true_r, andb_false_r.
    destruct (Ascii.eqb c ":"); cbn; split; try tauto; try discriminate.
    + intros [_ X]. discriminate.
  - cbn [String.append] in *.
    destruct (Ascii.eqb c ":" && Ascii.eqb c' ":") eqn:M.
    + split; [discriminate|]. intros [X _]. discriminate.
    + destruct IH as [I1 I2]. split.
      * intros E.
        destruct (split_colons (String c' (rest ++ String ":" (String ":" product))))
          as [[a b]|] eqn:S; [|discriminate].
        cbn in E. inversion E; subst.
        destruct (I1 eq_refl) as [N En]. rewrite N. auto.
      * intros [N En].
        destruct (split_colons (String c' rest)) as [q|] eqn:S; [discriminate|].
        rewrite (I2 (conj eq_refl En)). reflexivity.
Qed.

End ProductKeyFacts.

(** X21.  The key of a product is always split again without error, and the
    two parts give back the key.  They are the vendor and the product the
    key was made from exactly when the vendor holds no "::" and does not
    end with a colon; for any other vendor the node of the product is
    labelled with a vendor and a product other than its own. *)
Theorem product_key_round_trip :
  forall (vendor product : string),
    (exists v p,
       ProductGraphs.split_colons (Alternative.product_key vendor product)
       = Some (v, p)
       /\ Alternative.product_key v p
          = Alternative.product_key vendor product
       /\ ProductGraphs.product_node_attrs
            (Alternative.product_key vendor product)
          = Ok [("type", AStr "product"); ("label", AStr p);
                ("vendor", AStr v)])
    /\ (ProductGraphs.split_colons (Alternative.product_key vendor product)
        = Some (vendor, product)
        <-> ProductGraphs.split_colons vendor = None
            /\ ProductGraphs.ends_with_colon vendor = false).
Proof.
  intros vendor product. split; [|apply split_colons_exact].
  destruct (split_colons_key vendor product) as [v [p E]].
  exists v, p. split; [exact E|]. split.
  - now apply split_colons_joins.
  - unfold ProductGraphs.product_node_attrs. now rewrite E.
Qed.
(* ================================================================== *)
(** * The parsers on corpora whose dates carry an offset *)
(* ================================================================== *)

Section AwareCorpora.
Variable fromisoformat : string -> option datetime.
Variable cutoff : Z.

Lemma date_filter_compact_agrees date_published :
  (forall s d, date_published = Some s ->
     fromisoformat (replace_char_by "Z" "+00:00" s) = Some d ->
     is_aware d = true) ->
  CompactParser.date_filter fromisoformat cutoff date_published
  = date_filter_plain fromisoformat cutoff date_published.
Proof.
  intros A. destruct date_published as [s|]; [|reflexivity].
  unfold CompactParser.date_filter, date_filter_plain, parse_published.
  destruct (nonempty s); [|reflexivity].
  destruct (fromisoformat _) as [d|] eqn:E; [|reflexivity].
  cbn [bind]. rewrite (lt_cutoff_aware cutoff d (A s d eq_refl E)).
  reflexivity.
Qed.

Lemma compact_record_cwes_fst cve_id doc idx :
  fst (CompactParser.record_cwes cve_id doc idx)
  = Alternative.record_cwes cve_id doc (fst idx).
Proof.
  unfold CompactParser.record_cwes, Alternative.record_cwes.
  assert (D : forall ds (acc : dict string (pyset string)
                                * dict string (pyset string)),
            fst (fold_left
                   (fun acc x =>
                      match cwe_of_description x with
                      | Some v =>
                          (Alternative.dict_set_add cve_id v (fst acc),
                           Alternative.dict_set_add v cve_id (snd acc))
                      | None => acc
                      end) ds acc)
            = fold_left
                (fun acc x =>
                   match cwe_of_description x with
                   | Some v => Alternative.dict_set_add cve_id v acc
                   | None => acc
                   end) ds (fst acc)).
  { induction ds as [|x r IH]; intros acc; [reflexivity|].
    cbn [fold_left]. rewrite IH. now destruct (cwe_of_description x). }
  assert (T : forall pts (acc : dict string (pyset string)
                                 * dict string (pyset string)),
            fst (fold_left
                   (fun acc pt =>
                      fold_left
                        (fun acc x =>
                           match cwe_of_description x with
                           | Some v =>
                               (Alternative.dict_set_add cve_id v (fst acc),
                                Alternative.dict_set_add v cve_id (snd acc))
                           | None => acc
                           end) (descriptions pt) acc) pts acc)
            = fold_left
                (fun acc pt =>
                   fold_left
                     (fun acc x =>
                        match cwe_of_description x with
                        | Some v => Alternative.dict_set_add cve_id v acc
                        | None => acc
                        end) (descriptions pt) acc) pts (fst acc)).
  { induction pts as [|pt r IH]; intros acc; [reflexivity|].
    cbn [fold_left]. now rewrite IH, D. }
  rewrite <- T.
  generalize (fold_left
       (fun acc pt =>
          fold_left
            (fun acc x =>
               match cwe_of_description x with
               | Some v =>
                   (Alternative.dict_set_add cve_id v (fst acc),
                    Alternative.dict_set_add v cve_id (snd acc))
               | None => acc
               end) (descriptions pt) acc) (problemTypes (cna doc)) idx).
  induction (adp doc) as [|a r IH]; intros acc; [reflexivity|].
  cbn [fold_left]. now rewrite IH, T.
Qed.

Lemma legacy_parity_from st corpus :
  dates_aware fromisoformat corpus ->
  fold_left (Legacy.process_file fromisoformat cutoff) corpus st
  = BuildGraph.parse_cve_files_from fromisoformat cutoff st corpus.
Proof.
  unfold BuildGraph.parse_cve_files_from. intros Aw. revert st.
  induction Aw as [|doc r A Aw IH]; intros st; [reflexivity|].
  cbn [fold_left]. rewrite IH. f_equal.
  unfold Legacy.process_file, BuildGraph.process_file.
  now rewrite (date_filter_plain_agrees fromisoformat cutoff _ A).
Qed.

Lemma compact_parity_from cmp alt corpus :
  dates_aware fromisoformat corpus ->
  Compact.cve_to_cwes cmp = Alternative.cve_to_cwes alt ->
  Compact.cve_to_cna cmp = Alternative.cve_to_cna alt ->
  Compact.cve_to_cwes
    (fold_left (CompactParser.process_file fromisoformat cutoff) corpus cmp)
  = Alternative.cve_to_cwes
      (fold_left (Alternative.process_file fromisoformat cutoff) corpus alt)
  /\ Compact.cve_to_cna
       (fold_left (CompactParser.process_file fromisoformat cutoff) corpus cmp)
     = Alternative.cve_to_cna
         (fold_left (Alternative.process_file fromisoformat cutoff) corpus alt).
Proof.
  intros Aw. revert cmp alt.
  induction Aw as [|doc r A Aw IH]; intros cmp alt E1 E2; [auto|].
  cbn [fold_left]. apply IH.
  - unfold CompactParser.process_file, Alternative.process_file.
    destruct (negb _); [exact E1|].
    rewrite (date_filter_compact_agrees _ A).
    destruct (date_filter_plain _ _ _) as [[|]|]; try exact E1.
    cbn [Compact.cve_to_cwes Alternative.cve_to_cwes].
    rewrite compact_record_cwes_fst. cbn [fst]. now rewrite E1.
  - unfold CompactParser.process_file, Alternative.process_file.
    destruct (negb _); [exact E2|].
    rewrite (date_filter_compact_agrees _ A).
    destruct (date_filter_plain _ _ _) as [[|]|]; try exact E2.
    cbn [Compact.cve_to_cna Alternative.cve_to_cna]. now rewrite E2.
Qed.

End AwareCorpora.

(** X22.  On a corpus whose publication dates all carry an offset, the copy
    of [parse_cve_files] at the root of the repository, which compares the
    dates as they are read, returns what the one of scripts/build_graph.py
    returns, counters included: reading a date without offset as UTC is the
    only difference between the two. *)
Theorem legacy_parser_matches_on_aware_dates :
  forall (fromisoformat : string -> option datetime) (cutoff : Z)
         (corpus : list cve_document),
    dates_aware fromisoformat corpus ->
    Legacy.parse_cve_files fromisoformat cutoff corpus
    = BuildGraph.parse_cve_files fromisoformat cutoff corpus.
Proof.
  intros f c corpus Aw. unfold Legacy.parse_cve_files, BuildGraph.parse_cve_files.
  now apply legacy_parity_from.
Qed.

Lemma legacy_parser_matches_on_aware_dates_witness :
  Legacy.parse_cve_files iso8601 scenario_start scenario
  = BuildGraph.parse_cve_files iso8601 scenario_start scenario.
Proof.
  apply (legacy_parser_matches_on_aware_dates iso8601 scenario_start scenario).
  unfold dates_aware, scenario.
  repeat constructor; intros s d E F; inversion E; subst s;
    vm_compute in F; inversion F; reflexivity.
Defined.

(** X23.  On a corpus whose publication dates all carry an offset,
    [parse_cve_files_compact] and [parse_cve_files_extended] return the same
    weaknesses for every CVE and the same authority for every CVE. *)
Theorem compact_parser_matches_alternative :
  forall (fromisoformat : string -> option datetime) (cutoff : Z)
         (corpus : list cve_document),
    dates_aware fromisoformat corpus ->
    let cmp :=
      CompactParser.parse_cve_files_compact fromisoformat cutoff corpus in
    let alt :=
      Alternative.parse_cve_files_extended fromisoformat cutoff corpus in
    Compact.cve_to_cwes cmp = Alternative.cve_to_cwes alt
    /\ Compact.cve_to_cna cmp = Alternative.cve_to_cna alt.
Proof.
  intros f c corpus Aw cmp alt. subst cmp alt.
  unfold CompactParser.parse_cve_files_compact,
    Alternative.parse_cve_files_extended.
  now apply compact_parity_from.
Qed.

Lemma compact_parser_matches_alternative_witness :
  Compact.cve_to_cwes
    (CompactParser.parse_cve_files_compact iso8601 scenario_start scenario)
  = Alternative.cve_to_cwes
      (Alternative.parse_cve_files_extended iso8601 scenario_start scenario)
  /\ Compact.cve_to_cna
       (CompactParser.parse_cve_files_compact iso8601 scenario_start scenario)
     = Alternative.cve_to_cna
         (Alternative.parse_cve_files_extended iso8601 scenario_start scenario).
Proof.
  apply (compact_parser_matches_alternative iso8601 scenario_start scenario).
  unfold dates_aware, scenario.
  repeat constructor; intros s d E F; inversion E; subst s;
    vm_compute in F; inversion F; reflexivity.
Defined.

(* ================================================================== *)
(** * The temporal links miss no pair *)
(* ================================================================== *)

Section TemporalComplete.
Variable days_window : Z.

Lemma link_following_keeps key cve1 date1 following G G' a b :
  Alternative.link_following days_window key cve1 date1 following G = Ok G' ->
  has_edge a b G = true -> has_edge a b G' = true.
Proof.
  revert G. induction following as [|[cve2 date2] r IH]; intros G L Hab.
  - cbn in L. now inversion L; subst.
  - cbn [Alternative.link_following] in L.
    destruct (days_between date2 date1) as [days|]; [|discriminate].
    cbn [bind] in L. destruct (days <=? days_window).
    + apply (IH _ L). now apply has_edge_add_edge_keeps.
    + now inversion L; subst.
Qed.

Lemma link_window_keeps key cve_list G G' a b :
  Alternative.link_window days_window key cve_list G = Ok G' ->
  has_edge a b G = true -> has_edge a b G' = true.
Proof.
  revert G. induction cve_list as [|[cve1 date1] r IH]; intros G L Hab.
  - cbn in L. now inversion L; subst.
  - cbn [Alternative.link_window] in L.
    destruct (Alternative.link_following days_window key cve1 date1 r G)
      as [G1|] eqn:F; [|discriminate].
    cbn [bind] in L. apply (IH _ L).
    now apply (link_following_keeps key cve1 date1 r G G1).
Qed.

Lemma link_products_keeps groups G G' a b :
  Alternative.link_products days_window groups G = Ok G' ->
  has_edge a b G = true -> has_edge a b G' = true.
Proof.
  revert G. induction groups as [|[key cve_list] r IH]; intros G L Hab.
  - cbn in L. now inversion L; subst.
  - cbn [Alternative.link_products] in L.
    destruct (Alternative.sort_by_date cve_list) as [sorted_list|];
      [|discriminate].
    cbn [bind] in L.
    destruct (Alternative.link_window days_window key sorted_list G)
      as [G1|] eqn:W; [|discriminate].
    cbn [bind] in L. apply (IH _ L).
    now apply (link_window_keeps key sorted_list G G1).
Qed.

(** The inner loop reaches every date within the window: the dates before
    it in the list are not later, so that it has not stopped before. *)
Lemma link_following_reaches key cve1 date1 mid cve2 date2 post G G' :
  Alternative.link_following days_window key cve1 date1
    (mid ++ (cve2, date2) :: post) G = Ok G' ->
  is_aware date1 = true -> all_aware (mid ++ (cve2, date2) :: post) ->
  Forall (fun x => instant (snd x) <= instant date2) mid ->
  (instant date2 - instant date1) / usec_per_day <= days_window ->
  has_edge cve1 cve2 G' = true.
Proof.
  intros L A1 Aw Le Dw. revert G L.
  induction mid as [|[cve date] r IH]; intros G L.
  - cbn [app Alternative.link_following] in L.
    inversion Aw as [|? ? A2 _]; subst. cbn [snd] in A2.
    rewrite (days_between_instant date1 date2 A1 A2) in L. cbn [bind] in L.
    apply Z.leb_le in Dw. rewrite Dw in L.
    apply (link_following_keeps _ _ _ _ _ _ _ _ L).
    apply has_edge_add_edge.
  - cbn [app Alternative.link_following] in L.
    inversion Aw as [|? ? A Aw']; subst. cbn [snd] in A.
    inversion Le as [|? ? Ld Le']; subst. cbn [snd] in Ld.
    rewrite (days_between_instant date1 date A1 A) in L. cbn [bind] in L.
    assert (D : (instant date - instant date1) / usec_per_day <= days_window).
    { etransitivity; [|exact Dw].
      apply Z.div_le_mono; [reflexivity|lia]. }
    apply Z.leb_le in D. rewrite D in L.
    now apply (IH Aw' Le' _ L).
Qed.

Lemma by_date_app_inv (l1 l2 : list (string * datetime)) :
  by_date (l1 ++ l2) ->
  by_date l2
  /\ forall x y, In x l1 -> In y l2 -> instant (snd x) <= instant (snd y).
Proof.
  unfold by_date. induction l1 as [|x r IH]; intros S.
  - split; [exact S|]. intros x y [].
  - cbn [app] in S. inversion S as [|? ? S' F]; subst.
    destruct (IH S') as [S2 O]. split; [exact S2|].
    intros a b [<-|Ia] Ib; [|now apply O].
    rewrite Forall_forall in F. apply Z.leb_le. apply F.
    apply in_or_app. now right.
Qed.

Lemma link_window_reaches key pre cve1 date1 mid cve2 date2 post G G' :
  Alternative.link_window days_window key
    (pre ++ (cve1, date1) :: mid ++ (cve2, date2) :: post) G = Ok G' ->
  all_aware (pre ++ (cve1, date1) :: mid ++ (cve2, date2) :: post) ->
  by_date (pre ++ (cve1, date1) :: mid ++ (cve2, date2) :: post) ->
  (instant date2 - instant date1) / usec_per_day <= days_window ->
  has_edge cve1 cve2 G' = true.
Proof.
  intros L Aw S Dw. revert G L.
  induction pre as [|[cve date] r IH]; intros G L.
  - cbn [app Alternative.link_window] in L.
    destruct (Alternative.link_following days_window key cve1 date1
                (mid ++ (cve2, date2) :: post) G) as [G1|] eqn:F;
      [|discriminate].
    cbn [bind] in L. apply (link_window_keeps _ _ _ _ _ _ L).
    cbn [app] in Aw, S. inversion Aw as [|? ? A1 Aw']; subst.
    cbn [snd] in A1. unfold by_date in S.
    inversion S as [|? ? S' _]; subst.
    apply (link_following_reaches key cve1 date1 mid cve2 date2 post G G1 F);
      auto.
    apply Forall_forall. intros x Ix.
    destruct (by_date_app_inv mid ((cve2, date2) :: post) S') as [_ O].
    apply (O x (cve2, date2) Ix). now left.
  - cbn [app Alternative.link_window] in L.
    destruct (Alternative.link_following days_window key cve date _ G)
      as [G1|] eqn:F; [|discriminate].
    cbn [bind] in L. cbn [app] in Aw, S.
    inversion Aw; subst. unfold by_date in S. inversion S; subst.
    now apply (IH ltac:(assumption) ltac:(assumption) _ L).
Qed.

Lemma link_products_reaches groups key cve_list sorted_list
    pre cve1 date1 mid cve2 date2 post G G' :
  Alternative.link_products days_window groups G = Ok G' ->
  In (key, cve_list) groups ->
  Forall all_aware (map snd groups) ->
  Alternative.sort_by_date cve_list = Ok sorted_list ->
  sorted_list = pre ++ (cve1, date1) :: mid ++ (cve2, date2) :: post ->
  (instant date2 - instant date1) / usec_per_day <= days_window ->
  has_edge cve1 cve2 G' = true.
Proof.
  intros L I Aw S E Dw. revert G L.
  induction groups as [|[key' cve_list'] r IH]; intros G L; [destruct I|].
  cbn [Alternative.link_products] in L.
  inversion Aw as [|? ? A Aw']; subst. cbn [snd] in A.
  destruct (Alternative.sort_by_date cve_list') as [sorted'|] eqn:S';
    [|discriminate].
  cbn [bind] in L.
  destruct (Alternative.link_window days_window key' sorted' G)
    as [G1|] eqn:W; [|discriminate].
  cbn [bind] in L. destruct I as [X|I].
  - inversion X; subst key' cve_list'. rewrite S in S'.
    inversion S'; subst sorted'.
    apply (link_products_keeps _ _ _ _ _ L).
    destruct (sort_by_date_sorted _ _ S) as [Sd In_].
    apply (link_window_reaches key pre cve1 date1 mid cve2 date2 post G G1);
      auto.
    unfold all_aware in *. rewrite Forall_forall in *.
    intros x Ix. apply A. now apply In_.
  - now apply (IH I Aw' _ L).
Qed.

End TemporalComplete.

Lemma has_edge_sym u v G : has_edge u v G = has_edge v u G.
Proof.
  unfold has_edge. induction (edges G) as [|e r IH]; [reflexivity|].
  cbn [existsb]. now rewrite IH, joins_sym.
Qed.

Lemma in_two_split {A} (l : list A) x y :
  In x l -> In y l -> x <> y ->
  (exists l1 l2 l3, l = l1 ++ x :: l2 ++ y :: l3)
  \/ (exists l1 l2 l3, l = l1 ++ y :: l2 ++ x :: l3).
Proof.
  intros Ix Iy N. destruct (in_split _ _ Ix) as [l1 [l2 E]]. subst l.
  apply in_app_or in Iy. destruct Iy as [Iy|[Iy|Iy]].
  - right. destruct (in_split _ _ Iy) as [m1 [m2 ->]].
    exists m1, m2, l2. now rewrite <- app_assoc.
  - contradiction.
  - left. destruct (in_split _ _ Iy) as [m1 [m2 ->]]. eauto.
Qed.

(** X24.  The temporal links miss no pair.  On the data of
    [parse_cve_files_extended], two distinct entries of the list of a
    product whose publication dates are at most [days_window] days apart
    are linked in the graph [build_cve_temporal_graph] returns: the loop
    over the later entries stops at the first date outside the window, and
    the dates being sorted, no entry within the window comes after it. *)
Theorem temporal_links_are_complete :
  forall (fromisoformat : string -> option datetime) (cutoff : Z)
         (corpus : list cve_document) (days_window : Z)
         (key : string) (cve_list : list (string * datetime))
         (cve1 cve2 : string) (date1 date2 : datetime),
    let parsed :=
      Alternative.parse_cve_files_extended fromisoformat cutoff corpus in
    dict_get key (Alternative.group_by_product fromisoformat parsed)
    = Some cve_list ->
    In (cve1, date1) cve_list ->
    In (cve2, date2) cve_list ->
    (cve1, date1) <> (cve2, date2) ->
    instant date1 <= instant date2 ->
    (instant date2 - instant date1) / usec_per_day <= days_window ->
    exists G,
      Alternative.build_cve_temporal_graph fromisoformat parsed days_window
      = Ok G
      /\ has_edge cve1 cve2 G = true.
Proof.
  intros f c corpus w key cve_list cve1 cve2 date1 date2 parsed Gk I1 I2 N Le Dw.
  pose proof (parsed_metadata_aware f c corpus) as Aw. fold parsed in Aw.
  destruct (build_cve_temporal_graph_ok f parsed w Aw) as [G [B _]].
  exists G. split; [exact B|].
  unfold Alternative.build_cve_temporal_graph in B.
  destruct (Alternative.link_products w
              (Alternative.group_by_product f parsed) empty) as [G0|] eqn:L;
    [|discriminate].
  cbn [bind] in B. inversion B; subst G. clear B.
  destruct (tag_cve_nodes_graph parsed G0) as [E _].
  unfold has_edge. rewrite E. fold (has_edge cve1 cve2 G0).
  pose proof (group_by_product_aware f parsed Aw) as Ga.
  assert (Ac : all_aware cve_list).
  { exact (dict_get_values key cve_list _ _ Ga Gk). }
  destruct (sort_by_date_aware f parsed Aw cve_list Ac) as [sorted_list [S _]].
  destruct (sort_by_date_sorted _ _ S) as [Sd In_].
  apply In_ in I1. apply In_ in I2.
  pose proof (dict_get_Some_In key cve_list _ Gk) as Ik.
  destruct (in_two_split sorted_list _ _ I1 I2 N)
    as [[l1 [l2 [l3 Es]]]|[l1 [l2 [l3 Es]]]].
  - apply (link_products_reaches w _ key cve_list sorted_list
             l1 cve1 date1 l2 cve2 date2 l3 empty G0 L Ik Ga S Es Dw).
  - assert (Le' : instant date2 <= instant date1).
    { rewrite Es in Sd.
      destruct (by_date_app_inv l1 _ Sd) as [Sd' _]. unfold by_date in Sd'.
      inversion Sd' as [|? ? _ F]; subst. rewrite Forall_forall in F.
      apply Z.leb_le.
      apply (F (cve1, date1)). apply in_or_app. right. now left. }
    assert (Eq : instant date1 = instant date2) by lia.
    assert (Dw' : (instant date1 - instant date2) / usec_per_day <= w).
    { rewrite Eq, Z.sub_diag in *. exact Dw. }
    rewrite has_edge_sym.
    apply (link_products_reaches w _ key cve_list sorted_list
             l1 cve2 date2 l2 cve1 date1 l3 empty G0 L Ik Ga S Es Dw').
Qed.

Lemma temporal_links_are_complete_witness :
  exists G,
    Alternative.build_cve_temporal_graph iso8601
      (Alternative.parse_cve_files_extended iso8601 scenario_start
         temporal_corpus) 30 = Ok G
    /\ has_edge "CVE-2024-0010" "CVE-2024-0011" G = true.
Proof.
  apply (temporal_links_are_complete iso8601 scenario_start temporal_corpus 30
           "acme::product"
           [("CVE-2024-0010", {| wall := 63844848000000000;
                                utcoffset := Some 0 |});
            ("CVE-2024-0011", {| wall := 63845020800000000;
                                utcoffset := Some 0 |})]
           "CVE-2024-0010" "CVE-2024-0011"
           {| wall := 63844848000000000; utcoffset := Some 0 |}
           {| wall := 63845020800000000; utcoffset := Some 0 |}).
  - vm_compute. reflexivity.
  - now left.
  - right. now left.
  - discriminate.
  - vm_compute. discriminate.
  - vm_compute. discriminate.
Defined.

(* ================================================================== *)
(** * The CVSS distribution *)
(* ================================================================== *)

Section SeverityFacts.
Import Severity.

Lemma tally_severity_counts items t :
  severity_counts (fold_left tally items t)
  = fold_left (fun acc item => dict_incr (severity_of item) acc) items
      (severity_counts t).
Proof.
  revert t. induction items as [|item r IH]; intros t; [reflexivity|].
  cbn [fold_left]. now rewrite IH.
Qed.

Lemma counter_incr_get outer key c (d : dict string (dict string Z)) :
  dict_get_default c [] (counter_incr outer key d)
  = if String.eqb outer c
    then dict_incr key (dict_get_default outer [] d)
    else dict_get_default c [] d.
Proof.
  unfold counter_incr, dict_get_default at 1.
  rewrite dict_get_set. cbn [keqb Hashable_string].
  destruct (String.eqb outer c); reflexivity.
Qed.

Lemma tally_by_cna items t c s :
  dict_get_default s 0
    (dict_get_default c [] (severity_by_cna (fold_left tally items t)))
  = dict_get_default s 0 (dict_get_default c [] (severity_by_cna t))
    + Z.of_nat (List.length
        (filter (fun item => String.eqb (cna item) c
                             && String.eqb (severity_of item) s) items)).
Proof.
  revert t. induction items as [|item r IH]; intros t.
  - cbn. lia.
  - cbn [fold_left filter]. rewrite IH. cbn [tally severity_by_cna].
    rewrite counter_incr_get.
    destruct (String.eqb (cna item) c) eqn:Ec; cbn [andb].
    + apply String.eqb_eq in Ec. subst c. rewrite dict_incr_get.
      cbn [keqb Hashable_string].
      destruct (String.eqb (severity_of item) s); cbn [List.length]; lia.
    + lia.
Qed.

Lemma tally_by_cna_NoDup items t :
  NoDup (dict_keys (severity_by_cna t)) ->
  NoDup (dict_keys (severity_by_cna (fold_left tally items t))).
Proof.
  revert t. induction items as [|item r IH]; intros t N; [exact N|].
  cbn [fold_left]. apply IH. cbn [tally severity_by_cna].
  unfold counter_incr. now apply dict_keys_set_NoDup.
Qed.

Lemma range_of_key score : In (range_of score) (dict_keys score_ranges_init).
Proof.
  unfold range_of.
  destruct (is_zero score); [cbn; auto|].
  destruct (below 4 _ score); [cbn; auto|].
  destruct (below 7 _ score); [cbn; auto|].
  destruct (below 9 _ score); cbn; auto 6.
Qed.

Lemma score_ranges_init_zero r : dict_get_default r 0 score_ranges_init = 0.
Proof.
  unfold dict_get_default, score_ranges_init.
  cbn [dict_get keqb Hashable_string].
  repeat match goal with
         | |- context [String.eqb ?a ?b] => destruct (String.eqb a b)
         end; reflexivity.
Qed.

Lemma dict_incr_keys_present {K} `{Hashable K} (k : K) (d : dict K Z) :
  In k (dict_keys d) -> dict_keys (dict_incr k d) = dict_keys d.
Proof.
  intros I. unfold dict_incr. rewrite dict_keys_set.
  unfold dict_contains. destruct (dict_get k d) eqn:E; [reflexivity|].
  exfalso. unfold dict_keys in I. apply in_map_iff in I.
  destruct I as [[k' v] [<- I]]. cbn [fst] in E.
  induction d as [|[k2 v2] r IH]; [destruct I|].
  cbn [dict_get] in E. destruct (keqb k' k2) eqn:Ek; [discriminate|].
  destruct I as [X|I]; [|now apply IH].
  inversion X; subst. assert (keqb k' k' = true) by now apply keqb_spec.
  congruence.
Qed.

Lemma count_scores_raises items d0 :
  (exists item, In item items /\ base_score item = None) ->
  count_scores items d0 = Raise TypeError.
Proof.
  revert d0. induction items as [|item r IH]; intros d0 [x [I E]];
    [destruct I|].
  cbn [count_scores]. destruct (base_score item) as [score|] eqn:B;
    [|reflexivity].
  apply IH. destruct I as [<-|I]; [congruence|eauto].
Qed.

Lemma count_scores_counts items d0 :
  dict_keys d0 = dict_keys score_ranges_init ->
  match count_scores items d0 with
  | Ok d =>
      (forall item, In item items -> base_score item <> None)
      /\ dict_keys d = dict_keys score_ranges_init
      /\ total_weight d = total_weight d0 + Z.of_nat (List.length items)
      /\ forall r, dict_get_default r 0 d
                   = dict_get_default r 0 d0
                     + Z.of_nat (List.length (filter (in_range r) items))
  | Raise e =>
      e = TypeError /\ exists item, In item items /\ base_score item = None
  end.
Proof.
  revert d0. induction items as [|item r IH]; intros d0 K0.
  - cbn [count_scores]. split; [intros x []|]. split; [exact K0|].
    split; [cbn [List.length]; lia|]. intros r. cbn [filter List.length]. lia.
  - cbn [count_scores]. destruct (base_score item) as [score|] eqn:B.
    + assert (K1 : dict_keys (dict_incr (range_of score) d0)
                   = dict_keys score_ranges_init).
      { rewrite dict_incr_keys_present; [exact K0|].
        rewrite K0. apply range_of_key. }
      specialize (IH _ K1).
      destruct (count_scores r (dict_incr (range_of score) d0)) as [d|e].
      * destruct IH as [F [Kd [T G]]]. split; [|split; [|split]].
        -- intros x [<-|I]; [congruence|now apply F].
        -- exact Kd.
        -- rewrite T, total_weight_incr. cbn [List.length]. lia.
        -- intros rg. rewrite G, dict_incr_get. cbn [filter].
           unfold in_range at 2. rewrite B. cbn [keqb Hashable_string].
           destruct (String.eqb (range_of score) rg); cbn [List.length]; lia.
      * destruct IH as [-> [x [I E]]]. split; [reflexivity|].
        exists x. split; [now right|exact E].
    + split; [reflexivity|]. exists item. split; [now left|exact B].
Qed.

End SeverityFacts.

(** X25.  [build_cvss_severity_distribution] counts every entry once, or
    fails.  It raises [TypeError], and nothing else, exactly when the base
    score of some entry is no number (a metric without [baseScore] is
    stored with the score [None]).  Otherwise the counts of the five score
    ranges add up to [total_cves], the number of entries, and so do the
    counts by severity; the ranges are the five of the source whatever the
    scores, each holding the number of entries whose score the chain of
    comparisons puts there; at most 20 authorities are listed, each with
    the number of its entries of severity CRITICAL. *)
Theorem cvss_distribution_counts_every_entry :
  forall cvss_data : list Severity.cvss_item,
    (Severity.build_cvss_severity_distribution cvss_data = Raise TypeError
     <-> exists item,
           In item cvss_data /\ Severity.base_score item = None)
    /\ (forall e,
          Severity.build_cvss_severity_distribution cvss_data = Raise e ->
          e = TypeError)
    /\ (forall d,
          Severity.build_cvss_severity_distribution cvss_data = Ok d ->
          Severity.total_cves d = Z.of_nat (List.length cvss_data)
          /\ total_weight (Severity.score_ranges d) = Severity.total_cves d
          /\ total_weight (Severity.out_severity_counts d)
             = Severity.total_cves d
          /\ dict_keys (Severity.score_ranges d)
             = dict_keys Severity.score_ranges_init
          /\ (forall r,
                dict_get_default r 0 (Severity.score_ranges d)
                = Z.of_nat (List.length (filter (in_range r) cvss_data)))
          /\ (List.length (Severity.top_critical_cnas d) <= 20)%nat
          /\ forall c n,
               In (c, n) (Severity.top_critical_cnas d) ->
               n = Z.of_nat
                     (List.length
                        (filter
                           (fun item =>
                              String.eqb (Severity.cna item) c
                              && String.eqb (Severity.severity_of item)
                                   "CRITICAL") cvss_data))).
Proof.
  intros cvss_data.
  pose proof (count_scores_counts cvss_data Severity.score_ranges_init
                eq_refl) as C.
  unfold Severity.build_cvss_severity_distribution.
  destruct (Severity.count_scores cvss_data Severity.score_ranges_init)
    as [ranges|e] eqn:Cs; cbn [bind].
  - destruct C as [F [Kd [T G]]]. split; [|split].
    + split; [discriminate|]. intros [x [I E]]. now destruct (F x I).
    + discriminate.
    + intros d E. inversion E; subst d. clear E.
      cbn [Severity.total_cves Severity.score_ranges
           Severity.out_severity_counts Severity.top_critical_cnas].
      split; [reflexivity|]. split; [rewrite T; reflexivity|].
      split.
      { rewrite tally_severity_counts, total_weight_fold_incr. reflexivity. }
      split; [exact Kd|]. split.
      { intros r. rewrite G, score_ranges_init_zero. reflexivity. }
      split.
      { pose proof (slice_to_length 20
                      (sorted_by_count_desc
                         (Severity.critical_by_cna
                            (Severity.severity_by_cna
                               (fold_left Severity.tally cvss_data
                                  Severity.no_tallies))))) as L.
        cbn [Z.ltb Z.compare] in L. lia. }
      intros c n I. apply slice_to_In in I.
      unfold sorted_by_count_desc in I. apply sorted_In in I.
      unfold Severity.critical_by_cna in I. apply in_map_iff in I.
      destruct I as [[c' counts] [X I]]. cbn [fst snd] in X.
      inversion X; subst c' n. clear X.
      pose proof (tally_by_cna cvss_data Severity.no_tallies c "CRITICAL")
        as Q.
      pose proof (tally_by_cna_NoDup cvss_data Severity.no_tallies
                    (NoDup_nil _)) as N.
      apply (dict_In_get _ _ _ N) in I.
      assert (D : dict_get_default c []
                    (Severity.severity_by_cna
                       (fold_left Severity.tally cvss_data
                          Severity.no_tallies)) = counts).
      { unfold dict_get_default.
        exact (f_equal (fun o => match o with Some v => v | None => [] end)
                 I). }
      rewrite D in Q. rewrite Q. reflexivity.
  - destruct C as [-> X]. split; [|split].
    + split; auto.
    + intros e E. now inversion E.
    + discriminate.
Qed.

(* ================================================================== *)
(** * The timeline of the temporal map *)
(* ================================================================== *)

Section TimelineFacts.
Import Timeline.

Lemma split_dash_not_nil s : split_dash s <> [].
Proof.
  destruct s as [|c r]; cbn [split_dash]; [discriminate|].
  destruct (Ascii.eqb c "-"); [discriminate|].
  destruct (split_dash r); discriminate.
Qed.

(** The test [len(parts) >= 2] of line 50 never fails. *)
Lemma split_dash_prefix s :
  startswith "CVE-" s = true -> (2 <= List.length (split_dash s))%nat.
Proof.
  unfold startswith. intros P.
  destruct s as [|c1 [|c2 [|c3 [|c4 r]]]]; cbn [prefix] in P;
    repeat match type of P with
           | match ascii_dec ?a ?b with _ => _ end = _ =>
               destruct (ascii_dec a b); [subst|discriminate]
           end; try discriminate.
  pose proof (split_dash_not_nil r) as N.
  cbn. destruct (split_dash r) as [|part parts]; [congruence|].
  cbn [List.length]. lia.
Qed.

Lemma record_node_dated ms n :
  record_node ms n
  = if dated n then count_node (period_of n) n ms else ms.
Proof.
  unfold record_node, dated, period_of.
  destruct (Optimize.option_eqb (type n) (Some "cve")); [|reflexivity].
  cbn [andb].
  destruct (startswith "CVE-" _) eqn:P; [|reflexivity].
  apply split_dash_prefix in P. apply Nat.leb_le in P. now rewrite P.
Qed.

Lemma counts_of_get p ms :
  dict_get_default p 0 (counts_of ms)
  = count (dict_get_default p no_stats ms).
Proof.
  unfold dict_get_default, counts_of.
  induction ms as [|[k v] r IH]; [reflexivity|].
  cbn [map dict_get fst snd]. destruct (keqb p k); auto.
Qed.

Lemma counts_of_set p s ms :
  counts_of (dict_set p s ms) = dict_set p (count s) (counts_of ms).
Proof.
  unfold counts_of. induction ms as [|[k v] r IH]; [reflexivity|].
  cbn [map dict_set fst snd]. destruct (keqb p k); cbn [map fst snd];
    [reflexivity|]. now rewrite IH.
Qed.

Lemma counts_of_keys ms : dict_keys (counts_of ms) = dict_keys ms.
Proof. unfold dict_keys, counts_of. rewrite map_map. reflexivity. Qed.

Lemma counts_of_count_node p n ms :
  counts_of (count_node p n ms) = dict_incr p (counts_of ms).
Proof.
  unfold count_node, dict_incr. rewrite counts_of_set, counts_of_get.
  destruct (cna n); reflexivity.
Qed.

Lemma counts_of_fold nodes ms :
  counts_of (fold_left record_node nodes ms)
  = fold_left (fun acc n => dict_incr (period_of n) acc)
      (filter dated nodes) (counts_of ms).
Proof.
  revert ms. induction nodes as [|n r IH]; intros ms; [reflexivity|].
  cbn [fold_left filter]. rewrite IH, record_node_dated.
  destruct (dated n); [|reflexivity].
  cbn [fold_left]. now rewrite counts_of_count_node.
Qed.

Lemma cnas_of_count_node q n p ms :
  cnas_of p (count_node q n ms)
  = if String.eqb q p
    then match cna n with
         | Some c => dict_incr c (cnas_of q ms)
         | None => cnas_of q ms
         end
    else cnas_of p ms.
Proof.
  unfold cnas_of, count_node, dict_get_default at 1.
  rewrite dict_get_set. cbn [keqb Hashable_string].
  destruct (String.eqb q p); [|reflexivity].
  destruct (cna n); reflexivity.
Qed.

Lemma cnas_of_fold nodes ms p c :
  dict_get_default c 0 (cnas_of p (fold_left record_node nodes ms))
  = dict_get_default c 0 (cnas_of p ms)
    + count_nodes
        (fun n => dated n && String.eqb (period_of n) p
                  && Optimize.option_eqb (cna n) (Some c)) nodes.
Proof.
  unfold count_nodes. revert ms.
  induction nodes as [|n r IH]; intros ms.
  - cbn. lia.
  - cbn [fold_left filter]. rewrite IH, record_node_dated.
    destruct (dated n); cbn [andb]; [|lia].
    rewrite cnas_of_count_node.
    destruct (String.eqb (period_of n) p) eqn:Ep; cbn [andb]; [|lia].
    apply String.eqb_eq in Ep. subst p.
    destruct (cna n) as [c'|]; cbn [Optimize.option_eqb]; [|lia].
    rewrite dict_incr_get. cbn [keqb Hashable_string].
    destruct (String.eqb c' c); cbn [List.length]; lia.
Qed.

Lemma cnas_of_NoDup nodes ms :
  (forall p, NoDup (dict_keys (cnas_of p ms))) ->
  forall p, NoDup (dict_keys (cnas_of p (fold_left record_node nodes ms))).
Proof.
  revert ms. induction nodes as [|n r IH]; intros ms N; [exact N|].
  cbn [fold_left]. apply IH. intros p. rewrite record_node_dated.
  destruct (dated n); [|apply N].
  rewrite cnas_of_count_node. destruct (String.eqb (period_of n) p);
    [|apply N].
  destruct (cna n); [apply nodup_keys_incr|]; apply N.
Qed.

Lemma sum_map_perm {A} (f : A -> Z) (l l' : list A) :
  Permutation l l' ->
  fold_right Z.add 0 (map f l) = fold_right Z.add 0 (map f l').
Proof.
  induction 1; cbn [map fold_right]; try lia.
Qed.

Lemma strictly_sorted {V} (l : list (string * V)) :
  StronglySorted (fun a b => String.leb (fst a) (fst b) = true) l ->
  NoDup (map fst l) ->
  StronglySorted (fun a b => String.ltb (fst a) (fst b) = true) l.
Proof.
  induction 1 as [|a r S IH F]; intros N; constructor.
  - apply IH. now inversion N.
  - inversion N as [|? ? Na _]; subst. rewrite Forall_forall in *.
    intros b Ib. destruct (proj1 (leb_ltb _ _) (F b Ib)) as [L|E]; auto.
    exfalso. apply Na. rewrite E. now apply in_map.
Qed.

Lemma sorted_map {A B} (f : A -> B) (R : B -> B -> Prop) (l : list A) :
  StronglySorted (fun a b => R (f a) (f b)) l ->
  StronglySorted R (map f l).
Proof.
  induction 1 as [|a r S IH F]; cbn [map]; constructor; auto.
  rewrite Forall_forall in *. intros y Iy. apply in_map_iff in Iy.
  destruct Iy as [x [<- Ix]]. now apply F.
Qed.

End TimelineFacts.

(** X26.  The timeline [optimize_temporal_map] writes counts every CVE node
    once.  [total_cves] is the number of the nodes of type [cve] whose
    identifier starts with [CVE-] (the test on the number of parts of the
    identifier never fails for them), and the counts of the timeline add up
    to it.  The periods come in strictly increasing order; they are the
    parts between the first and the second dash of those identifiers, each
    with the number of its nodes, at least one.  An entry lists at most 10
    authorities, each with the number of the nodes of the period that name
    it. *)
Theorem temporal_timeline_counts_cve_nodes :
  forall nodes : list Timeline.node,
    let out := Timeline.optimize_temporal_map nodes in
    Timeline.total_cves out = count_nodes dated nodes
    /\ fold_right Z.add 0 (map Timeline.entry_count (Timeline.timeline out))
       = Timeline.total_cves out
    /\ StronglySorted
         (fun a b => String.ltb (Timeline.period a) (Timeline.period b) = true)
         (Timeline.timeline out)
    /\ (forall p,
          In p (map Timeline.period (Timeline.timeline out))
          <-> exists n, In n nodes /\ dated n = true /\ period_of n = p)
    /\ forall e,
         In e (Timeline.timeline out) ->
         1 <= Timeline.entry_count e
         /\ Timeline.entry_count e
            = count_nodes
                (fun n => dated n
                          && String.eqb (period_of n) (Timeline.period e))
                nodes
         /\ (List.length (Timeline.top_cnas e) <= 10)%nat
         /\ forall c k,
              In (c, k) (Timeline.top_cnas e) ->
              k = count_nodes
                    (fun n => dated n
                              && String.eqb (period_of n) (Timeline.period e)
                              && Optimize.option_eqb (Timeline.cna n) (Some c))
                    nodes.
Proof.
  intros nodes out. subst out. unfold Timeline.optimize_temporal_map.
  cbn [Timeline.total_cves Timeline.timeline].
  set (ms := fold_left Timeline.record_node nodes []).
  pose proof (counts_of_fold nodes []) as C. fold ms in C.
  cbn [counts_of map] in C.
  assert (Nk : NoDup (dict_keys ms)).
  { rewrite <- counts_of_keys, C. apply nodup_keys_fold. constructor. }
  assert (T : fold_right Z.add 0
                (map (fun kv => Timeline.count (snd kv)) ms)
              = count_nodes dated nodes).
  { transitivity (total_weight (counts_of ms)).
    - unfold total_weight, counts_of. rewrite map_map. reflexivity.
    - rewrite C, total_weight_fold_incr. reflexivity. }
  assert (G : forall p,
             Timeline.count (dict_get_default p Timeline.no_stats ms)
             = count_nodes
                 (fun n => dated n && String.eqb (period_of n) p) nodes).
  { intros p. rewrite <- counts_of_get, C, fold_incr_get.
    cbn [keqb Hashable_string]. unfold count_nodes.
    replace (dict_get_default p 0 []) with 0 by reflexivity.
    rewrite Z.add_0_l. f_equal. f_equal.
    clear. induction nodes as [|n r IH]; [reflexivity|].
    cbn [filter]. destruct (dated n); cbn [andb filter]; [|exact IH].
    destruct (String.eqb (period_of n) p); [now rewrite IH|exact IH]. }
  assert (K : forall p,
             In p (dict_keys ms)
             <-> exists n, In n nodes /\ dated n = true /\ period_of n = p).
  { intros p. rewrite <- counts_of_keys, C, fold_incr_keys. split.
    - intros [[]|[n [I E]]]. apply filter_In in I. destruct I as [I D].
      exists n. auto.
    - intros [n [I [D E]]]. right. exists n. split; [|auto].
      apply filter_In. auto. }
  set (L := sorted (fun a b : string * Timeline.stats =>
                      String.leb (fst a) (fst b)) ms).
  assert (PL : Permutation L ms) by apply sorted_perm.
  unfold Timeline.timeline_of. fold L.
  split; [exact T|]. split.
  { rewrite map_map. cbn [Timeline.entry_count].
    rewrite (sum_map_perm _ _ _ PL). reflexivity. }
  split.
  { apply sorted_map. cbn [Timeline.period].
    apply strictly_sorted.
    - apply sorted_sorted.
      + intros x y. apply String.leb_total.
      + intros x y z. apply leb_trans.
    - apply (Permutation_NoDup (l := map fst ms)); [|exact Nk].
      apply Permutation_map. now symmetry. }
  split.
  { intros p. rewrite map_map. cbn [Timeline.period]. rewrite <- K.
    unfold dict_keys. split; intros I.
    - apply (Permutation_in _ (Permutation_map fst PL)). exact I.
    - apply (Permutation_in _ (Permutation_map fst (Permutation_sym PL))).
      exact I. }
  intros e I. apply in_map_iff in I. destruct I as [[p s] [<- I]].
  cbn [fst snd Timeline.entry_count Timeline.period Timeline.top_cnas].
  apply (Permutation_in _ PL) in I.
  pose proof (dict_In_get _ _ _ Nk I) as Gp.
  assert (D : dict_get_default p Timeline.no_stats ms = s).
  { unfold dict_get_default. now rewrite Gp. }
  pose proof (G p) as Gc. rewrite D in Gc.
  split.
  { rewrite Gc. assert (Ip : In p (dict_keys ms)).
    { unfold dict_keys. apply in_map_iff. exists (p, s). auto. }
    apply K in Ip. destruct Ip as [n [In_ [Dn En]]].
    unfold count_nodes.
    assert (X : In n (filter (fun n => dated n
                                       && String.eqb (period_of n) p) nodes)).
    { apply filter_In. split; [exact In_|].
      rewrite Dn, En, String.eqb_refl. reflexivity. }
    apply in_split in X. destruct X as [l1 [l2 X]]. rewrite X.
    rewrite length_app. cbn [List.length]. lia. }
  split; [exact Gc|]. split.
  { pose proof (slice_to_length 10
                  (sorted_by_count_desc (Timeline.cnas s))) as Ls.
    cbn [Z.ltb Z.compare] in Ls. lia. }
  intros c k Ic. apply slice_to_In in Ic.
  unfold sorted_by_count_desc in Ic. apply sorted_In in Ic.
  pose proof (cnas_of_fold nodes [] p c) as Q. fold ms in Q.
  pose proof (cnas_of_NoDup nodes [] (fun _ => NoDup_nil _) p) as N.
  fold ms in N. unfold cnas_of in Q, N. rewrite D in Q, N.
  pose proof (dict_In_get _ _ _ N Ic) as Gk.
  unfold dict_get_default at 1 in Q. rewrite Gk in Q. rewrite Q.
  cbn. reflexivity.
Qed.

(* ================================================================== *)
(** * The circular layout of the weaknesses *)
(* ================================================================== *)

Section CircularFacts.
Import Circular.

Lemma in_list_In c l : in_list c l = true <-> In c l.
Proof.
  unfold in_list. rewrite existsb_exists. split.
  - intros [x [I E]]. apply String.eqb_eq in E. now subst.
  - intros I. exists c. split; [exact I|apply String.eqb_refl].
Qed.

Lemma fold_incr_map {K B} `{Hashable K} (g : B -> K) (l : list B)
    (d : dict K Z) :
  fold_left (fun acc x => dict_incr (g x) acc) l d
  = fold_left (fun acc p => dict_incr p acc) (map g l) d.
Proof.
  revert d. induction l as [|x r IH]; intros d; [reflexivity|].
  cbn [map fold_left]. apply IH.
Qed.

(** The two loops of lines 295-297 go through the pairs of
    [combinations2]. *)
Lemma circular_pairs_fold l acc :
  count_pairs l acc
  = fold_left (fun acc p => dict_incr p acc) (combinations2 l) acc.
Proof.
  revert acc. induction l as [|x r IH]; intros acc; [reflexivity|].
  cbn [count_pairs combinations2]. rewrite fold_left_app, IH.
  now rewrite (fold_incr_map (fun cwe2 => (x, cwe2))).
Qed.

Lemma combinations2_short {A} (l : list A) :
  (1 <? List.length l)%nat = false -> combinations2 l = [].
Proof.
  destruct l as [|x [|y r]]; cbn; try reflexivity. discriminate.
Qed.

Lemma guarded_pairs_fold (l : list string) acc :
  (if (1 <? List.length l)%nat then count_pairs l acc else acc)
  = fold_left (fun acc p => dict_incr p acc) (combinations2 l) acc.
Proof.
  destruct (1 <? List.length l)%nat eqn:E.
  - apply circular_pairs_fold.
  - now rewrite (combinations2_short l E).
Qed.

Variable data : Compact.compact_data.
Variable top_cwe_ids : list string.

Local Abbreviation all_pairs := (counted_pairs data top_cwe_ids).

Lemma edge_weights_fold :
  edge_weights data top_cwe_ids
  = fold_left (fun acc p => dict_incr p acc) all_pairs [].
Proof.
  unfold edge_weights, counted_pairs. unfold pyset.
  generalize (@nil (string * string * Z)).
  induction (Compact.cve_to_cwes data) as [|kv r IH]; intros acc;
    [reflexivity|].
  cbn [fold_left flat_map]. cbv zeta. rewrite fold_left_app, IH. f_equal.
  apply guarded_pairs_fold.
Qed.

Lemma edge_weights_keys k :
  In k (dict_keys (edge_weights data top_cwe_ids)) <-> In k all_pairs.
Proof.
  rewrite edge_weights_fold.
  rewrite (fold_incr_keys (fun p : string * string => p)).
  cbn [dict_keys map]. split.
  - intros [[]|[x [I ->]]]. exact I.
  - intros I. right. eauto.
Qed.

Lemma edge_weights_get k :
  dict_get_default k 0 (edge_weights data top_cwe_ids)
  = Z.of_nat (List.length (filter (fun p => keqb p k) all_pairs)).
Proof.
  rewrite edge_weights_fold.
  rewrite (fold_incr_get (fun p : string * string => p)). reflexivity.
Qed.

Lemma edge_weights_NoDup : NoDup (dict_keys (edge_weights data top_cwe_ids)).
Proof.
  rewrite edge_weights_fold.
  apply (nodup_keys_fold (fun p : string * string => p)). constructor.
Qed.

Lemma all_pairs_In a b :
  In (a, b) all_pairs
  <-> exists kv,
        In kv (Compact.cve_to_cwes data)
        /\ In (a, b)
             (combinations2
                (filter (fun c => in_list c top_cwe_ids) (snd kv))).
Proof. unfold counted_pairs. apply in_flat_map. Qed.

Lemma filter_eq_NoDup {K} `{Hashable K} (k : K) (l : list K) :
  NoDup l -> (List.length (filter (fun p => keqb p k) l) <= 1)%nat.
Proof.
  induction 1 as [|x r Nx N IH]; cbn [filter List.length]; [lia|].
  destruct (keqb x k) eqn:E; [|exact IH].
  apply keqb_spec in E. subst x.
  assert (F : filter (fun p => keqb p k) r = []).
  { clear IH N. induction r as [|y r IH]; [reflexivity|].
    cbn [filter]. destruct (keqb y k) eqn:Ey.
    - apply keqb_spec in Ey. subst y. exfalso. apply Nx. now left.
    - apply IH. intros I. apply Nx. now right. }
  rewrite F. cbn. lia.
Qed.

Hypothesis sets : forall kv, In kv (Compact.cve_to_cwes data) -> NoDup (snd kv).

Lemma all_pairs_count a b :
  Z.of_nat (List.length (filter (fun p => keqb p (a, b)) all_pairs))
  <= cooccurrences data a b.
Proof.
  unfold counted_pairs, cooccurrences. unfold pyset in *.
  induction (Compact.cve_to_cwes data) as [|kv r IH]; [cbn; lia|].
  cbn [flat_map]. rewrite filter_app, length_app. cbn [filter].
  assert (IH' := IH (fun kv' I => sets kv' (or_intror I))). clear IH.
  pose proof (sets kv (or_introl eq_refl)) as N. unfold pyset in *.
  set (l := filter (fun c => in_list c top_cwe_ids) (snd kv)).
  assert (Nl : NoDup l) by (apply NoDup_filter; exact N).
  pose proof (filter_eq_NoDup (a, b) _ (combinations2_NoDup l Nl)) as L1.
  destruct (filter (fun p => keqb p (a, b)) (combinations2 l)) as [|p ps] eqn:F.
  - cbn [List.length]. destruct (_ && _); cbn [List.length]; lia.
  - assert (I : In p (filter (fun p => keqb p (a, b)) (combinations2 l)))
      by (rewrite F; now left).
    apply filter_In in I. destruct I as [I E]. apply keqb_spec in E. subst p.
    apply combinations2_In in I. destruct I as [Ia Ib].
    apply filter_In in Ia. apply filter_In in Ib.
    destruct Ia as [Ia _], Ib as [Ib _].
    apply set_mem_In in Ia. apply set_mem_In in Ib. rewrite Ia, Ib.
    cbn [andb List.length] in *. lia.
Qed.

Lemma edge_weights_items k w :
  In (k, w) (edge_weights data top_cwe_ids) ->
  In k all_pairs /\ 1 <= w <= cooccurrences data (fst k) (snd k).
Proof.
  intros I.
  assert (Ik : In k all_pairs).
  { apply edge_weights_keys. unfold dict_keys. apply in_map_iff.
    exists (k, w). auto. }
  split; [exact Ik|].
  pose proof (dict_In_get _ _ _ edge_weights_NoDup I) as G.
  pose proof (edge_weights_get k) as V.
  unfold dict_get_default in V. rewrite G in V. subst w.
  destruct k as [a b]. cbn [fst snd]. split; [|apply all_pairs_count].
  assert (X : In (a, b) (filter (fun p => keqb p (a, b)) all_pairs)).
  { apply filter_In. split; [exact Ik|]. now apply keqb_spec. }
  apply in_split in X. destruct X as [l1 [l2 X]]. rewrite X.
  rewrite length_app. cbn [List.length]. lia.
Qed.

Lemma all_pairs_sound a b :
  In (a, b) all_pairs ->
  a <> b /\ In a top_cwe_ids /\ In b top_cwe_ids
  /\ 1 <= cooccurrences data a b.
Proof.
  intros I. apply all_pairs_In in I. destruct I as [kv [Ik I]].
  pose proof (sets kv Ik) as N.
  split.
  { apply (combinations2_distinct _ a b (NoDup_filter _ _ N) I). }
  apply combinations2_In in I. destruct I as [Ia Ib].
  apply filter_In in Ia. apply filter_In in Ib.
  destruct Ia as [Ia Ta], Ib as [Ib Tb].
  apply in_list_In in Ta. apply in_list_In in Tb.
  split; [exact Ta|]. split; [exact Tb|].
  unfold cooccurrences.
  assert (X : In kv (filter (fun kv => set_mem a (snd kv)
                                       && set_mem b (snd kv))
                       (Compact.cve_to_cwes data))).
  { apply filter_In. split; [exact Ik|].
    apply andb_true_iff. split; now apply set_mem_In. }
  apply in_split in X. destruct X as [l1 [l2 X]]. rewrite X.
  rewrite length_app. cbn [List.length]. lia.
Qed.

Lemma all_pairs_complete a b :
  a <> b -> In a top_cwe_ids -> In b top_cwe_ids ->
  1 <= cooccurrences data a b ->
  In (a, b) all_pairs \/ In (b, a) all_pairs.
Proof.
  intros Nab Ta Tb C. unfold cooccurrences in C.
  destruct (filter _ (Compact.cve_to_cwes data)) as [|kv r] eqn:F;
    [cbn in C; lia|].
  assert (I : In kv (filter (fun kv => set_mem a (snd kv)
                                       && set_mem b (snd kv))
                       (Compact.cve_to_cwes data)))
    by (rewrite F; now left).
  apply filter_In in I. destruct I as [Ik M].
  apply andb_true_iff in M. destruct M as [Ma Mb].
  apply set_mem_In in Ma. apply set_mem_In in Mb.
  set (l := filter (fun c => in_list c top_cwe_ids) (snd kv)).
  assert (Ia : In a l).
  { apply filter_In. split; [exact Ma|now apply in_list_In]. }
  assert (Ib : In b l).
  { apply filter_In. split; [exact Mb|now apply in_list_In]. }
  destruct (combinations2_complete l a b Ia Ib Nab) as [P|P];
    [left|right]; apply all_pairs_In; exists kv; auto.
Qed.

End CircularFacts.

Lemma cooccurrences_sym data a b :
  cooccurrences data a b = cooccurrences data b a.
Proof.
  unfold cooccurrences. f_equal. f_equal. apply filter_ext.
  intros kv. apply andb_comm.
Qed.

(** X27.  When the sets of the data hold no weakness twice, the nodes of
    the circular layout are the weaknesses selected by [top_n], and no
    other: a link never brings in a node.  Two weaknesses are linked exactly
    when they are distinct, both selected, and carried together by at least
    one CVE; a link has a weight of at least 1 and of at most the number of
    the CVEs that carry both its end points. *)
Theorem circular_layout_links_selected_weaknesses :
  forall (data : Compact.compact_data) (top_n : Z),
    (forall kv, In kv (Compact.cve_to_cwes data) -> NoDup (snd kv)) ->
    let G := Circular.build_circular_cwe_layout data top_n in
    let top_cwe_ids := map fst (Circular.top_cwes data top_n) in
    (forall n, has_node n G = true <-> In n top_cwe_ids)
    /\ (forall a b,
          has_edge a b G = true
          <-> a <> b /\ In a top_cwe_ids /\ In b top_cwe_ids
              /\ 1 <= cooccurrences data a b)
    /\ Forall (weight_within (cooccurrences data)) (edges G).
Proof.
  intros data top_n sets G ids. subst G.
  unfold Circular.build_circular_cwe_layout. fold ids.
  set (G0 := fold_left
               (fun G kv =>
                  add_node (fst kv)
                    [("type", AStr "cwe"); ("label", AStr (fst kv));
                     ("cve_count", AInt (snd kv))] G)
               (Circular.top_cwes data top_n) empty).
  set (ew := Circular.edge_weights data ids).
  assert (N0 : forall n, has_node n G0 = true <-> In n ids).
  { intros n. unfold G0.
    rewrite (has_node_fold_add_node
               (fun kv : string * Z => fst kv)
               (fun kv => [("type", AStr "cwe"); ("label", AStr (fst kv));
                           ("cve_count", AInt (snd kv))])).
    unfold ids. rewrite in_map_iff. split.
    - intros [X|[kv [I ->]]]; [discriminate|]. eauto.
    - intros [kv [<- I]]. right. eauto. }
  assert (E0 : edges G0 = []).
  { unfold G0.
    now rewrite (edges_fold_add_node
                   (fun kv : string * Z => fst kv)
                   (fun kv => [("type", AStr "cwe"); ("label", AStr (fst kv));
                               ("cve_count", AInt (snd kv))])). }
  assert (Items : forall p, In p ew ->
            fst (fst p) <> snd (fst p)
            /\ In (fst (fst p)) ids /\ In (snd (fst p)) ids
            /\ 1 <= snd p <= cooccurrences data (fst (fst p)) (snd (fst p))).
  { intros [[a b] w] I. cbn [fst snd].
    destruct (edge_weights_items data ids sets (a, b) w I) as [Ik W].
    destruct (all_pairs_sound data ids sets a b Ik) as [Nab [Ta [Tb _]]].
    auto. }
  pose (u := fun kv : string * string * Z => fst (fst kv)).
  pose (v := fun kv : string * string * Z => snd (fst kv)).
  pose (at_ := fun kv : string * string * Z => [("weight", AInt (snd kv))]).
  change (fold_left
            (fun G kv =>
               add_edge (fst (fst kv)) (snd (fst kv))
                 [("weight", AInt (snd kv))] G) ew G0)
    with (fold_left
            (fun G p =>
               if (fun _ : string * string * Z => true) p
               then add_edge (u p) (v p) (at_ p) G else G) ew G0).
  split; [|split].
  - intros n.
    rewrite (has_node_fold_pairs u v (fun _ => true) at_); [apply N0|].
    intros p I. destruct (Items p I) as [_ [Ta [Tb _]]].
    split; now apply N0.
  - intros a b. rewrite (has_edge_fold_pairs u v (fun _ => true) at_).
    unfold has_edge at 1.
    rewrite E0. cbn [existsb]. split.
    + intros [X|[[[x y] w] [I [_ J]]]]; [discriminate|].
      destruct (edge_weights_items data ids sets (x, y) w I) as [Ik _].
      destruct (all_pairs_sound data ids sets x y Ik) as [Nxy [Tx [Ty C]]].
      apply joins_endpoints in J. unfold u, v in J. cbn [src dst fst snd] in J.
      destruct J as [[-> ->]|[-> ->]]; [auto|].
      rewrite cooccurrences_sym. auto.
    + intros [Nab [Ta [Tb C]]]. right.
      assert (K : exists k w, In (k, w) ew /\ (k = (a, b) \/ k = (b, a))).
      { destruct (all_pairs_complete data ids a b Nab Ta Tb C) as [P|P];
          apply edge_weights_keys in P; unfold dict_keys in P;
          apply in_map_iff in P; destruct P as [[k w] [Ek I]];
          cbn [fst] in Ek; subst k; eauto. }
      destruct K as [k [w [I Ek]]]. exists (k, w). split; [exact I|].
      split; [reflexivity|]. apply joins_endpoints.
      unfold u, v. cbn [src dst fst snd].
      destruct Ek as [->| ->]; cbn [fst snd]; auto.
  - apply (edges_fold_pairs u v (fun _ => true) at_);
      [|rewrite E0; constructor].
    intros p s t d I _ Es. destruct (Items p I) as [_ [_ [_ W]]].
    exists (snd p). cbn [Nx.data src dst]. split.
    + unfold at_, dict_update. cbn [fold_left fst snd].
      apply dict_get_set_same.
    + unfold u, v in Es. destruct Es as [[-> ->]|[-> ->]]; [exact W|].
      rewrite cooccurrences_sym. exact W.
Qed.

Lemma circular_layout_links_selected_weaknesses_witness :
  (forall n,
     has_node n (Circular.build_circular_cwe_layout scenario_compact 2) = true
     <-> In n (map fst (Circular.top_cwes scenario_compact 2)))
  /\ has_edge "CWE-79" "CWE-89"
       (Circular.build_circular_cwe_layout scenario_compact 2) = true.
Proof.
  assert (S : forall kv,
            In kv (Compact.cve_to_cwes scenario_compact) -> NoDup (snd kv)).
  { intros kv I. cbn in I.
    destruct I as [<-|[<-|[<-|[]]]]; cbn [snd];
      repeat constructor; cbn; intuition discriminate. }
  destruct (circular_layout_links_selected_weaknesses scenario_compact 2 S)
    as [N [E _]].
  split; [exact N|]. vm_compute. reflexivity.
Defined.

(* ================================================================== *)
(** * The star graphs of the weaknesses *)
(* ================================================================== *)

Section StarFacts.
Import Stars.

Lemma length_append (s t : string) :
  String.length (s ++ t) = (String.length s + String.length t)%nat.
Proof. induction s as [|c s IH]; cbn; [reflexivity|now rewrite IH]. Qed.

Lemma append_cancel (s t t' : string) : (s ++ t = s ++ t')%string -> t = t'.
Proof.
  induction s as [|c s IH]; cbn; [auto|]. intros E. inversion E. auto.
Qed.

(** The link of a spoke tells its weakness and its authority. *)
Lemma star_links_distinct w a w' a' :
  joins w (node_id w a)
    {| src := w'; dst := node_id w' a'; Nx.data := [] |} = true ->
  w = w' /\ a = a'.
Proof.
  intros J. apply joins_endpoints in J. cbn [src dst] in J.
  unfold node_id in J. destruct J as [[-> E]|[E1 E2]].
  - split; [reflexivity|]. apply append_cancel in E.
    apply (append_cancel "_") in E. now symmetry.
  - exfalso. apply (f_equal String.length) in E1, E2.
    rewrite !length_append in E1, E2. cbn [String.length] in E1, E2. lia.
Qed.

Variable data : Compact.compact_data.

Lemma cna_counts_fold w :
  cna_counts data w
  = fold_left (fun acc a => dict_incr a acc)
      (authorities_of data (dict_get_default w [] (Compact.cwe_to_cves data))) [].
Proof.
  unfold cna_counts, authorities_of. generalize (@nil (string * Z)).
  induction (dict_get_default w [] (Compact.cwe_to_cves data)) as [|cve r IH];
    intros acc; [reflexivity|].
  cbn [fold_left flat_map]. rewrite fold_left_app, IH. f_equal.
  destruct (dict_get cve (Compact.cve_to_cna data)) as [c|]; [|reflexivity].
  destruct (nonempty c); reflexivity.
Qed.

Lemma authorities_count a cves :
  a <> "" ->
  List.length (filter (fun x => String.eqb x a) (authorities_of data cves))
  = List.length
      (filter
         (fun cve_id =>
            Optimize.option_eqb (dict_get cve_id (Compact.cve_to_cna data))
              (Some a)) cves).
Proof.
  intros Na. unfold authorities_of.
  induction cves as [|cve r IH]; [reflexivity|].
  cbn [flat_map filter]. rewrite filter_app, length_app, IH.
  destruct (dict_get cve (Compact.cve_to_cna data)) as [c|];
    cbn [Optimize.option_eqb]; [|reflexivity].
  destruct c as [|ch c]; cbn [nonempty filter List.length].
  - destruct a; [congruence|reflexivity].
  - destruct (String.eqb (String ch c) a); reflexivity.
Qed.

Lemma authorities_nonempty a cves : In a (authorities_of data cves) -> a <> "".
Proof.
  unfold authorities_of. intros I. apply in_flat_map in I.
  destruct I as [cve [_ I]].
  destruct (dict_get cve (Compact.cve_to_cna data)) as [c|]; [|destruct I].
  destruct c as [|ch c]; cbn [nonempty] in I; [destruct I|].
  destruct I as [<-|[]]. discriminate.
Qed.

Lemma star_cna_counts_NoDup w : NoDup (dict_keys (cna_counts data w)).
Proof.
  rewrite cna_counts_fold.
  apply (nodup_keys_fold (fun a : string => a)). constructor.
Qed.

Lemma cna_counts_items w a k :
  In (a, k) (cna_counts data w) ->
  a <> "" /\ 1 <= k /\ k = assigned data w a.
Proof.
  intros I.
  pose proof (dict_In_get _ _ _ (star_cna_counts_NoDup w) I) as G.
  assert (Ia : In a (authorities_of data
                       (dict_get_default w [] (Compact.cwe_to_cves data)))).
  { assert (Ik : In a (dict_keys (cna_counts data w))).
    { unfold dict_keys. apply in_map_iff. exists (a, k). auto. }
    rewrite cna_counts_fold in Ik.
    apply (fold_incr_keys (fun a : string => a)) in Ik.
    destruct Ik as [[]|[x [Ix ->]]]. exact Ix. }
  pose proof (authorities_nonempty _ _ Ia) as Na.
  assert (V : dict_get_default a 0 (cna_counts data w) = k).
  { unfold dict_get_default. now rewrite G. }
  rewrite cna_counts_fold in V.
  rewrite (fold_incr_get (fun a : string => a)) in V.
  cbn [keqb Hashable_string] in V.
  replace (dict_get_default a 0 []) with 0 in V by reflexivity.
  split; [exact Na|]. split.
  - assert (X : In a (filter (fun x => String.eqb x a)
                        (authorities_of data
                           (dict_get_default w []
                              (Compact.cwe_to_cves data))))).
    { apply filter_In. split; [exact Ia|apply String.eqb_refl]. }
    apply in_split in X. destruct X as [l1 [l2 X]]. rewrite X in V.
    rewrite length_app in V. cbn [List.length] in V. lia.
  - rewrite (authorities_count a _ Na) in V. unfold assigned. lia.
Qed.

Lemma spokes_In w a k : In (a, k) (spokes data w) -> In (a, k) (cna_counts data w).
Proof.
  unfold spokes, sorted_by_count_desc. intros I. apply slice_to_In in I.
  now apply sorted_In in I.
Qed.

Lemma slice_to_NoDup {A} (n : Z) (l : list A) : NoDup l -> NoDup (slice_to n l).
Proof.
  intros N. unfold slice_to.
  destruct (n <? 0);
    match goal with
    | |- NoDup (firstn ?k l) =>
        rewrite <- (firstn_skipn k l) in N;
        apply NoDup_app_remove_r in N; exact N
    end.
Qed.

Lemma slice_to_map {A B} (f : A -> B) (n : Z) (l : list A) :
  map f (slice_to n l) = slice_to n (map f l).
Proof.
  unfold slice_to. rewrite length_map.
  destruct (n <? 0); symmetry; apply firstn_map.
Qed.

Lemma top_keys_NoDup (d : dict string Z) n :
  NoDup (dict_keys d) ->
  NoDup (map fst (slice_to n (sorted_by_count_desc d))).
Proof.
  intros N. rewrite slice_to_map. apply slice_to_NoDup.
  apply (Permutation_NoDup (l := map fst d)); [|exact N].
  apply Permutation_map. symmetry. apply sorted_perm.
Qed.

Lemma cwe_counts_NoDup : NoDup (dict_keys (Circular.cwe_counts data)).
Proof.
  unfold Circular.cwe_counts.
  apply (fold_left_invariant (fun d : dict string Z => NoDup (dict_keys d)));
    [|constructor].
  intros d kv _ N. now apply dict_keys_set_NoDup.
Qed.

(** ** The links, one after the other *)

Lemma add_star_edges G kv :
  edges (add_star data G kv)
  = fold_left link_edge
      (map (fun cc => (fst kv, cc)) (spokes data (fst kv))) (edges G).
Proof.
  unfold add_star.
  set (G1 := add_node (fst kv) _ G).
  change (edges G) with (edges G1). generalize G1. clear G1.
  induction (spokes data (fst kv)) as [|cc r IH]; intros G1; [reflexivity|].
  cbn [fold_left map]. rewrite IH. reflexivity.
Qed.

Lemma star_graph_edges top G :
  edges (fold_left (add_star data) top G)
  = fold_left link_edge (star_links data top) (edges G).
Proof.
  revert G. induction top as [|kv r IH]; intros G; [reflexivity|].
  cbn [fold_left star_links flat_map]. rewrite fold_left_app, IH.
  now rewrite add_star_edges.
Qed.

Lemma edge_attr_of_edges a b key G G' :
  edges G = edges G' -> edge_attr a b key G = edge_attr a b key G'.
Proof. unfold edge_attr, edge_data. now intros ->. Qed.

Lemma edge_attr_link a b es t :
  edge_attr a b "weight" {| nodes := []; edges := link_edge es t |}
  = if joins a b {| src := fst t; dst := node_id (fst t) (fst (snd t));
                    Nx.data := [] |}
    then Some (AInt (snd (snd t)))
    else edge_attr a b "weight" {| nodes := []; edges := es |}.
Proof.
  exact (edge_attr_add_edge a b (fst t) (node_id (fst t) (fst (snd t)))
           (snd (snd t)) {| nodes := []; edges := es |}).
Qed.

Lemma links_skip a b l es :
  Forall (fun t => joins a b {| src := fst t;
                                dst := node_id (fst t) (fst (snd t));
                                Nx.data := [] |} = false) l ->
  edge_attr a b "weight" {| nodes := []; edges := fold_left link_edge l es |}
  = edge_attr a b "weight" {| nodes := []; edges := es |}.
Proof.
  revert es. induction l as [|t r IH]; intros es F; [reflexivity|].
  inversion F as [|? ? Ft Fr]; subst. cbn [fold_left]. rewrite (IH _ Fr).
  rewrite edge_attr_link. now rewrite Ft.
Qed.

Lemma links_weight l es t :
  In t l ->
  NoDup (map (fun t : string * (string * Z) => (fst t, fst (snd t))) l) ->
  edge_attr (fst t) (node_id (fst t) (fst (snd t))) "weight"
    {| nodes := []; edges := fold_left link_edge l es |}
  = Some (AInt (snd (snd t))).
Proof.
  intros I N. apply in_split in I. destruct I as [pre [post ->]].
  rewrite fold_left_app. cbn [fold_left].
  rewrite links_skip.
  - rewrite edge_attr_link.
    assert (J : joins (fst t) (node_id (fst t) (fst (snd t)))
                  {| src := fst t; dst := node_id (fst t) (fst (snd t));
                     Nx.data := [] |} = true).
    { apply joins_endpoints. cbn [src dst]. auto. }
    now rewrite J.
  - apply Forall_forall. intros t' I'.
    destruct (joins _ _ _) eqn:J; [|reflexivity]. exfalso.
    apply star_links_distinct in J. destruct J as [E1 E2].
    rewrite map_app in N. cbn [map] in N.
    apply NoDup_remove_2 in N. apply N. apply in_or_app. right.
    apply in_map_iff. exists t'. split; [|exact I'].
    now rewrite <- E1, <- E2.
Qed.

Lemma star_links_NoDup top :
  NoDup (map fst top) ->
  NoDup (map (fun t : string * (string * Z) => (fst t, fst (snd t)))
           (star_links data top)).
Proof.
  induction top as [|kv r IH]; intros N; [constructor|].
  cbn [map] in N. inversion N as [|? ? Nk Nr]; subst.
  cbn [star_links flat_map]. rewrite map_app. apply NoDup_app.
  - rewrite map_map. cbn [fst snd].
    assert (S : NoDup (map fst (spokes data (fst kv)))).
    { unfold spokes. apply top_keys_NoDup. apply star_cna_counts_NoDup. }
    revert S. generalize (spokes data (fst kv)).
    induction l as [|cc l IHl]; intros S; [constructor|].
    cbn [map] in *. inversion S as [|? ? Sc Sl]; subst. constructor; auto.
    intros I. apply in_map_iff in I. destruct I as [cc' [E I]].
    inversion E as [E']. apply Sc. rewrite <- E'. now apply in_map.
  - now apply IH.
  - intros [w a] I1 I2. apply in_map_iff in I1. apply in_map_iff in I2.
    destruct I1 as [t1 [E1 I1]]. destruct I2 as [t2 [E2 I2]].
    apply in_map_iff in I1. destruct I1 as [cc [<- _]].
    cbn [fst snd] in E1. inversion E1; subst w a.
    unfold star_links in I2. apply in_flat_map in I2.
    destruct I2 as [kv' [Ik I2]]. apply in_map_iff in I2.
    destruct I2 as [cc' [<- _]]. cbn [fst snd] in E2. inversion E2 as [[E3 E4]].
    apply Nk. rewrite <- E3. now apply in_map.
Qed.

Lemma star_links_In top t :
  In t (star_links data top)
  <-> In (fst t) (map fst top) /\ In (snd t) (spokes data (fst t)).
Proof.
  unfold star_links. rewrite in_flat_map. split.
  - intros [kv [Ik I]]. apply in_map_iff in I. destruct I as [cc [<- Ic]].
    cbn [fst snd]. split; [now apply in_map|exact Ic].
  - intros [Iw Is]. apply in_map_iff in Iw. destruct Iw as [kv [E Ik]].
    exists kv. split; [exact Ik|]. apply in_map_iff. exists (snd t).
    rewrite E. split; [now destruct t|exact Is].
Qed.

Lemma spokes_nodes c (l : list (string * Z)) G n :
  has_node c G = true ->
  has_node n
    (fold_left
       (fun G cc =>
          add_edge c (node_id c (fst cc)) [("weight", AInt (snd cc))]
            (add_node (node_id c (fst cc))
               [("type", AStr "cna"); ("label", AStr (fst cc));
                ("role", AStr "spoke"); ("parent", AStr c)] G)) l G) = true
  <-> has_node n G = true
      \/ exists a, In a (map fst l) /\ n = node_id c a.
Proof.
  revert G. induction l as [|cc r IH]; intros G Hc.
  - cbn [fold_left map]. split; [auto|]. intros [X|[a [[] _]]]. exact X.
  - cbn [fold_left map]. rewrite IH.
    + rewrite has_node_add_edge, has_node_add_node.
      rewrite !orb_true_iff, !String.eqb_eq. split.
      * intros [[X|[X|[X|X]]]|[a [I E]]]; eauto.
        -- right. exists (fst cc). split; [now left|auto].
        -- left. now rewrite <- X.
        -- right. exists (fst cc). split; [now left|auto].
        -- right. exists a. split; [now right|exact E].
      * intros [X|[a [[<-|I] E]]]; eauto.
    + rewrite has_node_add_edge, String.eqb_refl. apply orb_true_r.
Qed.

Lemma add_star_nodes G kv n :
  has_node n (add_star data G kv) = true
  <-> has_node n G = true \/ n = fst kv
      \/ exists a, In a (map fst (spokes data (fst kv)))
                   /\ n = node_id (fst kv) a.
Proof.
  unfold add_star. rewrite spokes_nodes.
  - rewrite has_node_add_node, orb_true_iff, String.eqb_eq.
    split; [intros [[X|X]|X]|intros [X|[X|X]]]; auto.
  - rewrite has_node_add_node, String.eqb_refl. reflexivity.
Qed.

Lemma star_graph_nodes top G n :
  has_node n (fold_left (add_star data) top G) = true
  <-> has_node n G = true \/ In n (map fst top)
      \/ exists w a, In w (map fst top)
                     /\ In a (map fst (spokes data w))
                     /\ n = node_id w a.
Proof.
  revert G. induction top as [|kv r IH]; intros G.
  - cbn [fold_left map]. split; [auto|].
    intros [X|[[]|[w [a [[] _]]]]]. exact X.
  - cbn [fold_left map]. rewrite IH, add_star_nodes. split.
    + intros [[X|[X|[a [I E]]]]|[X|[w [a [I [Ia E]]]]]].
      * now left.
      * right. left. left. now symmetry.
      * right. right. exists (fst kv), a. split; [now left|auto].
      * right. left. now right.
      * right. right. exists w, a. split; [now right|auto].
    + intros [X|[[X|X]|[w [a [[X|I] [Ia E]]]]]].
      * left. now left.
      * left. right. left. now symmetry.
      * right. left. exact X.
      * subst w. left. right. right. eauto.
      * right. right. eauto.
Qed.

End StarFacts.

(** X28.  The star graphs keep every spoke apart.  The nodes are the top
    weaknesses and, for each of them, one node for each of its spokes.  The
    link between a top weakness and the node of one of its spokes carries
    the count of that spoke, whatever else the graph holds: the links of two
    spokes never fall together, even where the names of their nodes do.  A
    weakness has at most 20 spokes; the authority of a spoke is not empty,
    and its count is the number of the CVEs of the weakness that the
    authority assigned, at least one. *)
Theorem star_graphs_keep_spokes_apart :
  forall (data : Compact.compact_data) (top_n : Z),
    let G := Stars.build_cwe_star_graphs data top_n in
    let top_cwe_ids := map fst (Circular.top_cwes data top_n) in
    (forall n,
       has_node n G = true
       <-> In n top_cwe_ids
           \/ exists w a,
                In w top_cwe_ids
                /\ In a (map fst (Stars.spokes data w))
                /\ n = Stars.node_id w a)
    /\ (forall w a k,
          In w top_cwe_ids -> In (a, k) (Stars.spokes data w) ->
          edge_attr w (Stars.node_id w a) "weight" G = Some (AInt k))
    /\ (forall w a k,
          In (a, k) (Stars.spokes data w) ->
          a <> "" /\ 1 <= k /\ k = assigned data w a)
    /\ (forall w, (List.length (Stars.spokes data w) <= 20)%nat).
Proof.
  intros data top_n G ids. subst G. unfold Stars.build_cwe_star_graphs.
  split; [|split; [|split]].
  - intros n. rewrite star_graph_nodes. fold ids. split.
    + intros [X|X]; [discriminate|exact X].
    + auto.
  - intros w a k Iw Is.
    rewrite (edge_attr_of_edges _ _ "weight" _
               {| nodes := [];
                  edges := fold_left link_edge
                             (star_links data (Circular.top_cwes data top_n))
                             [] |}
               (star_graph_edges data _ empty)).
    apply (links_weight _ [] (w, (a, k))).
    + apply star_links_In. cbn [fst snd]. auto.
    + apply star_links_NoDup. unfold Circular.top_cwes.
      apply top_keys_NoDup. apply cwe_counts_NoDup.
  - intros w a k I. apply cna_counts_items. now apply spokes_In.
  - intros w. unfold Stars.spokes.
    pose proof (slice_to_length 20
                  (sorted_by_count_desc (Stars.cna_counts data w))) as L.
    cbn [Z.ltb Z.compare] in L. lia.
Qed.

(* ================================================================== *)
(** * The temporal trends *)
(* ================================================================== *)

Section CalendarOrder.
Import Trends.

Lemma decimal_four y :
  1000 <= y <= 9999 ->
  str y
  = String (digit_char (y / 10 / 10 / 10 mod 10))
      (String (digit_char (y / 10 / 10 mod 10))
         (String (digit_char (y / 10 mod 10))
            (String (digit_char (y mod 10)) ""))).
Proof.
  intros R. unfold str.
  assert (E0 : (y <? 0) = false) by (apply Z.ltb_ge; lia). rewrite E0.
  assert (F : exists k, S (Z.to_nat y) = S (S (S (S k)))).
  { exists (Z.to_nat y - 3)%nat. lia. }
  destruct F as [k ->]. cbn [decimal].
  assert (E1 : (y <? 10) = false) by (apply Z.ltb_ge; lia). rewrite E1.
  assert (E2 : (y / 10 <? 10) = false).
  { apply Z.ltb_ge. apply Z.div_le_lower_bound; lia. }
  rewrite E2.
  assert (E3 : (y / 10 / 10 <? 10) = false).
  { apply Z.ltb_ge. apply Z.div_le_lower_bound; [lia|].
    apply Z.div_le_lower_bound; lia. }
  rewrite E3.
  assert (E4 : (y / 10 / 10 / 10 <? 10) = true).
  { apply Z.ltb_lt. apply Z.div_lt_upper_bound; [lia|].
    apply Z.div_lt_upper_bound; [lia|].
    apply Z.div_lt_upper_bound; lia. }
  rewrite E4. reflexivity.
Qed.

Lemma format_month m :
  1 <= m <= 12 ->
  format_02d m = String (digit_char (m / 10)) (String (digit_char (m mod 10)) "").
Proof.
  intros R.
  assert (C : m = 1 \/ m = 2 \/ m = 3 \/ m = 4 \/ m = 5 \/ m = 6 \/ m = 7
              \/ m = 8 \/ m = 9 \/ m = 10 \/ m = 11 \/ m = 12) by lia.
  repeat (destruct C as [->|C]; [reflexivity|]). subst m. reflexivity.
Qed.

Lemma digit_compare d d' :
  0 <= d <= 9 -> 0 <= d' <= 9 ->
  Ascii.compare (digit_char d) (digit_char d') = (d ?= d').
Proof.
  intros R R'.
  assert (C : d = 0 \/ d = 1 \/ d = 2 \/ d = 3 \/ d = 4 \/ d = 5 \/ d = 6
              \/ d = 7 \/ d = 8 \/ d = 9) by lia.
  assert (C' : d' = 0 \/ d' = 1 \/ d' = 2 \/ d' = 3 \/ d' = 4 \/ d' = 5
               \/ d' = 6 \/ d' = 7 \/ d' = 8 \/ d' = 9) by lia.
  repeat (destruct C as [->|C]);
    repeat (destruct C' as [->|C']); subst; reflexivity.
Qed.

(** The digits of a year and of a month. *)
Lemma year_digits y :
  1000 <= y <= 9999 ->
  exists a b c d,
    0 <= a <= 9 /\ 0 <= b <= 9 /\ 0 <= c <= 9 /\ 0 <= d <= 9
    /\ y = 1000 * a + 100 * b + 10 * c + d
    /\ str y = String (digit_char a)
                 (String (digit_char b)
                    (String (digit_char c) (String (digit_char d) ""))).
Proof.
  intros R.
  exists (y / 10 / 10 / 10 mod 10), (y / 10 / 10 mod 10), (y / 10 mod 10),
    (y mod 10).
  rewrite (decimal_four y R).
  pose proof (Z.mod_pos_bound (y / 10 / 10 / 10) 10 eq_refl).
  pose proof (Z.mod_pos_bound (y / 10 / 10) 10 eq_refl).
  pose proof (Z.mod_pos_bound (y / 10) 10 eq_refl).
  pose proof (Z.mod_pos_bound y 10 eq_refl).
  repeat split; try lia.
  pose proof (Z.div_mod y 10 ltac:(lia)).
  pose proof (Z.div_mod (y / 10) 10 ltac:(lia)).
  pose proof (Z.div_mod (y / 10 / 10) 10 ltac:(lia)).
  assert (y / 10 / 10 / 10 < 10).
  { apply Z.div_lt_upper_bound; [lia|].
    apply Z.div_lt_upper_bound; [lia|].
    apply Z.div_lt_upper_bound; lia. }
  assert (0 <= y / 10 / 10 / 10).
  { repeat apply Z.div_pos; lia. }
  rewrite (Z.mod_small (y / 10 / 10 / 10) 10) by lia. lia.
Qed.

Lemma month_digits m :
  1 <= m <= 12 ->
  exists a b,
    0 <= a <= 9 /\ 0 <= b <= 9 /\ m = 10 * a + b
    /\ format_02d m = String (digit_char a) (String (digit_char b) "").
Proof.
  intros R. exists (m / 10), (m mod 10). rewrite (format_month m R).
  pose proof (Z.mod_pos_bound m 10 eq_refl).
  pose proof (Z.div_mod m 10 ltac:(lia)).
  assert (0 <= m / 10) by (apply Z.div_pos; lia).
  assert (m / 10 < 10) by (apply Z.div_lt_upper_bound; lia).
  repeat split; lia.
Qed.

Ltac digit_case x y :=
  destruct (Z.compare_spec x y);
  cbv beta iota;
  [subst
  |split; [intros _; lia|reflexivity]
  |split; [discriminate|intros; lia]].

(** With four digits for the year and two for the month, the order of the
    keys is the order of the calendar. *)
Lemma year_month_order i j :
  dated_item i -> dated_item j ->
  (String.leb (year_month i) (year_month j) = true
   <-> months_since_0 i <= months_since_0 j).
Proof.
  intros [Yi Mi] [Yj Mj]. unfold year_month, months_since_0.
  destruct (year_digits _ Yi) as [a [b [c [d [Ra [Rb [Rc [Rd [Ey Sy]]]]]]]]].
  destruct (year_digits _ Yj) as [a' [b' [c' [d' [Ra' [Rb' [Rc' [Rd' [Ey' Sy']]]]]]]]].
  destruct (month_digits _ Mi) as [e [f [Re [Rf [Em Sm]]]]].
  destruct (month_digits _ Mj) as [e' [f' [Re' [Rf' [Em' Sm']]]]].
  rewrite Sy, Sy', Sm, Sm'. unfold String.leb.
  cbn [String.append String.compare].
  rewrite !digit_compare by assumption.
  replace (Ascii.compare "-" "-") with Eq by reflexivity.
  digit_case a a'. digit_case b b'. digit_case c c'. digit_case d d'.
  digit_case e e'. digit_case f f'. split; [intros _; lia|reflexivity].
Qed.

End CalendarOrder.

Section TrendFacts.
Import Trends.

Lemma trends_monthly_counts l c :
  monthly_counts (fold_left count_item l c)
  = fold_left (fun acc i => dict_incr (year_month i) acc) l (monthly_counts c).
Proof.
  revert c. induction l as [|i r IH]; intros c; [reflexivity|].
  cbn [fold_left]. now rewrite IH.
Qed.

Lemma trends_by_cna l c a m :
  dict_get_default m 0
    (dict_get_default a [] (monthly_by_cna (fold_left count_item l c)))
  = dict_get_default m 0 (dict_get_default a [] (monthly_by_cna c))
    + Z.of_nat
        (List.length
           (filter (fun i => String.eqb (cna i) a
                             && String.eqb (year_month i) m) l)).
Proof.
  revert c. induction l as [|i r IH]; intros c.
  - cbn. lia.
  - cbn [fold_left filter]. rewrite IH. cbn [count_item monthly_by_cna].
    rewrite counter_incr_get.
    destruct (String.eqb (cna i) a) eqn:Ea; cbn [andb]; [|lia].
    apply String.eqb_eq in Ea. subst a. rewrite dict_incr_get.
    cbn [keqb Hashable_string].
    destruct (String.eqb (year_month i) m); cbn [List.length]; lia.
Qed.

(** ** Dictionary comprehensions *)

Lemma dict_set_absent {V} (k : string) (v : V) (d : dict string V) :
  ~ In k (dict_keys d) -> dict_set k v d = d ++ [(k, v)].
Proof.
  induction d as [|[k' v'] r IH]; intros N; [reflexivity|].
  cbn [dict_set app]. destruct (keqb k k') eqn:E.
  - apply keqb_spec in E. subst k'. exfalso. apply N. now left.
  - rewrite IH; [reflexivity|]. intros I. apply N. now right.
Qed.

Lemma by_month_from value (l : list string) (acc : dict string Z) :
  NoDup (dict_keys acc ++ l) ->
  fold_left (fun acc m => dict_set m (value m) acc) l acc
  = acc ++ map (fun m => (m, value m)) l.
Proof.
  revert acc. induction l as [|m r IH]; intros acc N.
  - cbn. now rewrite app_nil_r.
  - cbn [fold_left map]. rewrite dict_set_absent.
    + rewrite IH.
      * now rewrite <- app_assoc.
      * unfold dict_keys in *. rewrite map_app. cbn [map fst].
        rewrite <- app_assoc. exact N.
    + intros I. apply NoDup_remove_2 in N. apply N.
      apply in_or_app. now left.
Qed.

Lemma by_month_map value (l : list string) :
  NoDup l -> by_month value l = map (fun m => (m, value m)) l.
Proof. intros N. unfold by_month. now rewrite by_month_from. Qed.

Lemma by_month_keys value (l : list string) :
  NoDup l -> dict_keys (by_month value l) = l.
Proof.
  intros N. rewrite (by_month_map value l N). unfold dict_keys.
  rewrite map_map. cbn [fst]. apply map_id.
Qed.

(** Each element is counted under one key of a duplicate-free list that
    holds its key. *)
Lemma sum_by_key {B} (key : B -> string) (p : B -> bool) (l : list B)
    (ms : list string) :
  NoDup ms -> (forall x, In x l -> In (key x) ms) ->
  fold_right Z.add 0
    (map (fun m =>
            Z.of_nat (List.length
                        (filter (fun x => p x && String.eqb (key x) m) l)))
       ms)
  = Z.of_nat (List.length (filter p l)).
Proof.
  intros N. induction l as [|x r IH]; intros C.
  - cbn [filter List.length]. clear. induction ms as [|m ms IHm];
      [reflexivity|]. cbn [map fold_right]. now rewrite IHm.
  - assert (IH' := IH (fun y I => C y (or_intror I))). clear IH.
    assert (Step : forall ms', NoDup ms' ->
              fold_right Z.add 0
                (map (fun m =>
                        Z.of_nat
                          (List.length
                             (filter (fun x => p x && String.eqb (key x) m)
                                (x :: r)))) ms')
              = fold_right Z.add 0
                  (map (fun m =>
                          Z.of_nat
                            (List.length
                               (filter (fun x => p x && String.eqb (key x) m)
                                  r))) ms')
                + (if p x && existsb (String.eqb (key x)) ms' then 1 else 0)).
    { induction ms' as [|m ms' IHm]; intros N'.
      - cbn. rewrite andb_false_r. lia.
      - inversion N' as [|? ? Nm N'']; subst.
        cbn [map fold_right existsb]. rewrite (IHm N''). cbn [filter].
        destruct (p x); cbn [andb]; [|lia].
        destruct (String.eqb (key x) m) eqn:E; cbn [orb List.length].
        + apply String.eqb_eq in E.
          assert (X : existsb (String.eqb (key x)) ms' = false).
          { destruct (existsb _ ms') eqn:Ex; [|reflexivity]. exfalso.
            apply existsb_exists in Ex. destruct Ex as [y [Iy Ey]].
            apply String.eqb_eq in Ey. apply Nm. congruence. }
          rewrite X. lia.
        + lia. }
    rewrite (Step ms N), IH'. cbn [filter].
    assert (X : existsb (String.eqb (key x)) ms = true).
    { apply existsb_exists. exists (key x). split.
      - apply C. now left.
      - apply String.eqb_refl. }
    rewrite X, andb_true_r. destruct (p x); cbn [List.length]; lia.
Qed.

Lemma total_weight_by_month value (l : list string) :
  NoDup l ->
  total_weight (by_month value l) = fold_right Z.add 0 (map value l).
Proof.
  intros N. rewrite (by_month_map value l N). unfold total_weight.
  rewrite map_map. reflexivity.
Qed.

Lemma fold_dict_set_get {V} (f : string -> V) (l : list string) k
    (acc : dict string V) :
  In k l ->
  dict_get k (fold_left (fun acc x => dict_set x (f x) acc) l acc)
  = Some (f k).
Proof.
  intros I. apply in_split in I. destruct I as [pre [post ->]].
  rewrite fold_left_app. cbn [fold_left].
  generalize (fold_left (fun acc x => dict_set x (f x) acc) pre acc).
  intros d.
  assert (G : dict_get k (dict_set k (f k) d) = Some (f k))
    by apply dict_get_set_same.
  revert G. generalize (dict_set k (f k) d). clear d.
  induction post as [|x r IH]; intros d G; [exact G|].
  cbn [fold_left]. apply IH. rewrite dict_get_set.
  destruct (keqb x k) eqn:E; [|exact G].
  apply keqb_spec in E. now subst.
Qed.

Lemma strictly_sorted_strings (l : list string) :
  StronglySorted (fun a b => String.leb a b = true) l -> NoDup l ->
  StronglySorted (fun a b => String.ltb a b = true) l.
Proof.
  induction 1 as [|a r S IH F]; intros N; constructor.
  - apply IH. now inversion N.
  - inversion N as [|? ? Na _]; subst. rewrite Forall_forall in *.
    intros b Ib. destruct (proj1 (leb_ltb _ _) (F b Ib)) as [L|E]; auto.
    exfalso. apply Na. now rewrite E.
Qed.

Lemma leb_refl s : String.leb s s = true.
Proof. apply leb_ltb. now right. Qed.

Lemma last_default {A} (l : list A) d d' : l <> [] -> last l d = last l d'.
Proof.
  induction l as [|x [|y r] IH]; intros N; [congruence|reflexivity|].
  cbn [last] in *. apply IH. discriminate.
Qed.

Lemma last_In {A} (a : A) (r : list A) : In (last (a :: r) a) (a :: r).
Proof.
  revert a. induction r as [|b r IH]; intros a; [now left|].
  right. change (last (a :: b :: r) a) with (last (b :: r) a).
  rewrite (last_default (b :: r) a b) by discriminate. apply IH.
Qed.

Lemma sorted_ends (a : string) (r : list string) :
  StronglySorted (fun a b => String.leb a b = true) (a :: r) ->
  forall x, In x (a :: r) ->
    String.leb a x = true /\ String.leb x (last (a :: r) a) = true.
Proof.
  revert a. induction r as [|b r IH]; intros a S x I.
  - destruct I as [<-|[]]. cbn [last]. split; apply leb_refl.
  - inversion S as [|? ? S' F]; subst. rewrite Forall_forall in F.
    change (last (a :: b :: r) a) with (last (b :: r) a).
    rewrite (last_default (b :: r) a b) by discriminate.
    destruct I as [<-|I].
    + split; [apply leb_refl|]. apply F. apply last_In.
    + destruct (IH b S' x I) as [L1 L2]. split; [now apply F|exact L2].
Qed.

End TrendFacts.

Lemma filter_all {A} (l : list A) : filter (fun _ => true) l = l.
Proof. induction l as [|x r IH]; [reflexivity|]. cbn. now rewrite IH. Qed.

(** X29.  The temporal trends follow the calendar.  The monthly totals of
    [build_temporal_trends] add up to [total_cves], the number of entries;
    their months are the months of the entries, in strictly increasing
    order of their keys.  At most 10 authorities are listed, each with a
    timeline over the same months that adds up to the number of its
    entries.  Without entries the date range is "N/A".  When every year
    has four digits and every month is one of the twelve, the date range
    runs from the month of an entry that no entry precedes to the month of
    an entry that no entry follows: the order of the keys is then the
    order of the calendar. *)
Theorem temporal_trends_follow_the_calendar :
  forall temporal_data : list Trends.item,
    let out := Trends.build_temporal_trends temporal_data in
    Trends.total_cves out = Z.of_nat (List.length temporal_data)
    /\ total_weight (Trends.monthly_totals out) = Trends.total_cves out
    /\ StronglySorted (fun a b => String.ltb a b = true)
         (dict_keys (Trends.monthly_totals out))
    /\ (forall m,
          In m (dict_keys (Trends.monthly_totals out))
          <-> exists i, In i temporal_data /\ Trends.year_month i = m)
    /\ (List.length (Trends.top_cnas out) <= 10)%nat
    /\ (forall c,
          In c (Trends.top_cnas out) ->
          exists t,
            dict_get c (Trends.cna_timelines out) = Some t
            /\ dict_keys t = dict_keys (Trends.monthly_totals out)
            /\ total_weight t
               = Z.of_nat
                   (List.length
                      (filter (fun i => String.eqb (Trends.cna i) c)
                         temporal_data)))
    /\ (temporal_data = [] -> Trends.date_range out = "N/A")
    /\ (Forall dated_item temporal_data -> temporal_data <> [] ->
        exists first_ last_,
          In first_ temporal_data /\ In last_ temporal_data
          /\ Trends.date_range out
             = (Trends.year_month first_ ++ " to "
                ++ Trends.year_month last_)%string
          /\ forall i,
               In i temporal_data ->
               months_since_0 first_ <= months_since_0 i
               <= months_since_0 last_).
Proof.
  intros temporal_data out. subst out.
  unfold Trends.build_temporal_trends.
  cbn [Trends.total_cves Trends.monthly_totals Trends.top_cnas
       Trends.cna_timelines Trends.date_range].
  set (c := fold_left Trends.count_item temporal_data Trends.no_counters).
  pose proof (trends_monthly_counts temporal_data Trends.no_counters) as MC.
  fold c in MC. cbn [Trends.monthly_counts Trends.no_counters] in MC.
  set (sm := sorted_strings (dict_keys (Trends.monthly_counts c))).
  assert (Nk : NoDup (dict_keys (Trends.monthly_counts c))).
  { rewrite MC. apply (nodup_keys_fold Trends.year_month). constructor. }
  assert (Kin : forall m,
             In m sm <-> exists i, In i temporal_data
                                   /\ Trends.year_month i = m).
  { intros m. unfold sm, sorted_strings. rewrite sorted_In, MC.
    rewrite (fold_incr_keys Trends.year_month). split.
    - intros [[]|[i [I ->]]]. eauto.
    - intros [i [I <-]]. right. eauto. }
  assert (Nsm : NoDup sm) by (apply sorted_NoDup; exact Nk).
  assert (Ssm : StronglySorted (fun a b => String.leb a b = true) sm)
    by apply sorted_strings_sorted.
  assert (Cover : forall i, In i temporal_data ->
                    In (Trends.year_month i) sm).
  { intros i I. apply Kin. eauto. }
  split; [reflexivity|]. split.
  { rewrite (total_weight_by_month _ sm Nsm).
    rewrite (map_ext _
               (fun m =>
                  Z.of_nat
                    (List.length
                       (filter (fun i => (fun _ => true) i
                                         && String.eqb (Trends.year_month i) m)
                          temporal_data)))).
    - rewrite (sum_by_key Trends.year_month (fun _ => true) temporal_data sm
                 Nsm Cover).
      now rewrite filter_all.
    - intros m. rewrite MC, (fold_incr_get Trends.year_month).
      cbn [keqb Hashable_string andb].
      replace (dict_get_default m 0 []) with 0 by reflexivity. lia. }
  split.
  { rewrite (by_month_keys _ sm Nsm).
    now apply strictly_sorted_strings. }
  split.
  { intros m. rewrite (by_month_keys _ sm Nsm). apply Kin. }
  split.
  { rewrite length_map.
    pose proof (slice_to_length 10
                  (sorted_by_count_desc
                     (Trends.cna_totals temporal_data))) as L.
    cbn [Z.ltb Z.compare] in L. lia. }
  split.
  { intros a Ia.
    exists (Trends.by_month
              (fun m =>
                 dict_get_default m 0
                   (dict_get_default a [] (Trends.monthly_by_cna c))) sm).
    split; [|split].
    - apply (fold_dict_set_get
               (fun cna_ =>
                  Trends.by_month
                    (fun m =>
                       dict_get_default m 0
                         (dict_get_default cna_ []
                            (Trends.monthly_by_cna c))) sm)).
      exact Ia.
    - now rewrite !(by_month_keys _ sm Nsm).
    - rewrite (total_weight_by_month _ sm Nsm).
      rewrite (map_ext _
                 (fun m =>
                    Z.of_nat
                      (List.length
                         (filter
                            (fun i => String.eqb (Trends.cna i) a
                                      && String.eqb (Trends.year_month i) m)
                            temporal_data)))).
      + apply (sum_by_key Trends.year_month
                 (fun i => String.eqb (Trends.cna i) a) temporal_data sm
                 Nsm Cover).
      + intros m. unfold c. rewrite trends_by_cna. cbn. reflexivity. }
  split.
  { intros E. unfold sm, c. rewrite E. reflexivity. }
  intros D Ne.
  destruct temporal_data as [|i0 rest] eqn:Ed; [congruence|]. rewrite <- Ed in *.
  assert (I0 : In i0 temporal_data) by (rewrite Ed; now left).
  pose proof (Cover i0 I0) as C0.
  destruct sm as [|a r] eqn:Es; [destruct C0|].
  pose proof (proj1 (Kin a) (or_introl eq_refl)) as [first_ [If Ef]].
  pose proof (proj1 (Kin (last (a :: r) a)) (last_In a r)) as [last_ [Il El]].
  exists first_, last_. split; [exact If|]. split; [exact Il|]. split.
  { now rewrite Ef, El. }
  intros i I. rewrite Forall_forall in D.
  destruct (sorted_ends a r Ssm _ (Cover i I)) as [L1 L2].
  rewrite <- Ef in L1. rewrite <- El in L2.
  apply (year_month_order first_ i (D _ If) (D _ I)) in L1.
  apply (year_month_order i last_ (D _ I) (D _ Il)) in L2.
  lia.
Qed.

Lemma temporal_trends_follow_the_calendar_witness :
  exists first_ last_,
    In first_ trends_scenario /\ In last_ trends_scenario
    /\ Trends.date_range (Trends.build_temporal_trends trends_scenario)
       = (Trends.year_month first_ ++ " to "
          ++ Trends.year_month last_)%string
    /\ forall i,
         In i trends_scenario ->
         months_since_0 first_ <= months_since_0 i <= months_since_0 last_.
Proof.
  destruct (temporal_trends_follow_the_calendar trends_scenario)
    as [_ [_ [_ [_ [_ [_ [_ R]]]]]]].
  apply R.
  - repeat constructor; cbn; lia.
  - discriminate.
Defined.
